(** * Counterfactual: price lookups, split un-adjustment and the three
      calculation engines of [utils/stockApi.ts] and [utils/calculations.ts],
      the parsers of [utils/parsers] and [utils/csvParser.ts], and the
      merging of files of [utils/csvMerger.ts]

    The development embeds the TypeScript functions as Rocq functions and
    proves the properties stated for them.

    Modelling conventions.
    - A JavaScript [number] is an exact rational or one of the three special
      values [Infinity], [-Infinity], [NaN].  Finite values are computed
      exactly: binary64 rounding error and overflow are abstracted away, and
      [-0] is identified with [+0].  Division by zero, [Infinity - Infinity]
      and the comparison rules of [NaN] are kept.  What depends on the
      rounding of binary64 is stated in the module [Binary64], which
      embeds the split adjuster over the primitive binary64 numbers.
    - A string is a [string]; [<=], [<] and [>] on strings are the
      lexicographic order on code units ([String.compare]).  On the date
      strings of the data model (digits and [-]) [localeCompare] orders the
      same way, so it is embedded as [String.compare] too.
    - An array is a [list]; reading [a[i].f] outside the bounds raises a
      [TypeError].  Functions that index arrays return an [outcome].
    - A [Record<string, V>] whose entries are enumerated and a
      [Map<string, V>] are insertion-ordered association lists ([dict]);
      ticker keys are assumed to be neither integer-like nor names of
      [Object.prototype] members ([prototypeNames], [ownTickers]).
    - A text read from a file is a [string] of code units below 256;
      [trim], [toLowerCase] and [toUpperCase] are embedded on these, and
      [parseFloat] reads the decimal literal exactly.
    - A parser that can throw returns a [parsed]: the value, the [Error]
      with its message, or the [TypeError] of a method call on
      [undefined]; a value that may be [undefined] is an [option].
    - A [Set] of strings is a list, read by membership only.
    - [console.log] calls and the calls of the performance logger are
      omitted. *)

From Stdlib Require Import List String Ascii Bool ZArith QArith Qcanon Qround.
From Stdlib Require Import Lia Lqa Permutation Sorted.
Import ListNotations.

Close Scope Qc_scope.
Close Scope Q_scope.

Set Implicit Arguments.

(* ================================================================== *)
(** * JavaScript numbers *)
(* ================================================================== *)

Inductive number : Type :=
| Fin (q : Qc)
| PosInf
| NegInf
| NaN.

Module Num.

Definition ofZ (z : Z) : number := Fin (Q2Qc (inject_Z z)).

Definition zero : number := ofZ 0.
Definition one : number := ofZ 1.
Definition hundred : number := ofZ 100.
Definition million : number := ofZ 1000000.

Definition isFinite (a : number) : bool :=
  match a with Fin _ => true | _ => false end.

(** Sign of a rational, as a [comparison] with zero. *)
Definition sign (q : Qc) : comparison := Qccompare q (Q2Qc 0%Q).

Definition neg (a : number) : number :=
  match a with
  | Fin q => Fin (Qcopp q)
  | PosInf => NegInf
  | NegInf => PosInf
  | NaN => NaN
  end.

Definition add (a b : number) : number :=
  match a, b with
  | NaN, _ | _, NaN => NaN
  | Fin x, Fin y => Fin (Qcplus x y)
  | PosInf, NegInf | NegInf, PosInf => NaN
  | PosInf, _ | _, PosInf => PosInf
  | NegInf, _ | _, NegInf => NegInf
  end.

Definition sub (a b : number) : number := add a (neg b).

(** An infinity of the sign given by [c]; [Eq] stands for [0 * Infinity]. *)
Definition signedInf (c : comparison) : number :=
  match c with Gt => PosInf | Lt => NegInf | Eq => NaN end.

Definition mul (a b : number) : number :=
  match a, b with
  | NaN, _ | _, NaN => NaN
  | Fin x, Fin y => Fin (Qcmult x y)
  | Fin x, PosInf | PosInf, Fin x => signedInf (sign x)
  | Fin x, NegInf | NegInf, Fin x => signedInf (CompOpp (sign x))
  | PosInf, PosInf | NegInf, NegInf => PosInf
  | PosInf, NegInf | NegInf, PosInf => NegInf
  end.

Definition div (a b : number) : number :=
  match a, b with
  | NaN, _ | _, NaN => NaN
  | Fin x, Fin y =>
      match sign y with
      | Eq => signedInf (sign x)
      | _ => Fin (Qcdiv x y)
      end
  | Fin _, _ => zero
  | PosInf, Fin y => match sign y with Lt => NegInf | _ => PosInf end
  | NegInf, Fin y => match sign y with Lt => PosInf | _ => NegInf end
  | _, _ => NaN
  end.

(** [a < b]; every comparison with [NaN] is false. *)
Definition ltb (a b : number) : bool :=
  match a, b with
  | NaN, _ | _, NaN => false
  | Fin x, Fin y => match Qccompare x y with Lt => true | _ => false end
  | NegInf, NegInf | PosInf, _ | _, NegInf => false
  | _, _ => true
  end.

(** [a <= b]. *)
Definition leb (a b : number) : bool :=
  match a, b with
  | NaN, _ | _, NaN => false
  | Fin x, Fin y => match Qccompare x y with Gt => false | _ => true end
  | NegInf, _ | _, PosInf => true
  | _, _ => false
  end.

(** [a > b]. *)
Definition gtb (a b : number) : bool := ltb b a.

(** Truthiness of a number: [0] and [NaN] are falsy. *)
Definition truthy (a : number) : bool :=
  match a with
  | Fin q => match sign q with Eq => false | _ => true end
  | NaN => false
  | _ => true
  end.

(** [Math.max(a, b)]. *)
Definition Math_max (a b : number) : number :=
  match a, b with
  | NaN, _ | _, NaN => NaN
  | _, _ => if ltb a b then b else a
  end.

(** [Math.round(a)]: the nearest integer, halves rounded up. *)
Definition Math_round (a : number) : number :=
  match a with
  | Fin q => ofZ (Qfloor (q + (1 # 2))%Q)
  | _ => a
  end.

(** [Math.round(a * k) / k], the rounding idiom of the engines. *)
Definition roundTo (k a : number) : number :=
  div (Math_round (mul a k)) k.

(** [o ?? d] on an optional number. *)
Definition orElse (o : option number) (d : number) : number :=
  match o with Some v => v | None => d end.

(** [o || 0] on a possibly undefined number: falsy values give [0]. *)
Definition orZero (o : option number) : number :=
  match o with
  | Some v => if truthy v then v else zero
  | None => zero
  end.

(** Order on numbers as a proposition. *)
Definition le (a b : number) : Prop := leb a b = true.

End Num.

(* ================================================================== *)
(** * Outcome of a computation that indexes arrays *)
(* ================================================================== *)

Inductive outcome (A : Type) : Type :=
| Ok (a : A)
| TypeError
| OutOfFuel.

Arguments Ok {A} a.
Arguments TypeError {A}.
Arguments OutOfFuel {A}.

Definition bind {A B} (m : outcome A) (f : A -> outcome B) : outcome B :=
  match m with
  | Ok a => f a
  | TypeError => TypeError
  | OutOfFuel => OutOfFuel
  end.

Notation "x <- m ;; k" := (bind m (fun x => k))
  (at level 61, m at next level, right associativity).
Notation "' p <- m ;; k" := (bind m (fun x => let 'p := x in k))
  (at level 61, p pattern, m at next level, right associativity).

(** [a[i]] followed by a property read: out of bounds the read of a
    property of [undefined] throws. *)
Definition aget {A} (a : list A) (i : Z) : outcome A :=
  if (i <? 0)%Z then TypeError
  else match nth_error a (Z.to_nat i) with
       | Some x => Ok x
       | None => TypeError
       end.

Definition len {A} (a : list A) : Z := Z.of_nat (List.length a).

(** [for (const x of xs)] in the outcome monad, threading an accumulator. *)
Fixpoint foldM {A S} (f : S -> A -> outcome S) (xs : list A) (s : S)
  : outcome S :=
  match xs with
  | [] => Ok s
  | x :: rest => s' <- f s x ;; foldM f rest s'
  end.

(** [xs.map(f)] in the outcome monad. *)
Fixpoint mapM {A B} (f : A -> outcome B) (xs : list A) : outcome (list B) :=
  match xs with
  | [] => Ok []
  | x :: rest => y <- f x ;; ys <- mapM f rest ;; Ok (y :: ys)
  end.

(* ================================================================== *)
(** * Insertion-ordered dictionaries *)
(* ================================================================== *)

Definition dict (V : Type) : Type := list (string * V).

Fixpoint dget {V} (d : dict V) (k : string) : option V :=
  match d with
  | [] => None
  | (k', v) :: rest => if String.eqb k' k then Some v else dget rest k
  end.

(** [d[k] = v] / [map.set(k, v)]: an existing key keeps its position. *)
Fixpoint dset {V} (d : dict V) (k : string) (v : V) : dict V :=
  match d with
  | [] => [(k, v)]
  | (k', v') :: rest =>
      if String.eqb k' k then (k', v) :: rest else (k', v') :: dset rest k v
  end.

(** [d[k] || []] for an array-valued record. *)
Definition dgetOrEmpty {A} (d : dict (list A)) (k : string) : list A :=
  match dget d k with Some a => a | None => [] end.

(* ================================================================== *)
(** * Data model ([types/index.ts]) *)
(* ================================================================== *)

Inductive TradeType := buy | sell.

Inductive CashFlowType := deposit | dividend | capgain | interest.

Module Trade.
Record t := mk {
  id : string;
  ticker : string;
  date : string;
  shares : number;
  price : option number;
  type : TradeType
}.
End Trade.

Module CashFlow.
Record t := mk {
  id : string;
  date : string;
  amount : number;
  type : CashFlowType;
  ticker : option string
}.
End CashFlow.

Module StockPrice.
Record t := mk {
  date : string;
  price : number;
  high : option number
}.
End StockPrice.

Module StockSplit.
Record t := mk {
  date : string;
  ticker : string;
  splitFactor : number
}.
End StockSplit.

Module PortfolioDataPoint.
Record t := mk {
  date : string;
  portfolioValue : number;
  counterfactualValue : number;
  costBasis : number;
  portfolioReturn : number;
  counterfactualReturn : number
}.
End PortfolioDataPoint.

Module StockBreakdownData.
Record t := mk {
  ticker : string;
  shares : number;
  buyDate : string;
  buyPrice : number;
  currentPrice : number;
  currentValue : number;
  spyShares : number;
  spyCurrentValue : number;
  gain : number;
  spyGain : number;
  difference : number
}.
End StockBreakdownData.

Module SummaryData.
Record t := mk {
  totalCostBasis : number;
  totalPortfolioValue : number;
  totalCounterfactualValue : number;
  portfolioReturn : number;
  counterfactualReturn : number;
  totalDifference : number;
  percentageDifference : number;
  bestPerformer : option (string * number);
  worstPerformer : option (string * number)
}.
End SummaryData.

(* ================================================================== *)
(** * Dates *)
(* ================================================================== *)

(** [new Date(s)] for the date-only form [YYYY-MM-DD] of the data model.
    The time value is the number of milliseconds since the epoch at UTC
    midnight; [None] is the Invalid Date, whose time value is [NaN].  A
    string with an out-of-range month or day is not a date.  Strings of
    another shape are outside the data model and are read as invalid. *)
Module Date.

Local Open Scope Z_scope.

Definition isDigit (c : ascii) : bool :=
  (48 <=? N_of_ascii c)%N && (N_of_ascii c <=? 57)%N.

Definition digit (c : ascii) : Z := Z.of_N (N_of_ascii c) - 48.

Definition isHyphen (c : ascii) : bool := (N_of_ascii c =? 45)%N.

Definition isLeap (y : Z) : bool :=
  (y mod 4 =? 0)%Z && (negb (y mod 100 =? 0)%Z || (y mod 400 =? 0)%Z).

Definition daysInMonth (y m : Z) : Z :=
  if (m =? 2)%Z then (if isLeap y then 29 else 28)
  else if ((m =? 4) || (m =? 6) || (m =? 9) || (m =? 11))%Z then 30
  else 31.

(** Days of the year before the first day of month [m]. *)
Definition daysBeforeMonth (y m : Z) : Z :=
  let leap := if isLeap y then 1 else 0 in
  if (m <=? 1)%Z then 0
  else if (m =? 2)%Z then 31
  else if (m =? 3)%Z then 59 + leap
  else if (m =? 4)%Z then 90 + leap
  else if (m =? 5)%Z then 120 + leap
  else if (m =? 6)%Z then 151 + leap
  else if (m =? 7)%Z then 181 + leap
  else if (m =? 8)%Z then 212 + leap
  else if (m =? 9)%Z then 243 + leap
  else if (m =? 10)%Z then 273 + leap
  else if (m =? 11)%Z then 304 + leap
  else 334 + leap.

(** Day number of the first of January of year [y]. *)
Definition dayFromYear (y : Z) : Z :=
  365 * (y - 1970) + (y - 1969) / 4 - (y - 1901) / 100 + (y - 1601) / 400.

Definition msPerDay : Z := 86400000.

Definition validYMD (y m d : Z) : bool :=
  ((1 <=? m) && (m <=? 12) && (1 <=? d) && (d <=? daysInMonth y m))%Z.

Definition timeValue (y m d : Z) : Z :=
  msPerDay * (dayFromYear y + daysBeforeMonth y m + (d - 1)).

(** The year, month and day fields of a string of the shape
    [dddd-dd-dd]. *)
Definition fields (s : string) : option (Z * Z * Z) :=
  match list_ascii_of_string s with
  | [y1; y2; y3; y4; h1; m1; m2; h2; d1; d2] =>
      if isDigit y1 && isDigit y2 && isDigit y3 && isDigit y4
         && isHyphen h1 && isDigit m1 && isDigit m2
         && isHyphen h2 && isDigit d1 && isDigit d2
      then Some (1000 * digit y1 + 100 * digit y2 + 10 * digit y3 + digit y4,
                 10 * digit m1 + digit m2,
                 10 * digit d1 + digit d2)%Z
      else None
  | _ => None
  end.

Definition parse (s : string) : option Z :=
  match fields s with
  | Some (y, m, d) => if validYMD y m d then Some (timeValue y m d) else None
  | None => None
  end.

(** [a <= b] on two [Date] objects: a comparison of time values, false
    when either is [NaN]. *)
Definition leb (a b : option Z) : bool :=
  match a, b with
  | Some x, Some y => (x <=? y)%Z
  | _, _ => false
  end.

(** A string that denotes a calendar date in the form [YYYY-MM-DD]. *)
Definition isISO (s : string) : bool :=
  match parse s with Some _ => true | None => false end.

End Date.

(** [a.localeCompare(b)] on date strings. *)
Definition localeCompare (a b : string) : number :=
  match String.compare a b with
  | Lt => Num.ofZ (-1)
  | Eq => Num.zero
  | Gt => Num.one
  end.

(* ================================================================== *)
(** * [Array.prototype.sort] with a comparator *)
(* ================================================================== *)

(** The language fixes the result of [sort] for a consistent comparator:
    the elements in comparator order, equal ones in their input order.
    The comparators of this program compare date strings, or subtract
    two numbers.  Insertion from the right computes that result: [x],
    which precedes every element of [l] in the input, is moved behind
    [y] only when [cmp x y > 0]. *)
Fixpoint sortInsert {A} (cmp : A -> A -> number) (x : A) (l : list A)
  : list A :=
  match l with
  | [] => [x]
  | y :: rest =>
      if Num.gtb (cmp x y) Num.zero then y :: sortInsert cmp x rest
      else x :: y :: rest
  end.

Definition Array_sort {A} (cmp : A -> A -> number) (l : list A) : list A :=
  fold_right (sortInsert cmp) [] l.

(* ================================================================== *)
(** * Price lookups ([utils/stockApi.ts]) *)
(* ================================================================== *)

Definition getLatestPrice (prices : list StockPrice.t) : outcome number :=
  if (len prices >? 0)%Z then
    p <- aget prices (len prices - 1) ;; Ok (StockPrice.price p)
  else Ok Num.zero.

(** The backward scan of [findPriceOnDate]; [n] is [i + 1]. *)
Fixpoint findPriceLoop (prices : list StockPrice.t) (targetDate : option Z)
  (n : nat) : outcome (option StockPrice.t) :=
  match n with
  | O => Ok None
  | S i =>
      p <- aget prices (Z.of_nat i) ;;
      if Date.leb (Date.parse (StockPrice.date p)) targetDate
      then Ok (Some p)
      else findPriceLoop prices targetDate i
  end.

Definition findPriceOnDate (prices : list StockPrice.t) (date : string)
  : outcome (option StockPrice.t) :=
  let targetDate := Date.parse date in
  found <- findPriceLoop prices targetDate (List.length prices) ;;
  match found with
  | Some p => Ok (Some p)
  | None =>
      if (len prices >? 0)%Z then p <- aget prices 0 ;; Ok (Some p)
      else Ok None
  end.

Definition getPriceOnDate (prices : list StockPrice.t) (date : string)
  : outcome (option number) :=
  entry <- findPriceOnDate prices date ;;
  Ok (option_map StockPrice.price entry).

Definition getHighPriceOnDate (prices : list StockPrice.t) (date : string)
  : outcome (option number) :=
  entry <- findPriceOnDate prices date ;;
  Ok (option_map
        (fun e => Num.orElse (StockPrice.high e) (StockPrice.price e)) entry).

(* ================================================================== *)
(** * Price index and split adjuster ([utils/calculations.ts]) *)
(* ================================================================== *)

Definition buildPriceMap (prices : list StockPrice.t) : dict number :=
  fold_left
    (fun map p => dset map (StockPrice.date p) (StockPrice.price p))
    prices [].

(** The [while (left <= right)] loop shared by the two binary searches;
    [record] is what the loop stores from the entry at [mid].  [fuel]
    bounds the number of iterations; the callers pass the length of the
    array, which the loop never reaches. *)
Fixpoint searchLoop {R} (record : StockPrice.t -> R) (fuel : nat)
  (prices : list StockPrice.t) (targetDate : string) (left right : Z)
  (result : option R) : outcome (option R) :=
  match fuel with
  | O => if (left <=? right)%Z then OutOfFuel else Ok result
  | S fuel' =>
      if (left <=? right)%Z then
        let mid := ((left + right) / 2)%Z in
        p <- aget prices mid ;;
        if String.leb (StockPrice.date p) targetDate
        then searchLoop record fuel' prices targetDate (mid + 1)%Z right
               (Some (record p))
        else searchLoop record fuel' prices targetDate left (mid - 1)%Z result
      else Ok result
  end.

Definition getPriceOnOrBefore (prices : list StockPrice.t)
  (targetDate : string) : outcome (option number) :=
  if (len prices =? 0)%Z then Ok None
  else
    result <- searchLoop StockPrice.price (List.length prices) prices
                targetDate 0%Z (len prices - 1)%Z None ;;
    match result with
    | Some r => Ok (Some r)
    | None =>
        if (len prices >? 0)%Z
        then p <- aget prices 0 ;; Ok (Some (StockPrice.price p))
        else Ok None
    end.

Definition getSplitAdjustmentFactor (splits : list StockSplit.t)
  (priceDate : string) : number :=
  fold_left
    (fun factor split =>
       if String.ltb priceDate (StockSplit.date split)
       then Num.mul factor (StockSplit.splitFactor split)
       else factor)
    splits Num.one.

Definition bySplitDate (a b : StockSplit.t) : number :=
  localeCompare (StockSplit.date a) (StockSplit.date b).

(** The loop of [buildUnadjustedPriceMap], over the sorted splits. *)
Definition unadjustedMapFrom (prices : list StockPrice.t)
  (sortedSplits : list StockSplit.t) : dict number :=
  fold_left
    (fun map p =>
       let factor := getSplitAdjustmentFactor sortedSplits (StockPrice.date p) in
       dset map (StockPrice.date p) (Num.mul (StockPrice.price p) factor))
    prices [].

Definition buildUnadjustedPriceMap (prices : list StockPrice.t)
  (splits : list StockSplit.t) : dict number :=
  let sortedSplits := Array_sort bySplitDate splits in
  unadjustedMapFrom prices sortedSplits.

(** The search of [getUnadjustedPriceOnOrBefore] and the adjustment of
    its result, over the sorted splits. *)
Definition unadjustedSearch (prices : list StockPrice.t)
  (sortedSplits : list StockSplit.t) (targetDate : string)
  : outcome (option number) :=
  found <- searchLoop (fun p => (StockPrice.price p, StockPrice.date p))
             (List.length prices) prices targetDate 0%Z (len prices - 1)%Z
             None ;;
  found <- match found with
           | Some r => Ok (Some r)
           | None =>
               if (len prices >? 0)%Z
               then p <- aget prices 0 ;;
                    Ok (Some (StockPrice.price p, StockPrice.date p))
               else Ok None
           end ;;
  match found with
  | None => Ok None
  | Some (resultPrice, resultDate) =>
      let factor := getSplitAdjustmentFactor sortedSplits resultDate in
      Ok (Some (Num.mul resultPrice factor))
  end.

Definition getUnadjustedPriceOnOrBefore (prices : list StockPrice.t)
  (splits : list StockSplit.t) (targetDate : string)
  : outcome (option number) :=
  if (len prices =? 0)%Z then Ok None
  else
    let sortedSplits := Array_sort bySplitDate splits in
    unadjustedSearch prices sortedSplits targetDate.

(* ================================================================== *)
(** * Time-series engine: [calculatePortfolioTimeSeries] *)
(* ================================================================== *)

Definition byTradeDate (a b : Trade.t) : number :=
  localeCompare (Trade.date a) (Trade.date b).

Definition byCashFlowDate (a b : CashFlow.t) : number :=
  localeCompare (CashFlow.date a) (CashFlow.date b).

(** [trade.shares * (trade.price ?? 0)]. *)
Definition tradeAmount (trade : Trade.t) : number :=
  Num.mul (Trade.shares trade) (Num.orElse (Trade.price trade) Num.zero).

Definition isSell (trade : Trade.t) : bool :=
  match Trade.type trade with sell => true | buy => false end.

Definition isDeposit (cf : CashFlow.t) : bool :=
  match CashFlow.type cf with deposit => true | _ => false end.

(** [cashFlows.reduce((sum, cf) => sum + cf.amount, 0)]. *)
Definition sumAmounts (cashFlows : list CashFlow.t) : number :=
  fold_left (fun sum cf => Num.add sum (CashFlow.amount cf)) cashFlows Num.zero.

Definition useCashFlowBasis (cashFlows : list CashFlow.t) : bool :=
  Num.gtb (sumAmounts cashFlows) Num.zero.

Definition useDepositBasis (cashFlows : list CashFlow.t) : bool :=
  (len (filter isDeposit cashFlows) >? 0)%Z.

(** One iteration of the loop that fills [depositSpySharesByDate]; the
    state is the map and [cumulativeDepositSpyShares]. *)
Definition depositStep (spyPrices : list StockPrice.t)
  (acc : dict number * number) (dep : CashFlow.t)
  : outcome (dict number * number) :=
  let '(depositSpySharesByDate, cumulativeDepositSpyShares) := acc in
  spyPriceAtDeposit <- getPriceOnOrBefore spyPrices (CashFlow.date dep) ;;
  match spyPriceAtDeposit with
  | Some p =>
      if Num.truthy p then
        let cumulative :=
          Num.add cumulativeDepositSpyShares (Num.div (CashFlow.amount dep) p) in
        Ok (dset depositSpySharesByDate (CashFlow.date dep) cumulative,
            cumulative)
      else Ok acc
  | None => Ok acc
  end.

(** The callback of [sortedTrades.map] that builds
    [tradeSpySharesChange]. *)
Definition spySharesChangeOf (spyPrices : list StockPrice.t) (trade : Trade.t)
  : outcome number :=
  spyPriceAtTrade <- getPriceOnOrBefore spyPrices (Trade.date trade) ;;
  match spyPriceAtTrade with
  | Some p =>
      if Num.truthy p then
        let spyShares := Num.div (tradeAmount trade) p in
        Ok (if isSell trade then Num.neg spyShares else spyShares)
      else Ok Num.zero
  | None => Ok Num.zero
  end.

(** The constants computed before the day loop. *)
Record Prepared := mkPrepared {
  sortedTrades : list Trade.t;
  priceMaps : dict (dict number);
  cashFlowBasis : bool;
  sortedCashFlows : list CashFlow.t;
  sortedDeposits : list CashFlow.t;
  depositSpySharesByDate : dict number;
  depositBasis : bool;
  tradeSpySharesChange : list number
}.

Definition prepare (trades : list Trade.t)
  (stockPrices : dict (list StockPrice.t)) (spyPrices : list StockPrice.t)
  (cashFlows : list CashFlow.t) (splits : dict (list StockSplit.t))
  : outcome Prepared :=
  let sortedTrades := Array_sort byTradeDate trades in
  let priceMaps :=
    fold_left
      (fun maps entry =>
         let '(ticker, prices) := entry in
         let tickerSplits := dgetOrEmpty splits ticker in
         dset maps ticker (buildUnadjustedPriceMap prices tickerSplits))
      stockPrices [] in
  let sortedCashFlows := Array_sort byCashFlowDate cashFlows in
  let deposits := filter isDeposit cashFlows in
  let sortedDeposits := Array_sort byCashFlowDate deposits in
  '(depositSpySharesByDate, _) <-
     foldM (depositStep spyPrices) sortedDeposits ([], Num.zero) ;;
  tradeSpySharesChange <- mapM (spySharesChangeOf spyPrices) sortedTrades ;;
  Ok (mkPrepared sortedTrades priceMaps (useCashFlowBasis cashFlows)
        sortedCashFlows sortedDeposits depositSpySharesByDate
        (useDepositBasis cashFlows) tradeSpySharesChange).

(** The variables the day loop carries from one day to the next. *)
Record LoopState := mkLoopState {
  sharesPerTicker : dict number;
  tradeIndex : nat;
  tradeBasedSpyShares : number;
  tradeCostBasis : number
}.

Definition initialState : LoopState :=
  mkLoopState [] 0 Num.zero Num.zero.

(** Reading a number array: outside the bounds the value is [undefined],
    which an addition turns into [NaN]. *)
Definition numberAt (a : list number) (i : nat) : number :=
  match nth_error a i with Some v => v | None => NaN end.

(** The body of the [while] loop that applies the pending trades. *)
Definition applyTrade (pre : Prepared) (st : LoopState) (trade : Trade.t)
  : LoopState :=
  let held := Num.orZero (dget (sharesPerTicker st) (Trade.ticker trade)) in
  let shares' :=
    if isSell trade then Num.sub held (Trade.shares trade)
    else Num.add held (Trade.shares trade) in
  let cost' :=
    if isSell trade then Num.sub (tradeCostBasis st) (tradeAmount trade)
    else Num.add (tradeCostBasis st) (tradeAmount trade) in
  mkLoopState
    (dset (sharesPerTicker st) (Trade.ticker trade) shares')
    (S (tradeIndex st))
    (Num.add (tradeBasedSpyShares st)
       (numberAt (tradeSpySharesChange pre) (tradeIndex st)))
    cost'.

(** The [while] loop that applies the trades due on [currentDate].
    [fuel] bounds the number of iterations; the caller passes one more
    than the number of trades, and each iteration consumes a trade. *)
Fixpoint applyTrades (fuel : nat) (pre : Prepared) (st : LoopState)
  (currentDate : string) : outcome LoopState :=
  match fuel with
  | O => OutOfFuel
  | S fuel' =>
      if (Z.of_nat (tradeIndex st) <? len (sortedTrades pre))%Z then
        trade <- aget (sortedTrades pre) (Z.of_nat (tradeIndex st)) ;;
        if String.leb (Trade.date trade) currentDate
        then applyTrades fuel' pre (applyTrade pre st trade) currentDate
        else Ok st
      else Ok st
  end.

(** One iteration of the loop over [Object.entries(sharesPerTicker)]. *)
Definition tickerValueStep (pre : Prepared)
  (stockPrices : dict (list StockPrice.t)) (splits : dict (list StockSplit.t))
  (currentDate : string) (portfolioValue : number) (entry : string * number)
  : outcome number :=
  let '(ticker, shares) := entry in
  if Num.leb shares Num.zero then Ok portfolioValue
  else
    let fromMap :=
      match dget (priceMaps pre) ticker with
      | Some priceMap => dget priceMap currentDate
      | None => None
      end in
    currentStockPrice <-
      match fromMap with
      | Some v => Ok v
      | None =>
          r <- getUnadjustedPriceOnOrBefore (dgetOrEmpty stockPrices ticker)
                 (dgetOrEmpty splits ticker) currentDate ;;
          Ok (Num.orElse r Num.zero)
      end ;;
    Ok (Num.add portfolioValue (Num.mul shares currentStockPrice)).

(** The loop over [sortedDeposits] that reads the cumulative share count
    as of [currentDate]; it stops at the first deposit dated later. *)
Fixpoint depositSharesAsOf (depositSpySharesByDate : dict number)
  (deposits : list CashFlow.t) (currentDate : string)
  (counterfactualSpyShares : number) : number :=
  match deposits with
  | [] => counterfactualSpyShares
  | dep :: rest =>
      if String.ltb currentDate (CashFlow.date dep)
      then counterfactualSpyShares
      else
        depositSharesAsOf depositSpySharesByDate rest currentDate
          (match dget depositSpySharesByDate (CashFlow.date dep) with
           | Some spySharesAtDate => spySharesAtDate
           | None => counterfactualSpyShares
           end)
  end.

(** Cost basis of a day in cash-flow-basis mode. *)
Definition cashFlowCostBasis (sortedCashFlows : list CashFlow.t)
  (currentDate : string) : number :=
  sumAmounts
    (filter (fun cf => String.leb (CashFlow.date cf) currentDate)
       sortedCashFlows).

(** The per-day values computed by the body of the day loop. *)
Record DayLocals := mkDayLocals {
  currentDate : string;
  spyClose : number;
  portfolioValue : number;
  counterfactualSpyShares : number;
  counterfactualValue : number;
  costBasis : number
}.

(** The part of the body of the day loop that follows the valuation of
    the holdings: counterfactual share count and value, and cost basis. *)
Definition dayLocalsOf (pre : Prepared) (st' : LoopState)
  (spyPrice : StockPrice.t) (portfolioValue : number) : DayLocals :=
  let currentDate := StockPrice.date spyPrice in
  let counterfactualSpyShares :=
    if depositBasis pre
    then depositSharesAsOf (depositSpySharesByDate pre) (sortedDeposits pre)
           currentDate Num.zero
    else tradeBasedSpyShares st' in
  let counterfactualValue :=
    Num.mul (Num.Math_max Num.zero counterfactualSpyShares)
      (StockPrice.price spyPrice) in
  let costBasis :=
    if cashFlowBasis pre
    then cashFlowCostBasis (sortedCashFlows pre) currentDate
    else Num.Math_max Num.zero (tradeCostBasis st') in
  mkDayLocals currentDate (StockPrice.price spyPrice) portfolioValue
    counterfactualSpyShares counterfactualValue costBasis.

(** The body of [for (const spyPrice of spyPrices)], up to the push. *)
Definition dayBody (pre : Prepared) (stockPrices : dict (list StockPrice.t))
  (splits : dict (list StockSplit.t)) (st : LoopState)
  (spyPrice : StockPrice.t) : outcome (LoopState * DayLocals) :=
  let currentDate := StockPrice.date spyPrice in
  st' <- applyTrades (S (List.length (sortedTrades pre))) pre st currentDate ;;
  portfolioValue <-
    foldM (tickerValueStep pre stockPrices splits currentDate)
      (sharesPerTicker st') Num.zero ;;
  Ok (st', dayLocalsOf pre st' spyPrice portfolioValue).

Definition round2 : number -> number := Num.roundTo Num.hundred.

(** [((value - costBasis) / costBasis) * 100]. *)
Definition returnPct (value costBasis : number) : number :=
  Num.mul (Num.div (Num.sub value costBasis) costBasis) Num.hundred.

(** The record pushed for a day whose cost basis is positive. *)
Definition dataPointOf (d : DayLocals) : PortfolioDataPoint.t :=
  PortfolioDataPoint.mk (currentDate d)
    (round2 (portfolioValue d))
    (round2 (counterfactualValue d))
    (round2 (costBasis d))
    (round2 (returnPct (portfolioValue d) (costBasis d)))
    (round2 (returnPct (counterfactualValue d) (costBasis d))).

(** [if (costBasis > 0) dataPoints.push(...)]. *)
Definition emitted (d : DayLocals) : bool := Num.gtb (costBasis d) Num.zero.

(** [for (const spyPrice of spyPrices)]. *)
Fixpoint dayLoop (pre : Prepared) (stockPrices : dict (list StockPrice.t))
  (splits : dict (list StockSplit.t)) (spyPrices : list StockPrice.t)
  (st : LoopState) (dataPoints : list PortfolioDataPoint.t)
  : outcome (list PortfolioDataPoint.t) :=
  match spyPrices with
  | [] => Ok dataPoints
  | spyPrice :: rest =>
      '(st', d) <- dayBody pre stockPrices splits st spyPrice ;;
      dayLoop pre stockPrices splits rest st'
        (if emitted d then dataPoints ++ [dataPointOf d] else dataPoints)
  end.

Definition calculatePortfolioTimeSeries (trades : list Trade.t)
  (stockPrices : dict (list StockPrice.t)) (spyPrices : list StockPrice.t)
  (cashFlows : list CashFlow.t) (splits : dict (list StockSplit.t))
  : outcome (list PortfolioDataPoint.t) :=
  if ((len trades =? 0) || (len spyPrices =? 0))%Z then Ok []
  else
    pre <- prepare trades stockPrices spyPrices cashFlows splits ;;
    dayLoop pre stockPrices splits spyPrices initialState [].

(** The values of the body's variables on every day of the index series,
    whether or not the day is emitted. *)
Fixpoint dayTrace (pre : Prepared) (stockPrices : dict (list StockPrice.t))
  (splits : dict (list StockSplit.t)) (spyPrices : list StockPrice.t)
  (st : LoopState) : outcome (list (LoopState * DayLocals)) :=
  match spyPrices with
  | [] => Ok []
  | spyPrice :: rest =>
      r <- dayBody pre stockPrices splits st spyPrice ;;
      more <- dayTrace pre stockPrices splits rest (fst r) ;;
      Ok (r :: more)
  end.

(** The day-by-day values of a whole run. *)
Definition runTrace (trades : list Trade.t)
  (stockPrices : dict (list StockPrice.t)) (spyPrices : list StockPrice.t)
  (cashFlows : list CashFlow.t) (splits : dict (list StockSplit.t))
  : outcome (list (LoopState * DayLocals)) :=
  if ((len trades =? 0) || (len spyPrices =? 0))%Z then Ok []
  else
    pre <- prepare trades stockPrices spyPrices cashFlows splits ;;
    dayTrace pre stockPrices splits spyPrices initialState.

(* ================================================================== *)
(** * Breakdown engine: [calculateStockBreakdown] *)
(* ================================================================== *)

(** The per-ticker record of [aggregated]. *)
Record Aggregate := mkAggregate {
  totalShares : number;
  totalCost : number;
  totalSpyShares : number;
  firstBuyDate : string
}.

(** The body of [for (const trade of trades)], after the index price at
    the trade date has been looked up. *)
Definition aggregateWith (spyPriceAtTrade : option number)
  (aggregated : dict Aggregate) (trade : Trade.t) : dict Aggregate :=
  let tradePrice := Num.orElse (Trade.price trade) Num.zero in
  let tradeAmount := Num.mul (Trade.shares trade) tradePrice in
  let spySharesChange :=
    match spyPriceAtTrade with
    | Some p => if Num.truthy p then Num.div tradeAmount p else Num.zero
    | None => Num.zero
    end in
  let shares := Trade.shares trade in
  let entry :=
    match dget aggregated (Trade.ticker trade) with
    | Some a => a
    | None => mkAggregate Num.zero Num.zero Num.zero (Trade.date trade)
    end in
  let entry' :=
    if isSell trade then
      mkAggregate (Num.sub (totalShares entry) shares)
        (Num.sub (totalCost entry) tradeAmount)
        (Num.sub (totalSpyShares entry) spySharesChange)
        (firstBuyDate entry)
    else
      mkAggregate (Num.add (totalShares entry) shares)
        (Num.add (totalCost entry) tradeAmount)
        (Num.add (totalSpyShares entry) spySharesChange)
        (if String.ltb (Trade.date trade) (firstBuyDate entry)
         then Trade.date trade else firstBuyDate entry) in
  dset aggregated (Trade.ticker trade) entry'.

(** The body of [for (const trade of trades)]. *)
Definition aggregateTrade (spyPrices : list StockPrice.t)
  (aggregated : dict Aggregate) (trade : Trade.t) : outcome (dict Aggregate) :=
  spyPriceAtTrade <- getPriceOnDate spyPrices (Trade.date trade) ;;
  Ok (aggregateWith spyPriceAtTrade aggregated trade).

Definition round6 : number -> number := Num.roundTo Num.million.

(** The row pushed for a ticker that survives both [continue] guards. *)
Definition breakdownRow (ticker : string) (data : Aggregate)
  (currentPrice currentSpyPrice : number) : StockBreakdownData.t :=
  let currentValue := Num.mul (totalShares data) currentPrice in
  let spyCurrentValue :=
    Num.mul (Num.Math_max Num.zero (totalSpyShares data)) currentSpyPrice in
  let avgBuyPrice :=
    if Num.gtb (totalShares data) Num.zero
    then Num.div (Num.Math_max Num.zero (totalCost data)) (totalShares data)
    else Num.zero in
  let netInvestment := Num.Math_max Num.zero (totalCost data) in
  let gain := Num.sub currentValue netInvestment in
  let spyGain := Num.sub spyCurrentValue netInvestment in
  let difference := Num.sub gain spyGain in
  StockBreakdownData.mk ticker
    (round6 (totalShares data))
    (firstBuyDate data)
    (round2 avgBuyPrice)
    currentPrice
    (round2 currentValue)
    (round2 (Num.Math_max Num.zero (totalSpyShares data)))
    (round2 spyCurrentValue)
    (round2 gain)
    (round2 spyGain)
    (round2 difference).

(** The body of [for (const [ticker, data] of Object.entries(aggregated))]. *)
Definition breakdownStep (stockPrices : dict (list StockPrice.t))
  (currentSpyPrice : number) (breakdown : list StockBreakdownData.t)
  (entry : string * Aggregate) : outcome (list StockBreakdownData.t) :=
  let '(ticker, data) := entry in
  if Num.leb (totalShares data) Num.zero then Ok breakdown
  else
    match dget stockPrices ticker with
    | None => Ok breakdown
    | Some tickerPrices =>
        if (len tickerPrices =? 0)%Z then Ok breakdown
        else
          currentPrice <- getLatestPrice tickerPrices ;;
          Ok (breakdown
                ++ [breakdownRow ticker data currentPrice currentSpyPrice])
    end.

(** [(a, b) => b.difference - a.difference]. *)
Definition byDifferenceDesc (a b : StockBreakdownData.t) : number :=
  Num.sub (StockBreakdownData.difference b) (StockBreakdownData.difference a).

(** The aggregation pass of [calculateStockBreakdown]. *)
Definition aggregateTrades (trades : list Trade.t)
  (spyPrices : list StockPrice.t) : outcome (dict Aggregate) :=
  foldM (aggregateTrade spyPrices) trades [].

Definition calculateStockBreakdown (trades : list Trade.t)
  (stockPrices : dict (list StockPrice.t)) (spyPrices : list StockPrice.t)
  : outcome (list StockBreakdownData.t) :=
  currentSpyPrice <- getLatestPrice spyPrices ;;
  aggregated <- aggregateTrades trades spyPrices ;;
  breakdown <- foldM (breakdownStep stockPrices currentSpyPrice) aggregated [] ;;
  Ok (Array_sort byDifferenceDesc breakdown).

(* ================================================================== *)
(** * Summary engine: [calculateSummary] *)
(* ================================================================== *)

(** The callback of [trades.reduce] in [calculateSummary]. *)
Definition netTradeAmount (sum : number) (t : Trade.t) : number :=
  let amount := tradeAmount t in
  Num.add sum (if isSell t then Num.neg amount else amount).

(** The scan for the best and the worst performer. *)
Definition performerStep
  (acc : StockBreakdownData.t * StockBreakdownData.t)
  (stock : StockBreakdownData.t)
  : StockBreakdownData.t * StockBreakdownData.t :=
  let '(bestPerformer, worstPerformer) := acc in
  (if Num.gtb (StockBreakdownData.difference stock)
        (StockBreakdownData.difference bestPerformer)
   then stock else bestPerformer,
   if Num.ltb (StockBreakdownData.difference stock)
        (StockBreakdownData.difference worstPerformer)
   then stock else worstPerformer).

Definition performerOf (b : StockBreakdownData.t) : string * number :=
  (StockBreakdownData.ticker b, StockBreakdownData.difference b).

Definition calculateSummary (breakdown : list StockBreakdownData.t)
  (cashFlows : list CashFlow.t) (trades : list Trade.t)
  : outcome SummaryData.t :=
  if (len breakdown =? 0)%Z then
    Ok (SummaryData.mk Num.zero Num.zero Num.zero Num.zero Num.zero Num.zero
          Num.zero None None)
  else
    let totalCostBasis :=
      Num.Math_max Num.zero (fold_left netTradeAmount trades Num.zero) in
    let totalPortfolioValue :=
      fold_left (fun sum b => Num.add sum (StockBreakdownData.currentValue b))
        breakdown Num.zero in
    let totalCounterfactualValue :=
      fold_left
        (fun sum b => Num.add sum (StockBreakdownData.spyCurrentValue b))
        breakdown Num.zero in
    let portfolioReturn :=
      if Num.gtb totalCostBasis Num.zero
      then returnPct totalPortfolioValue totalCostBasis else Num.zero in
    let counterfactualReturn :=
      if Num.gtb totalCostBasis Num.zero
      then returnPct totalCounterfactualValue totalCostBasis else Num.zero in
    let totalDifference :=
      Num.sub totalPortfolioValue totalCounterfactualValue in
    let percentageDifference :=
      if Num.gtb totalCostBasis Num.zero
      then Num.mul (Num.div totalDifference totalCostBasis) Num.hundred
      else Num.zero in
    first <- aget breakdown 0 ;;
    let '(bestPerformer, worstPerformer) :=
      fold_left performerStep breakdown (first, first) in
    Ok (SummaryData.mk
          (round2 totalCostBasis)
          (round2 totalPortfolioValue)
          (round2 totalCounterfactualValue)
          (round2 portfolioReturn)
          (round2 counterfactualReturn)
          (round2 totalDifference)
          (round2 percentageDifference)
          (Some (performerOf bestPerformer))
          (Some (performerOf worstPerformer))).

(* ================================================================== *)
(** * The engines over a store of arrays *)
(* ================================================================== *)

(** The functions above take arrays as values.  To speak about what a
    call does to the arrays of its caller, the engines are embedded a
    second time over a store: an array is an object reached through a
    reference, [[...a]] and [a.filter(f)] allocate a new array,
    [a.sort(cmp)] and [a.push(x)] write to the array they are called on.
    The computations on the elements are the functions above. *)
Module Heap.

Inductive array : Type :=
| TradeArray (a : list Trade.t)
| CashFlowArray (a : list CashFlow.t)
| PriceArray (a : list StockPrice.t)
| SplitArray (a : list StockSplit.t)
| RowArray (a : list StockBreakdownData.t).

(** A store holds the arrays allocated so far; a reference is a position
    in it. *)
Definition store : Type := list array.

Definition ref : Type := nat.

(** The element type of an array, with the way to read it back. *)
Record kind (A : Type) : Type := mkKind {
  wrap : list A -> array;
  unwrap : array -> option (list A);
  unwrap_wrap : forall a, unwrap (wrap a) = Some a
}.

Definition tradeKind : kind Trade.t :=
  mkKind TradeArray
    (fun x => match x with TradeArray a => Some a | _ => None end)
    (fun a => eq_refl).

Definition cashFlowKind : kind CashFlow.t :=
  mkKind CashFlowArray
    (fun x => match x with CashFlowArray a => Some a | _ => None end)
    (fun a => eq_refl).

Definition priceKind : kind StockPrice.t :=
  mkKind PriceArray
    (fun x => match x with PriceArray a => Some a | _ => None end)
    (fun a => eq_refl).

Definition splitKind : kind StockSplit.t :=
  mkKind SplitArray
    (fun x => match x with SplitArray a => Some a | _ => None end)
    (fun a => eq_refl).

Definition rowKind : kind StockBreakdownData.t :=
  mkKind RowArray
    (fun x => match x with RowArray a => Some a | _ => None end)
    (fun a => eq_refl).

(** A computation that reads and writes the store and may throw. *)
Definition M (A : Type) : Type := store -> outcome (A * store).

Definition ret {A} (a : A) : M A := fun s => Ok (a, s).

Definition bindM {A B} (m : M A) (f : A -> M B) : M B :=
  fun s =>
    match m s with
    | Ok (a, s') => f a s'
    | TypeError => TypeError
    | OutOfFuel => OutOfFuel
    end.

Notation "x <~ m ;; k" := (bindM m (fun x => k))
  (at level 61, m at next level, right associativity).

(** A computation on values that does not touch the store. *)
Definition lift {A} (o : outcome A) : M A :=
  fun s =>
    match o with
    | Ok a => Ok (a, s)
    | TypeError => TypeError
    | OutOfFuel => OutOfFuel
    end.

(** The elements of the array at [r]. *)
Definition get {A} (K : kind A) (r : ref) : M (list A) :=
  fun s =>
    match nth_error s r with
    | Some x => match unwrap K x with
                | Some a => Ok (a, s)
                | None => TypeError
                end
    | None => TypeError
    end.

(** A new array with the elements [a]. *)
Definition alloc {A} (K : kind A) (a : list A) : M ref :=
  fun s => Ok (List.length s, s ++ [wrap K a]).

Fixpoint setNth (s : store) (r : ref) (x : array) : store :=
  match s, r with
  | [], _ => []
  | _ :: rest, O => x :: rest
  | y :: rest, S r' => y :: setNth rest r' x
  end.

(** Overwrite the elements of the array at [r]. *)
Definition put {A} (K : kind A) (r : ref) (a : list A) : M unit :=
  fun s =>
    match nth_error s r with
    | Some _ => Ok (tt, setNth s r (wrap K a))
    | None => TypeError
    end.

(** [[...a]]. *)
Definition spread {A} (K : kind A) (r : ref) : M ref :=
  a <~ get K r ;; alloc K a.

(** [a.sort(cmp)]: sorts the array in place and returns it. *)
Definition sortInPlace {A} (K : kind A) (cmp : A -> A -> number) (r : ref)
  : M ref :=
  a <~ get K r ;; _ <~ put K r (Array_sort cmp a) ;; ret r.

(** [a.push(x)]. *)
Definition push {A} (K : kind A) (r : ref) (x : A) : M unit :=
  a <~ get K r ;; put K r (a ++ [x]).

(** [a.filter(f)]. *)
Definition filterNew {A} (K : kind A) (f : A -> bool) (r : ref) : M ref :=
  a <~ get K r ;; alloc K (filter f a).

(** [d[k] || []] for a record of arrays. *)
Definition getOrEmpty {A} (K : kind A) (d : dict ref) (k : string) : M ref :=
  match dget d k with
  | Some r => ret r
  | None => alloc K []
  end.

(** [for (const x of xs)], threading an accumulator. *)
Fixpoint forEach {A S} (f : S -> A -> M S) (xs : list A) (acc : S) : M S :=
  match xs with
  | [] => ret acc
  | x :: rest => acc' <~ f acc x ;; forEach f rest acc'
  end.

Definition buildUnadjustedPriceMap (prices splits : ref) : M (dict number) :=
  copy <~ spread splitKind splits ;;
  sorted <~ sortInPlace splitKind bySplitDate copy ;;
  sortedSplits <~ get splitKind sorted ;;
  ps <~ get priceKind prices ;;
  ret (unadjustedMapFrom ps sortedSplits).

Definition getUnadjustedPriceOnOrBefore (prices splits : ref)
  (targetDate : string) : M (option number) :=
  ps <~ get priceKind prices ;;
  if (len ps =? 0)%Z then ret None
  else
    copy <~ spread splitKind splits ;;
    sorted <~ sortInPlace splitKind bySplitDate copy ;;
    sortedSplits <~ get splitKind sorted ;;
    lift (unadjustedSearch ps sortedSplits targetDate).

Definition tickerValueStep (pre : Prepared) (stockPrices splits : dict ref)
  (currentDate : string) (portfolioValue : number) (entry : string * number)
  : M number :=
  let '(ticker, shares) := entry in
  if Num.leb shares Num.zero then ret portfolioValue
  else
    let fromMap :=
      match dget (priceMaps pre) ticker with
      | Some priceMap => dget priceMap currentDate
      | None => None
      end in
    currentStockPrice <~
      match fromMap with
      | Some v => ret v
      | None =>
          tickerPrices <~ getOrEmpty priceKind stockPrices ticker ;;
          tickerSplits <~ getOrEmpty splitKind splits ticker ;;
          r <~ getUnadjustedPriceOnOrBefore tickerPrices tickerSplits
                 currentDate ;;
          ret (Num.orElse r Num.zero)
      end ;;
    ret (Num.add portfolioValue (Num.mul shares currentStockPrice)).

Definition dayBody (pre : Prepared) (stockPrices splits : dict ref)
  (st : LoopState) (spyPrice : StockPrice.t) : M (LoopState * DayLocals) :=
  let currentDate := StockPrice.date spyPrice in
  st' <~ lift (applyTrades (S (List.length (sortedTrades pre))) pre st
                 currentDate) ;;
  portfolioValue <~
    forEach (tickerValueStep pre stockPrices splits currentDate)
      (sharesPerTicker st') Num.zero ;;
  ret (st', dayLocalsOf pre st' spyPrice portfolioValue).

Fixpoint dayLoop (pre : Prepared) (stockPrices splits : dict ref)
  (spyPrices : list StockPrice.t) (st : LoopState)
  (dataPoints : list PortfolioDataPoint.t) : M (list PortfolioDataPoint.t) :=
  match spyPrices with
  | [] => ret dataPoints
  | spyPrice :: rest =>
      r <~ dayBody pre stockPrices splits st spyPrice ;;
      dayLoop pre stockPrices splits rest (fst r)
        (if emitted (snd r) then dataPoints ++ [dataPointOf (snd r)]
         else dataPoints)
  end.

Definition calculatePortfolioTimeSeries (trades : ref)
  (stockPrices : dict ref) (spyPrices cashFlows : ref) (splits : dict ref)
  : M (list PortfolioDataPoint.t) :=
  ts <~ get tradeKind trades ;;
  spy <~ get priceKind spyPrices ;;
  if ((len ts =? 0) || (len spy =? 0))%Z then ret []
  else
    copy <~ spread tradeKind trades ;;
    sorted <~ sortInPlace tradeKind byTradeDate copy ;;
    sortedTrades <~ get tradeKind sorted ;;
    priceMaps <~
      forEach
        (fun maps entry =>
           let '(ticker, prices) := entry in
           tickerSplits <~ getOrEmpty splitKind splits ticker ;;
           map <~ buildUnadjustedPriceMap prices tickerSplits ;;
           ret (dset maps ticker map))
        stockPrices [] ;;
    cfs <~ get cashFlowKind cashFlows ;;
    let cashFlowBasis := Num.gtb (sumAmounts cfs) Num.zero in
    copy <~ spread cashFlowKind cashFlows ;;
    sorted <~ sortInPlace cashFlowKind byCashFlowDate copy ;;
    sortedCashFlows <~ get cashFlowKind sorted ;;
    deposits <~ filterNew cashFlowKind isDeposit cashFlows ;;
    copy <~ spread cashFlowKind deposits ;;
    sorted <~ sortInPlace cashFlowKind byCashFlowDate copy ;;
    sortedDeposits <~ get cashFlowKind sorted ;;
    filled <~ lift (foldM (depositStep spy) sortedDeposits ([], Num.zero)) ;;
    ds <~ get cashFlowKind deposits ;;
    let depositBasis := (len ds >? 0)%Z in
    changes <~ lift (mapM (spySharesChangeOf spy) sortedTrades) ;;
    dayLoop
      (mkPrepared sortedTrades priceMaps cashFlowBasis sortedCashFlows
         sortedDeposits (fst filled) depositBasis changes)
      stockPrices splits spy initialState [].

Definition breakdownStep (stockPrices : dict ref) (currentSpyPrice : number)
  (breakdown : ref) (entry : string * Aggregate) : M unit :=
  let '(ticker, data) := entry in
  if Num.leb (totalShares data) Num.zero then ret tt
  else
    match dget stockPrices ticker with
    | None => ret tt
    | Some r =>
        tickerPrices <~ get priceKind r ;;
        if (len tickerPrices =? 0)%Z then ret tt
        else
          currentPrice <~ lift (getLatestPrice tickerPrices) ;;
          push rowKind breakdown
            (breakdownRow ticker data currentPrice currentSpyPrice)
    end.

Definition calculateStockBreakdown (trades : ref) (stockPrices : dict ref)
  (spyPrices : ref) : M (list StockBreakdownData.t) :=
  spy <~ get priceKind spyPrices ;;
  currentSpyPrice <~ lift (getLatestPrice spy) ;;
  ts <~ get tradeKind trades ;;
  aggregated <~ lift (aggregateTrades ts spy) ;;
  breakdown <~ alloc rowKind [] ;;
  _ <~ forEach
         (fun _ entry =>
            breakdownStep stockPrices currentSpyPrice breakdown entry)
         aggregated tt ;;
  sorted <~ sortInPlace rowKind byDifferenceDesc breakdown ;;
  get rowKind sorted.

Definition calculateSummary (breakdown cashFlows trades : ref)
  : M SummaryData.t :=
  rows <~ get rowKind breakdown ;;
  cfs <~ get cashFlowKind cashFlows ;;
  ts <~ get tradeKind trades ;;
  lift (calculateSummary rows cfs ts).

(** The array at [r] in store [s] has the elements [a]. *)
Definition holds {A} (K : kind A) (s : store) (r : ref) (a : list A) : Prop :=
  nth_error s r = Some (wrap K a).

(** A record of references whose arrays have the elements of [values],
    key by key. *)
Definition holdsAll {A} (K : kind A) (s : store) (refs : dict ref)
  (values : dict (list A)) : Prop :=
  Forall2 (fun kr kv => fst kr = fst kv /\ holds K s (snd kr) (snd kv))
    refs values.

(** Every array of [s] is in [s'], at the same reference, with the same
    elements in the same order. *)
Definition unchanged (s s' : store) : Prop :=
  forall r x, nth_error s r = Some x -> nth_error s' r = Some x.

(** Started in store [s], the computation [m] returns [a] and leaves a
    store that is [s] followed by the arrays allocated meanwhile. *)
Definition runsTo {A} (m : M A) (s : store) (a : A) : Prop :=
  exists ext, m s = Ok (a, s ++ ext).

End Heap.

(* ================================================================== *)
(** * Notions used to state the properties *)
(* ================================================================== *)

(** [a <= b] on date strings, as a proposition. *)
Definition dateLe (a b : string) : Prop := String.leb a b = true.

(** A list whose [key] dates are in ascending order. *)
Definition ascendingBy {A} (key : A -> string) (l : list A) : Prop :=
  StronglySorted (fun a b => dateLe (key a) (key b)) l.

(** A price series in ascending date order. *)
Definition ascending (prices : list StockPrice.t) : Prop :=
  ascendingBy StockPrice.date prices.

(** Every entry of the series carries a calendar date [YYYY-MM-DD]. *)
Definition isoSeries (prices : list StockPrice.t) : Prop :=
  Forall (fun p => Date.isISO (StockPrice.date p) = true) prices.

(** Equality test on numbers. *)
Definition number_eqb (a b : number) : bool :=
  match a, b with
  | Fin x, Fin y => Qc_eq_bool x y
  | PosInf, PosInf | NegInf, NegInf | NaN, NaN => true
  | _, _ => false
  end.

(** The entry an on-or-before lookup selects: the last entry, in array
    order, that passes [test], and the first entry when none does. *)
Definition clampLookup (test : StockPrice.t -> bool)
  (prices : list StockPrice.t) : option StockPrice.t :=
  match find test (rev prices) with
  | Some p => Some p
  | None => hd_error prices
  end.

(** The test of the binary searches: a string comparison. *)
Definition onOrBeforeString (target : string) (p : StockPrice.t) : bool :=
  String.leb (StockPrice.date p) target.

(** The test of the backward scan: a comparison of [Date] objects. *)
Definition onOrBeforeDate (target : string) (p : StockPrice.t) : bool :=
  Date.leb (Date.parse (StockPrice.date p)) (Date.parse target).

(** The value of a computation, for use once it is known to succeed. *)
Definition valueOr {A} (d : A) (m : outcome A) : A :=
  match m with Ok a => a | _ => d end.

(** What [getPriceOnOrBefore] returns. *)
Definition priceOnOrBefore (prices : list StockPrice.t) (target : string)
  : option number :=
  valueOr None (getPriceOnOrBefore prices target).

(** What [getUnadjustedPriceOnOrBefore] returns. *)
Definition unadjustedOnOrBefore (prices : list StockPrice.t)
  (splits : list StockSplit.t) (target : string) : option number :=
  valueOr None (getUnadjustedPriceOnOrBefore prices splits target).

(** The true price of an entry: its price times the factor of the splits
    dated after it. *)
Definition unadjusted (splits : list StockSplit.t) (p : StockPrice.t) : number :=
  Num.mul (StockPrice.price p)
    (getSplitAdjustmentFactor (Array_sort bySplitDate splits)
       (StockPrice.date p)).

(** The integer [YYYYMMDD] of a year, a month and a day. *)
Definition dateKey (ymd : Z * Z * Z) : Z :=
  let '(y, m, d) := ymd in (10000 * y + 100 * m + d)%Z.

(** Data of the test suite, used to instantiate the theorems. *)
Module Sample.

Definition price (date : string) (close : Z) : StockPrice.t :=
  StockPrice.mk date (Num.ofZ close) None.

Definition trade (ticker date : string) (shares close : Z) (type : TradeType)
  : Trade.t :=
  Trade.mk (ticker ++ "-" ++ date) ticker date (Num.ofZ shares)
    (Some (Num.ofZ close)) type.

Definition depositOf (date : string) (amount : Z) : CashFlow.t :=
  CashFlow.mk ("cashflow-" ++ date) date (Num.ofZ amount) deposit None.

Definition dividendOf (date : string) (amount : Z) : CashFlow.t :=
  CashFlow.mk ("cashflow-" ++ date) date (Num.ofZ amount) dividend None.

Definition spyPrices : list StockPrice.t :=
  [price "2023-01-02" 380; price "2023-01-10" 390; price "2023-06-01" 420].

Definition aaplPrices : list StockPrice.t :=
  [price "2023-01-02" 130; price "2023-06-01" 150].

(** A series as the provider reports it after a 2:1 split on
    2023-01-05: the true price 100 of 2023-01-02 is stored as 50. *)
Definition adjustedPrices : list StockPrice.t :=
  [StockPrice.mk "2023-01-02" (Num.div (Num.ofZ 100) (Num.ofZ 2)) None;
   price "2023-06-01" 60].

Definition split2for1 : StockSplit.t :=
  StockSplit.mk "2023-01-05" "AAPL" (Num.ofZ 2).

End Sample.

(** ** The engines as total functions

    The definitions below describe what the engines compute once the
    lookups are known to return; the corresponding lemmas show that the
    engines return exactly these values. *)

Fixpoint takeWhile {A} (f : A -> bool) (l : list A) : list A :=
  match l with
  | [] => []
  | x :: rest => if f x then x :: takeWhile f rest else []
  end.

(** [depositStep] as a total function. *)
Definition depositAcc (spyPrices : list StockPrice.t)
  (acc : dict number * number) (dep : CashFlow.t) : dict number * number :=
  match priceOnOrBefore spyPrices (CashFlow.date dep) with
  | Some p =>
      if Num.truthy p then
        let cumulative := Num.add (snd acc) (Num.div (CashFlow.amount dep) p) in
        (dset (fst acc) (CashFlow.date dep) cumulative, cumulative)
      else acc
  | None => acc
  end.

(** [spySharesChangeOf] as a total function. *)
Definition spySharesChange (spyPrices : list StockPrice.t) (trade : Trade.t)
  : number :=
  match priceOnOrBefore spyPrices (Trade.date trade) with
  | Some p =>
      if Num.truthy p then
        let spyShares := Num.div (tradeAmount trade) p in
        if isSell trade then Num.neg spyShares else spyShares
      else Num.zero
  | None => Num.zero
  end.

(** The constants [prepare] returns. *)
Definition prepared (trades : list Trade.t)
  (stockPrices : dict (list StockPrice.t)) (spyPrices : list StockPrice.t)
  (cashFlows : list CashFlow.t) (splits : dict (list StockSplit.t))
  : Prepared :=
  mkPrepared
    (Array_sort byTradeDate trades)
    (fold_left
       (fun maps entry =>
          dset maps (fst entry)
            (buildUnadjustedPriceMap (snd entry)
               (dgetOrEmpty splits (fst entry))))
       stockPrices [])
    (useCashFlowBasis cashFlows)
    (Array_sort byCashFlowDate cashFlows)
    (Array_sort byCashFlowDate (filter isDeposit cashFlows))
    (fst (fold_left (depositAcc spyPrices)
            (Array_sort byCashFlowDate (filter isDeposit cashFlows))
            ([], Num.zero)))
    (useDepositBasis cashFlows)
    (map (spySharesChange spyPrices) (Array_sort byTradeDate trades)).

(** The trades the [while] loop applies on [currentDate]: the pending
    trades up to the first one dated later. *)
Definition dueTrades (pre : Prepared) (st : LoopState) (currentDate : string)
  : list Trade.t :=
  takeWhile (fun t => String.leb (Trade.date t) currentDate)
    (skipn (tradeIndex st) (sortedTrades pre)).

(** The loop state after the trades due on [currentDate] are applied. *)
Definition advance (pre : Prepared) (st : LoopState) (currentDate : string)
  : LoopState :=
  fold_left (applyTrade pre) (dueTrades pre st currentDate) st.

(** [tickerValueStep] as a total function. *)
Definition tickerValue (pre : Prepared)
  (stockPrices : dict (list StockPrice.t)) (splits : dict (list StockSplit.t))
  (currentDate : string) (portfolioValue : number) (entry : string * number)
  : number :=
  if Num.leb (snd entry) Num.zero then portfolioValue
  else
    let fromMap :=
      match dget (priceMaps pre) (fst entry) with
      | Some priceMap => dget priceMap currentDate
      | None => None
      end in
    let currentStockPrice :=
      match fromMap with
      | Some v => v
      | None =>
          Num.orElse
            (unadjustedOnOrBefore (dgetOrEmpty stockPrices (fst entry))
               (dgetOrEmpty splits (fst entry)) currentDate)
            Num.zero
      end in
    Num.add portfolioValue (Num.mul (snd entry) currentStockPrice).

(** [dayBody] as a total function. *)
Definition dayStep (pre : Prepared) (stockPrices : dict (list StockPrice.t))
  (splits : dict (list StockSplit.t)) (st : LoopState)
  (spyPrice : StockPrice.t) : LoopState * DayLocals :=
  let st' := advance pre st (StockPrice.date spyPrice) in
  (st',
   dayLocalsOf pre st' spyPrice
     (fold_left (tickerValue pre stockPrices splits (StockPrice.date spyPrice))
        (sharesPerTicker st') Num.zero)).

(** [dayTrace] as a total function. *)
Fixpoint traceOf (pre : Prepared) (stockPrices : dict (list StockPrice.t))
  (splits : dict (list StockSplit.t)) (spyPrices : list StockPrice.t)
  (st : LoopState) : list (LoopState * DayLocals) :=
  match spyPrices with
  | [] => []
  | spyPrice :: rest =>
      let r := dayStep pre stockPrices splits st spyPrice in
      r :: traceOf pre stockPrices splits rest (fst r)
  end.

(** The data points of a trace: the days whose cost basis is positive. *)
Definition pointsOf (trace : list (LoopState * DayLocals))
  : list PortfolioDataPoint.t :=
  map dataPointOf (filter emitted (map snd trace)).

(** What [getPriceOnDate] returns. *)
Definition priceOnDate (prices : list StockPrice.t) (date : string)
  : option number :=
  option_map StockPrice.price (clampLookup (onOrBeforeDate date) prices).

(** The table [aggregated] after the first loop of the breakdown. *)
Definition aggregatedOf (trades : list Trade.t) (spyPrices : list StockPrice.t)
  : dict Aggregate :=
  fold_left
    (fun agg trade =>
       aggregateWith (priceOnDate spyPrices (Trade.date trade)) agg trade)
    trades [].

(** [breakdownStep] as a total function. *)
Definition breakdownPush (stockPrices : dict (list StockPrice.t))
  (currentSpyPrice : number) (breakdown : list StockBreakdownData.t)
  (entry : string * Aggregate) : list StockBreakdownData.t :=
  if Num.leb (totalShares (snd entry)) Num.zero then breakdown
  else
    match dget stockPrices (fst entry) with
    | None => breakdown
    | Some [] => breakdown
    | Some tickerPrices =>
        breakdown
          ++ [breakdownRow (fst entry) (snd entry)
                (last (map StockPrice.price tickerPrices) Num.zero)
                currentSpyPrice]
    end.

(** The rows of the breakdown before the final sort. *)
Definition rowsOf (trades : list Trade.t)
  (stockPrices : dict (list StockPrice.t)) (spyPrices : list StockPrice.t)
  : list StockBreakdownData.t :=
  fold_left
    (breakdownPush stockPrices
       (last (map StockPrice.price spyPrices) Num.zero))
    (aggregatedOf trades spyPrices) [].

(** The earliest date among the buy trades of [ticker]; [None] when the
    ticker was never bought. *)
Definition earliestBuyDate (trades : list Trade.t) (ticker : string)
  : option string :=
  fold_left
    (fun best t =>
       if isSell t || negb (String.eqb (Trade.ticker t) ticker) then best
       else match best with
            | None => Some (Trade.date t)
            | Some d => if String.ltb (Trade.date t) d
                        then Some (Trade.date t) else Some d
            end)
    trades None.

(** ** Cost basis of a day, as the specification words it *)

(** A buy adds its cash value to the running cost basis, a sell
    subtracts it. *)
Definition signedAmount (costBasis : number) (t : Trade.t) : number :=
  if isSell t then Num.sub costBasis (tradeAmount t)
  else Num.add costBasis (tradeAmount t).

(** Trade-basis cost basis of day [d]: the net cash value of the trades
    dated on or before [d], taken in date order. *)
Definition tradeCostBasisOn (trades : list Trade.t) (d : string) : number :=
  fold_left signedAmount
    (filter (fun t => String.leb (Trade.date t) d)
       (Array_sort byTradeDate trades))
    Num.zero.

(** The cost basis of day [d] under the cost-basis mode of the run. *)
Definition costBasisOn (trades : list Trade.t) (cashFlows : list CashFlow.t)
  (d : string) : number :=
  if useCashFlowBasis cashFlows
  then cashFlowCostBasis (Array_sort byCashFlowDate cashFlows) d
  else Num.Math_max Num.zero (tradeCostBasisOn trades d).

(** The loop state once the trades [applied] have been applied. *)
Definition stateAfter (pre : Prepared) (applied : list Trade.t) : LoopState :=
  fold_left (applyTrade pre) applied initialState.

(** A list of dates in ascending order. *)
Definition ascendingDates (dates : list string) : Prop :=
  StronglySorted dateLe dates.

(** ** Finite numbers *)

(** A number that is neither [NaN] nor an infinity. *)
Definition finite (a : number) : Prop := Num.isFinite a = true.

(** Every value of a dictionary satisfies [P]. *)
Definition dictAll {V} (P : V -> Prop) (d : dict V) : Prop :=
  Forall (fun kv => P (snd kv)) d.

(** The total cost basis of the summary: the net cash value of all
    trades, floored at zero. *)
Definition summaryCostBasis (trades : list Trade.t) : number :=
  Num.Math_max Num.zero (fold_left netTradeAmount trades Num.zero).

(** Breakdown rows of the test suite. *)
Definition sampleRow (ticker : string)
  (currentPrice currentValue gain difference : Z) : StockBreakdownData.t :=
  StockBreakdownData.mk ticker (Num.ofZ 1) "2023-01-01" (Num.ofZ 100)
    (Num.ofZ currentPrice) (Num.ofZ currentValue) (Num.ofZ 1) (Num.ofZ 150)
    (Num.ofZ gain) (Num.ofZ 50) (Num.ofZ difference).

Definition sampleBreakdown : list StockBreakdownData.t :=
  [sampleRow "A" 200 200 100 50;
   sampleRow "B" 300 300 200 150;
   sampleRow "C" 50 50 (-50) (-100)].

Definition sampleTrades : list Trade.t :=
  [Sample.trade "AAPL" "2023-01-02" 10 130 buy;
   Sample.trade "AAPL" "2023-01-10" 5 135 sell].

(** ** Notions for the monotonicity of the counterfactual share count *)

(** A finite number that is not negative. *)
Definition nonneg (a : number) : Prop := finite a /\ Num.le Num.zero a.

Definition nonnegOpt (o : option number) : Prop :=
  match o with Some v => nonneg v | None => True end.

(** The data-model invariants of a trade: shares and price are finite and
    not negative. *)
Definition wellFormedTrade (t : Trade.t) : Prop :=
  nonneg (Trade.shares t) /\ nonnegOpt (Trade.price t).

(** A price entry with a finite, non-negative price. *)
Definition wellFormedPrice (p : StockPrice.t) : Prop :=
  nonneg (StockPrice.price p).

(** A cash flow of type [deposit] with a finite, non-negative amount. *)
Definition depositFlow (cf : CashFlow.t) : Prop :=
  CashFlow.type cf = deposit /\ nonneg (CashFlow.amount cf).

(** The index has a usable (truthy) on-or-before price at [date]. *)
Definition usable (spyPrices : list StockPrice.t) (date : string) : bool :=
  match priceOnOrBefore spyPrices date with
  | Some p => Num.truthy p
  | None => false
  end.

(** The index shares a deposit buys. *)
Definition increment (spyPrices : list StockPrice.t) (dep : CashFlow.t)
  : number :=
  match priceOnOrBefore spyPrices (CashFlow.date dep) with
  | Some p => Num.div (CashFlow.amount dep) p
  | None => Num.zero
  end.

(** [cumulativeDepositSpyShares] after one more deposit. *)
Definition cumulate (spyPrices : list StockPrice.t) (c : number)
  (dep : CashFlow.t) : number :=
  if usable spyPrices (CashFlow.date dep)
  then Num.add c (increment spyPrices dep) else c.

(** The value the deposit loop leaves in [depositSpySharesByDate] under
    key [k]: the cumulative count after the last deposit dated [k]. *)
Fixpoint lastCumulative (spyPrices : list StockPrice.t)
  (deposits : list CashFlow.t) (c : number) (k : string) : option number :=
  match deposits with
  | [] => None
  | dep :: rest =>
      let c' := cumulate spyPrices c dep in
      match lastCumulative spyPrices rest c' k with
      | Some v => Some v
      | None =>
          if usable spyPrices (CashFlow.date dep)
             && String.eqb (CashFlow.date dep) k
          then Some c' else None
      end
  end.

(** [depositSharesAsOf] over an arbitrary lookup function. *)
Fixpoint sharesAsOfBy (F : string -> option number)
  (deposits : list CashFlow.t) (currentDate : string) (acc : number)
  : number :=
  match deposits with
  | [] => acc
  | dep :: rest =>
      if String.ltb currentDate (CashFlow.date dep) then acc
      else sharesAsOfBy F rest currentDate
             (match F (CashFlow.date dep) with
              | Some v => v
              | None => acc
              end)
  end.

(** The running trade-basis index-share total after [n] trades. *)
Definition changesTotal (changes : list number) (n : nat) : number :=
  fold_left Num.add (map (numberAt changes) (seq 0 n)) Num.zero.

(** A store with the arrays of a caller: trades that are not in date
    order, the price series of one ticker, the index series, one cash
    flow, the splits of the ticker and breakdown rows. *)
Definition sampleStore : Heap.store :=
  [Heap.TradeArray
     [Sample.trade "AAPL" "2023-01-10" 5 135 sell;
      Sample.trade "AAPL" "2023-01-02" 10 130 buy];
   Heap.PriceArray Sample.aaplPrices;
   Heap.PriceArray Sample.spyPrices;
   Heap.CashFlowArray [Sample.depositOf "2023-01-02" 2000];
   Heap.SplitArray [Sample.split2for1];
   Heap.RowArray sampleBreakdown].

(** ** The first-buy marker *)

(** One step of the marker [firstBuyDate] of [ticker] as the aggregation
    loop computes it: the first trade of the ticker seeds it with its
    date, later buys of the ticker lower it. *)
Definition markerStep (ticker : string) (marker : option string)
  (t : Trade.t) : option string :=
  if String.eqb (Trade.ticker t) ticker then
    match marker with
    | None => Some (Trade.date t)
    | Some d =>
        if isSell t then Some d
        else if String.ltb (Trade.date t) d then Some (Trade.date t)
             else Some d
    end
  else marker.

(** The first trade of [ticker] in the list, if any, is a buy. *)
Definition boughtFirst (trades : list Trade.t) (ticker : string) : bool :=
  match find (fun t => String.eqb (Trade.ticker t) ticker) trades with
  | Some t => negb (isSell t)
  | None => true
  end.

(** The keys of a dictionary. *)
Definition keys {V} (d : dict V) : list string := map fst d.

(* ================================================================== *)
(** * Notions used to state further properties of the engines *)
(* ================================================================== *)

(** Another series of the test suite, with day highs. *)
Definition highPrices : list StockPrice.t :=
  [StockPrice.mk "2023-01-02" (Num.ofZ 100) (Some (Num.ofZ 110));
   StockPrice.mk "2023-01-03" (Num.ofZ 105) None;
   StockPrice.mk "2023-01-05" (Num.ofZ 108) (Some (Num.ofZ 112))].

(** ** The breakdown *)

(** The running share count of [ticker]: a buy of the ticker adds its
    shares, a sell subtracts them, other trades leave it. *)
Definition netSharesStep (ticker : string) (held : number) (t : Trade.t)
  : number :=
  if String.eqb (Trade.ticker t) ticker then
    if isSell t then Num.sub held (Trade.shares t)
    else Num.add held (Trade.shares t)
  else held.

(** The share count of [ticker] after the trades of the list, taken in
    the order of the list. *)
Definition netShares (trades : list Trade.t) (ticker : string) : number :=
  fold_left (netSharesStep ticker) trades Num.zero.

(** The list has a trade of [ticker]. *)
Definition traded (trades : list Trade.t) (ticker : string) : bool :=
  existsb (fun t => String.eqb (Trade.ticker t) ticker) trades.

(** The share count of [ticker] as the table [aggregated] holds it: the
    ticker has no entry before its first trade. *)
Definition heldStep (ticker : string) (held : option number) (t : Trade.t)
  : option number :=
  if String.eqb (Trade.ticker t) ticker
  then Some (netSharesStep ticker
               (match held with Some h => h | None => Num.zero end) t)
  else held.

(** An entry of [aggregated] that passes both [continue] guards of the
    second loop. *)
Definition kept (stockPrices : dict (list StockPrice.t))
  (entry : string * Aggregate) : bool :=
  negb (Num.leb (totalShares (snd entry)) Num.zero)
  && match dget stockPrices (fst entry) with
     | Some (_ :: _) => true
     | _ => false
     end.

(** The row pushed for a kept entry. *)
Definition rowOf (stockPrices : dict (list StockPrice.t))
  (currentSpyPrice : number) (entry : string * Aggregate)
  : StockBreakdownData.t :=
  breakdownRow (fst entry) (snd entry)
    (last (map StockPrice.price (dgetOrEmpty stockPrices (fst entry)))
       Num.zero)
    currentSpyPrice.

(** Rows in non-increasing order of [difference]. *)
Definition bestFirst (rows : list StockBreakdownData.t) : Prop :=
  StronglySorted
    (fun a b => Num.le (StockBreakdownData.difference b)
                  (StockBreakdownData.difference a))
    rows.

(** The rows [calculateStockBreakdown] returns. *)
Definition breakdownOf (trades : list Trade.t)
  (stockPrices : dict (list StockPrice.t)) (spyPrices : list StockPrice.t)
  : list StockBreakdownData.t :=
  valueOr [] (calculateStockBreakdown trades stockPrices spyPrices).

(** ** The summary *)

(** [b] is the first element of [l] that no element of [l] is better
    than: it is better than the elements before it, and no element after
    it is better. *)
Definition firstBest {A} (better : A -> A -> bool) (l : list A) (b : A)
  : Prop :=
  exists pre post,
    l = pre ++ b :: post
    /\ Forall (fun r => better b r = true) pre
    /\ Forall (fun r => better r b = false) post.

(** [b] is the first row of [rows] with the largest [difference]: the
    rows before it are strictly below it, the rows after it are not
    above it. *)
Definition firstMax (rows : list StockBreakdownData.t)
  (b : StockBreakdownData.t) : Prop :=
  exists pre post,
    rows = pre ++ b :: post
    /\ Forall (fun r => Num.ltb (StockBreakdownData.difference r)
                          (StockBreakdownData.difference b) = true) pre
    /\ Forall (fun r => Num.le (StockBreakdownData.difference r)
                          (StockBreakdownData.difference b)) post.

(** [w] is the first row of [rows] with the smallest [difference]. *)
Definition firstMin (rows : list StockBreakdownData.t)
  (w : StockBreakdownData.t) : Prop :=
  exists pre post,
    rows = pre ++ w :: post
    /\ Forall (fun r => Num.ltb (StockBreakdownData.difference w)
                          (StockBreakdownData.difference r) = true) pre
    /\ Forall (fun r => Num.le (StockBreakdownData.difference w)
                          (StockBreakdownData.difference r)) post.

(** The summary of an empty breakdown. *)
Definition emptySummary : SummaryData.t :=
  SummaryData.mk Num.zero Num.zero Num.zero Num.zero Num.zero Num.zero
    Num.zero None None.

(** The net cash value of the trades: buys minus sells. *)
Definition netInvested (trades : list Trade.t) : number :=
  fold_left netTradeAmount trades Num.zero.

(** ** The time series *)

(** The benchmark side of a data point: its date, the counterfactual
    value, the cost basis and the counterfactual return. *)
Definition benchmarkOf (p : PortfolioDataPoint.t)
  : string * number * number * number :=
  (PortfolioDataPoint.date p, PortfolioDataPoint.counterfactualValue p,
   PortfolioDataPoint.costBasis p, PortfolioDataPoint.counterfactualReturn p).

(** The benchmark side of the per-day values. *)
Definition benchmarkLocals (d : DayLocals) : string * number * number :=
  (currentDate d, counterfactualValue d, costBasis d).

(** The benchmark side of the point pushed for per-day values. *)
Definition benchmarkPoint (b : string * number * number)
  : string * number * number * number :=
  let '(date, counterfactualValue, costBasis) := b in
  (date, round2 counterfactualValue, round2 costBasis,
   round2 (returnPct counterfactualValue costBasis)).

(** A split with a finite, non-negative factor. *)
Definition wellFormedSplit (s : StockSplit.t) : Prop :=
  nonneg (StockSplit.splitFactor s).


From Stdlib Require Import DecimalString DecimalNat.

(* ================================================================== *)
(** * Text

    The string operations of the parsers.  A character is a code unit
    below 256; on these [trim] removes the characters 9 to 13, 32 and
    160. *)
(* ================================================================== *)

Module Text.

(** The double quote, the comma, the slash, the space, the line feed and
    the carriage return. *)
Definition dquote : ascii := ascii_of_nat 34.
Definition comma : ascii := ","%char.
Definition slash : ascii := "/"%char.
Definition space : ascii := " "%char.
Definition LF : ascii := ascii_of_nat 10.
Definition CR : ascii := ascii_of_nat 13.

(** [s + c]. *)
Definition push (s : string) (c : ascii) : string :=
  s ++ String c EmptyString.

(** White space and line terminators. *)
Definition isSpace (c : ascii) : bool :=
  let n := N_of_ascii c in
  (((9 <=? n) && (n <=? 13)) || (n =? 32) || (n =? 160))%N.

Fixpoint trimStart (s : string) : string :=
  match s with
  | EmptyString => EmptyString
  | String c rest => if isSpace c then trimStart rest else s
  end.

Fixpoint trimEnd (s : string) : string :=
  match s with
  | EmptyString => EmptyString
  | String c rest =>
      match trimEnd rest with
      | EmptyString => if isSpace c then EmptyString
                       else String c EmptyString
      | kept => String c kept
      end
  end.

(** [s.trim()]. *)
Definition trim (s : string) : string := trimEnd (trimStart s).

(** [s.includes(c)] for a needle of one character. *)
Fixpoint includesChar (c : ascii) (s : string) : bool :=
  match s with
  | EmptyString => false
  | String c' rest => Ascii.eqb c' c || includesChar c rest
  end.

(** A string is truthy when it is not empty. *)
Definition truthy (s : string) : bool := negb (String.eqb s EmptyString).

(** [lo <= n <= hi]. *)
Definition inRange (lo hi n : N) : bool := ((lo <=? n) && (n <=? hi))%N.

(** The lower case of a character: the letters A to Z and the capital
    letters 192 to 222 of Latin-1, the multiplication sign 215 apart,
    move up by 32. *)
Definition lowerChar (c : ascii) : ascii :=
  let n := N_of_ascii c in
  if inRange 65 90 n || (inRange 192 222 n && negb (n =? 215)%N)
  then ascii_of_N (n + 32) else c.

(** [s.toLowerCase()]. *)
Fixpoint toLowerCase (s : string) : string :=
  match s with
  | EmptyString => EmptyString
  | String c rest => String (lowerChar c) (toLowerCase rest)
  end.

(** The upper case of a character: the letters a to z and the small
    letters 224 to 254 of Latin-1, the division sign 247 apart, move
    down by 32, and the sharp s 223 becomes SS.  The capitals of the
    micro sign 181 and of the y with diaeresis 255 are not below 256:
    these two characters are left as they are, and nothing proved about
    the parsers depends on the capital of a character. *)
Definition upperChar (c : ascii) : string :=
  let n := N_of_ascii c in
  if inRange 97 122 n || (inRange 224 254 n && negb (n =? 247)%N)
  then String (ascii_of_N (n - 32)) EmptyString
  else if (n =? 223)%N then "SS"%string
  else String c EmptyString.

(** [s.toUpperCase()]. *)
Fixpoint toUpperCase (s : string) : string :=
  match s with
  | EmptyString => EmptyString
  | String c rest => upperChar c ++ toUpperCase rest
  end.

(** [s.replace(/[...]/g, '')] for a class of characters: every character
    of the class is removed. *)
Fixpoint removeChars (class : ascii -> bool) (s : string) : string :=
  match s with
  | EmptyString => EmptyString
  | String c rest =>
      if class c then removeChars class rest
      else String c (removeChars class rest)
  end.

(** [s.replace(c, '')] for a pattern of one character: the first
    occurrence is removed. *)
Fixpoint removeFirst (c : ascii) (s : string) : string :=
  match s with
  | EmptyString => EmptyString
  | String c' rest =>
      if Ascii.eqb c' c then rest else String c' (removeFirst c rest)
  end.

(** [s.startsWith(prefix)]. *)
Definition startsWith (s prefix : string) : bool := String.prefix prefix s.

(** [s.includes(needle)]. *)
Fixpoint includes (s needle : string) : bool :=
  String.prefix needle s
  || match s with
     | String _ rest => includes rest needle
     | EmptyString => false
     end.

(** The decimal numeral of a row index, as a template literal prints
    it. *)
Definition ofNat (i : nat) : string :=
  NilEmpty.string_of_uint (Nat.to_uint i).

End Text.

(* ================================================================== *)
(** * CSV tokenizers ([utils/parsers/shared.ts]) *)
(* ================================================================== *)

(** The loop of [parseCSVLine] over the characters of the line, and the
    final push. *)
Fixpoint parseCSVLineLoop (line : string) (values : list string)
  (current : string) (inQuotes : bool) : list string :=
  match line with
  | EmptyString => values ++ [Text.trim current]
  | String char rest =>
      if Ascii.eqb char Text.dquote then
        parseCSVLineLoop rest values current (negb inQuotes)
      else if Ascii.eqb char Text.comma && negb inQuotes then
        parseCSVLineLoop rest (values ++ [Text.trim current]) EmptyString
          inQuotes
      else
        parseCSVLineLoop rest values (Text.push current char) inQuotes
  end.

Definition parseCSVLine (line : string) : list string :=
  parseCSVLineLoop line [] EmptyString false.

(** [currentRow.some(f => f !== '')]. *)
Definition someNonEmpty (row : list string) : bool :=
  existsb Text.truthy row.

(** [if (currentRow.some(f => f !== '')) rows.push(currentRow)]. *)
Definition pushRow (rows : list (list string)) (currentRow : list string)
  : list (list string) :=
  if someNonEmpty currentRow then rows ++ [currentRow] else rows.

(** The loop of [parseMultiLineCSV] and the handling of the last row.
    [finish] is what is applied to a field when it is pushed: [trim] in
    [parsers/shared.ts].  The text is consumed from the front; where the
    source skips the character after the current one ([i++]) the loop
    continues two characters further. *)
Fixpoint multiLineLoop (finish : string -> string) (csvText : string)
  (rows : list (list string)) (currentRow : list string)
  (currentField : string) (inQuotes : bool) : list (list string) :=
  match csvText with
  | EmptyString =>
      if Text.truthy currentField || (0 <? len currentRow)%Z
      then pushRow rows (currentRow ++ [finish currentField])
      else rows
  | String char rest =>
      let nextIs (c : ascii) :=
        match rest with
        | String nextChar _ => Ascii.eqb nextChar c
        | EmptyString => false
        end in
      if Ascii.eqb char Text.dquote then
        match rest with
        | String nextChar rest' =>
            if inQuotes && Ascii.eqb nextChar Text.dquote then
              multiLineLoop finish rest' rows currentRow
                (Text.push currentField Text.dquote) inQuotes
            else multiLineLoop finish rest rows currentRow currentField
                   (negb inQuotes)
        | EmptyString =>
            multiLineLoop finish rest rows currentRow currentField
              (negb inQuotes)
        end
      else if Ascii.eqb char Text.comma && negb inQuotes then
        multiLineLoop finish rest rows (currentRow ++ [finish currentField])
          EmptyString inQuotes
      else if (Ascii.eqb char Text.LF
               || (Ascii.eqb char Text.CR && nextIs Text.LF))
              && negb inQuotes then
        let rows' := pushRow rows (currentRow ++ [finish currentField]) in
        match rest with
        | String _ rest' =>
            if Ascii.eqb char Text.CR
            then multiLineLoop finish rest' rows' [] EmptyString inQuotes
            else multiLineLoop finish rest rows' [] EmptyString inQuotes
        | EmptyString =>
            multiLineLoop finish rest rows' [] EmptyString inQuotes
        end
      else if negb (Ascii.eqb char Text.CR) then
        multiLineLoop finish rest rows currentRow
          (Text.push currentField char) inQuotes
      else multiLineLoop finish rest rows currentRow currentField inQuotes
  end.

Definition parseMultiLineCSV (csvText : string) : list (list string) :=
  multiLineLoop Text.trim csvText [] [] EmptyString false.

Definition getCashFlowType (transCode : string) : option CashFlowType :=
  if String.eqb transCode "ACH" then Some deposit
  else if String.eqb transCode "CDIV" then Some dividend
  else if String.eqb transCode "SCAP" then Some capgain
  else if String.eqb transCode "LCAP" then Some capgain
  else if String.eqb transCode "INT" then Some interest
  else None.

(* ================================================================== *)
(** * Dates of the broker files ([convertDateFormat]) *)
(* ================================================================== *)

(** [\d{1,2}] followed by a slash, at the start of [s]: the digits and the
    text after the slash.  Two digits are taken when the second
    character is a digit; the expression then needs the slash, and
    giving one digit back cannot help, since the next character would be
    that digit. *)
Definition digitsThenSlash (s : string) : option (string * string) :=
  match s with
  | String a (String b rest) =>
      if Date.isDigit a then
        if Ascii.eqb b Text.slash then Some (String a EmptyString, rest)
        else if Date.isDigit b then
          match rest with
          | String c rest' =>
              if Ascii.eqb c Text.slash
              then Some (String a (String b EmptyString), rest')
              else None
          | EmptyString => None
          end
        else None
      else None
  | _ => None
  end.

(** [\d{4}] at the start of [s]: the digits and the text after them. *)
Definition fourDigits (s : string) : option (string * string) :=
  match s with
  | String a (String b (String c (String d rest))) =>
      if Date.isDigit a && Date.isDigit b && Date.isDigit c && Date.isDigit d
      then Some (String a (String b (String c (String d EmptyString))), rest)
      else None
  | _ => None
  end.

(** [(\d{1,2})\/(\d{1,2})\/(\d{4})] at the start of [s]: month, day, year
    and the text after the match. *)
Definition slashDate (s : string) : option (string * string * string * string) :=
  match digitsThenSlash s with
  | Some (month, afterMonth) =>
      match digitsThenSlash afterMonth with
      | Some (day, afterDay) =>
          match fourDigits afterDay with
          | Some (year, rest) => Some (month, day, year, rest)
          | None => None
          end
      | None => None
      end
  | None => None
  end.

(** The text after [prefix] when [s] starts with it. *)
Fixpoint afterPrefix (prefix s : string) : option string :=
  match prefix with
  | EmptyString => Some s
  | String p prefix' =>
      match s with
      | String c rest => if Ascii.eqb c p then afterPrefix prefix' rest
                         else None
      | EmptyString => None
      end
  end.

(** Group 1 of the first match of [/as of (\d{1,2}\/\d{1,2}\/\d{4})/]: the
    positions of [s] are tried from the left. *)
Fixpoint asOfMatch (s : string) : option string :=
  let here :=
    match afterPrefix "as of " s with
    | Some date =>
        match slashDate date with
        | Some (month, day, year, _) =>
            Some (month ++ "/" ++ day ++ "/" ++ year)%string
        | None => None
        end
    | None => None
    end in
  match here with
  | Some date => Some date
  | None =>
      match s with
      | String _ rest => asOfMatch rest
      | EmptyString => None
      end
  end.

(** [s.split(' ')[0]]: the text before the first space. *)
Fixpoint beforeSpace (s : string) : string :=
  match s with
  | EmptyString => EmptyString
  | String c rest =>
      if Ascii.eqb c Text.space then EmptyString
      else String c (beforeSpace rest)
  end.

(** [s.padStart(2, '0')]. *)
Definition padStart2 (s : string) : string :=
  match s with
  | EmptyString => "00"%string
  | String _ EmptyString => ("0" ++ s)%string
  | _ => s
  end.

Definition convertDateFormat (dateStr : string) : string :=
  let dateToUse :=
    match asOfMatch dateStr with
    | Some group => group
    | None => beforeSpace dateStr
    end in
  match slashDate dateToUse with
  | Some (month, day, year, EmptyString) =>
      (year ++ "-" ++ padStart2 month ++ "-" ++ padStart2 day)%string
  | _ => dateStr
  end.

(** ** Notions used to state the properties of the tokenizers *)

(** A field wrapped in double quotes. *)
Definition quoted (f : string) : string :=
  String Text.dquote (f ++ String Text.dquote EmptyString).

(** A cell of a line as it is written: a field, in double quotes when
    the flag is set and bare otherwise. *)
Definition renderCell (cell : bool * string) : string :=
  if fst cell then quoted (snd cell) else snd cell.

(** A cell [parseCSVLine] reads back: its field has no double quote, and
    no comma unless the cell is written in double quotes. *)
Definition plainCell (cell : bool * string) : Prop :=
  Text.includesChar Text.dquote (snd cell) = false
  /\ (fst cell = false -> Text.includesChar Text.comma (snd cell) = false).

(** The number of occurrences of [c] in [s]. *)
Fixpoint countChar (c : ascii) (s : string) : nat :=
  match s with
  | EmptyString => 0
  | String c' rest => (if Ascii.eqb c' c then 1 else 0) + countChar c rest
  end.

(** A value as [parseCSVLine] returns it: trimmed, and free of double
    quotes. *)
Definition cleanValue (v : string) : Prop :=
  Text.trim v = v /\ Text.includesChar Text.dquote v = false.

(** [s.split(sep)] for a separator of one character: the pieces of [s]
    between the occurrences of [sep]; there is always at least one. *)
Fixpoint splitOn (sep : ascii) (s : string) : list string :=
  match s with
  | EmptyString => [EmptyString]
  | String c rest =>
      if Ascii.eqb c sep then EmptyString :: splitOn sep rest
      else match splitOn sep rest with
           | first :: others => String c first :: others
           | [] => [String c EmptyString]
           end
  end.

(** Every carriage return of [s] is followed by a line feed. *)
Fixpoint crOnlyBeforeLF (s : string) : bool :=
  match s with
  | EmptyString => true
  | String c rest =>
      (if Ascii.eqb c Text.CR
       then match rest with
            | String next _ => Ascii.eqb next Text.LF
            | EmptyString => false
            end
       else true)
      && crOnlyBeforeLF rest
  end.

(** A row as [parseMultiLineCSV] returns it: some field is not empty,
    and every field is trimmed. *)
Definition cleanRow (row : list string) : Prop :=
  someNonEmpty row = true /\ Forall (fun f => Text.trim f = f) row.

(** The lines of [text] as [parseCSVLine] reads them, the first line
    being read from the state [values], [current] of its loop. *)
Definition linesFrom (text : string) (values : list string)
  (current : string) : list (list string) :=
  match splitOn Text.LF text with
  | first :: others =>
      parseCSVLineLoop first values current false :: map parseCSVLine others
  | [] => []
  end.

(** A small file: a header line ended by a carriage return and a line
    feed, a data row, a blank line and a line of commas and spaces. *)
Definition sampleText : string :=
  ("ticker,date,shares"
   ++ String Text.CR (String Text.LF "AAPL, 1/5/2023 ,10")
   ++ String Text.LF (String Text.LF ", ,"))%string.

(** ** Notions used to state the properties of [convertDateFormat] *)

(** A string of decimal digits. *)
Fixpoint allDigits (s : string) : bool :=
  match s with
  | EmptyString => true
  | String c rest => Date.isDigit c && allDigits rest
  end.

(** The number a string of decimal digits denotes. *)
Definition numberOf (s : string) : Z :=
  fold_left (fun n c => (10 * n + Date.digit c)%Z) (list_ascii_of_string s)
    0%Z.

(** One or two decimal digits. *)
Definition oneOrTwoDigits (s : string) : Prop :=
  allDigits s = true /\ (String.length s = 1 \/ String.length s = 2)%nat.

(** Four decimal digits. *)
Definition fourDigitYear (s : string) : Prop :=
  allDigits s = true /\ String.length s = 4%nat.

(** A date as the broker files write it: month, day and year between
    slashes. *)
Definition slashForm (month day year : string) : string :=
  (month ++ "/" ++ day ++ "/" ++ year)%string.

(** The letter a, with which the words [as of] start. *)
Definition letterA : ascii := "a"%char.

(** The date [convertDateFormat] builds from the groups of a match. *)
Definition isoForm (month day year : string) : string :=
  (year ++ "-" ++ padStart2 month ++ "-" ++ padStart2 day)%string.

(* ================================================================== *)
(** * Filling in missing prices ([hooks/useStockData], [loadData]) *)
(* ================================================================== *)

(** The callback of [trades.map] in [loadData]: a trade without a price
    gets the day high of its ticker on its date, and [0] when the ticker
    has no price at all. *)
Definition fillPrice (stockPrices : dict (list StockPrice.t))
  (trade : Trade.t) : outcome Trade.t :=
  match Trade.price trade with
  | Some _ => Ok trade
  | None =>
      let tickerPrices := dgetOrEmpty stockPrices (Trade.ticker trade) in
      highPrice <- getHighPriceOnDate tickerPrices (Trade.date trade) ;;
      Ok (Trade.mk (Trade.id trade) (Trade.ticker trade) (Trade.date trade)
            (Trade.shares trade) (Some (Num.orElse highPrice Num.zero))
            (Trade.type trade))
  end.

(** [tradesWithPrices]. *)
Definition tradesWithPrices (stockPrices : dict (list StockPrice.t))
  (trades : list Trade.t) : outcome (list Trade.t) :=
  mapM (fillPrice stockPrices) trades.

(* ================================================================== *)
(** * [parseFloat]

    The longest prefix of the text, after leading white space, that is a
    decimal literal: an optional sign, then [Infinity] or digits with an
    optional fraction and an optional exponent.  The value is exact. *)
(* ================================================================== *)

(** The longest prefix of decimal digits, and the text after it. *)
Fixpoint digitsPrefix (s : string) : string * string :=
  match s with
  | EmptyString => (EmptyString, EmptyString)
  | String c rest =>
      if Date.isDigit c
      then let (digits, after) := digitsPrefix rest in (String c digits, after)
      else (EmptyString, s)
  end.

(** The exponent an exponent part at the start of [s] denotes: the
    letter e, an optional sign and at least one digit.  It is [0] when
    [s] does not start with an exponent part. *)
Definition exponentPart (s : string) : Z :=
  match s with
  | String e rest =>
      if Ascii.eqb e "e" || Ascii.eqb e "E" then
        match rest with
        | String sign rest' =>
            if Ascii.eqb sign "+" then numberOf (fst (digitsPrefix rest'))
            else if Ascii.eqb sign "-"
            then (- numberOf (fst (digitsPrefix rest')))%Z
            else numberOf (fst (digitsPrefix rest))
        | EmptyString => 0%Z
        end
      else 0%Z
  | EmptyString => 0%Z
  end.

(** The number with the digits [int] before the point, the digits [frac]
    after it and the exponent [exponent]. *)
Definition decimalValue (int frac : string) (exponent : Z) : number :=
  Fin (Q2Qc (inject_Z (numberOf (int ++ frac))
             * Qpower (inject_Z 10)
                 (exponent - Z.of_nat (String.length frac)))).

(** The value of the longest unsigned decimal literal at the start of
    [s], if there is one. *)
Definition unsignedLiteral (s : string) : option number :=
  if String.prefix "Infinity" s then Some PosInf
  else
    let (int, afterInt) := digitsPrefix s in
    let (frac, afterFrac) :=
      match afterInt with
      | String c afterPoint =>
          if Ascii.eqb c "." then digitsPrefix afterPoint
          else (EmptyString, afterInt)
      | EmptyString => (EmptyString, afterInt)
      end in
    if Text.truthy int || Text.truthy frac
    then Some (decimalValue int frac (exponentPart afterFrac))
    else None.

Definition parseFloat (s : string) : number :=
  let trimmed := Text.trimStart s in
  let (negative, unsigned) :=
    match trimmed with
    | String sign rest =>
        if Ascii.eqb sign "+" then (false, rest)
        else if Ascii.eqb sign "-" then (true, rest)
        else (false, trimmed)
    | EmptyString => (false, trimmed)
    end in
  match unsignedLiteral unsigned with
  | Some value => if negative then Num.neg value else value
  | None => NaN
  end.

(** [parseFloat(x)] for a value that may be [undefined]: the text
    [undefined] is not a number. *)
Definition parseFloatOpt (x : option string) : number :=
  match x with
  | Some s => parseFloat s
  | None => NaN
  end.

(** [x ? parseFloat(x) : NaN]. *)
Definition parseFloatIfTruthy (x : option string) : number :=
  match x with
  | Some s => if Text.truthy s then parseFloat s else NaN
  | None => NaN
  end.

Definition isNaN (a : number) : bool :=
  match a with NaN => true | _ => false end.

(** [a === 0]. *)
Definition isZero (a : number) : bool :=
  match a with
  | Fin q => match Num.sign q with Eq => true | _ => false end
  | _ => false
  end.

Definition Math_abs (a : number) : number :=
  match a with
  | Fin q => match Num.sign q with Lt => Fin (Qcopp q) | _ => a end
  | NegInf => PosInf
  | _ => a
  end.

(* ================================================================== *)
(** * Rows and records of the parsers ([utils/parsers]) *)
(* ================================================================== *)

Inductive CsvFormat :=
| robinhoodFormat | fidelityFormat | schwabFormat | simpleFormat.

Module PortfolioData.
Record t := mk {
  trades : list Trade.t;
  cashFlows : list CashFlow.t;
  format : CsvFormat
}.
End PortfolioData.

(** What a parser does: it returns a value, or throws an [Error] with a
    message, or throws a [TypeError] by calling a method of
    [undefined]. *)
Inductive parsed (A : Type) : Type :=
| Parsed (a : A)
| ErrorThrown (message : string)
| TypeErrorThrown.

Arguments Parsed {A} a.
Arguments ErrorThrown {A} message.
Arguments TypeErrorThrown {A}.

(** [values[i]]: [undefined] outside the array. *)
Definition valueAt (values : list string) (i : Z) : option string :=
  if (i <? 0)%Z then None else nth_error values (Z.to_nat i).

Fixpoint indexOfFrom (header : list string) (name : string) (i : Z) : Z :=
  match header with
  | [] => (-1)%Z
  | h :: rest =>
      if String.eqb h name then i else indexOfFrom rest name (i + 1)%Z
  end.

(** [header.indexOf(name)]. *)
Definition indexOf (header : list string) (name : string) : Z :=
  indexOfFrom header name 0%Z.

(** [header.includes(name)]. *)
Definition hasColumn (header : list string) (name : string) : bool :=
  existsb (fun h => String.eqb h name) header.

(** Truthiness of a string that may be [undefined]. *)
Definition truthyOpt (x : option string) : bool :=
  match x with
  | Some s => Text.truthy s
  | None => false
  end.

(** [x || '']. *)
Definition orEmpty (x : option string) : string :=
  match x with
  | Some s => s
  | None => EmptyString
  end.

(** [if (ticker === 'FB') ticker = 'META']. *)
Definition renameFB (ticker : string) : string :=
  if String.eqb ticker "FB" then "META"%string else ticker.

(** [`${ticker}-${date}-${i}`]. *)
Definition tradeId (ticker date : string) (i : nat) : string :=
  (ticker ++ "-" ++ date ++ "-" ++ Text.ofNat i)%string.

(** [`cashflow-${date}-${i}`]. *)
Definition cashFlowId (date : string) (i : nat) : string :=
  ("cashflow-" ++ date ++ "-" ++ Text.ofNat i)%string.

(** [type === 'buy']. *)
Definition isBuy (type : TradeType) : bool :=
  match type with buy => true | sell => false end.

(** [...(isNaN(price) ? {} : { price })]. *)
Definition priceUnlessNaN (price : number) : option number :=
  if isNaN price then None else Some price.

(** [...(ticker ? { ticker } : {})]. *)
Definition tickerIfTruthy (ticker : option string) : option string :=
  if truthyOpt ticker then ticker else None.

(** [for (let i = start; ...; i++)] over the elements from [start] on,
    threading the arrays [trades] and [cashFlows]. *)
Fixpoint forRows {A St} (body : nat -> A -> St -> St) (i : nat)
  (xs : list A) (s : St) : St :=
  match xs with
  | [] => s
  | x :: rest => forRows body (S i) rest (body i x s)
  end.

(** The same loop with a body that can throw. *)
Fixpoint forRowsThrowing {A St} (body : nat -> A -> St -> parsed St)
  (i : nat) (xs : list A) (s : St) : parsed St :=
  match xs with
  | [] => Parsed s
  | x :: rest =>
      match body i x s with
      | Parsed s' => forRowsThrowing body (S i) rest s'
      | ErrorThrown message => ErrorThrown message
      | TypeErrorThrown => TypeErrorThrown
      end
  end.

(* ================================================================== *)
(** * Robinhood ([utils/parsers/robinhood.ts]) *)
(* ================================================================== *)

Definition isRobinhoodFormat (header : list string) : bool :=
  let lowerHeader := map Text.toLowerCase header in
  hasColumn lowerHeader "activity date"
  && hasColumn lowerHeader "instrument"
  && hasColumn lowerHeader "trans code".

(** [getCashFlowType(transCode)] for a code that may be [undefined]. *)
Definition cashFlowTypeOf (transCode : option string) : option CashFlowType :=
  match transCode with
  | Some code => getCashFlowType code
  | None => None
  end.

(** The characters of [/[$(),]/]. *)
Definition isMoneyMark (c : ascii) : bool :=
  Ascii.eqb c "$" || Ascii.eqb c "(" || Ascii.eqb c ")" || Ascii.eqb c ",".

(** [transCode === code] for a code that may be [undefined]. *)
Definition codeIs (transCode : option string) (code : string) : bool :=
  match transCode with
  | Some c => String.eqb c code
  | None => false
  end.

(** The body of the loop of [parseRobinhoodCSV] for the row [values] of
    index [i]; [header] is the lower-cased first row. *)
Definition robinhoodRow (header : list string) (i : nat)
  (values : list string) (acc : list Trade.t * list CashFlow.t)
  : list Trade.t * list CashFlow.t :=
  let dateIndex := indexOf header "activity date" in
  let instrumentIndex := indexOf header "instrument" in
  let transCodeIndex := indexOf header "trans code" in
  let quantityIndex := indexOf header "quantity" in
  let priceIndex := indexOf header "price" in
  let amountIndex := indexOf header "amount" in
  let (trades, cashFlows) := acc in
  let transCode := valueAt values transCodeIndex in
  match valueAt values dateIndex with
  | None => acc
  | Some dateRaw =>
      if negb (Text.truthy dateRaw) then acc
      else
        let date := convertDateFormat dateRaw in
        match cashFlowTypeOf transCode with
        | Some cashFlowType =>
            let amountRaw :=
              option_map (Text.removeChars isMoneyMark)
                (valueAt values amountIndex) in
            let amount := parseFloatOpt amountRaw in
            if negb (isNaN amount) && Num.gtb amount Num.zero then
              let ticker :=
                option_map (fun v => renameFB (Text.toUpperCase v))
                  (valueAt values instrumentIndex) in
              (trades,
               cashFlows
               ++ [CashFlow.mk (cashFlowId date i) date amount cashFlowType
                     (tickerIfTruthy ticker)])
            else acc
        | None =>
            if negb (codeIs transCode "Buy") && negb (codeIs transCode "Sell")
               && negb (codeIs transCode "SPL") then acc
            else
              match option_map Text.toUpperCase
                      (valueAt values instrumentIndex) with
              | None => acc
              | Some upper =>
                  if negb (Text.truthy upper) then acc
                  else
                    let ticker := renameFB upper in
                    let quantityRaw := valueAt values quantityIndex in
                    let priceRaw :=
                      option_map (Text.removeFirst "$")
                        (valueAt values priceIndex) in
                    let quantity := parseFloatOpt quantityRaw in
                    let price := parseFloatIfTruthy priceRaw in
                    if isNaN quantity || Num.leb quantity Num.zero then acc
                    else if codeIs transCode "SPL" then
                      (trades
                       ++ [Trade.mk (tradeId ticker date i ++ "-split")
                             ticker date quantity (Some Num.zero) buy],
                       cashFlows)
                    else
                      (trades
                       ++ [Trade.mk (tradeId ticker date i) ticker date
                             quantity (priceUnlessNaN price)
                             (if codeIs transCode "Buy" then buy else sell)],
                       cashFlows)
              end
        end
  end.

Definition parseRobinhoodCSV (csvText : string) : PortfolioData.t :=
  let rows := parseMultiLineCSV csvText in
  match rows with
  | first :: dataRows =>
      if (len rows <? 2)%Z then PortfolioData.mk [] [] robinhoodFormat
      else
        let header := map Text.toLowerCase first in
        let (trades, cashFlows) :=
          forRows (robinhoodRow header) 1 dataRows ([], []) in
        PortfolioData.mk trades cashFlows robinhoodFormat
  | [] => PortfolioData.mk [] [] robinhoodFormat
  end.

(* ================================================================== *)
(** * Fidelity ([utils/parsers/fidelity.ts]) *)
(* ================================================================== *)

Definition isFidelityFormat (header : list string) : bool :=
  let lowerHeader := map Text.toLowerCase header in
  hasColumn lowerHeader "run date"
  && hasColumn lowerHeader "action"
  && hasColumn lowerHeader "symbol"
  && hasColumn lowerHeader "amount ($)".

(** The characters of [/[$,]/]. *)
Definition isDollarOrComma (c : ascii) : bool :=
  Ascii.eqb c "$" || Ascii.eqb c ",".

(** [symbol === 'FDRXX' || symbol === 'SPAXX']: the money market
    funds. *)
Definition isMoneyMarket (symbol : string) : bool :=
  String.eqb symbol "FDRXX" || String.eqb symbol "SPAXX".

(** [...(isNaN(price) || price === 0 ? {} : { price })]. *)
Definition priceUnlessNaNOrZero (price : number) : option number :=
  if isNaN price || isZero price then None else Some price.

(** The body of the loop of [parseFidelityCSV] for the row [values] of
    index [i]; [header] is the lower-cased first row. *)
Definition fidelityRow (header : list string) (i : nat)
  (values : list string) (acc : list Trade.t * list CashFlow.t)
  : list Trade.t * list CashFlow.t :=
  let runDateIndex := indexOf header "run date" in
  let actionIndex := indexOf header "action" in
  let symbolIndex := indexOf header "symbol" in
  let priceIndex := indexOf header "price ($)" in
  let quantityIndex := indexOf header "quantity" in
  let amountIndex := indexOf header "amount ($)" in
  let (trades, cashFlows) := acc in
  let action := orEmpty (option_map Text.trim (valueAt values actionIndex)) in
  match option_map Text.trim (valueAt values runDateIndex) with
  | None => acc
  | Some dateRaw =>
      if negb (Text.truthy dateRaw)
         || negb (Text.includesChar Text.slash dateRaw) then acc
      else
        let date := convertDateFormat dateRaw in
        let symbol :=
          renameFB
            (orEmpty (option_map (fun v => Text.trim (Text.toUpperCase v))
                        (valueAt values symbolIndex))) in
        let priceRaw :=
          option_map (Text.removeChars isDollarOrComma)
            (valueAt values priceIndex) in
        let quantityRaw :=
          option_map (Text.removeChars (fun c => Ascii.eqb c Text.comma))
            (valueAt values quantityIndex) in
        let amountRaw :=
          option_map (Text.removeChars isDollarOrComma)
            (valueAt values amountIndex) in
        let price := parseFloatIfTruthy priceRaw in
        let quantity := parseFloatIfTruthy quantityRaw in
        let amount := parseFloatIfTruthy amountRaw in
        let actionUpper := Text.toUpperCase action in
        if Text.startsWith actionUpper "YOU BOUGHT"
           || Text.startsWith actionUpper "REINVESTMENT" then
          if negb (Text.truthy symbol) || isNaN quantity
             || Num.leb quantity Num.zero then acc
          else if isMoneyMarket symbol then acc
          else
            (trades
             ++ [Trade.mk (tradeId symbol date i) symbol date
                   (Math_abs quantity) (priceUnlessNaNOrZero price) buy],
             cashFlows)
        else if Text.startsWith actionUpper "YOU SOLD" then
          if negb (Text.truthy symbol) || isNaN quantity then acc
          else if isMoneyMarket symbol then acc
          else
            (trades
             ++ [Trade.mk (tradeId symbol date i) symbol date
                   (Math_abs quantity) (priceUnlessNaNOrZero price) sell],
             cashFlows)
        else if String.eqb action "Contributions" then
          let cashFlows' :=
            if negb (isNaN amount) && Num.gtb amount Num.zero
            then cashFlows
                 ++ [CashFlow.mk (cashFlowId date i) date amount deposit None]
            else cashFlows in
          if negb (Text.truthy symbol)
             && truthyOpt (valueAt values (indexOf header "description"))
          then (trades, cashFlows')
          else if negb (Text.truthy symbol) || isNaN quantity
                  || Num.leb quantity Num.zero then (trades, cashFlows')
          else
            (trades
             ++ [Trade.mk (tradeId symbol date i) symbol date quantity
                   (priceUnlessNaNOrZero price) buy],
             cashFlows')
        else if Text.includes actionUpper "ELECTRONIC FUNDS TRANSFER RECEIVED"
                || Text.includes actionUpper "TRANSFERRED FROM TO BROKERAGE"
        then
          if isNaN amount || Num.leb amount Num.zero then acc
          else
            (trades,
             cashFlows
             ++ [CashFlow.mk (cashFlowId date i) date amount deposit None])
        else if Text.startsWith actionUpper "DIVIDEND RECEIVED" then
          if isNaN amount || Num.leb amount Num.zero then acc
          else if isMoneyMarket symbol then acc
          else
            (trades,
             cashFlows
             ++ [CashFlow.mk (cashFlowId date i) date amount dividend
                   (if Text.truthy symbol then Some symbol else None)])
        else acc
  end.

Definition parseFidelityCSV (csvText : string) : PortfolioData.t :=
  let rows := parseMultiLineCSV csvText in
  match rows with
  | first :: dataRows =>
      if (len rows <? 2)%Z then PortfolioData.mk [] [] fidelityFormat
      else
        let header := map Text.toLowerCase first in
        let (trades, cashFlows) :=
          forRows (fidelityRow header) 1 dataRows ([], []) in
        PortfolioData.mk trades cashFlows fidelityFormat
  | [] => PortfolioData.mk [] [] fidelityFormat
  end.

(* ================================================================== *)
(** * Schwab ([utils/parsers/schwab.ts]) *)
(* ================================================================== *)

Definition isSchwabFormat (header : list string) : bool :=
  let lowerHeader := map Text.toLowerCase header in
  hasColumn lowerHeader "action"
  && hasColumn lowerHeader "symbol"
  && hasColumn lowerHeader "quantity".

(** The body of the loop of [parseSchwabCSV] for the line of index
    [i]. *)
Definition schwabRow (header : list string) (i : nat) (rawLine : string)
  (acc : list Trade.t * list CashFlow.t) : list Trade.t * list CashFlow.t :=
  let dateIndex := indexOf header "date" in
  let actionIndex := indexOf header "action" in
  let symbolIndex := indexOf header "symbol" in
  let quantityIndex := indexOf header "quantity" in
  let priceIndex := indexOf header "price" in
  let (trades, cashFlows) := acc in
  let line := Text.trim rawLine in
  if negb (Text.truthy line) then acc
  else
    let values := parseCSVLine line in
    let action := valueAt values actionIndex in
    if negb (codeIs action "Stock Plan Activity")
       && negb (codeIs action "Reinvest Shares") then acc
    else
      let symbol :=
        option_map (fun v => renameFB (Text.toUpperCase v))
          (valueAt values symbolIndex) in
      let dateRaw := valueAt values dateIndex in
      let quantity := parseFloatOpt (valueAt values quantityIndex) in
      let priceRaw :=
        option_map (Text.removeFirst "$") (valueAt values priceIndex) in
      let price := parseFloatIfTruthy priceRaw in
      match symbol, dateRaw with
      | Some symbol, Some dateRaw =>
          if negb (Text.truthy symbol) || negb (Text.truthy dateRaw)
             || isNaN quantity || Num.leb quantity Num.zero then acc
          else
            let date := convertDateFormat dateRaw in
            (trades
             ++ [Trade.mk (tradeId symbol date i) symbol date quantity
                   (priceUnlessNaN price) buy],
             if negb (isNaN price) && Num.gtb price Num.zero
             then cashFlows
                  ++ [CashFlow.mk (cashFlowId date i) date
                        (Num.mul quantity price) deposit None]
             else cashFlows)
      | _, _ => acc
      end.

(** [lines[0]] is read as a line: without a first line the call of
    [parseCSVLine] throws. *)
Definition parseSchwabCSV (lines : list string) : parsed PortfolioData.t :=
  match lines with
  | first :: dataLines =>
      let header := map Text.toLowerCase (parseCSVLine first) in
      let (trades, cashFlows) :=
        forRows (schwabRow header) 1 dataLines ([], []) in
      Parsed (PortfolioData.mk trades cashFlows schwabFormat)
  | [] => TypeErrorThrown
  end.

(* ================================================================== *)
(** * The simple format ([utils/parsers/simple.ts]) *)
(* ================================================================== *)

(** The body of the loop of [parseSimpleCSV] for the line of index [i].
    [convertDateFormat] is called on [values[dateIndex]] before any
    check: on a line with too few values the call throws. *)
Definition simpleRow (header : list string) (i : nat) (rawLine : string)
  (acc : list Trade.t * list CashFlow.t)
  : parsed (list Trade.t * list CashFlow.t) :=
  let tickerIndex := indexOf header "ticker" in
  let dateIndex := indexOf header "date" in
  let sharesIndex := indexOf header "shares" in
  let priceIndex := indexOf header "price" in
  let typeIndex := indexOf header "type" in
  let (trades, cashFlows) := acc in
  let line := Text.trim rawLine in
  if negb (Text.truthy line) then Parsed acc
  else
    let values := parseCSVLine line in
    let ticker := option_map Text.toUpperCase (valueAt values tickerIndex) in
    match valueAt values dateIndex with
    | None => TypeErrorThrown
    | Some dateRaw =>
        let date := convertDateFormat dateRaw in
        let shares := parseFloatOpt (valueAt values sharesIndex) in
        let price :=
          if negb (priceIndex =? -1)%Z
          then parseFloatOpt (valueAt values priceIndex) else NaN in
        let typeRaw :=
          if negb (typeIndex =? -1)%Z
          then option_map Text.toLowerCase (valueAt values typeIndex)
          else Some "buy"%string in
        let type := if codeIs typeRaw "sell" then sell else buy in
        match ticker with
        | None => Parsed acc
        | Some ticker =>
            if negb (Text.truthy ticker) || negb (Text.truthy date)
               || isNaN shares then Parsed acc
            else
              Parsed
                (trades
                 ++ [Trade.mk (tradeId ticker date i) ticker date shares
                       (priceUnlessNaN price) type],
                 if isBuy type && negb (isNaN price)
                    && Num.gtb price Num.zero
                 then cashFlows
                      ++ [CashFlow.mk (cashFlowId date i) date
                            (Num.mul shares price) deposit None]
                 else cashFlows)
        end
    end.

Definition parseSimpleCSV (lines : list string) : parsed PortfolioData.t :=
  match lines with
  | first :: dataLines =>
      let header := map Text.toLowerCase (parseCSVLine first) in
      if (indexOf header "ticker" =? -1)%Z || (indexOf header "date" =? -1)%Z
         || (indexOf header "shares" =? -1)%Z
      then ErrorThrown
             "CSV must have columns: ticker, date, shares (price and type are optional)"
      else
        match forRowsThrowing (simpleRow header) 1 dataLines ([], []) with
        | Parsed (trades, cashFlows) =>
            Parsed (PortfolioData.mk trades cashFlows simpleFormat)
        | ErrorThrown message => ErrorThrown message
        | TypeErrorThrown => TypeErrorThrown
        end
  | [] => TypeErrorThrown
  end.

(* ================================================================== *)
(** * Choosing the parser ([utils/csvParser.ts])

    The calls of the performance logger are omitted. *)
(* ================================================================== *)

Definition parseCSV (csvText : string) : parsed PortfolioData.t :=
  let lines := splitOn Text.LF (Text.trim csvText) in
  match lines with
  | first :: _ =>
      if (len lines <? 2)%Z
      then ErrorThrown "CSV must have a header row and at least one data row"
      else
        let header := parseCSVLine first in
        if isRobinhoodFormat header then Parsed (parseRobinhoodCSV csvText)
        else if isFidelityFormat header then Parsed (parseFidelityCSV csvText)
        else if isSchwabFormat header then parseSchwabCSV lines
        else parseSimpleCSV lines
  | [] => ErrorThrown "CSV must have a header row and at least one data row"
  end.

(* ================================================================== *)
(** * Notions used to state the properties of the parsers and of the
      price filling *)
(* ================================================================== *)

(** The trade [t] with the price [p]. *)
Definition withPrice (t : Trade.t) (p : number) : Trade.t :=
  Trade.mk (Trade.id t) (Trade.ticker t) (Trade.date t) (Trade.shares t)
    (Some p) (Trade.type t).

(** The day high of the entry the series of the ticker of [t] has for
    the date of [t]: the last entry, in array order, dated on or before
    it, or the first entry when there is none; the price of the entry
    when it has no day high; [0] when the ticker has no entry at all. *)
Definition dayHighOf (stockPrices : dict (list StockPrice.t)) (t : Trade.t)
  : number :=
  match clampLookup (onOrBeforeDate (Trade.date t))
          (dgetOrEmpty stockPrices (Trade.ticker t)) with
  | Some e => Num.orElse (StockPrice.high e) (StockPrice.price e)
  | None => Num.zero
  end.

(** A trade as [loadData] passes it to the engines. *)
Definition filledTrade (stockPrices : dict (list StockPrice.t))
  (t : Trade.t) : Trade.t :=
  match Trade.price t with
  | Some _ => t
  | None => withPrice t (dayHighOf stockPrices t)
  end.

(** [a > 0]. *)
Definition aboveZero (a : number) : Prop := Num.gtb a Num.zero = true.

(** The records a loop over the rows of index [lo] up to [lo + n - 1]
    has pushed to one of its arrays: each record was pushed by one row,
    [made i r] holding for the index [i] of that row; the rows of the
    records are in increasing order, so that no row pushed two of
    them. *)
Definition pushedBy {R} (made : nat -> R -> Prop) (lo n : nat)
  (records : list R) : Prop :=
  exists rows : list nat,
    Forall2 made rows records
    /\ StronglySorted lt rows
    /\ Forall (fun i => lo <= i < lo + n)%nat rows.

(** A trade pushed by the row of index [i] of a Robinhood file: a buy or
    a sell, or the shares of a split, bought at the price [0]. *)
Definition robinhoodTrade (i : nat) (t : Trade.t) : Prop :=
  Trade.ticker t <> EmptyString /\ Trade.ticker t <> "FB"%string
  /\ Trade.date t <> EmptyString
  /\ aboveZero (Trade.shares t)
  /\ Trade.price t <> Some NaN
  /\ (Trade.id t = tradeId (Trade.ticker t) (Trade.date t) i
      \/ (Trade.id t
          = (tradeId (Trade.ticker t) (Trade.date t) i ++ "-split")%string
          /\ Trade.type t = buy /\ Trade.price t = Some Num.zero)).

(** A cash flow pushed by the row of index [i] of a Robinhood file. *)
Definition robinhoodCashFlow (i : nat) (c : CashFlow.t) : Prop :=
  CashFlow.date c <> EmptyString
  /\ aboveZero (CashFlow.amount c)
  /\ CashFlow.ticker c <> Some EmptyString
  /\ CashFlow.ticker c <> Some "FB"%string
  /\ CashFlow.id c = cashFlowId (CashFlow.date c) i.

(** A price field that holds a number other than [NaN] and [0], when it
    is present. *)
Definition realPrice (price : option number) : Prop :=
  forall p, price = Some p -> isNaN p = false /\ isZero p = false.

(** A trade pushed by the row of index [i] of a Fidelity file. *)
Definition fidelityTrade (i : nat) (t : Trade.t) : Prop :=
  Trade.ticker t <> EmptyString /\ Trade.ticker t <> "FB"%string
  /\ Trade.date t <> EmptyString
  /\ Num.le Num.zero (Trade.shares t)
  /\ (Trade.type t = buy -> aboveZero (Trade.shares t))
  /\ (Trade.type t = sell -> isMoneyMarket (Trade.ticker t) = false)
  /\ realPrice (Trade.price t)
  /\ Trade.id t = tradeId (Trade.ticker t) (Trade.date t) i.

(** A cash flow pushed by the row of index [i] of a Fidelity file: a
    deposit without a ticker, or a dividend, whose ticker is not a
    money market fund. *)
Definition fidelityCashFlow (i : nat) (c : CashFlow.t) : Prop :=
  CashFlow.date c <> EmptyString
  /\ aboveZero (CashFlow.amount c)
  /\ ((CashFlow.type c = deposit /\ CashFlow.ticker c = None)
      \/ (CashFlow.type c = dividend
          /\ forall s, CashFlow.ticker c = Some s ->
               s <> EmptyString /\ s <> "FB"%string
               /\ isMoneyMarket s = false))
  /\ CashFlow.id c = cashFlowId (CashFlow.date c) i.

(** A buy with a price above [0]: the trades for which the Schwab and
    the simple parser synthesize a deposit. *)
Definition pricedBuy (t : Trade.t) : bool :=
  isBuy (Trade.type t)
  && match Trade.price t with
     | Some p => Num.gtb p Num.zero
     | None => false
     end.

(** [c] is the deposit synthesized for the trade [t]: it has the date of
    the trade, no ticker, and the amount is shares times price. *)
Definition depositOf (t : Trade.t) (c : CashFlow.t) : Prop :=
  CashFlow.type c = deposit /\ CashFlow.ticker c = None
  /\ CashFlow.date c = Trade.date t
  /\ exists p,
       Trade.price t = Some p
       /\ CashFlow.amount c = Num.mul (Trade.shares t) p.

(** A trade pushed by the line of index [i] of a Schwab file. *)
Definition schwabTrade (i : nat) (t : Trade.t) : Prop :=
  Trade.ticker t <> EmptyString /\ Trade.ticker t <> "FB"%string
  /\ Trade.date t <> EmptyString
  /\ aboveZero (Trade.shares t)
  /\ Trade.price t <> Some NaN
  /\ Trade.type t = buy
  /\ Trade.id t = tradeId (Trade.ticker t) (Trade.date t) i.

(** A trade pushed by the line of index [i] of a file in the simple
    format. *)
Definition simpleTrade (i : nat) (t : Trade.t) : Prop :=
  Trade.ticker t <> EmptyString
  /\ Trade.date t <> EmptyString
  /\ Trade.shares t <> NaN
  /\ Trade.price t <> Some NaN
  /\ Trade.id t = tradeId (Trade.ticker t) (Trade.date t) i.

(** A deposit synthesized by the line of index [i]. *)
Definition synthesizedDeposit (i : nat) (c : CashFlow.t) : Prop :=
  CashFlow.type c = deposit /\ CashFlow.ticker c = None
  /\ CashFlow.id c = cashFlowId (CashFlow.date c) i.

(** The deposits are those of the priced buys among the trades, in the
    order of the trades. *)
Definition depositsMirror (acc : list Trade.t * list CashFlow.t) : Prop :=
  Forall2 depositOf (filter pricedBuy (fst acc)) (snd acc).

(** A line of a file in the simple format that makes the parser throw:
    it is not blank, and it has no value at the position of the date
    column. *)
Definition shortLine (header : list string) (rawLine : string) : bool :=
  Text.truthy (Text.trim rawLine)
  && (len (parseCSVLine (Text.trim rawLine)) <=? indexOf header "date")%Z.

(** The message of the simple parser for a header without one of the
    required columns. *)
Definition missingColumns : string :=
  "CSV must have columns: ticker, date, shares (price and type are optional)".

(** A number that is [0] or more: not below [0] and not [NaN]. *)
Definition zeroOrMore (a : number) : Prop := Num.leb Num.zero a = true.

(** A deposit synthesized by the line of index [i] of a Schwab file: its
    amount, the product of a quantity and a price that are both above
    [0], is [0] or more. *)
Definition vestDeposit (i : nat) (c : CashFlow.t) : Prop :=
  synthesizedDeposit i c /\ zeroOrMore (CashFlow.amount c).

(** An id that ends with the index [i] of its row, or with the index
    followed by [-split]. *)
Definition rowId (i : nat) (id : string) : Prop :=
  exists stem,
    id = (stem ++ "-" ++ Text.ofNat i)%string
    \/ id = (stem ++ "-" ++ Text.ofNat i ++ "-split")%string.

(** The hyphen. *)
Definition hyphen : ascii := "-"%char.

(** A trade the engines can use: it has a ticker and a date, and neither
    its shares nor its price are [NaN]. *)
Definition usableTrade (t : Trade.t) : Prop :=
  Trade.ticker t <> EmptyString /\ Trade.date t <> EmptyString
  /\ Trade.shares t <> NaN /\ Trade.price t <> Some NaN.

(** The header the Schwab and the simple parser read from the first
    line. *)
Definition lowerHeader (first : string) : list string :=
  map Text.toLowerCase (parseCSVLine first).

(** The message of [parseCSV] for a text of fewer than two lines. *)
Definition headerRowMissing : string :=
  "CSV must have a header row and at least one data row".

(** The lines [parseCSV] splits the text into, and the header it reads
    from the first of them. *)
Definition linesOf (csvText : string) : list string :=
  splitOn Text.LF (Text.trim csvText).

Definition headerOf (csvText : string) : list string :=
  parseCSVLine (hd EmptyString (linesOf csvText)).

(** The format [parseCSV] detects: the first of Robinhood, Fidelity and
    Schwab whose columns the header has, and the simple format
    otherwise. *)
Definition detectedFormat (header : list string) : CsvFormat :=
  if isRobinhoodFormat header then robinhoodFormat
  else if isFidelityFormat header then fidelityFormat
  else if isSchwabFormat header then schwabFormat
  else simpleFormat.

(** A small file in the simple format: a header, a priced buy written
    with a slash date, a buy without a price, a blank line and a line
    whose shares are not a number. *)
Definition simpleSample : list string :=
  ["Ticker,Date,Shares,Price"%string; "aapl,1/5/2023,10,142.50"%string;
   "fb,2023-02-20,5,"%string; EmptyString; "msft,2023-03-10,x,1"%string].

(* ================================================================== *)
(** * Writing a merged file ([utils/csvMerger.ts]) *)
(* ================================================================== *)

Module Merger.

(** The global [replace] of [escapeCSVField]: every double quote is
    doubled. *)
Fixpoint doubleQuotes (field : string) : string :=
  match field with
  | EmptyString => EmptyString
  | String c rest =>
      if Ascii.eqb c Text.dquote
      then String Text.dquote (String Text.dquote (doubleQuotes rest))
      else String c (doubleQuotes rest)
  end.

Definition escapeCSVField (field : string) : string :=
  if Text.includesChar Text.comma field
     || Text.includesChar Text.dquote field
     || Text.includesChar Text.LF field
  then quoted (doubleQuotes field)
  else field.

(** [parts.join(sep)] for a separator of one character. *)
Fixpoint join (sep : ascii) (parts : list string) : string :=
  match parts with
  | [] => EmptyString
  | part :: rest =>
      match rest with
      | [] => part
      | _ :: _ => part ++ String sep (join sep rest)
      end
  end.

(** The line [exportCSV] writes for a row. *)
Definition lineOf (row : list string) : string :=
  join Text.comma (map escapeCSVField row).

Definition exportCSV (headers : list string) (rows : list (list string))
  : string :=
  join Text.LF (lineOf headers :: map lineOf rows).

(** The tokenizer of [csvMerger.ts]: the loop of the one of
    [parsers/shared.ts], with the fields pushed as they are. *)
Definition parseMultiLineCSV (csvText : string) : list (list string) :=
  multiLineLoop (fun field => field) csvText [] [] EmptyString false.

Module UploadedFile.
Record t := mk {
  name : string;
  headers : list string;
  rows : list (list string);
  rowCount : Z
}.
End UploadedFile.

Module DuplicateInfo.
Record t := mk {
  file1 : string;
  row1 : Z;
  file2 : string;
  row2 : Z;
  content : string;
  key : string
}.
End DuplicateInfo.

(** The entries of the map [seen] of [findDuplicates]. *)
Module SeenRow.
Record t := mk {
  file : string;
  rowNum : Z;
  row : list string
}.
End SeenRow.

(** What [mergeCSVs] returns. *)
Module MergedCSV.
Record t := mk {
  headers : list string;
  rows : list (list string)
}.
End MergedCSV.

(** [parts.join(sep)]. *)
Fixpoint joinWith (sep : string) (parts : list string) : string :=
  match parts with
  | [] => EmptyString
  | part :: rest =>
      match rest with
      | [] => part
      | _ :: _ => part ++ sep ++ joinWith sep rest
      end
  end.

(** [row[i] || '']. *)
Definition cell (row : list string) (i : Z) : string :=
  orEmpty (valueAt row i).

(** [p.trim().toLowerCase()]. *)
Definition keyPart (p : string) : string := Text.toLowerCase (Text.trim p).

(** The key is a string in every branch, never [null]. *)
Definition createDuplicateKey (row headers : list string) : string :=
  let lowerHeaders := map Text.toLowerCase headers in
  let dateIdx := indexOf lowerHeaders "activity date" in
  let tickerIdx := indexOf lowerHeaders "instrument" in
  let transCodeIdx := indexOf lowerHeaders "trans code" in
  let quantityIdx := indexOf lowerHeaders "quantity" in
  let amountIdx := indexOf lowerHeaders "amount" in
  if negb (dateIdx =? -1)%Z && negb (tickerIdx =? -1)%Z
     && negb (transCodeIdx =? -1)%Z then
    join "|"
      (map keyPart
         [cell row dateIdx; cell row tickerIdx; cell row transCodeIdx;
          cell row quantityIdx; cell row amountIdx])
  else
    let runDateIdx := indexOf lowerHeaders "run date" in
    let symbolIdx := indexOf lowerHeaders "symbol" in
    let actionIdx := indexOf lowerHeaders "action" in
    let fidelityQuantityIdx := indexOf lowerHeaders "quantity" in
    let fidelityAmountIdx := indexOf lowerHeaders "amount ($)" in
    if negb (runDateIdx =? -1)%Z && negb (actionIdx =? -1)%Z then
      join "|"
        (map keyPart
           [cell row runDateIdx; cell row symbolIdx; cell row actionIdx;
            cell row fidelityQuantityIdx; cell row fidelityAmountIdx])
    else join "|" (map keyPart row).

(** [p => p.trim()] as a filter: the parts that are not blank. *)
Definition notBlank (p : string) : bool := Text.truthy (Text.trim p).

Definition formatRowForDisplay (row headers : list string) : string :=
  let lowerHeaders := map Text.toLowerCase headers in
  let dateIdx := indexOf lowerHeaders "activity date" in
  let tickerIdx := indexOf lowerHeaders "instrument" in
  let transCodeIdx := indexOf lowerHeaders "trans code" in
  let quantityIdx := indexOf lowerHeaders "quantity" in
  let amountIdx := indexOf lowerHeaders "amount" in
  if negb (dateIdx =? -1)%Z && negb (tickerIdx =? -1)%Z
     && negb (transCodeIdx =? -1)%Z then
    joinWith " | "
      (filter notBlank
         [cell row dateIdx; cell row tickerIdx; cell row transCodeIdx;
          cell row quantityIdx; cell row amountIdx])
  else
    let runDateIdx := indexOf lowerHeaders "run date" in
    let symbolIdx := indexOf lowerHeaders "symbol" in
    let actionIdx := indexOf lowerHeaders "action" in
    let fidelityQuantityIdx := indexOf lowerHeaders "quantity" in
    let fidelityAmountIdx := indexOf lowerHeaders "amount ($)" in
    if negb (runDateIdx =? -1)%Z && negb (actionIdx =? -1)%Z then
      let action := cell row actionIdx in
      let shortAction := join " " (firstn 2 (splitOn " " action)) in
      joinWith " | "
        (filter notBlank
           [cell row runDateIdx; cell row symbolIdx; shortAction;
            cell row fidelityQuantityIdx; cell row fidelityAmountIdx])
    else joinWith " | " (firstn 5 row).

(** The body of the inner loop of [findDuplicates] for the row of index
    [rowIdx] of [file]. *)
Definition duplicateStep (file : UploadedFile.t) (rowIdx : nat)
  (row : list string) (st : list DuplicateInfo.t * dict SeenRow.t)
  : list DuplicateInfo.t * dict SeenRow.t :=
  let (duplicates, seen) := st in
  let key := createDuplicateKey row (UploadedFile.headers file) in
  if negb (Text.truthy key) then st
  else
    match dget seen key with
    | Some existing =>
        (duplicates
         ++ [DuplicateInfo.mk (SeenRow.file existing)
               (SeenRow.rowNum existing + 1) (UploadedFile.name file)
               (Z.of_nat rowIdx + 1)
               (formatRowForDisplay row (UploadedFile.headers file)) key],
         seen)
    | None =>
        (duplicates,
         dset seen key
           (SeenRow.mk (UploadedFile.name file) (Z.of_nat rowIdx) row))
    end.

Definition findDuplicates (files : list UploadedFile.t)
  : list DuplicateInfo.t :=
  if (len files =? 0)%Z then []
  else
    fst (fold_left
           (fun st file =>
              forRows (duplicateStep file) 0 (UploadedFile.rows file) st)
           files ([], [])).

(** [set.has(key)] for a set of strings. *)
Definition has (set : list string) (key : string) : bool :=
  existsb (fun k => String.eqb k key) set.

(** The body of the inner loop of [mergeCSVs]. *)
Definition mergeStep (excludeKeys : list string) (file : UploadedFile.t)
  (st : list string * list (list string)) (row : list string)
  : list string * list (list string) :=
  let (seenKeys, rows) := st in
  let key := createDuplicateKey row (UploadedFile.headers file) in
  if Text.truthy key && has excludeKeys key then st
  else if Text.truthy key && has seenKeys key then st
  else ((if Text.truthy key then seenKeys ++ [key] else seenKeys),
        rows ++ [row]).

Definition mergeCSVs (files : list UploadedFile.t)
  (excludeKeys : list string) : MergedCSV.t :=
  match files with
  | [] => MergedCSV.mk [] []
  | first :: _ =>
      MergedCSV.mk (UploadedFile.headers first)
        (snd (fold_left
                (fun st file =>
                   fold_left (mergeStep excludeKeys file)
                     (UploadedFile.rows file) st)
                files ([], [])))
  end.

End Merger.

(** All the rows of the files, in the order of the files. *)
Definition allRows (files : list Merger.UploadedFile.t)
  : list (list string) :=
  List.concat (map Merger.UploadedFile.rows files).

(** The two tables of seen keys hold the same keys. *)
Definition sameKeys (seenKeys : list string) (seen : dict Merger.SeenRow.t)
  : Prop :=
  forall key,
    Merger.has seenKeys key
    = match dget seen key with Some _ => true | None => false end.

(** A field without a carriage return. *)
Definition noCR (field : string) : Prop :=
  Text.includesChar Text.CR field = false.

(** A text that does not start with a double quote. *)
Definition notQuoteFirst (text : string) : Prop :=
  match text with
  | String c _ => Ascii.eqb c Text.dquote = false
  | EmptyString => True
  end.

(** A merged file with a quoted field, a field with a line feed, a
    blank row and a row of empty fields. *)
Definition mergedHeaders : list string :=
  ["Activity Date"%string; "Description"%string; "Amount"%string].

Definition mergedRows : list (list string) :=
  [["1/5/2023"%string;
    ("Apple, Inc." ++ String Text.LF (String Text.dquote "AAPL")
     ++ String Text.dquote EmptyString)%string;
    " ($1,425.00) "%string];
   [];
   [EmptyString; EmptyString];
   ["1/6/2023"%string; EmptyString; EmptyString]].

(** The states of [findDuplicates] and of [mergeCSVs] without excluded
    keys after the same rows [done]: the tables hold the same keys, every
    row was either merged or reported, nothing was dropped as long as
    nothing was reported, and the reported keys are not empty. *)
Definition inStep (found : list Merger.DuplicateInfo.t * dict Merger.SeenRow.t)
  (merged : list string * list (list string)) (done : list (list string))
  : Prop :=
  sameKeys (fst merged) (snd found)
  /\ (List.length (snd merged) + List.length (fst found)
      = List.length done)%nat
  /\ (fst found = [] -> snd merged = done)
  /\ Forall (fun d => Merger.DuplicateInfo.key d <> EmptyString) (fst found).

(** Two files with the Robinhood columns: the second repeats a row of
    the first with other case and spacing. *)
Definition uploadedFiles : list Merger.UploadedFile.t :=
  [Merger.UploadedFile.mk "a.csv"
     ["Activity Date"; "Instrument"; "Trans Code"; "Quantity"; "Amount"]%string
     [["1/5/2023"; "AAPL"; "Buy"; "10"; "$1,425.00"]%string;
      ["1/6/2023"; "MSFT"; "Buy"; "2"; "$500.00"]%string] 2;
   Merger.UploadedFile.mk "b.csv"
     ["Activity Date"; "Instrument"; "Trans Code"; "Quantity"; "Amount"]%string
     [["1/5/2023"; " aapl "; "BUY"; "10"; "$1,425.00"]%string;
      ["1/7/2023"; "AAPL"; "Sell"; "1"; "$150.00"]%string] 2].
From Stdlib Require PrimFloat.

(* ================================================================== *)
(** * The split adjuster over binary64 numbers *)
(* ================================================================== *)

(** [getSplitAdjustmentFactor] and [buildUnadjustedPriceMap] over the
    primitive binary64 numbers, whose operations round as those of
    JavaScript do.  The two functions are the ones embedded above, with
    [PrimFloat.mul] for the multiplication. *)
Module Binary64.

Import PrimFloat.

Module StockPrice.
Record t := mk { date : string; price : float; high : option float }.
End StockPrice.

Module StockSplit.
Record t := mk { date : string; ticker : string; splitFactor : float }.
End StockSplit.

Definition getSplitAdjustmentFactor (splits : list StockSplit.t)
  (priceDate : string) : float :=
  fold_left
    (fun factor split =>
       if String.ltb priceDate (StockSplit.date split)
       then mul factor (StockSplit.splitFactor split)
       else factor)
    splits one.

Definition bySplitDate (a b : StockSplit.t) : number :=
  localeCompare (StockSplit.date a) (StockSplit.date b).

(** The loop of [buildUnadjustedPriceMap], over the sorted splits. *)
Definition unadjustedMapFrom (prices : list StockPrice.t)
  (sortedSplits : list StockSplit.t) : dict float :=
  fold_left
    (fun map p =>
       let factor := getSplitAdjustmentFactor sortedSplits (StockPrice.date p) in
       dset map (StockPrice.date p) (mul (StockPrice.price p) factor))
    prices [].

Definition buildUnadjustedPriceMap (prices : list StockPrice.t)
  (splits : list StockSplit.t) : dict float :=
  let sortedSplits := Array_sort bySplitDate splits in
  unadjustedMapFrom prices sortedSplits.




(** A series as the provider reports it after a 49:1 split on
    2023-06-01: the true price 1 of 2023-01-02 is stored as [1 / 49]. *)
Definition adjustedPrices : list StockPrice.t :=
  [StockPrice.mk "2023-01-02" (div one 49) None].


Definition two : float := 2%float.
Definition hundred : float := 100%float.


Definition split2for1 : StockSplit.t :=
  StockSplit.mk "2023-01-05" "AAPL" two.

End Binary64.

(* ================================================================== *)
(** * Notions for the engines on numbers that are not finite *)
(* ================================================================== *)

(** The names of the members of [Object.prototype].  Reading one of them
    from a record created as [{}] finds the inherited member instead of
    [undefined]. *)
Definition prototypeNames : list string :=
  ["constructor"; "__defineGetter__"; "__defineSetter__"; "hasOwnProperty";
   "__lookupGetter__"; "__lookupSetter__"; "isPrototypeOf";
   "propertyIsEnumerable"; "toString"; "valueOf"; "__proto__";
   "toLocaleString"]%string.

(** A key that a record created as [{}] does not inherit. *)
Definition ownName (k : string) : bool :=
  negb (existsb (String.eqb k) prototypeNames).

(** No ticker of a trade and no key of [stockPrices] is the name of a
    member of [Object.prototype]: the records [sharesPerTicker],
    [priceMaps] and [splits] are then read as the dictionaries of the
    embedding are. *)
Definition ownTickers (trades : list Trade.t)
  (stockPrices : dict (list StockPrice.t)) : Prop :=
  Forall (fun t => ownName (Trade.ticker t) = true) trades
  /\ Forall (fun entry => ownName (fst entry) = true) stockPrices.

(** [a < b] is false: [a] is [b] or more, or [a] is [NaN]. *)
Definition notBelow (b a : number) : Prop := Num.ltb a b = false.

(** A data point none of whose values is below [0] and none of whose
    returns is below [-100]; a field can be [Infinity] or [NaN]. *)
Definition neverBelow (p : PortfolioDataPoint.t) : Prop :=
  notBelow Num.zero (PortfolioDataPoint.portfolioValue p)
  /\ notBelow Num.zero (PortfolioDataPoint.counterfactualValue p)
  /\ notBelow Num.zero (PortfolioDataPoint.costBasis p)
  /\ notBelow (Num.ofZ (-100)) (PortfolioDataPoint.portfolioReturn p)
  /\ notBelow (Num.ofZ (-100)) (PortfolioDataPoint.counterfactualReturn p).

(** A data point of holdings without prices: the portfolio value is [0]
    and the return is [-100], or they are [NaN]; with the value [0] and
    a finite cost basis the return is [-100]. *)
Definition totalLoss (p : PortfolioDataPoint.t) : Prop :=
  (PortfolioDataPoint.portfolioValue p = Num.zero
   \/ PortfolioDataPoint.portfolioValue p = NaN)
  /\ (PortfolioDataPoint.portfolioReturn p = Num.ofZ (-100)
      \/ PortfolioDataPoint.portfolioReturn p = NaN)
  /\ (PortfolioDataPoint.portfolioValue p = Num.zero ->
      finite (PortfolioDataPoint.costBasis p) ->
      PortfolioDataPoint.portfolioReturn p = Num.ofZ (-100)).


(* ================================================================== *)
(** * Properties *)
(* ================================================================== *)

Unset Implicit Arguments.

(** ** The outcome monad *)

Lemma bind_Ok {A B} (a : A) (f : A -> outcome B) : bind (Ok a) f = f a.
Proof. reflexivity. Qed.

Lemma Ok_inj {A} (a b : A) : Ok a = Ok b -> a = b.
Proof. intros H. inversion H. reflexivity. Qed.

Lemma bind_inv {A B} (m : outcome A) (f : A -> outcome B) (b : B) :
  bind m f = Ok b -> exists a, m = Ok a /\ f a = Ok b.
Proof. destruct m; simpl; intros H; try discriminate. eauto. Qed.

Lemma foldM_Ok {A S} (f : S -> A -> outcome S) (g : S -> A -> S) xs :
  (forall s x, In x xs -> f s x = Ok (g s x)) ->
  forall s, foldM f xs s = Ok (fold_left g xs s).
Proof.
  induction xs as [|x rest IH]; intros Hf s; simpl; [reflexivity|].
  rewrite Hf by (left; reflexivity). simpl.
  apply IH. intros s' y Hy. apply Hf. right; exact Hy.
Qed.

Lemma mapM_Ok {A B} (f : A -> outcome B) (g : A -> B) xs :
  (forall x, In x xs -> f x = Ok (g x)) ->
  mapM f xs = Ok (map g xs).
Proof.
  induction xs as [|x rest IH]; intros Hf; simpl; [reflexivity|].
  rewrite Hf by (left; reflexivity). simpl.
  rewrite IH by (intros y Hy; apply Hf; right; exact Hy).
  reflexivity.
Qed.

Lemma aget_Ok {A} (a : list A) (i : nat) (x : A) :
  nth_error a i = Some x -> aget a (Z.of_nat i) = Ok x.
Proof.
  intros H. unfold aget.
  destruct (Z.of_nat i <? 0)%Z eqn:E; [apply Z.ltb_lt in E; lia|].
  rewrite Nat2Z.id, H. reflexivity.
Qed.

Lemma aget_in_range {A} (a : list A) (i : Z) :
  (0 <= i < len a)%Z -> exists x, aget a i = Ok x /\ nth_error a (Z.to_nat i) = Some x.
Proof.
  intros [H0 H1]. unfold aget, len in *.
  destruct (i <? 0)%Z eqn:E; [apply Z.ltb_lt in E; lia|].
  destruct (nth_error a (Z.to_nat i)) eqn:N; [eauto|].
  apply nth_error_None in N. lia.
Qed.

Lemma aget_In {A} (a : list A) (i : Z) (x : A) : aget a i = Ok x -> In x a.
Proof.
  unfold aget. destruct (i <? 0)%Z; [discriminate|].
  destruct (nth_error a (Z.to_nat i)) eqn:N; [|discriminate].
  intros H; inversion H; subst. eapply nth_error_In; eauto.
Qed.

Lemma aget_head {A} (x : A) (rest : list A) : aget (x :: rest) 0 = Ok x.
Proof. reflexivity. Qed.

(** ** The order on date strings *)

Lemma ascii_compare_refl c : Ascii.compare c c = Eq.
Proof. unfold Ascii.compare. apply N.compare_refl. Qed.

Lemma string_compare_refl s : String.compare s s = Eq.
Proof.
  induction s as [|c s IH]; simpl; [reflexivity|].
  rewrite ascii_compare_refl. exact IH.
Qed.

Lemma string_compare_lt_trans a : forall b c,
  String.compare a b = Lt -> String.compare b c = Lt -> String.compare a c = Lt.
Proof.
  induction a as [|x a IH]; intros [|y b] [|z c]; simpl; try discriminate; auto.
  destruct (Ascii.compare x y) eqn:Exy; try discriminate;
    destruct (Ascii.compare y z) eqn:Eyz; try discriminate; intros H1 H2.
  - apply Ascii.compare_eq_iff in Exy, Eyz. subst.
    rewrite ascii_compare_refl. eauto.
  - apply Ascii.compare_eq_iff in Exy. subst. rewrite Eyz. reflexivity.
  - apply Ascii.compare_eq_iff in Eyz. subst. rewrite Exy. reflexivity.
  - unfold Ascii.compare in *. rewrite N.compare_lt_iff in *.
    assert (E : (N_of_ascii x ?= N_of_ascii z)%N = Lt)
      by (apply N.compare_lt_iff; lia).
    rewrite E. reflexivity.
Qed.

Lemma string_leb_refl a : String.leb a a = true.
Proof. unfold String.leb. rewrite string_compare_refl. reflexivity. Qed.

Lemma string_ltb_leb a b : String.ltb a b = negb (String.leb b a).
Proof.
  unfold String.ltb, String.leb. rewrite (String.compare_antisym a b).
  destruct (String.compare b a); reflexivity.
Qed.

Lemma string_leb_ltb a b : String.leb a b = negb (String.ltb b a).
Proof. rewrite string_ltb_leb, negb_involutive. reflexivity. Qed.

Lemma string_ltb_leb_weak a b : String.ltb a b = true -> String.leb a b = true.
Proof.
  unfold String.ltb, String.leb. destruct (String.compare a b); auto; discriminate.
Qed.

Lemma string_leb_trans a b c :
  String.leb a b = true -> String.leb b c = true -> String.leb a c = true.
Proof.
  unfold String.leb.
  destruct (String.compare a b) eqn:Eab; try discriminate;
    destruct (String.compare b c) eqn:Ebc; try discriminate; intros _ _.
  - apply String.compare_eq_iff in Eab, Ebc. subst.
    rewrite string_compare_refl. reflexivity.
  - apply String.compare_eq_iff in Eab. subst. rewrite Ebc. reflexivity.
  - apply String.compare_eq_iff in Ebc. subst. rewrite Eab. reflexivity.
  - rewrite (string_compare_lt_trans _ _ _ Eab Ebc). reflexivity.
Qed.

Lemma string_ltb_leb_trans a b c :
  String.ltb a b = true -> String.leb b c = true -> String.ltb a c = true.
Proof.
  intros Hab Hbc. rewrite string_ltb_leb in *.
  destruct (String.leb c a) eqn:E; [|reflexivity].
  rewrite (string_leb_trans _ _ _ Hbc E) in Hab. discriminate.
Qed.

Lemma string_leb_ltb_trans a b c :
  String.leb a b = true -> String.ltb b c = true -> String.ltb a c = true.
Proof.
  intros Hab Hbc. rewrite string_ltb_leb in *.
  destruct (String.leb c a) eqn:E; [|reflexivity].
  rewrite (string_leb_trans _ _ _ E Hab) in Hbc. discriminate.
Qed.

Lemma string_ltb_irrefl a : String.ltb a a = false.
Proof. rewrite string_ltb_leb, string_leb_refl. reflexivity. Qed.

Lemma dateLe_refl a : dateLe a a.
Proof. apply string_leb_refl. Qed.

Lemma dateLe_trans a b c : dateLe a b -> dateLe b c -> dateLe a c.
Proof. apply string_leb_trans. Qed.

(** ** Lists: prefixes, suffixes and sortedness *)

Lemma firstn_snoc {A} (l : list A) (i : nat) (x : A) :
  nth_error l i = Some x -> firstn (S i) l = firstn i l ++ [x].
Proof.
  revert i. induction l as [|y l IH]; intros [|i] H; simpl in *; try discriminate.
  - inversion H; reflexivity.
  - rewrite (IH i H). reflexivity.
Qed.

Lemma skipn_cons {A} (l : list A) (i : nat) (x : A) :
  nth_error l i = Some x -> skipn i l = x :: skipn (S i) l.
Proof.
  revert i. induction l as [|y l IH]; intros [|i] H; simpl in *; try discriminate.
  - inversion H; reflexivity.
  - apply (IH i H).
Qed.

Lemma StronglySorted_skipn {A} (R : A -> A -> Prop) (l : list A) (i : nat) :
  StronglySorted R l -> StronglySorted R (skipn i l).
Proof.
  revert l. induction i as [|i IH]; intros [|x l] H; simpl; auto.
  apply IH. inversion H; assumption.
Qed.

Lemma StronglySorted_after {A} (R : A -> A -> Prop) (l : list A) (i : nat) x :
  StronglySorted R l -> nth_error l i = Some x -> Forall (R x) (skipn (S i) l).
Proof.
  intros HS Hn. apply (StronglySorted_skipn R l i) in HS.
  rewrite (skipn_cons _ _ _ Hn) in HS. inversion HS; assumption.
Qed.

Lemma StronglySorted_filter {A} (R : A -> A -> Prop) (f : A -> bool) l :
  StronglySorted R l -> StronglySorted R (filter f l).
Proof.
  induction 1 as [|x l HS IH HF]; simpl; [constructor|].
  destruct (f x); [|exact IH].
  constructor; [exact IH|].
  rewrite Forall_forall in *. intros y Hy. apply filter_In in Hy. apply HF, Hy.
Qed.

Lemma StronglySorted_map {A B} (R : B -> B -> Prop) (g : A -> B) l :
  StronglySorted (fun a b => R (g a) (g b)) l -> StronglySorted R (map g l).
Proof.
  induction 1 as [|x l HS IH HF]; simpl; constructor; auto.
  rewrite Forall_forall in *. intros y Hy. apply in_map_iff in Hy.
  destruct Hy as [z [<- Hz]]. auto.
Qed.

Lemma find_none_Forall {A} (f : A -> bool) l :
  Forall (fun x => f x = false) l -> find f l = None.
Proof.
  induction 1 as [|x l Hx _ IH]; simpl; [reflexivity|]. rewrite Hx. exact IH.
Qed.

Lemma find_app {A} (f : A -> bool) l1 l2 :
  find f (l1 ++ l2) = match find f l1 with Some x => Some x | None => find f l2 end.
Proof.
  induction l1 as [|x l1 IH]; simpl; [reflexivity|]. destruct (f x); auto.
Qed.

Lemma find_ext_in {A} (f g : A -> bool) l :
  (forall x, In x l -> f x = g x) -> find f l = find g l.
Proof.
  induction l as [|x l IH]; intros H; simpl; [reflexivity|].
  rewrite (H x) by (left; reflexivity).
  rewrite IH by (intros y Hy; apply H; right; exact Hy). reflexivity.
Qed.

Lemma find_In {A} (f : A -> bool) l x : find f l = Some x -> In x l /\ f x = true.
Proof. apply find_some. Qed.

Lemma find_rev_firstn {A} (f : A -> bool) (l : list A) (n : nat) :
  Forall (fun x => f x = false) (skipn n l) ->
  find f (rev (firstn n l)) = find f (rev l).
Proof.
  intros H.
  assert (E : rev l = rev (skipn n l) ++ rev (firstn n l))
    by (rewrite <- rev_app_distr, firstn_skipn; reflexivity).
  rewrite E, find_app, (find_none_Forall f (rev (skipn n l))); [reflexivity|].
  apply Forall_rev. exact H.
Qed.

(** ** The binary search *)

Section Search.

Variable R : Type.
Variable record : StockPrice.t -> R.
Variable prices : list StockPrice.t.
Variable target : string.

(** The loop neither throws nor runs out of fuel, and what it returns
    was recorded from an entry of the series. *)
Lemma searchLoop_total : forall fuel left right result,
  (0 <= left)%Z -> (right < len prices)%Z ->
  (right - left + 1 <= Z.of_nat fuel)%Z ->
  exists r, searchLoop record fuel prices target left right result = Ok r
            /\ (r = result \/ exists p, In p prices /\ r = Some (record p)).
Proof.
  induction fuel as [|fuel IH]; intros left right result H0 Hr Hf; simpl.
  - destruct (left <=? right)%Z eqn:E; [apply Z.leb_le in E; lia|]. eauto.
  - destruct (left <=? right)%Z eqn:E; [|eauto].
    apply Z.leb_le in E.
    assert (Hmid : (left <= (left + right) / 2 <= right)%Z).
    { split; [apply Z.div_le_lower_bound | apply Z.div_le_upper_bound]; lia. }
    destruct (aget_in_range prices ((left + right) / 2)%Z) as [p [Hp Hn]]; [lia|].
    rewrite Hp. simpl.
    destruct (String.leb (StockPrice.date p) target).
    + destruct (IH ((left + right) / 2 + 1)%Z right (Some (record p)))
        as [r [Hr1 Hr2]]; try lia.
      exists r. split; [exact Hr1|]. right.
      destruct Hr2 as [-> | Hr2]; [|exact Hr2].
      exists p. split; [eapply aget_In; eauto | reflexivity].
    + apply IH; lia.
Qed.

(** On an ascending series the loop returns what was recorded from the
    last entry dated on or before the target. *)
Lemma searchLoop_ascending : ascending prices ->
  forall fuel left right result,
  (0 <= left <= right + 1)%Z -> (right < len prices)%Z ->
  (right - left + 1 <= Z.of_nat fuel)%Z ->
  result = option_map record
             (find (onOrBeforeString target)
                (rev (firstn (Z.to_nat left) prices))) ->
  Forall (fun p => onOrBeforeString target p = false)
    (skipn (Z.to_nat (right + 1)) prices) ->
  searchLoop record fuel prices target left right result
  = Ok (option_map record (find (onOrBeforeString target) (rev prices))).
Proof.
  intros Hasc.
  induction fuel as [|fuel IH]; intros left right result H0 Hr Hf Hres Hskip.
  - simpl. destruct (left <=? right)%Z eqn:E; [apply Z.leb_le in E; lia|].
    apply Z.leb_gt in E. assert (left = right + 1)%Z by lia. subst left.
    rewrite Hres, (find_rev_firstn _ _ _ Hskip). reflexivity.
  - simpl. destruct (left <=? right)%Z eqn:E.
    + apply Z.leb_le in E.
      assert (Hmid : (left <= (left + right) / 2 <= right)%Z).
      { split; [apply Z.div_le_lower_bound | apply Z.div_le_upper_bound]; lia. }
      set (mid := ((left + right) / 2)%Z) in *.
      destruct (aget_in_range prices mid) as [p [Hp Hn]]; [lia|].
      rewrite Hp. simpl.
      destruct (String.leb (StockPrice.date p) target) eqn:Ep.
      * apply IH; try lia; [|exact Hskip].
        replace (Z.to_nat (mid + 1)) with (S (Z.to_nat mid)) by lia.
        rewrite (firstn_snoc _ _ _ Hn), rev_app_distr. simpl.
        unfold onOrBeforeString at 1. rewrite Ep. reflexivity.
      * apply IH; try lia; [exact Hres|].
        replace (Z.to_nat (mid - 1 + 1)) with (Z.to_nat mid) by lia.
        rewrite (skipn_cons _ _ _ Hn). constructor.
        { exact Ep. }
        pose proof (StronglySorted_after _ _ _ _ Hasc Hn) as Hafter.
        rewrite Forall_forall in *. intros q Hq.
        specialize (Hafter q Hq). unfold onOrBeforeString.
        destruct (String.leb (StockPrice.date q) target) eqn:Eq; [|reflexivity].
        rewrite (string_leb_trans _ _ _ Hafter Eq) in Ep. discriminate.
    + apply Z.leb_gt in E. assert (left = right + 1)%Z by lia. subst left.
      rewrite Hres, (find_rev_firstn _ _ _ Hskip). reflexivity.
Qed.

End Search.

Lemma fold_left_ext_eq {A B} (f g : A -> B -> A) (l : list B) :
  (forall a x, f a x = g a x) -> forall a, fold_left f l a = fold_left g l a.
Proof.
  intros H. induction l as [|x l IH]; intros a; simpl; [reflexivity|].
  rewrite H. apply IH.
Qed.

(** ** The price lookups *)

Lemma len_zero {A} (l : list A) : (len l =? 0)%Z = true <-> l = [].
Proof.
  unfold len. destruct l; simpl; split; intros H; try reflexivity; try discriminate.
Qed.

Lemma len_pos {A} (x : A) (l : list A) : (len (x :: l) >? 0)%Z = true.
Proof. unfold len. cbn [List.length]. apply Z.gtb_lt. lia. Qed.

Lemma len_cons_nonzero {A} (x : A) (l : list A) : (len (x :: l) =? 0)%Z = false.
Proof. unfold len. cbn [List.length]. apply Z.eqb_neq. lia. Qed.

Lemma getLatestPrice_Ok prices :
  getLatestPrice prices = Ok (last (map StockPrice.price prices) Num.zero).
Proof.
  unfold getLatestPrice.
  destruct prices as [|p rest] using rev_ind; [reflexivity|].
  assert (Hlen : len (rest ++ [p]) = (Z.of_nat (List.length rest) + 1)%Z).
  { unfold len. rewrite length_app. cbn [List.length]. lia. }
  rewrite Hlen.
  replace (Z.of_nat (List.length rest) + 1 >? 0)%Z with true
    by (symmetry; apply Z.gtb_lt; lia).
  replace (Z.of_nat (List.length rest) + 1 - 1)%Z
    with (Z.of_nat (List.length rest)) by lia.
  rewrite (aget_Ok _ _ p).
  - cbn [bind]. rewrite map_app. simpl map. rewrite last_last. reflexivity.
  - rewrite nth_error_app2 by lia. rewrite Nat.sub_diag. reflexivity.
Qed.

Lemma findPriceLoop_Ok prices targetDate : forall n,
  (n <= List.length prices)%nat ->
  findPriceLoop prices targetDate n
  = Ok (find (fun p => Date.leb (Date.parse (StockPrice.date p)) targetDate)
          (rev (firstn n prices))).
Proof.
  induction n as [|i IH]; intros Hn; [reflexivity|].
  cbn [findPriceLoop].
  destruct (nth_error prices i) as [p|] eqn:Hp;
    [|apply nth_error_None in Hp; lia].
  rewrite (aget_Ok _ _ _ Hp). cbn [bind].
  rewrite (firstn_snoc _ _ _ Hp), rev_app_distr. simpl.
  destruct (Date.leb (Date.parse (StockPrice.date p)) targetDate); [reflexivity|].
  apply IH. lia.
Qed.

Lemma findPriceOnDate_Ok prices date :
  findPriceOnDate prices date = Ok (clampLookup (onOrBeforeDate date) prices).
Proof.
  unfold findPriceOnDate, clampLookup.
  rewrite findPriceLoop_Ok by lia. rewrite firstn_all. cbn [bind].
  unfold onOrBeforeDate.
  destruct (find _ (rev prices)); [reflexivity|].
  destruct prices as [|p rest]; [reflexivity|].
  rewrite len_pos. reflexivity.
Qed.

Lemma getPriceOnDate_Ok prices date :
  getPriceOnDate prices date
  = Ok (option_map StockPrice.price (clampLookup (onOrBeforeDate date) prices)).
Proof. unfold getPriceOnDate. rewrite findPriceOnDate_Ok. reflexivity. Qed.

(** [getPriceOnOrBefore] returns a result on every series, and a price it
    returns is the price of an entry. *)
Lemma getPriceOnOrBefore_total prices target :
  exists r, getPriceOnOrBefore prices target = Ok r
            /\ (r = None <-> prices = [])
            /\ (forall v, r = Some v ->
                  exists p, In p prices /\ StockPrice.price p = v).
Proof.
  unfold getPriceOnOrBefore. destruct prices as [|p0 rest].
  - simpl. exists None. repeat split; auto; discriminate.
  - rewrite len_cons_nonzero.
    destruct (searchLoop_total _ StockPrice.price (p0 :: rest) target
                (List.length (p0 :: rest)) 0 (len (p0 :: rest) - 1) None)
      as [r [Hr Hin]]; try (unfold len; lia).
    rewrite Hr. cbn [bind]. destruct r as [v|].
    + exists (Some v). repeat split; try discriminate.
      intros w Hw. inversion Hw; subst w.
      destruct Hin as [Hin | [p [Hp Hv]]]; [discriminate|].
      exists p. split; [exact Hp|]. inversion Hv; reflexivity.
    + rewrite len_pos, aget_head. cbn [bind].
      exists (Some (StockPrice.price p0)). repeat split; try discriminate.
      intros w Hw. inversion Hw; subst w. exists p0. split; [left|]; reflexivity.
Qed.

Lemma getPriceOnOrBefore_Ok prices target :
  getPriceOnOrBefore prices target = Ok (priceOnOrBefore prices target).
Proof.
  unfold priceOnOrBefore.
  destruct (getPriceOnOrBefore_total prices target) as [r [Hr _]].
  rewrite Hr. reflexivity.
Qed.

Lemma priceOnOrBefore_None prices target :
  priceOnOrBefore prices target = None <-> prices = [].
Proof.
  unfold priceOnOrBefore.
  destruct (getPriceOnOrBefore_total prices target) as [r [Hr [Hn _]]].
  rewrite Hr. exact Hn.
Qed.

Lemma priceOnOrBefore_In prices target v :
  priceOnOrBefore prices target = Some v ->
  exists p, In p prices /\ StockPrice.price p = v.
Proof.
  unfold priceOnOrBefore.
  destruct (getPriceOnOrBefore_total prices target) as [r [Hr [_ Hin]]].
  rewrite Hr. simpl. apply Hin.
Qed.

(** On an ascending series the binary search selects the last entry dated
    on or before the target, and the first entry when there is none. *)
Lemma getPriceOnOrBefore_ascending prices target :
  ascending prices ->
  getPriceOnOrBefore prices target
  = Ok (option_map StockPrice.price
          (clampLookup (onOrBeforeString target) prices)).
Proof.
  intros Hasc. unfold getPriceOnOrBefore, clampLookup.
  destruct prices as [|p0 rest]; [reflexivity|].
  rewrite len_cons_nonzero.
  rewrite (searchLoop_ascending _ StockPrice.price (p0 :: rest) target Hasc);
    try (unfold len; cbn [List.length]; lia).
  - cbn [bind].
    destruct (find (onOrBeforeString target) (rev (p0 :: rest))); [reflexivity|].
    simpl option_map. rewrite len_pos, aget_head. reflexivity.
  - reflexivity.
  - replace (Z.to_nat (len (p0 :: rest) - 1 + 1)) with (List.length (p0 :: rest))
      by (unfold len; lia).
    rewrite skipn_all. constructor.
Qed.

Lemma getUnadjustedPriceOnOrBefore_total prices splits target :
  exists r, getUnadjustedPriceOnOrBefore prices splits target = Ok r
            /\ (r = None <-> prices = [])
            /\ (forall v, r = Some v ->
                  exists p, In p prices /\ unadjusted splits p = v).
Proof.
  unfold getUnadjustedPriceOnOrBefore, unadjustedSearch. destruct prices as [|p0 rest].
  - simpl. exists None. repeat split; auto; discriminate.
  - rewrite len_cons_nonzero.
    destruct (searchLoop_total _
                (fun p => (StockPrice.price p, StockPrice.date p))
                (p0 :: rest) target
                (List.length (p0 :: rest)) 0 (len (p0 :: rest) - 1) None)
      as [r [Hr Hin]]; try (unfold len; lia).
    rewrite Hr. cbn [bind]. destruct r as [[v d]|].
    + cbn [bind]. eexists. split; [reflexivity|].
      split; [split; discriminate|].
      intros w Hw. inversion Hw; subst w.
      destruct Hin as [Hin | [p [Hp Hv]]]; [discriminate|].
      exists p. split; [exact Hp|]. inversion Hv; reflexivity.
    + rewrite len_pos, aget_head. cbn [bind].
      eexists. split; [reflexivity|].
      split; [split; discriminate|].
      intros w Hw. inversion Hw; subst w. exists p0. split; [left|]; reflexivity.
Qed.

Lemma getUnadjustedPriceOnOrBefore_Ok prices splits target :
  getUnadjustedPriceOnOrBefore prices splits target
  = Ok (unadjustedOnOrBefore prices splits target).
Proof.
  unfold unadjustedOnOrBefore.
  destruct (getUnadjustedPriceOnOrBefore_total prices splits target) as [r [Hr _]].
  rewrite Hr. reflexivity.
Qed.

Lemma unadjustedOnOrBefore_In prices splits target v :
  unadjustedOnOrBefore prices splits target = Some v ->
  exists p, In p prices /\ unadjusted splits p = v.
Proof.
  unfold unadjustedOnOrBefore.
  destruct (getUnadjustedPriceOnOrBefore_total prices splits target)
    as [r [Hr [_ Hin]]].
  rewrite Hr. simpl. apply Hin.
Qed.

Lemma getUnadjustedPriceOnOrBefore_ascending prices splits target :
  ascending prices ->
  getUnadjustedPriceOnOrBefore prices splits target
  = Ok (option_map (unadjusted splits)
          (clampLookup (onOrBeforeString target) prices)).
Proof.
  intros Hasc. unfold getUnadjustedPriceOnOrBefore, unadjustedSearch, clampLookup.
  destruct prices as [|p0 rest]; [reflexivity|].
  rewrite len_cons_nonzero.
  rewrite (searchLoop_ascending _
             (fun p => (StockPrice.price p, StockPrice.date p))
             (p0 :: rest) target Hasc);
    try (unfold len; cbn [List.length]; lia).
  - cbn [bind].
    destruct (find (onOrBeforeString target) (rev (p0 :: rest))); [reflexivity|].
    simpl option_map. rewrite len_pos, aget_head. reflexivity.
  - reflexivity.
  - replace (Z.to_nat (len (p0 :: rest) - 1 + 1)) with (List.length (p0 :: rest))
      by (unfold len; lia).
    rewrite skipn_all. constructor.
Qed.

(** ** Calendar dates: the string order agrees with the order of time values *)

Section DateOrder.

Local Open Scope Z_scope.

Lemma dayFromYear_succ y :
  Date.dayFromYear (y + 1)
  = Date.dayFromYear y + 365 + (if Date.isLeap y then 1 else 0).
Proof.
  unfold Date.dayFromYear, Date.isLeap.
  destruct (Z.eqb_spec (y mod 4) 0), (Z.eqb_spec (y mod 100) 0),
    (Z.eqb_spec (y mod 400) 0); cbn [andb orb negb];
    Z.div_mod_to_equations; lia.
Qed.

Lemma dayFromYear_lt y1 y2 :
  y1 < y2 ->
  Date.dayFromYear y1 + 365 + (if Date.isLeap y1 then 1 else 0)
  <= Date.dayFromYear y2.
Proof.
  intros H. rewrite <- dayFromYear_succ.
  assert (G : forall n : nat, Date.dayFromYear (y1 + 1)
                              <= Date.dayFromYear (y1 + 1 + Z.of_nat n)).
  { induction n as [|n IH].
    - replace (y1 + 1 + Z.of_nat 0) with (y1 + 1) by lia. lia.
    - replace (y1 + 1 + Z.of_nat (S n)) with (y1 + 1 + Z.of_nat n + 1) by lia.
      rewrite (dayFromYear_succ (y1 + 1 + Z.of_nat n)).
      destruct (Date.isLeap (y1 + 1 + Z.of_nat n)); lia. }
  specialize (G (Z.to_nat (y2 - (y1 + 1)))).
  replace (y1 + 1 + Z.of_nat (Z.to_nat (y2 - (y1 + 1)))) with y2 in G by lia.
  exact G.
Qed.

Lemma month_cases m :
  1 <= m <= 12 ->
  m = 1 \/ m = 2 \/ m = 3 \/ m = 4 \/ m = 5 \/ m = 6 \/ m = 7 \/ m = 8
  \/ m = 9 \/ m = 10 \/ m = 11 \/ m = 12.
Proof. lia. Qed.

Lemma daysBeforeMonth_succ y m :
  1 <= m <= 11 ->
  Date.daysBeforeMonth y (m + 1)
  = Date.daysBeforeMonth y m + Date.daysInMonth y m.
Proof.
  intros H. assert (H' : 1 <= m <= 12) by lia.
  destruct (month_cases m H')
    as [->|[->|[->|[->|[->|[->|[->|[->|[->|[->|[->| ->]]]]]]]]]]];
    unfold Date.daysBeforeMonth, Date.daysInMonth; simpl;
    destruct (Date.isLeap y); lia.
Qed.

Lemma daysInMonth_pos y m : 28 <= Date.daysInMonth y m <= 31.
Proof.
  unfold Date.daysInMonth.
  destruct (m =? 2); [destruct (Date.isLeap y); lia|].
  destruct ((m =? 4) || (m =? 6) || (m =? 9) || (m =? 11))%bool; lia.
Qed.

Lemma daysBeforeMonth_lt y m1 m2 :
  1 <= m1 -> m1 < m2 -> m2 <= 12 ->
  Date.daysBeforeMonth y m1 + Date.daysInMonth y m1
  <= Date.daysBeforeMonth y m2.
Proof.
  intros H1 H12 H2.
  assert (G : forall n : nat, m1 + 1 + Z.of_nat n <= 12 ->
            Date.daysBeforeMonth y (m1 + 1)
            <= Date.daysBeforeMonth y (m1 + 1 + Z.of_nat n)).
  { induction n as [|n IH]; intros Hn.
    - replace (m1 + 1 + Z.of_nat 0) with (m1 + 1) by lia. lia.
    - replace (m1 + 1 + Z.of_nat (S n)) with (m1 + 1 + Z.of_nat n + 1) by lia.
      rewrite (daysBeforeMonth_succ y (m1 + 1 + Z.of_nat n)) by lia.
      pose proof (daysInMonth_pos y (m1 + 1 + Z.of_nat n)). lia. }
  specialize (G (Z.to_nat (m2 - (m1 + 1)))).
  replace (m1 + 1 + Z.of_nat (Z.to_nat (m2 - (m1 + 1)))) with m2 in G by lia.
  rewrite <- daysBeforeMonth_succ by lia. apply G. lia.
Qed.

Lemma daysBeforeMonth_nonneg y m : 0 <= Date.daysBeforeMonth y m.
Proof.
  unfold Date.daysBeforeMonth.
  repeat match goal with
         | |- context [if ?b then _ else _] => destruct b
         end; lia.
Qed.

(** The last day of a month falls within the year. *)
Lemma dayOfYear_bound y m :
  1 <= m <= 12 ->
  Date.daysBeforeMonth y m + Date.daysInMonth y m
  <= 365 + (if Date.isLeap y then 1 else 0).
Proof.
  intros H.
  destruct (month_cases m H)
    as [->|[->|[->|[->|[->|[->|[->|[->|[->|[->|[->| ->]]]]]]]]]]];
    unfold Date.daysBeforeMonth, Date.daysInMonth; simpl;
    destruct (Date.isLeap y); lia.
Qed.

Lemma validYMD_spec y m d :
  Date.validYMD y m d = true ->
  1 <= m <= 12 /\ 1 <= d <= Date.daysInMonth y m.
Proof.
  unfold Date.validYMD. rewrite !andb_true_iff, !Z.leb_le. lia.
Qed.

(** Dates in lexicographic order of year, month and day have time values
    in the same order. *)
Lemma timeValue_lt y1 m1 d1 y2 m2 d2 :
  Date.validYMD y1 m1 d1 = true -> Date.validYMD y2 m2 d2 = true ->
  (y1 < y2 \/ (y1 = y2 /\ (m1 < m2 \/ (m1 = m2 /\ d1 < d2)))) ->
  Date.timeValue y1 m1 d1 < Date.timeValue y2 m2 d2.
Proof.
  intros V1 V2 H.
  apply validYMD_spec in V1, V2. destruct V1 as [Hm1 Hd1], V2 as [Hm2 Hd2].
  unfold Date.timeValue, Date.msPerDay.
  apply Z.mul_lt_mono_pos_l; [lia|].
  pose proof (dayOfYear_bound y1 m1 Hm1) as B1.
  pose proof (daysBeforeMonth_nonneg y2 m2) as N2.
  destruct H as [Hy | [-> [Hm | [-> Hd]]]].
  - pose proof (dayFromYear_lt y1 y2 Hy). lia.
  - pose proof (daysBeforeMonth_lt y2 m1 m2). lia.
  - lia.
Qed.

Lemma isDigit_bounds c :
  Date.isDigit c = true -> 0 <= Date.digit c <= 9.
Proof.
  unfold Date.isDigit, Date.digit.
  rewrite andb_true_iff, !N.leb_le. lia.
Qed.

Lemma fields_shape s ymd :
  Date.fields s = Some ymd ->
  exists y1 y2 y3 y4 h1 m1 m2 h2 d1 d2,
    s = string_of_list_ascii [y1; y2; y3; y4; h1; m1; m2; h2; d1; d2]
    /\ Date.isDigit y1 = true /\ Date.isDigit y2 = true
    /\ Date.isDigit y3 = true /\ Date.isDigit y4 = true
    /\ Date.isHyphen h1 = true
    /\ Date.isDigit m1 = true /\ Date.isDigit m2 = true
    /\ Date.isHyphen h2 = true
    /\ Date.isDigit d1 = true /\ Date.isDigit d2 = true
    /\ ymd = (1000 * Date.digit y1 + 100 * Date.digit y2
              + 10 * Date.digit y3 + Date.digit y4,
              10 * Date.digit m1 + Date.digit m2,
              10 * Date.digit d1 + Date.digit d2).
Proof.
  unfold Date.fields. intros H.
  rewrite <- (string_of_list_ascii_of_string s).
  destruct (list_ascii_of_string s)
    as [|y1 [|y2 [|y3 [|y4 [|h1 [|m1 [|m2 [|h2 [|d1 [|d2 [|x l]]]]]]]]]]];
    try discriminate.
  destruct (Date.isDigit y1 && Date.isDigit y2 && Date.isDigit y3
            && Date.isDigit y4 && Date.isHyphen h1 && Date.isDigit m1
            && Date.isDigit m2 && Date.isHyphen h2 && Date.isDigit d1
            && Date.isDigit d2)%bool eqn:E; [|discriminate].
  rewrite !andb_true_iff in E.
  inversion H; subst ymd.
  exists y1, y2, y3, y4, h1, m1, m2, h2, d1, d2. intuition.
Qed.

(** On strings of the shape [dddd-dd-dd] the string order is the order
    of the integers [YYYYMMDD]. *)
Lemma compare_dateKey a b ka kb :
  Date.fields a = Some ka -> Date.fields b = Some kb ->
  String.compare a b = Z.compare (dateKey ka) (dateKey kb).
Proof.
  intros Ha Hb.
  destruct (fields_shape a ka Ha)
    as (a1 & a2 & a3 & a4 & a5 & a6 & a7 & a8 & a9 & a10 & -> &
        A1 & A2 & A3 & A4 & A5 & A6 & A7 & A8 & A9 & A10 & ->).
  destruct (fields_shape b kb Hb)
    as (b1 & b2 & b3 & b4 & b5 & b6 & b7 & b8 & b9 & b10 & -> &
        B1 & B2 & B3 & B4 & B5 & B6 & B7 & B8 & B9 & B10 & ->).
  clear Ha Hb.
  apply isDigit_bounds in A1, A2, A3, A4, A6, A7, A9, A10.
  apply isDigit_bounds in B1, B2, B3, B4, B6, B7, B9, B10.
  unfold Date.isHyphen in A5, A8, B5, B8.
  apply N.eqb_eq in A5, A8, B5, B8.
  unfold dateKey, Date.digit in *.
  cbn [string_of_list_ascii String.compare]. unfold Ascii.compare.
  repeat match goal with
         | |- context [N.compare ?x ?y] =>
             destruct (N.compare_spec x y)
         end;
    try (exfalso; lia);
    symmetry;
    first [ apply Z.compare_eq_iff; lia
          | apply Z.compare_lt_iff; lia
          | apply Z.compare_gt_iff; lia ].
Qed.

Lemma parse_Some s t :
  Date.parse s = Some t ->
  exists y m d, Date.fields s = Some (y, m, d)
                /\ Date.validYMD y m d = true /\ t = Date.timeValue y m d.
Proof.
  unfold Date.parse. destruct (Date.fields s) as [[[y m] d]|]; [|discriminate].
  destruct (Date.validYMD y m d) eqn:V; [|discriminate].
  intros H; inversion H. eauto 6.
Qed.

(** For two calendar dates, [a <= b] on the strings is [<=] on the
    [Date] objects built from them. *)
Lemma iso_leb a b :
  Date.isISO a = true -> Date.isISO b = true ->
  String.leb a b = Date.leb (Date.parse a) (Date.parse b).
Proof.
  unfold Date.isISO.
  destruct (Date.parse a) as [ta|] eqn:Pa; [|discriminate].
  destruct (Date.parse b) as [tb|] eqn:Pb; [|discriminate].
  intros _ _.
  destruct (parse_Some a ta Pa) as (y1 & m1 & d1 & Fa & Va & ->).
  destruct (parse_Some b tb Pb) as (y2 & m2 & d2 & Fb & Vb & ->).
  unfold String.leb, Date.leb.
  rewrite (compare_dateKey a b _ _ Fa Fb). unfold dateKey.
  pose proof (validYMD_spec _ _ _ Va) as [Hm1 Hd1].
  pose proof (validYMD_spec _ _ _ Vb) as [Hm2 Hd2].
  pose proof (daysInMonth_pos y1 m1). pose proof (daysInMonth_pos y2 m2).
  destruct (Z.compare_spec (10000 * y1 + 100 * m1 + d1)
              (10000 * y2 + 100 * m2 + d2)) as [E | E | E].
  - assert (y1 = y2 /\ m1 = m2 /\ d1 = d2) as (-> & -> & ->) by lia.
    symmetry. apply Z.leb_le. lia.
  - symmetry. apply Z.leb_le. apply Z.lt_le_incl.
    apply timeValue_lt; auto. lia.
  - symmetry. apply Z.leb_gt.
    apply timeValue_lt; auto. lia.
Qed.

End DateOrder.

(** ** Numbers *)

Lemma number_eqb_eq a b : number_eqb a b = true -> a = b.
Proof.
  destruct a, b; simpl; try discriminate; try reflexivity.
  intros H. f_equal. apply Qc_eq_bool_correct. exact H.
Qed.

Lemma sign_Eq q : Num.sign q = Eq <-> q = Q2Qc 0%Q.
Proof. unfold Num.sign. symmetry. apply Qceq_alt. Qed.

Lemma mul_one_r a : Num.mul a Num.one = a.
Proof.
  destruct a; try reflexivity.
  simpl. f_equal. apply Qcmult_1_r.
Qed.

Lemma gtb_zero_truthy a : Num.gtb a Num.zero = true -> Num.truthy a = true.
Proof.
  destruct a as [x| | |]; simpl; try discriminate; try reflexivity.
  intros H. destruct (Num.sign x) eqn:S; try reflexivity.
  apply sign_Eq in S. subst x. discriminate H.
Qed.

(** ** Dictionaries *)

Lemma dget_dset {V} (d : dict V) k v k' :
  dget (dset d k v) k' = if String.eqb k k' then Some v else dget d k'.
Proof.
  induction d as [|[k0 v0] d IH]; simpl.
  - reflexivity.
  - destruct (String.eqb_spec k0 k) as [->|Hne]; simpl.
    + destruct (String.eqb k k'); reflexivity.
    + rewrite IH. destruct (String.eqb_spec k0 k') as [->|Hne'].
      * destruct (String.eqb_spec k k'); [congruence|reflexivity].
      * reflexivity.
Qed.

(** A map filled by a loop holds, for a key, the value of the last
    element that wrote it. *)
Lemma dget_fold_dset {A V} (key : A -> string) (val : A -> V) (l : list A) :
  forall (d : dict V) k,
  dget (fold_left (fun m x => dset m (key x) (val x)) l d) k
  = match find (fun x => String.eqb (key x) k) (rev l) with
    | Some x => Some (val x)
    | None => dget d k
    end.
Proof.
  induction l as [|x l IH]; intros d k; simpl; [reflexivity|].
  rewrite IH, find_app. destruct (find _ (rev l)); [reflexivity|].
  simpl. rewrite dget_dset. destruct (String.eqb (key x) k); reflexivity.
Qed.

(** ** Entries with one date each *)



(** ** The split adjuster on binary64 numbers *)



(** ** C5, C4, C3 *)

(** C5 (clamp property).  On a non-empty series in ascending date order, a
    target date strictly before the date of the first entry makes the
    on-or-before lookup return the price of the first entry: the binary
    search [getPriceOnOrBefore] does so on the date strings, and the
    backward scan [getPriceOnDate] does so when the series and the target
    are calendar dates.  Either lookup returns [null] exactly when the
    series is empty. *)
Theorem clamp_to_first_price :
  forall (first : StockPrice.t) (rest : list StockPrice.t) (target : string),
    ascending (first :: rest) ->
    String.ltb target (StockPrice.date first) = true ->
    getPriceOnOrBefore (first :: rest) target
      = Ok (Some (StockPrice.price first))
    /\ (isoSeries (first :: rest) -> Date.isISO target = true ->
        getPriceOnDate (first :: rest) target
          = Ok (Some (StockPrice.price first)))
    /\ (forall series t, getPriceOnOrBefore series t = Ok None <-> series = [])
    /\ (forall series t, getPriceOnDate series t = Ok None <-> series = []).
Proof.
  intros first rest target Hasc Hlt.
  assert (Hall : forall p, In p (first :: rest) ->
                           String.leb (StockPrice.date p) target = false).
  { intros p Hp.
    assert (Hle : dateLe (StockPrice.date first) (StockPrice.date p)).
    { destruct Hp as [<- | Hp]; [apply dateLe_refl|].
      inversion Hasc as [|? ? _ HF]; subst.
      rewrite Forall_forall in HF. apply HF, Hp. }
    rewrite string_leb_ltb.
    rewrite (string_ltb_leb_trans _ _ _ Hlt Hle). reflexivity. }
  split; [|split; [|split]].
  - rewrite (getPriceOnOrBefore_ascending _ _ Hasc). unfold clampLookup.
    rewrite find_none_Forall; [reflexivity|].
    apply Forall_forall. intros p Hp. apply Hall. apply in_rev. exact Hp.
  - intros Hiso Ht. rewrite getPriceOnDate_Ok. unfold clampLookup.
    rewrite find_none_Forall; [reflexivity|].
    apply Forall_forall. intros p Hp. apply in_rev in Hp.
    unfold onOrBeforeDate. rewrite <- iso_leb; [apply Hall, Hp | | exact Ht].
    unfold isoSeries in Hiso. rewrite Forall_forall in Hiso. apply Hiso, Hp.
  - intros series t. split.
    + rewrite getPriceOnOrBefore_Ok. intros H. apply Ok_inj in H.
      apply priceOnOrBefore_None in H. exact H.
    + intros ->. reflexivity.
  - intros series t. split.
    + rewrite getPriceOnDate_Ok. intros H. apply Ok_inj in H.
      destruct series as [|p l]; [reflexivity|].
      unfold clampLookup in H. destruct (find _ _); discriminate.
    + intros ->. reflexivity.
Qed.

Lemma clamp_to_first_price_witness :
  ascending Sample.spyPrices
  /\ String.ltb "2022-12-30" "2023-01-02" = true
  /\ isoSeries Sample.spyPrices
  /\ Date.isISO "2022-12-30" = true
  /\ getPriceOnOrBefore Sample.spyPrices "2022-12-30" = Ok (Some (Num.ofZ 380))
  /\ getPriceOnDate Sample.spyPrices "2022-12-30" = Ok (Some (Num.ofZ 380)).
Proof.
  assert (Hasc : ascending Sample.spyPrices)
    by (repeat constructor; reflexivity).
  assert (Hlt : String.ltb "2022-12-30" "2023-01-02" = true) by reflexivity.
  assert (Hiso : isoSeries Sample.spyPrices) by (repeat constructor).
  assert (Ht : Date.isISO "2022-12-30" = true) by reflexivity.
  pose proof (clamp_to_first_price
                (Sample.price "2023-01-02" 380) _ "2022-12-30" Hasc Hlt)
    as [H1 [H2 _]].
  split; [exact Hasc|]. split; [exact Hlt|]. split; [exact Hiso|].
  split; [exact Ht|]. split; [exact H1 | exact (H2 Hiso Ht)].
Defined.

(** C4 (the two lookups agree).  On a series of calendar dates in ascending
    order and for a target that is a calendar date, the backward scan over
    parsed [Date] objects ([getPriceOnDate]) and the binary search over the
    date strings ([getPriceOnOrBefore]) return the same result, and that
    result is a value, not an exception. *)
Theorem lookups_agree :
  forall (prices : list StockPrice.t) (target : string),
    isoSeries prices -> Date.isISO target = true -> ascending prices ->
    getPriceOnDate prices target = getPriceOnOrBefore prices target
    /\ exists r, getPriceOnOrBefore prices target = Ok r.
Proof.
  intros prices target Hiso Ht Hasc.
  rewrite getPriceOnDate_Ok, (getPriceOnOrBefore_ascending _ _ Hasc).
  split; [|eauto].
  do 2 f_equal. unfold clampLookup.
  rewrite (find_ext_in (onOrBeforeDate target) (onOrBeforeString target));
    [reflexivity|].
  intros p Hp. apply in_rev in Hp.
  unfold onOrBeforeDate, onOrBeforeString. symmetry. apply iso_leb; [|exact Ht].
  unfold isoSeries in Hiso. rewrite Forall_forall in Hiso. apply Hiso, Hp.
Qed.

Lemma lookups_agree_witness :
  isoSeries Sample.spyPrices /\ Date.isISO "2023-01-06" = true
  /\ ascending Sample.spyPrices
  /\ getPriceOnDate Sample.spyPrices "2023-01-06"
     = getPriceOnOrBefore Sample.spyPrices "2023-01-06".
Proof.
  assert (Hiso : isoSeries Sample.spyPrices)
    by (repeat constructor).
  assert (Ht : Date.isISO "2023-01-06" = true) by reflexivity.
  assert (Hasc : ascending Sample.spyPrices)
    by (repeat constructor; reflexivity).
  split; [exact Hiso|]. split; [exact Ht|]. split; [exact Hasc|].
  exact (proj1 (lookups_agree Sample.spyPrices "2023-01-06" Hiso Ht Hasc)).
Defined.




(** ** The time-series engine returns on every input *)

Lemma depositStep_Ok spyPrices acc dep :
  depositStep spyPrices acc dep = Ok (depositAcc spyPrices acc dep).
Proof.
  unfold depositStep, depositAcc. destruct acc as [m c].
  rewrite getPriceOnOrBefore_Ok. cbn [bind fst snd].
  destruct (priceOnOrBefore spyPrices (CashFlow.date dep)) as [p|]; [|reflexivity].
  destruct (Num.truthy p); reflexivity.
Qed.

Lemma spySharesChangeOf_Ok spyPrices trade :
  spySharesChangeOf spyPrices trade = Ok (spySharesChange spyPrices trade).
Proof.
  unfold spySharesChangeOf, spySharesChange.
  rewrite getPriceOnOrBefore_Ok. cbn [bind].
  destruct (priceOnOrBefore spyPrices (Trade.date trade)) as [p|]; [|reflexivity].
  destruct (Num.truthy p); reflexivity.
Qed.

Lemma prepare_Ok trades stockPrices spyPrices cashFlows splits :
  prepare trades stockPrices spyPrices cashFlows splits
  = Ok (prepared trades stockPrices spyPrices cashFlows splits).
Proof.
  unfold prepare, prepared.
  rewrite (foldM_Ok (depositStep spyPrices) (depositAcc spyPrices))
    by (intros; apply depositStep_Ok).
  cbn [bind].
  destruct (fold_left (depositAcc spyPrices) _ _) as [m c] eqn:E.
  rewrite (mapM_Ok (spySharesChangeOf spyPrices) (spySharesChange spyPrices))
    by (intros; apply spySharesChangeOf_Ok).
  cbn [bind fst]. f_equal. f_equal.
  apply fold_left_ext_eq. intros maps [ticker prices]. reflexivity.
Qed.

Lemma tradeIndex_fold pre l : forall st,
  tradeIndex (fold_left (applyTrade pre) l st)
  = (tradeIndex st + List.length l)%nat.
Proof.
  induction l as [|t l IH]; intros st; simpl; [lia|].
  rewrite IH. simpl. lia.
Qed.

(** The [while] loop applies the pending trades up to the first one dated
    after the current day, and has fuel for all of them. *)
Lemma applyTrades_Ok pre currentDate : forall fuel st,
  (List.length (sortedTrades pre) - tradeIndex st < fuel)%nat ->
  applyTrades fuel pre st currentDate = Ok (advance pre st currentDate).
Proof.
  induction fuel as [|fuel IH]; intros st Hf; [lia|].
  cbn [applyTrades]. unfold advance, dueTrades.
  destruct (nth_error (sortedTrades pre) (tradeIndex st)) as [trade|] eqn:N.
  - assert (Hlt : (tradeIndex st < List.length (sortedTrades pre))%nat)
      by (apply nth_error_Some; congruence).
    replace (Z.of_nat (tradeIndex st) <? len (sortedTrades pre))%Z with true
      by (symmetry; apply Z.ltb_lt; unfold len; lia).
    rewrite (aget_Ok _ _ _ N). cbn [bind].
    rewrite (skipn_cons _ _ _ N). cbn [takeWhile].
    destruct (String.leb (Trade.date trade) currentDate); [|reflexivity].
    cbn [fold_left]. rewrite IH by (simpl; lia). reflexivity.
  - apply nth_error_None in N.
    replace (Z.of_nat (tradeIndex st) <? len (sortedTrades pre))%Z with false
      by (symmetry; apply Z.ltb_ge; unfold len; lia).
    rewrite skipn_all2 by exact N. reflexivity.
Qed.

Lemma tickerValueStep_Ok pre stockPrices splits currentDate pv entry :
  tickerValueStep pre stockPrices splits currentDate pv entry
  = Ok (tickerValue pre stockPrices splits currentDate pv entry).
Proof.
  unfold tickerValueStep, tickerValue. destruct entry as [ticker shares].
  cbn [fst snd]. destruct (Num.leb shares Num.zero); [reflexivity|].
  destruct (match dget (priceMaps pre) ticker with
            | Some priceMap => dget priceMap currentDate
            | None => None
            end); [reflexivity|].
  rewrite getUnadjustedPriceOnOrBefore_Ok. reflexivity.
Qed.

Lemma dayBody_Ok pre stockPrices splits st spyPrice :
  dayBody pre stockPrices splits st spyPrice
  = Ok (dayStep pre stockPrices splits st spyPrice).
Proof.
  unfold dayBody, dayStep.
  rewrite applyTrades_Ok by lia. cbn [bind].
  rewrite (foldM_Ok _ (tickerValue pre stockPrices splits
                         (StockPrice.date spyPrice)))
    by (intros; apply tickerValueStep_Ok).
  reflexivity.
Qed.

Lemma dayTrace_Ok pre stockPrices splits spyPrices : forall st,
  dayTrace pre stockPrices splits spyPrices st
  = Ok (traceOf pre stockPrices splits spyPrices st).
Proof.
  induction spyPrices as [|spyPrice rest IH]; intros st; [reflexivity|].
  cbn [dayTrace traceOf]. rewrite dayBody_Ok. cbn [bind].
  rewrite IH. reflexivity.
Qed.

Lemma dayLoop_Ok pre stockPrices splits spyPrices : forall st dataPoints,
  dayLoop pre stockPrices splits spyPrices st dataPoints
  = Ok (dataPoints
          ++ pointsOf (traceOf pre stockPrices splits spyPrices st)).
Proof.
  unfold pointsOf.
  induction spyPrices as [|spyPrice rest IH]; intros st dataPoints.
  - simpl. rewrite app_nil_r. reflexivity.
  - cbn [dayLoop traceOf]. rewrite dayBody_Ok. cbn [bind].
    destruct (dayStep pre stockPrices splits st spyPrice) as [st' d] eqn:E.
    rewrite IH. cbn [map filter fst snd].
    destruct (emitted d); [|reflexivity].
    rewrite <- app_assoc. reflexivity.
Qed.

(** The engine returns the data points of the run's trace. *)
Lemma calculatePortfolioTimeSeries_Ok trades stockPrices spyPrices cashFlows
  splits :
  calculatePortfolioTimeSeries trades stockPrices spyPrices cashFlows splits
  = Ok (match trades, spyPrices with
        | [], _ | _, [] => []
        | _, _ =>
            pointsOf
              (traceOf
                 (prepared trades stockPrices spyPrices cashFlows splits)
                 stockPrices splits spyPrices initialState)
        end).
Proof.
  unfold calculatePortfolioTimeSeries.
  destruct trades as [|t trades]; [reflexivity|].
  destruct spyPrices as [|s spyPrices]; [reflexivity|].
  rewrite !len_cons_nonzero. cbn [orb].
  rewrite prepare_Ok. cbn [bind]. rewrite dayLoop_Ok. reflexivity.
Qed.

Lemma runTrace_Ok trades stockPrices spyPrices cashFlows splits :
  runTrace trades stockPrices spyPrices cashFlows splits
  = Ok (match trades, spyPrices with
        | [], _ | _, [] => []
        | _, _ =>
            traceOf (prepared trades stockPrices spyPrices cashFlows splits)
              stockPrices splits spyPrices initialState
        end).
Proof.
  unfold runTrace.
  destruct trades as [|t trades]; [reflexivity|].
  destruct spyPrices as [|s spyPrices]; [reflexivity|].
  rewrite !len_cons_nonzero. cbn [orb].
  rewrite prepare_Ok. cbn [bind]. apply dayTrace_Ok.
Qed.

(** ** The sort *)

Lemma sortInsert_perm {A} (cmp : A -> A -> number) x l :
  Permutation (sortInsert cmp x l) (x :: l).
Proof.
  induction l as [|y l IH]; cbn [sortInsert]; [reflexivity|].
  destruct (Num.gtb (cmp x y) Num.zero); [|reflexivity].
  rewrite IH. apply perm_swap.
Qed.

(** The sorted array holds the elements of the array it was made from. *)
Lemma Array_sort_perm {A} (cmp : A -> A -> number) l :
  Permutation (Array_sort cmp l) l.
Proof.
  induction l as [|x l IH]; cbn [Array_sort fold_right]; [constructor|].
  rewrite sortInsert_perm. constructor. exact IH.
Qed.

Lemma Array_sort_In {A} (cmp : A -> A -> number) l x :
  In x (Array_sort cmp l) <-> In x l.
Proof.
  split; apply Permutation_in;
    [apply Array_sort_perm | symmetry; apply Array_sort_perm].
Qed.

Lemma localeCompare_gtb a b :
  Num.gtb (localeCompare a b) Num.zero = String.ltb b a.
Proof.
  unfold localeCompare, String.ltb. rewrite (String.compare_antisym a b).
  destruct (String.compare b a); reflexivity.
Qed.

Lemma sortInsert_ascending {A} (key : A -> string) x l :
  ascendingBy key l ->
  ascendingBy key (sortInsert (fun a b => localeCompare (key a) (key b)) x l).
Proof.
  unfold ascendingBy.
  induction 1 as [|y l HS IH HF]; cbn [sortInsert].
  - constructor; constructor.
  - rewrite localeCompare_gtb. destruct (String.ltb (key y) (key x)) eqn:E.
    + constructor; [exact IH|].
      apply Forall_forall. intros z Hz.
      apply (Permutation_in _ (sortInsert_perm _ x l)) in Hz.
      destruct Hz as [<- | Hz].
      * apply string_ltb_leb_weak, E.
      * rewrite Forall_forall in HF. apply HF, Hz.
    + assert (Hxy : dateLe (key x) (key y)).
      { unfold dateLe. rewrite string_leb_ltb, E. reflexivity. }
      constructor; [constructor; assumption|].
      constructor; [exact Hxy|].
      rewrite Forall_forall in *. intros z Hz.
      apply (dateLe_trans _ (key y)); auto.
Qed.

(** Sorting by date yields an array in ascending date order. *)
Lemma Array_sort_ascending {A} (key : A -> string) l :
  ascendingBy key (Array_sort (fun a b => localeCompare (key a) (key b)) l).
Proof.
  induction l as [|x l IH]; cbn [Array_sort fold_right]; [constructor|].
  apply sortInsert_ascending, IH.
Qed.

(** ** The breakdown and summary engines return on every input *)

Lemma aggregateTrades_Ok trades spyPrices :
  aggregateTrades trades spyPrices = Ok (aggregatedOf trades spyPrices).
Proof.
  unfold aggregateTrades, aggregatedOf. apply foldM_Ok.
  intros agg trade _. unfold aggregateTrade.
  rewrite getPriceOnDate_Ok. reflexivity.
Qed.

Lemma breakdownStep_Ok stockPrices currentSpyPrice breakdown entry :
  breakdownStep stockPrices currentSpyPrice breakdown entry
  = Ok (breakdownPush stockPrices currentSpyPrice breakdown entry).
Proof.
  unfold breakdownStep, breakdownPush. destruct entry as [ticker data].
  cbn [fst snd]. destruct (Num.leb (totalShares data) Num.zero); [reflexivity|].
  destruct (dget stockPrices ticker) as [[|p rest]|]; try reflexivity.
  rewrite len_cons_nonzero, getLatestPrice_Ok. reflexivity.
Qed.

Lemma calculateStockBreakdown_Ok trades stockPrices spyPrices :
  calculateStockBreakdown trades stockPrices spyPrices
  = Ok (Array_sort byDifferenceDesc (rowsOf trades stockPrices spyPrices)).
Proof.
  unfold calculateStockBreakdown, rowsOf.
  rewrite getLatestPrice_Ok, aggregateTrades_Ok. cbn [bind].
  rewrite (foldM_Ok _ (breakdownPush stockPrices
                         (last (map StockPrice.price spyPrices) Num.zero)))
    by (intros; apply breakdownStep_Ok).
  reflexivity.
Qed.

Lemma calculateSummary_total breakdown cashFlows trades :
  exists s, calculateSummary breakdown cashFlows trades = Ok s.
Proof.
  unfold calculateSummary. destruct breakdown as [|b rest].
  - simpl. eauto.
  - rewrite len_cons_nonzero, aget_head. cbn [bind].
    destruct (fold_left performerStep (b :: rest) (b, b)). eauto.
Qed.

(** A ticker of a row has a non-empty price series. *)
Lemma breakdownPush_tickers stockPrices currentSpyPrice entries :
  forall breakdown,
  (forall row, In row breakdown ->
     exists p rest,
       dget stockPrices (StockBreakdownData.ticker row) = Some (p :: rest)) ->
  forall row,
    In row (fold_left (breakdownPush stockPrices currentSpyPrice) entries
              breakdown) ->
    exists p rest,
      dget stockPrices (StockBreakdownData.ticker row) = Some (p :: rest).
Proof.
  induction entries as [|[ticker data] entries IH]; intros breakdown Hb row;
    simpl; [apply Hb|].
  apply IH. clear IH row. intros row Hrow.
  unfold breakdownPush in Hrow. cbn [fst snd] in Hrow.
  destruct (Num.leb (totalShares data) Num.zero); [apply Hb, Hrow|].
  destruct (dget stockPrices ticker) as [[|p rest]|] eqn:G; try (apply Hb, Hrow).
  apply in_app_or in Hrow. destruct Hrow as [Hrow | [<- | []]]; [apply Hb, Hrow|].
  simpl. eauto.
Qed.

(** ** C10, C6, C1 *)

(** C10 (positions without prices are dropped).  A ticker whose entry in
    the per-ticker price map is missing or is an empty array has no row in
    the output of [calculateStockBreakdown], whatever its net shares. *)
Theorem unpriced_tickers_are_dropped :
  forall (trades : list Trade.t) (stockPrices : dict (list StockPrice.t))
         (spyPrices : list StockPrice.t) (ticker : string),
    dget stockPrices ticker = None \/ dget stockPrices ticker = Some [] ->
    exists rows,
      calculateStockBreakdown trades stockPrices spyPrices = Ok rows
      /\ ~ In ticker (map StockBreakdownData.ticker rows).
Proof.
  intros trades stockPrices spyPrices ticker Hmiss.
  rewrite calculateStockBreakdown_Ok. eexists. split; [reflexivity|].
  intros Hin. apply in_map_iff in Hin. destruct Hin as [row [Hticker Hrow]].
  apply Array_sort_In in Hrow.
  apply (breakdownPush_tickers stockPrices _ _ []) in Hrow;
    [|intros ? []].
  destruct Hrow as [p [rest Hget]]. rewrite Hticker in Hget.
  destruct Hmiss as [Hm | Hm]; rewrite Hm in Hget; discriminate.
Qed.

Lemma unpriced_tickers_are_dropped_witness :
  (dget [("AAPL"%string, @nil StockPrice.t)] "AAPL" = None
   \/ dget [("AAPL"%string, @nil StockPrice.t)] "AAPL" = Some [])
  /\ match dget (aggregatedOf
                   [Sample.trade "AAPL" "2023-01-02" 10 130 buy]
                   Sample.spyPrices) "AAPL" with
     | Some a => Num.gtb (totalShares a) Num.zero
     | None => false
     end = true
  /\ exists rows,
       calculateStockBreakdown [Sample.trade "AAPL" "2023-01-02" 10 130 buy]
         [("AAPL"%string, [])] Sample.spyPrices = Ok rows
       /\ ~ In "AAPL"%string (map StockBreakdownData.ticker rows).
Proof.
  assert (H : dget [("AAPL"%string, @nil StockPrice.t)] "AAPL" = None
              \/ dget [("AAPL"%string, @nil StockPrice.t)] "AAPL" = Some [])
    by (right; reflexivity).
  split; [exact H|]. split; [reflexivity|].
  exact (unpriced_tickers_are_dropped
           [Sample.trade "AAPL" "2023-01-02" 10 130 buy]
           [("AAPL"%string, [])] Sample.spyPrices "AAPL" H).
Defined.

(** C6 (the two basis policies).  The engine uses the cash-flow basis for
    cost basis exactly when the sum of all cash-flow amounts is strictly
    positive, and the deposit basis for the counterfactual exactly when a
    cash flow of type [deposit] exists.  Both are fixed by [prepare] before
    the day loop, and every day of the run computes its cost basis and its
    counterfactual share count under them.  The two policies are
    independent: each can hold without the other. *)
Theorem basis_policies :
  forall (trades : list Trade.t) (stockPrices : dict (list StockPrice.t))
         (spyPrices : list StockPrice.t) (cashFlows : list CashFlow.t)
         (splits : dict (list StockSplit.t)),
  exists pre,
    prepare trades stockPrices spyPrices cashFlows splits = Ok pre
    /\ (cashFlowBasis pre = true
        <-> Num.gtb (sumAmounts cashFlows) Num.zero = true)
    /\ (depositBasis pre = true
        <-> exists cf, In cf cashFlows /\ CashFlow.type cf = deposit)
    /\ (forall st spyPrice, exists st' d,
          dayBody pre stockPrices splits st spyPrice = Ok (st', d)
          /\ costBasis d
             = (if cashFlowBasis pre
                then cashFlowCostBasis (sortedCashFlows pre)
                       (StockPrice.date spyPrice)
                else Num.Math_max Num.zero (tradeCostBasis st'))
          /\ counterfactualSpyShares d
             = (if depositBasis pre
                then depositSharesAsOf (depositSpySharesByDate pre)
                       (sortedDeposits pre) (StockPrice.date spyPrice)
                       Num.zero
                else tradeBasedSpyShares st'))
    /\ (exists cfs, useCashFlowBasis cfs = true /\ useDepositBasis cfs = false)
    /\ (exists cfs, useCashFlowBasis cfs = false /\ useDepositBasis cfs = true).
Proof.
  intros trades stockPrices spyPrices cashFlows splits.
  exists (prepared trades stockPrices spyPrices cashFlows splits).
  split; [apply prepare_Ok|].
  split; [reflexivity|].
  split.
  { cbn [prepared depositBasis]. unfold useDepositBasis, len.
    split.
    - intros H. apply Z.gtb_lt in H.
      destruct (filter isDeposit cashFlows) as [|cf rest] eqn:F;
        [simpl in H; lia|].
      assert (Hin : In cf (filter isDeposit cashFlows))
        by (rewrite F; left; reflexivity).
      apply filter_In in Hin. destruct Hin as [Hin Hd].
      exists cf. split; [exact Hin|].
      unfold isDeposit in Hd. destruct (CashFlow.type cf); congruence.
    - intros [cf [Hin Hd]]. apply Z.gtb_lt.
      assert (Hf : In cf (filter isDeposit cashFlows)).
      { apply filter_In. split; [exact Hin|]. unfold isDeposit. rewrite Hd.
        reflexivity. }
      destruct (filter isDeposit cashFlows); [destruct Hf|].
      cbn [List.length]. lia. }
  split.
  { intros st spyPrice. rewrite dayBody_Ok. unfold dayStep.
    eexists. eexists. split; [reflexivity|]. split; reflexivity. }
  split.
  - exists [Sample.dividendOf "2023-01-02" 5]. split; reflexivity.
  - exists [Sample.depositOf "2023-01-02" 0]. split; reflexivity.
Qed.

(** C1 (the first-buy date).  On a trade list in which a sell of a ticker
    precedes every buy of it, in the list and by date, the breakdown
    reports the date of the sell as the first-buy date, not the earliest
    buy date; with the two trades swapped it reports the buy date. *)
Theorem first_buy_date_takes_leading_sell :
  let sellFirst := [Sample.trade "AAPL" "2023-01-02" 1 130 sell;
                    Sample.trade "AAPL" "2023-01-10" 10 130 buy] in
  let buyFirst := [Sample.trade "AAPL" "2023-01-10" 10 130 buy;
                   Sample.trade "AAPL" "2023-01-02" 1 130 sell] in
  let stockPrices := [("AAPL"%string, Sample.aaplPrices)] in
  valueOr [] (calculateStockBreakdown sellFirst stockPrices Sample.spyPrices)
    <> []
  /\ map StockBreakdownData.buyDate
       (valueOr [] (calculateStockBreakdown sellFirst stockPrices
                      Sample.spyPrices))
     = ["2023-01-02"%string]
  /\ earliestBuyDate sellFirst "AAPL" = Some "2023-01-10"%string
  /\ map StockBreakdownData.buyDate
       (valueOr [] (calculateStockBreakdown buyFirst stockPrices
                      Sample.spyPrices))
     = ["2023-01-10"%string]
  /\ earliestBuyDate buyFirst "AAPL" = Some "2023-01-10"%string.
Proof.
  cbv zeta. split; [|split; [|split; [|split]]]; try (vm_compute; reflexivity).
  vm_compute. discriminate.
Qed.

(** ** The day loop on an ascending index series *)

Lemma tradeCostBasis_fold pre l : forall st,
  tradeCostBasis (fold_left (applyTrade pre) l st)
  = fold_left signedAmount l (tradeCostBasis st).
Proof.
  induction l as [|t l IH]; intros st; simpl; [reflexivity|].
  rewrite IH. reflexivity.
Qed.

Lemma takeWhile_split {A} (f : A -> bool) (l : list A) :
  exists rest, l = takeWhile f l ++ rest.
Proof.
  induction l as [|x l [rest IH]]; simpl.
  - exists []. reflexivity.
  - destruct (f x).
    + exists rest. simpl. f_equal. exact IH.
    + exists (x :: l). reflexivity.
Qed.

Lemma filter_all {A} (f : A -> bool) (l : list A) :
  (forall x, In x l -> f x = true) -> filter f l = l.
Proof.
  induction l as [|x l IH]; intros H; simpl; [reflexivity|].
  rewrite (H x) by (left; reflexivity). f_equal. apply IH.
  intros y Hy. apply H. right. exact Hy.
Qed.

Lemma filter_none {A} (f : A -> bool) (l : list A) :
  (forall x, In x l -> f x = false) -> filter f l = [].
Proof.
  induction l as [|x l IH]; intros H; simpl; [reflexivity|].
  rewrite (H x) by (left; reflexivity). apply IH.
  intros y Hy. apply H. right. exact Hy.
Qed.

(** On an ascending list, the elements dated on or before [d] are the
    longest prefix of such elements. *)
Lemma filter_takeWhile_ascending {A} (key : A -> string) (d : string) l :
  ascendingBy key l ->
  filter (fun x => String.leb (key x) d) l
  = takeWhile (fun x => String.leb (key x) d) l.
Proof.
  unfold ascendingBy. induction 1 as [|x l HS IH HF]; simpl; [reflexivity|].
  destruct (String.leb (key x) d) eqn:E; [f_equal; exact IH|].
  apply filter_none. intros y Hy. rewrite Forall_forall in HF.
  specialize (HF y Hy). unfold dateLe in HF.
  destruct (String.leb (key y) d) eqn:Ey; [|reflexivity].
  rewrite (string_leb_trans _ _ _ HF Ey) in E. discriminate.
Qed.

Lemma StronglySorted_app_r {A} (R : A -> A -> Prop) (l1 l2 : list A) :
  StronglySorted R (l1 ++ l2) -> StronglySorted R l2.
Proof.
  induction l1 as [|x l1 IH]; simpl; intros H; [exact H|].
  apply IH. inversion H; assumption.
Qed.

Lemma tradeIndex_stateAfter pre applied :
  tradeIndex (stateAfter pre applied) = List.length applied.
Proof. unfold stateAfter. rewrite tradeIndex_fold. reflexivity. Qed.

(** Applying the trades due on day [d] to the state that has applied a
    prefix of trades dated on or before [d] gives the state that has
    applied exactly the trades dated on or before [d]. *)
Lemma advance_stateAfter pre d applied pending :
  ascendingBy Trade.date (sortedTrades pre) ->
  sortedTrades pre = applied ++ pending ->
  (forall t, In t applied -> dateLe (Trade.date t) d) ->
  exists pending',
    advance pre (stateAfter pre applied) d
    = stateAfter pre
        (filter (fun t => String.leb (Trade.date t) d) (sortedTrades pre))
    /\ sortedTrades pre
       = filter (fun t => String.leb (Trade.date t) d) (sortedTrades pre)
         ++ pending'.
Proof.
  intros Hasc Hsplit Happlied.
  assert (Hdue : dueTrades pre (stateAfter pre applied) d
                 = takeWhile (fun t => String.leb (Trade.date t) d) pending).
  { unfold dueTrades. rewrite tradeIndex_stateAfter, Hsplit.
    rewrite skipn_app, skipn_all, Nat.sub_diag. reflexivity. }
  assert (Hfilter : filter (fun t => String.leb (Trade.date t) d)
                      (sortedTrades pre)
                    = applied
                      ++ takeWhile (fun t => String.leb (Trade.date t) d)
                           pending).
  { rewrite Hsplit, filter_app. f_equal.
    - apply filter_all. exact Happlied.
    - apply (filter_takeWhile_ascending Trade.date).
      rewrite Hsplit in Hasc. apply (StronglySorted_app_r _ _ _ Hasc). }
  destruct (takeWhile_split (fun t => String.leb (Trade.date t) d) pending)
    as [pending' Hp].
  exists pending'. split.
  - unfold advance. rewrite Hdue, Hfilter. unfold stateAfter.
    rewrite fold_left_app. reflexivity.
  - rewrite Hfilter, <- app_assoc, <- Hp. exact Hsplit.
Qed.

(** On an ascending index series, the state of each day has applied
    exactly the trades dated on or before that day. *)
Lemma traceOf_states pre stockPrices splits :
  ascendingBy Trade.date (sortedTrades pre) ->
  forall spyPrices applied pending,
    ascending spyPrices ->
    sortedTrades pre = applied ++ pending ->
    (forall t day, In t applied -> In day spyPrices ->
                   dateLe (Trade.date t) (StockPrice.date day)) ->
    Forall
      (fun r =>
         fst r = stateAfter pre
                   (filter (fun t => String.leb (Trade.date t)
                                       (currentDate (snd r)))
                      (sortedTrades pre)))
      (traceOf pre stockPrices splits spyPrices (stateAfter pre applied)).
Proof.
  intros Hasc.
  induction spyPrices as [|day rest IH]; intros applied pending Hspy Hsplit Hle;
    cbn [traceOf]; [constructor|].
  destruct (advance_stateAfter pre (StockPrice.date day) applied pending
              Hasc Hsplit) as [pending' [Hadv Hsplit']].
  { intros t Ht. apply Hle; [exact Ht | left; reflexivity]. }
  constructor.
  - cbn [dayStep fst snd dayLocalsOf currentDate]. exact Hadv.
  - cbn [dayStep fst]. rewrite Hadv.
    inversion Hspy as [|? ? Hrest Hday]; subst.
    apply (IH _ pending'); [exact Hrest | exact Hsplit' |].
    intros t day' Ht Hday'. apply filter_In in Ht. destruct Ht as [_ Ht].
    rewrite Forall_forall in Hday.
    apply (dateLe_trans _ (StockPrice.date day)); [exact Ht|].
    apply Hday, Hday'.
Qed.

Lemma traceOf_dates pre stockPrices splits spyPrices : forall st,
  map (fun r => currentDate (snd r))
    (traceOf pre stockPrices splits spyPrices st)
  = map StockPrice.date spyPrices.
Proof.
  induction spyPrices as [|day rest IH]; intros st; cbn [traceOf map];
    [reflexivity|].
  rewrite IH. reflexivity.
Qed.

Lemma dayStep_costBasis pre stockPrices splits st spyPrice :
  costBasis (snd (dayStep pre stockPrices splits st spyPrice))
  = if cashFlowBasis pre
    then cashFlowCostBasis (sortedCashFlows pre) (StockPrice.date spyPrice)
    else Num.Math_max Num.zero
           (tradeCostBasis (fst (dayStep pre stockPrices splits st spyPrice))).
Proof. reflexivity. Qed.

Lemma traceOf_locals pre stockPrices splits spyPrices : forall st,
  Forall
    (fun r =>
       costBasis (snd r)
       = if cashFlowBasis pre
         then cashFlowCostBasis (sortedCashFlows pre) (currentDate (snd r))
         else Num.Math_max Num.zero (tradeCostBasis (fst r)))
    (traceOf pre stockPrices splits spyPrices st).
Proof.
  induction spyPrices as [|day rest IH]; intros st; cbn [traceOf];
    constructor; [reflexivity | apply IH].
Qed.

Lemma byTradeDate_sorted trades :
  ascendingBy Trade.date (Array_sort byTradeDate trades).
Proof. apply (Array_sort_ascending Trade.date). Qed.

Lemma byCashFlowDate_sorted cashFlows :
  ascendingBy CashFlow.date (Array_sort byCashFlowDate cashFlows).
Proof. apply (Array_sort_ascending CashFlow.date). Qed.

(** On an ascending index series, every day of the run has the cost basis
    the specification gives for its date. *)
Lemma traceOf_costBasisOn trades stockPrices spyPrices cashFlows splits :
  ascending spyPrices ->
  Forall
    (fun r => costBasis (snd r) = costBasisOn trades cashFlows
                                    (currentDate (snd r)))
    (traceOf (prepared trades stockPrices spyPrices cashFlows splits)
       stockPrices splits spyPrices initialState).
Proof.
  intros Hspy.
  set (pre := prepared trades stockPrices spyPrices cashFlows splits).
  pose proof (traceOf_locals pre stockPrices splits spyPrices initialState)
    as Hloc.
  pose proof (traceOf_states pre stockPrices splits
                (byTradeDate_sorted trades) spyPrices [] (sortedTrades pre)
                Hspy eq_refl) as Hst.
  specialize (Hst (fun t day H => match H with end)).
  change (stateAfter pre []) with initialState in Hst.
  rewrite Forall_forall in *. intros r Hr.
  rewrite (Hloc r Hr). unfold costBasisOn.
  change (cashFlowBasis pre) with (useCashFlowBasis cashFlows).
  destruct (useCashFlowBasis cashFlows); [reflexivity|].
  rewrite (Hst r Hr). unfold stateAfter, tradeCostBasisOn.
  rewrite tradeCostBasis_fold. reflexivity.
Qed.

Lemma filter_map_comm {A B} (g : A -> B) (f : B -> bool) (l : list A) :
  filter f (map g l) = map g (filter (fun x => f (g x)) l).
Proof.
  induction l as [|x l IH]; simpl; [reflexivity|].
  destruct (f (g x)); simpl; rewrite IH; reflexivity.
Qed.

Lemma filter_ext_Forall {A} (f g : A -> bool) (l : list A) :
  Forall (fun x => f x = g x) l -> filter f l = filter g l.
Proof.
  induction 1 as [|x l Hx _ IH]; simpl; [reflexivity|].
  rewrite Hx, IH. reflexivity.
Qed.

(** The dates of the data points are the dates of the index series whose
    cost basis is positive, in the order of the series. *)
Lemma pointsOf_dates trades stockPrices spyPrices cashFlows splits :
  ascending spyPrices ->
  map PortfolioDataPoint.date
    (pointsOf
       (traceOf (prepared trades stockPrices spyPrices cashFlows splits)
          stockPrices splits spyPrices initialState))
  = filter (fun d => Num.gtb (costBasisOn trades cashFlows d) Num.zero)
      (map StockPrice.date spyPrices).
Proof.
  intros Hspy. unfold pointsOf.
  rewrite map_map. cbn [dataPointOf PortfolioDataPoint.date].
  rewrite <- (traceOf_dates
                (prepared trades stockPrices spyPrices cashFlows splits)
                stockPrices splits spyPrices initialState).
  rewrite <- (map_map snd currentDate).
  rewrite (filter_map_comm currentDate). f_equal.
  apply filter_ext_Forall.
  pose proof (traceOf_costBasisOn trades stockPrices spyPrices cashFlows
                splits Hspy) as H.
  apply Forall_map. rewrite Forall_forall in *. intros r Hr.
  unfold emitted. rewrite (H r Hr). reflexivity.
Qed.

(** C2 (which days are emitted).  With a non-empty trade list and a
    non-empty index price series in ascending date order, the engine
    returns data points whose dates are in ascending order, every emitted
    date is a date of the index series, and a date of the index series is
    emitted if and only if the cost basis of that day, under the cost-basis
    mode of the run, is strictly positive. *)
Theorem emitted_days :
  forall (trades : list Trade.t) (stockPrices : dict (list StockPrice.t))
         (spyPrices : list StockPrice.t) (cashFlows : list CashFlow.t)
         (splits : dict (list StockSplit.t)),
    trades <> [] -> spyPrices <> [] -> ascending spyPrices ->
    exists points,
      calculatePortfolioTimeSeries trades stockPrices spyPrices cashFlows splits
        = Ok points
      /\ ascendingDates (map PortfolioDataPoint.date points)
      /\ (forall d, In d (map PortfolioDataPoint.date points) ->
                    In d (map StockPrice.date spyPrices))
      /\ (forall d, In d (map StockPrice.date spyPrices) ->
            (In d (map PortfolioDataPoint.date points)
             <-> Num.gtb (costBasisOn trades cashFlows d) Num.zero = true))
      /\ map PortfolioDataPoint.date points
         = filter (fun d => Num.gtb (costBasisOn trades cashFlows d) Num.zero)
             (map StockPrice.date spyPrices).
Proof.
  intros trades stockPrices spyPrices cashFlows splits Ht Hs Hspy.
  rewrite calculatePortfolioTimeSeries_Ok.
  destruct trades as [|t trades']; [contradiction|].
  destruct spyPrices as [|s spyPrices']; [contradiction|].
  eexists. split; [reflexivity|].
  rewrite (pointsOf_dates _ _ _ _ _ Hspy).
  split; [|split; [|split]].
  - unfold ascendingDates. apply StronglySorted_filter.
    apply StronglySorted_map. exact Hspy.
  - intros d Hd. apply filter_In in Hd. apply Hd.
  - intros d Hd. rewrite filter_In. tauto.
  - reflexivity.
Qed.

Lemma emitted_days_witness :
  [Sample.trade "AAPL" "2023-01-02" 10 130 buy] <> []
  /\ Sample.spyPrices <> []
  /\ ascending Sample.spyPrices
  /\ exists points,
       calculatePortfolioTimeSeries
         [Sample.trade "AAPL" "2023-01-02" 10 130 buy]
         [("AAPL"%string, Sample.aaplPrices)] Sample.spyPrices [] []
       = Ok points
       /\ map PortfolioDataPoint.date points
          = filter
              (fun d =>
                 Num.gtb
                   (costBasisOn [Sample.trade "AAPL" "2023-01-02" 10 130 buy]
                      [] d) Num.zero)
              (map StockPrice.date Sample.spyPrices).
Proof.
  assert (H1 : [Sample.trade "AAPL" "2023-01-02" 10 130 buy] <> [])
    by discriminate.
  assert (H2 : Sample.spyPrices <> []) by discriminate.
  assert (H3 : ascending Sample.spyPrices)
    by (repeat constructor; reflexivity).
  split; [exact H1|]. split; [exact H2|]. split; [exact H3|].
  destruct (emitted_days [Sample.trade "AAPL" "2023-01-02" 10 130 buy]
              [("AAPL"%string, Sample.aaplPrices)] Sample.spyPrices [] []
              H1 H2 H3) as [points [Hok [_ [_ [_ Hdates]]]]].
  exists points. split; [exact Hok | exact Hdates].
Defined.

(** ** Finite numbers in the arithmetic of the embedding *)

Lemma finite_add a b : finite a -> finite b -> finite (Num.add a b).
Proof. destruct a, b; simpl; auto; discriminate. Qed.

Lemma finite_neg a : finite a -> finite (Num.neg a).
Proof. destruct a; simpl; auto. Qed.

Lemma finite_sub a b : finite a -> finite b -> finite (Num.sub a b).
Proof. intros. unfold Num.sub. apply finite_add; [|apply finite_neg]; auto. Qed.

Lemma finite_mul a b : finite a -> finite b -> finite (Num.mul a b).
Proof. destruct a, b; simpl; auto; discriminate. Qed.

(** A division whose divisor is finite and truthy, that is, not zero. *)
Lemma finite_div a b :
  finite a -> finite b -> Num.truthy b = true -> finite (Num.div a b).
Proof.
  destruct a as [x| | |], b as [y| | |]; simpl; try discriminate.
  intros _ _ Hy. destruct (Num.sign y); [discriminate| |]; reflexivity.
Qed.

Lemma finite_round a : finite a -> finite (Num.Math_round a).
Proof. destruct a; simpl; auto. Qed.

Lemma finite_round2 a : finite a -> finite (round2 a).
Proof.
  intros H. unfold round2, Num.roundTo.
  apply finite_div; [|reflexivity|reflexivity].
  apply finite_round, finite_mul; [exact H | reflexivity].
Qed.

(** [(value - costBasis) / costBasis * 100] under the guard
    [costBasis > 0]. *)
Lemma finite_returnPct v c :
  finite v -> finite c -> Num.gtb c Num.zero = true -> finite (returnPct v c).
Proof.
  intros Hv Hc Hpos. unfold returnPct.
  apply finite_mul; [|reflexivity].
  apply finite_div; [apply finite_sub; assumption | exact Hc |].
  apply gtb_zero_truthy, Hpos.
Qed.

(** ** Dictionaries whose values satisfy a predicate *)

Lemma dictAll_dset {V} (P : V -> Prop) (d : dict V) k v :
  dictAll P d -> P v -> dictAll P (dset d k v).
Proof.
  unfold dictAll. induction 1 as [|[k0 v0] d H0 Hd IH]; intros Hv; simpl.
  - constructor; [exact Hv | constructor].
  - destruct (String.eqb k0 k); constructor; auto.
Qed.

Lemma dictAll_dget {V} (P : V -> Prop) (d : dict V) k v :
  dictAll P d -> dget d k = Some v -> P v.
Proof.
  unfold dictAll. induction 1 as [|[k0 v0] d H0 Hd IH]; simpl; [discriminate|].
  destruct (String.eqb k0 k); [|exact IH].
  intros E; inversion E; subst. exact H0.
Qed.

Lemma dictAll_nil {V} (P : V -> Prop) : dictAll P (@nil (string * V)).
Proof. constructor. Qed.

Lemma dictAll_fold_dset {A V} (P : V -> Prop) (key : A -> string)
  (val : A -> V) (l : list A) :
  (forall x, In x l -> P (val x)) ->
  forall d, dictAll P d ->
            dictAll P (fold_left (fun m x => dset m (key x) (val x)) l d).
Proof.
  induction l as [|x l IH]; intros Hl d Hd; simpl; [exact Hd|].
  apply IH.
  - intros y Hy. apply Hl. right. exact Hy.
  - apply dictAll_dset; [exact Hd|]. apply Hl. left. reflexivity.
Qed.

Lemma dgetOrEmpty_Forall {A} (P : A -> Prop) (d : dict (list A)) k :
  dictAll (Forall P) d -> Forall P (dgetOrEmpty d k).
Proof.
  intros H. unfold dgetOrEmpty. destruct (dget d k) as [a|] eqn:G.
  - apply (dictAll_dget _ _ _ _ H G).
  - constructor.
Qed.

(** ** Sorted arrays and clamped lookups *)

Lemma Forall_Array_sort {A} (P : A -> Prop) (cmp : A -> A -> number) l :
  Forall P l -> Forall P (Array_sort cmp l).
Proof.
  rewrite !Forall_forall. intros H x Hx. apply H.
  apply Array_sort_In in Hx. exact Hx.
Qed.

Lemma clampLookup_In test prices p :
  clampLookup test prices = Some p -> In p prices.
Proof.
  unfold clampLookup. destruct (find test (rev prices)) as [q|] eqn:F.
  - intros E; inversion E; subst. apply find_some in F. apply in_rev, F.
  - destruct prices; simpl; [discriminate|].
    intros E; inversion E. left. reflexivity.
Qed.
(** ** The summary engine *)

Lemma round2_zero : round2 Num.zero = Num.zero.
Proof. apply number_eqb_eq. reflexivity. Qed.

(** What [calculateSummary] returns for a non-empty breakdown. *)
Lemma calculateSummary_nonempty b rest cashFlows trades :
  exists best worst,
    fold_left performerStep (b :: rest) (b, b) = (best, worst)
    /\ calculateSummary (b :: rest) cashFlows trades
       = Ok (let breakdown := b :: rest in
             let totalCostBasis := summaryCostBasis trades in
             let totalPortfolioValue :=
               fold_left
                 (fun sum x => Num.add sum (StockBreakdownData.currentValue x))
                 breakdown Num.zero in
             let totalCounterfactualValue :=
               fold_left
                 (fun sum x =>
                    Num.add sum (StockBreakdownData.spyCurrentValue x))
                 breakdown Num.zero in
             SummaryData.mk
               (round2 totalCostBasis)
               (round2 totalPortfolioValue)
               (round2 totalCounterfactualValue)
               (round2 (if Num.gtb totalCostBasis Num.zero
                        then returnPct totalPortfolioValue totalCostBasis
                        else Num.zero))
               (round2 (if Num.gtb totalCostBasis Num.zero
                        then returnPct totalCounterfactualValue totalCostBasis
                        else Num.zero))
               (round2 (Num.sub totalPortfolioValue totalCounterfactualValue))
               (round2 (if Num.gtb totalCostBasis Num.zero
                        then Num.mul
                               (Num.div
                                  (Num.sub totalPortfolioValue
                                     totalCounterfactualValue)
                                  totalCostBasis)
                               Num.hundred
                        else Num.zero))
               (Some (performerOf best))
               (Some (performerOf worst))).
Proof.
  unfold calculateSummary. rewrite len_cons_nonzero, aget_head. cbn [bind].
  destruct (fold_left performerStep (b :: rest) (b, b)) as [best worst].
  exists best, worst. split; reflexivity.
Qed.

(** ** C8 *)




(** ** The order on finite numbers *)

Lemma leb_Fin x y : Num.leb (Fin x) (Fin y) = true <-> Qcle x y.
Proof.
  simpl. rewrite Qcle_alt.
  destruct (Qccompare x y); split; intros H; try reflexivity;
    try discriminate; try (intros E; discriminate E).
  exfalso. apply H. reflexivity.
Qed.

Lemma le_refl a : finite a -> Num.le a a.
Proof.
  destruct a as [x| | |]; try discriminate. intros _.
  apply leb_Fin, Qcle_refl.
Qed.

Lemma le_trans a b c : Num.le a b -> Num.le b c -> Num.le a c.
Proof.
  unfold Num.le.
  destruct a as [x| | |], b as [y| | |], c as [z| | |];
    try (simpl; discriminate); try (simpl; reflexivity).
  rewrite !leb_Fin. apply Qcle_trans.
Qed.

Lemma Qc_zero : Q2Qc (inject_Z 0) = Q2Qc 0%Q.
Proof. reflexivity. Qed.

(** Adding a non-negative number does not decrease a finite number. *)
Lemma le_add_nonneg c i : finite c -> nonneg i -> Num.le c (Num.add c i).
Proof.
  destruct c as [x| | |], i as [y| | |]; intros Hc [Hf Hi];
    try discriminate.
  unfold Num.le, Num.zero, Num.ofZ in *. simpl Num.add.
  rewrite leb_Fin in *. rewrite Qc_zero in Hi.
  pose proof (Qcplus_le_compat x x (Q2Qc 0%Q) y (Qcle_refl x) Hi) as H.
  rewrite Qcplus_0_r in H. exact H.
Qed.

Lemma nonneg_zero : nonneg Num.zero.
Proof. split; reflexivity. Qed.

Lemma nonneg_add a b : nonneg a -> nonneg b -> nonneg (Num.add a b).
Proof.
  intros [Ha Hla] Hb. split; [apply finite_add; [exact Ha | apply Hb]|].
  apply (le_trans _ a); [exact Hla | apply le_add_nonneg; assumption].
Qed.

Lemma nonneg_mul a b : nonneg a -> nonneg b -> nonneg (Num.mul a b).
Proof.
  destruct a as [x| | |], b as [y| | |]; intros [Ha Hla] [Hb Hlb];
    try discriminate.
  split; [reflexivity|].
  unfold Num.le, Num.zero, Num.ofZ in *. simpl Num.mul.
  rewrite leb_Fin in *. rewrite Qc_zero in *.
  pose proof (Qcmult_le_compat_r (Q2Qc 0%Q) x y Hla Hlb) as H.
  rewrite Qcmult_0_l in H. exact H.
Qed.

Lemma Qcinv_nonneg (y : Qc) : Qcle (Q2Qc 0%Q) y -> Qcle (Q2Qc 0%Q) (Qcinv y).
Proof.
  unfold Qcle, Qcinv. intros H. cbn [this Q2Qc] in *.
  rewrite !Qred_correct in *. apply Qinv_le_0_compat. exact H.
Qed.

(** A non-negative number divided by a non-negative, non-zero number is
    not negative. *)
Lemma nonneg_div a b :
  nonneg a -> nonneg b -> Num.truthy b = true -> nonneg (Num.div a b).
Proof.
  intros Ha Hb T. split; [apply finite_div; [apply Ha | apply Hb | exact T]|].
  destruct a as [x| | |], b as [y| | |]; destruct Ha as [Hfa Hla];
    destruct Hb as [Hfb Hlb]; try discriminate.
  unfold Num.le, Num.zero, Num.ofZ in *. simpl Num.div. simpl in T.
  destruct (Num.sign y) eqn:S; [discriminate| |];
    rewrite leb_Fin in *; rewrite Qc_zero in *; unfold Qcdiv;
    pose proof (Qcmult_le_compat_r (Q2Qc 0%Q) x (Qcinv y) Hla
                  (Qcinv_nonneg y Hlb)) as H;
    rewrite Qcmult_0_l in H; exact H.
Qed.

Lemma nonneg_orElse o : nonnegOpt o -> nonneg (Num.orElse o Num.zero).
Proof. destruct o; simpl; [auto | intros _; apply nonneg_zero]. Qed.

Lemma nonneg_tradeAmount t : wellFormedTrade t -> nonneg (tradeAmount t).
Proof.
  intros [Hs Hp]. unfold tradeAmount. apply nonneg_mul; [exact Hs|].
  apply nonneg_orElse, Hp.
Qed.

Lemma nonneg_priceOnOrBefore prices target :
  Forall wellFormedPrice prices -> nonnegOpt (priceOnOrBefore prices target).
Proof.
  intros H. destruct (priceOnOrBefore prices target) as [v|] eqn:E; [|exact I].
  apply priceOnOrBefore_In in E. destruct E as [p [Hin <-]].
  rewrite Forall_forall in H. apply H, Hin.
Qed.

Lemma StronglySorted_map_mono {A B} (RA : A -> A -> Prop)
  (RB : B -> B -> Prop) (f : A -> B) (l : list A) :
  (forall x y, In x l -> In y l -> RA x y -> RB (f x) (f y)) ->
  StronglySorted RA l -> StronglySorted RB (map f l).
Proof.
  intros Hmono HS. induction HS as [|x l HS IH HF]; simpl; constructor.
  - apply IH. intros a b Ha Hb. apply Hmono; right; assumption.
  - rewrite Forall_forall in *. intros y Hy. apply in_map_iff in Hy.
    destruct Hy as [z [<- Hz]].
    apply Hmono; [left; reflexivity | right; exact Hz | apply HF, Hz].
Qed.

(** ** Deposit basis: the counterfactual share count over time *)

Section DepositShares.

Variable spyPrices : list StockPrice.t.
Hypothesis spyWellFormed : Forall wellFormedPrice spyPrices.

Lemma depositAcc_cumulate acc dep :
  depositAcc spyPrices acc dep
  = if usable spyPrices (CashFlow.date dep)
    then (dset (fst acc) (CashFlow.date dep) (cumulate spyPrices (snd acc) dep),
          cumulate spyPrices (snd acc) dep)
    else acc.
Proof.
  unfold depositAcc, cumulate, usable, increment.
  destruct (priceOnOrBefore spyPrices (CashFlow.date dep)) as [p|];
    [|reflexivity].
  destruct (Num.truthy p); reflexivity.
Qed.

(** The map built by the deposit loop holds, under each date, the
    cumulative count after the last deposit of that date. *)
Lemma fold_depositAcc_dget deposits : forall m c k,
  dget (fst (fold_left (depositAcc spyPrices) deposits (m, c))) k
  = match lastCumulative spyPrices deposits c k with
    | Some v => Some v
    | None => dget m k
    end.
Proof.
  induction deposits as [|dep rest IH]; intros m c k; [reflexivity|].
  cbn [fold_left lastCumulative]. rewrite depositAcc_cumulate. cbn [fst snd].
  unfold cumulate at 2.
  destruct (usable spyPrices (CashFlow.date dep)) eqn:U.
  - rewrite IH. unfold cumulate. rewrite U.
    destruct (lastCumulative spyPrices rest _ k); [reflexivity|].
    rewrite dget_dset. cbn [andb].
    destruct (String.eqb (CashFlow.date dep) k); reflexivity.
  - rewrite IH. unfold cumulate. rewrite U.
    destruct (lastCumulative spyPrices rest c k); reflexivity.
Qed.

Lemma depositSharesAsOf_by m deposits d : forall acc,
  depositSharesAsOf m deposits d acc = sharesAsOfBy (dget m) deposits d acc.
Proof.
  induction deposits as [|dep rest IH]; intros acc; simpl; [reflexivity|].
  rewrite IH. reflexivity.
Qed.

Lemma sharesAsOfBy_ext F G deposits d : forall acc,
  (forall dep, In dep deposits ->
               F (CashFlow.date dep) = G (CashFlow.date dep)) ->
  sharesAsOfBy F deposits d acc = sharesAsOfBy G deposits d acc.
Proof.
  induction deposits as [|dep rest IH]; intros acc H; simpl; [reflexivity|].
  rewrite (H dep) by (left; reflexivity).
  rewrite IH by (intros x Hx; apply H; right; exact Hx). reflexivity.
Qed.

Lemma cumulate_ge c dep :
  finite c -> nonneg (CashFlow.amount dep) ->
  finite (cumulate spyPrices c dep) /\ Num.le c (cumulate spyPrices c dep).
Proof.
  intros Hc Ha. unfold cumulate, usable, increment.
  pose proof (nonneg_priceOnOrBefore spyPrices (CashFlow.date dep)
                spyWellFormed) as Hp.
  destruct (priceOnOrBefore spyPrices (CashFlow.date dep)) as [p|];
    [|split; [exact Hc | apply le_refl, Hc]].
  destruct (Num.truthy p) eqn:T; [|split; [exact Hc | apply le_refl, Hc]].
  pose proof (nonneg_div _ _ Ha Hp T) as Hi.
  split; [apply finite_add; [exact Hc | apply Hi]|].
  apply le_add_nonneg; assumption.
Qed.

Lemma lastCumulative_bounds deposits : forall c k v,
  Forall (fun dep => nonneg (CashFlow.amount dep)) deposits ->
  finite c ->
  lastCumulative spyPrices deposits c k = Some v ->
  finite v /\ Num.le c v.
Proof.
  induction deposits as [|dep rest IH]; intros c k v Hd Hc; [discriminate|].
  cbn [lastCumulative]. inversion Hd as [|? ? Ha Hrest]; subst.
  destruct (cumulate_ge c dep Hc Ha) as [Hc' Hle].
  destruct (lastCumulative spyPrices rest (cumulate spyPrices c dep) k)
    as [w|] eqn:E.
  - intros H; inversion H; subst w.
    destruct (IH _ _ _ Hrest Hc' E) as [Hv Hle'].
    split; [exact Hv | apply (le_trans _ _ _ Hle Hle')].
  - destruct (usable spyPrices (CashFlow.date dep)
              && String.eqb (CashFlow.date dep) k)%bool; [|discriminate].
    intros H; inversion H; subst v. split; assumption.
Qed.

Lemma lastCumulative_None deposits : forall c k dep,
  lastCumulative spyPrices deposits c k = None ->
  In dep deposits -> CashFlow.date dep = k -> usable spyPrices k = false.
Proof.
  induction deposits as [|x rest IH]; intros c k dep H Hin Hk; [destruct Hin|].
  cbn [lastCumulative] in H.
  destruct (lastCumulative spyPrices rest (cumulate spyPrices c x) k) eqn:E;
    [discriminate|].
  destruct Hin as [-> | Hin]; [|apply (IH _ _ _ E Hin Hk)].
  rewrite Hk, String.eqb_refl, andb_true_r in H.
  destruct (usable spyPrices k); [discriminate | reflexivity].
Qed.

Lemma lastCumulative_Some_In deposits : forall c k v,
  lastCumulative spyPrices deposits c k = Some v ->
  exists dep, In dep deposits /\ CashFlow.date dep = k.
Proof.
  induction deposits as [|x rest IH]; intros c k v H; [discriminate|].
  cbn [lastCumulative] in H.
  destruct (lastCumulative spyPrices rest (cumulate spyPrices c x) k) eqn:E.
  - destruct (IH _ _ _ E) as [dep [Hin Hk]]. exists dep. split; [right|]; auto.
  - destruct (usable spyPrices (CashFlow.date x)) ; [|discriminate].
    destruct (String.eqb_spec (CashFlow.date x) k); [|discriminate].
    exists x. split; [left; reflexivity | assumption].
Qed.

(** For the date of a later deposit the head of the list is irrelevant. *)
Lemma lastCumulative_tail dep rest c dep2 :
  In dep2 rest ->
  lastCumulative spyPrices (dep :: rest) c (CashFlow.date dep2)
  = lastCumulative spyPrices rest (cumulate spyPrices c dep)
      (CashFlow.date dep2).
Proof.
  intros Hin. cbn [lastCumulative].
  destruct (lastCumulative spyPrices rest (cumulate spyPrices c dep)
              (CashFlow.date dep2)) eqn:E; [reflexivity|].
  pose proof (lastCumulative_None _ _ _ _ E Hin eq_refl) as U.
  destruct (String.eqb_spec (CashFlow.date dep) (CashFlow.date dep2)) as [Ed|];
    [|rewrite andb_false_r; reflexivity].
  rewrite Ed, U. reflexivity.
Qed.

(** In an ascending deposit list, the value stored under an earlier date
    is at most the value stored under a later date. *)
Lemma lastCumulative_order deposits : forall c k1 k2 v1 v2,
  ascendingBy CashFlow.date deposits ->
  Forall (fun dep => nonneg (CashFlow.amount dep)) deposits ->
  finite c ->
  String.ltb k1 k2 = true ->
  lastCumulative spyPrices deposits c k1 = Some v1 ->
  lastCumulative spyPrices deposits c k2 = Some v2 ->
  Num.le v1 v2.
Proof.
  induction deposits as [|x rest IH]; intros c k1 k2 v1 v2 Hasc Hd Hc Hlt H1 H2;
    [discriminate|].
  inversion Hasc as [|? ? Hasc' Hfirst]; subst.
  inversion Hd as [|? ? Ha Hrest]; subst.
  destruct (cumulate_ge c x Hc Ha) as [Hc' _].
  cbn [lastCumulative] in H1, H2.
  destruct (lastCumulative spyPrices rest (cumulate spyPrices c x) k1)
    as [w1|] eqn:E1;
    destruct (lastCumulative spyPrices rest (cumulate spyPrices c x) k2)
      as [w2|] eqn:E2.
  - inversion H1; inversion H2; subst.
    apply (IH _ _ _ _ _ Hasc' Hrest Hc' Hlt E1 E2).
  - exfalso.
    destruct (usable spyPrices (CashFlow.date x)); [|discriminate].
    destruct (String.eqb_spec (CashFlow.date x) k2) as [Ex|]; [|discriminate].
    destruct (lastCumulative_Some_In _ _ _ _ E1) as [dep [Hin Hk]].
    rewrite Forall_forall in Hfirst. specialize (Hfirst dep Hin).
    unfold dateLe in Hfirst. rewrite Ex, Hk in Hfirst.
    rewrite string_ltb_leb, Hfirst in Hlt. discriminate.
  - inversion H2; subst w2.
    destruct (usable spyPrices (CashFlow.date x)
              && String.eqb (CashFlow.date x) k1)%bool; [|discriminate].
    inversion H1; subst v1.
    apply (lastCumulative_bounds _ _ _ _ Hrest Hc' E2).
  - exfalso.
    destruct (usable spyPrices (CashFlow.date x)); [|discriminate].
    destruct (String.eqb_spec (CashFlow.date x) k1) as [Ex1|]; [|discriminate].
    destruct (String.eqb_spec (CashFlow.date x) k2) as [Ex2|]; [|discriminate].
    rewrite <- Ex1, <- Ex2, string_ltb_irrefl in Hlt. discriminate.
Qed.

(** The scan of the deposits never lowers the count, and scanning up to
    a later day gives at least the count of an earlier day. *)
Lemma sharesAsOfBy_mono deposits : forall c acc F d1 d2,
  ascendingBy CashFlow.date deposits ->
  Forall (fun dep => nonneg (CashFlow.amount dep)) deposits ->
  finite c -> finite acc ->
  (forall dep, In dep deposits ->
     F (CashFlow.date dep)
     = lastCumulative spyPrices deposits c (CashFlow.date dep)) ->
  (forall dep v, In dep deposits ->
     lastCumulative spyPrices deposits c (CashFlow.date dep) = Some v ->
     Num.le acc v) ->
  dateLe d1 d2 ->
  finite (sharesAsOfBy F deposits d1 acc)
  /\ Num.le acc (sharesAsOfBy F deposits d1 acc)
  /\ Num.le (sharesAsOfBy F deposits d1 acc) (sharesAsOfBy F deposits d2 acc).
Proof.
  induction deposits as [|x rest IH];
    intros c acc F d1 d2 Hasc Hd Hc Hacc HF HJ Hle.
  - simpl. repeat split; [exact Hacc | apply le_refl, Hacc ..].
  - inversion Hasc as [|? ? Hasc' Hfirst]; subst.
    inversion Hd as [|? ? Ha Hrest]; subst.
    destruct (cumulate_ge c x Hc Ha) as [Hc' _].
    set (acc' := match F (CashFlow.date x) with
                 | Some v => v
                 | None => acc
                 end).
    assert (HF' : forall dep, In dep rest ->
              F (CashFlow.date dep)
              = lastCumulative spyPrices rest (cumulate spyPrices c x)
                  (CashFlow.date dep)).
    { intros dep Hin. rewrite (HF dep) by (right; exact Hin).
      apply lastCumulative_tail, Hin. }
    assert (Hacc' : finite acc' /\ Num.le acc acc').
    { unfold acc'. rewrite (HF x) by (left; reflexivity).
      destruct (lastCumulative spyPrices (x :: rest) c (CashFlow.date x))
        as [v|] eqn:E.
      - split.
        + apply (lastCumulative_bounds _ _ _ _ Hd Hc E).
        + apply (HJ x v); [left; reflexivity | exact E].
      - split; [exact Hacc | apply le_refl, Hacc]. }
    destruct Hacc' as [Hfacc' Hle'].
    assert (HJ' : forall dep v, In dep rest ->
              lastCumulative spyPrices rest (cumulate spyPrices c x)
                (CashFlow.date dep) = Some v ->
              Num.le acc' v).
    { intros dep v Hin Ev. unfold acc'. rewrite (HF x) by (left; reflexivity).
      destruct (lastCumulative spyPrices (x :: rest) c (CashFlow.date x))
        as [v0|] eqn:E0.
      - destruct (String.eqb_spec (CashFlow.date x) (CashFlow.date dep))
          as [Ed | Nd].
        + rewrite Ed, (lastCumulative_tail x rest c dep Hin), Ev in E0.
          inversion E0; subst v0.
          apply le_refl. apply (lastCumulative_bounds _ _ _ _ Hrest Hc' Ev).
        + assert (Hlt : String.ltb (CashFlow.date x) (CashFlow.date dep) = true).
          { rewrite Forall_forall in Hfirst. specialize (Hfirst dep Hin).
            unfold dateLe in Hfirst. rewrite string_ltb_leb.
            destruct (String.leb (CashFlow.date dep) (CashFlow.date x)) eqn:Eb;
              [|reflexivity].
            exfalso. apply Nd. apply String.leb_antisym; assumption. }
          apply (lastCumulative_order (x :: rest) c (CashFlow.date x)
                   (CashFlow.date dep) v0 v Hasc Hd Hc Hlt E0).
          rewrite (lastCumulative_tail x rest c dep Hin). exact Ev.
      - apply (HJ dep v); [right; exact Hin|].
        rewrite (lastCumulative_tail x rest c dep Hin). exact Ev. }
    cbn [sharesAsOfBy]. fold acc'.
    destruct (String.ltb d2 (CashFlow.date x)) eqn:L2.
    + assert (L1 : String.ltb d1 (CashFlow.date x) = true)
        by (apply (string_leb_ltb_trans _ d2); assumption).
      rewrite L1. repeat split; [exact Hacc | apply le_refl, Hacc ..].
    + destruct (String.ltb d1 (CashFlow.date x)) eqn:L1.
      * destruct (IH (cumulate spyPrices c x) acc' F d2 d2 Hasc' Hrest Hc'
                    Hfacc' HF' HJ' (dateLe_refl d2)) as [_ [Hge _]].
        repeat split; [exact Hacc | apply le_refl, Hacc |].
        apply (le_trans _ _ _ Hle' Hge).
      * destruct (IH (cumulate spyPrices c x) acc' F d1 d2 Hasc' Hrest Hc'
                    Hfacc' HF' HJ' Hle) as [Hf [Hge Hmono]].
        repeat split; [exact Hf | | exact Hmono].
        apply (le_trans _ _ _ Hle' Hge).
Qed.

End DepositShares.

(** ** Trade basis: the running index-share total *)

Lemma tradeBasedSpyShares_fold pre l : forall st,
  tradeBasedSpyShares (fold_left (applyTrade pre) l st)
  = fold_left Num.add
      (map (numberAt (tradeSpySharesChange pre))
         (seq (tradeIndex st) (List.length l)))
      (tradeBasedSpyShares st).
Proof.
  induction l as [|t l IH]; intros st; [reflexivity|].
  cbn [fold_left List.length seq map]. rewrite IH. reflexivity.
Qed.

Lemma tradeBasedSpyShares_stateAfter pre applied :
  tradeBasedSpyShares (stateAfter pre applied)
  = changesTotal (tradeSpySharesChange pre) (List.length applied).
Proof. unfold stateAfter. rewrite tradeBasedSpyShares_fold. reflexivity. Qed.

Lemma changesTotal_succ changes n :
  changesTotal changes (S n)
  = Num.add (changesTotal changes n) (numberAt changes n).
Proof.
  unfold changesTotal. rewrite seq_S, map_app, fold_left_app. reflexivity.
Qed.

Lemma nonneg_numberAt changes i :
  Forall nonneg changes -> (i < List.length changes)%nat ->
  nonneg (numberAt changes i).
Proof.
  intros H Hi. unfold numberAt.
  destruct (nth_error changes i) as [v|] eqn:N.
  - rewrite Forall_forall in H. apply H. eapply nth_error_In; eauto.
  - apply nth_error_None in N. lia.
Qed.

(** The running total over more trades is at least the total over
    fewer, when every change is non-negative. *)
Lemma changesTotal_mono changes :
  Forall nonneg changes ->
  forall n2 n1, (n1 <= n2)%nat -> (n2 <= List.length changes)%nat ->
    nonneg (changesTotal changes n1)
    /\ Num.le (changesTotal changes n1) (changesTotal changes n2).
Proof.
  intros Hch.
  assert (Hnn : forall n, (n <= List.length changes)%nat ->
                          nonneg (changesTotal changes n)).
  { induction n as [|n IH]; intros Hn; [apply nonneg_zero|].
    rewrite changesTotal_succ. apply nonneg_add; [apply IH; lia|].
    apply nonneg_numberAt; [exact Hch | lia]. }
  induction n2 as [|n2 IH]; intros n1 H12 H2.
  - assert (n1 = 0)%nat by lia. subst.
    split; [apply nonneg_zero | apply le_refl; reflexivity].
  - destruct (Nat.eq_dec n1 (S n2)) as [-> | Hne].
    + split; [apply Hnn, H2 | apply le_refl, Hnn, H2].
    + destruct (IH n1) as [Hn1 Hle]; try lia.
      split; [exact Hn1|].
      apply (le_trans _ _ _ Hle). rewrite changesTotal_succ.
      apply le_add_nonneg; [apply Hnn; lia|].
      apply nonneg_numberAt; [exact Hch | lia].
Qed.

Lemma nonneg_spySharesChange spyPrices trade :
  Forall wellFormedPrice spyPrices -> wellFormedTrade trade ->
  Trade.type trade = buy ->
  nonneg (spySharesChange spyPrices trade).
Proof.
  intros Hspy Ht Hbuy. unfold spySharesChange.
  pose proof (nonneg_priceOnOrBefore spyPrices (Trade.date trade) Hspy) as Hp.
  destruct (priceOnOrBefore spyPrices (Trade.date trade)) as [p|];
    [|apply nonneg_zero].
  destruct (Num.truthy p) eqn:T; [|apply nonneg_zero].
  unfold isSell. rewrite Hbuy.
  apply nonneg_div; [apply nonneg_tradeAmount, Ht | exact Hp | exact T].
Qed.

Lemma filter_length_mono {A} (f g : A -> bool) (l : list A) :
  (forall x, In x l -> f x = true -> g x = true) ->
  (List.length (filter f l) <= List.length (filter g l))%nat.
Proof.
  induction l as [|x l IH]; intros H; simpl; [lia|].
  assert (IH' : (List.length (filter f l) <= List.length (filter g l))%nat)
    by (apply IH; intros y Hy; apply H; right; exact Hy).
  destruct (f x) eqn:Fx.
  - rewrite (H x (or_introl eq_refl) Fx). simpl. lia.
  - destruct (g x); simpl; lia.
Qed.

(** ** Both bases: the counterfactual share count over the days *)

Lemma traceOf_shares pre stockPrices splits spyPrices : forall st,
  Forall
    (fun r =>
       counterfactualSpyShares (snd r)
       = if depositBasis pre
         then depositSharesAsOf (depositSpySharesByDate pre)
                (sortedDeposits pre) (currentDate (snd r)) Num.zero
         else tradeBasedSpyShares (fst r))
    (traceOf pre stockPrices splits spyPrices st).
Proof.
  induction spyPrices as [|day rest IH]; intros st; cbn [traceOf];
    constructor; [reflexivity | apply IH].
Qed.

Lemma StronglySorted_map_inv {A B} (R : B -> B -> Prop) (f : A -> B) l :
  StronglySorted R (map f l) -> StronglySorted (fun a b => R (f a) (f b)) l.
Proof.
  induction l as [|x l IH]; simpl; intros H; [constructor|].
  inversion H as [|? ? HS HF]; subst. constructor; [apply IH, HS|].
  rewrite Forall_forall in *. intros y Hy. apply HF. apply in_map. exact Hy.
Qed.

Lemma StronglySorted_weaken {A} (R1 R2 : A -> A -> Prop) (l : list A) :
  (forall x y, In x l -> In y l -> R1 x y -> R2 x y) ->
  StronglySorted R1 l -> StronglySorted R2 l.
Proof.
  intros H HS. induction HS as [|x l HS IH HF]; constructor.
  - apply IH. intros a b Ha Hb. apply H; right; assumption.
  - rewrite Forall_forall in *. intros y Hy.
    apply H; [left; reflexivity | right; exact Hy | apply HF, Hy].
Qed.

(** With deposits only, the share count read for a later day is at least
    the share count read for an earlier day. *)
Lemma deposit_shares_by_date spyPrices cashFlows d1 d2 :
  Forall wellFormedPrice spyPrices -> Forall depositFlow cashFlows ->
  dateLe d1 d2 ->
  let deposits := Array_sort byCashFlowDate (filter isDeposit cashFlows) in
  let m := fst (fold_left (depositAcc spyPrices) deposits ([], Num.zero)) in
  Num.le (depositSharesAsOf m deposits d1 Num.zero)
    (depositSharesAsOf m deposits d2 Num.zero).
Proof.
  intros Hspy Hcf Hle deposits m.
  rewrite !depositSharesAsOf_by.
  assert (Hamounts : Forall (fun dep => nonneg (CashFlow.amount dep)) deposits).
  { apply Forall_Array_sort. rewrite Forall_forall in *. intros dep Hin.
    apply filter_In in Hin. apply (Hcf dep), Hin. }
  assert (Hz : finite Num.zero) by reflexivity.
  apply (sharesAsOfBy_mono spyPrices Hspy deposits Num.zero Num.zero (dget m)
           d1 d2 (byCashFlowDate_sorted _) Hamounts Hz Hz).
  - intros dep _. unfold m. rewrite fold_depositAcc_dget.
    destruct (lastCumulative spyPrices deposits Num.zero (CashFlow.date dep));
      reflexivity.
  - intros dep v _ E.
    apply (lastCumulative_bounds spyPrices Hspy _ _ _ _ Hamounts Hz E).
  - exact Hle.
Qed.

(** C7 (monotonic deposit accumulation).  When every cash flow is a
    deposit with a non-negative amount, no trade is a sell, and the data
    satisfies the invariants of the data model (trades and index prices
    finite and non-negative, index series ascending), the counterfactual
    index-share count of the day loop is non-decreasing over the emitted
    days.  The trace is the one whose emitted days are the data points the
    engine returns. *)
Theorem deposit_shares_monotone :
  forall (trades : list Trade.t) (stockPrices : dict (list StockPrice.t))
         (spyPrices : list StockPrice.t) (cashFlows : list CashFlow.t)
         (splits : dict (list StockSplit.t)),
    ascending spyPrices ->
    Forall wellFormedPrice spyPrices ->
    Forall depositFlow cashFlows ->
    Forall (fun t => Trade.type t = buy) trades ->
    Forall wellFormedTrade trades ->
    exists trace,
      runTrace trades stockPrices spyPrices cashFlows splits = Ok trace
      /\ calculatePortfolioTimeSeries trades stockPrices spyPrices cashFlows
           splits = Ok (pointsOf trace)
      /\ StronglySorted Num.le
           (map (fun r => counterfactualSpyShares (snd r))
              (filter (fun r => emitted (snd r)) trace)).
Proof.
  intros trades stockPrices spyPrices cashFlows splits Hasc Hspy Hcf Hbuy Hwf.
  rewrite runTrace_Ok, calculatePortfolioTimeSeries_Ok.
  destruct trades as [|t0 trades'];
    [exists []; repeat split; constructor|].
  destruct spyPrices as [|s0 spyPrices'];
    [exists []; repeat split; constructor|].
  set (trades := t0 :: trades') in *. set (spyPrices := s0 :: spyPrices') in *.
  set (pre := prepared trades stockPrices spyPrices cashFlows splits).
  exists (traceOf pre stockPrices splits spyPrices initialState).
  split; [reflexivity|]. split; [reflexivity|].
  apply StronglySorted_map, StronglySorted_filter.
  (* the days of the trace are in ascending date order *)
  assert (Hdates : StronglySorted
                     (fun r1 r2 => dateLe (currentDate (snd r1))
                                     (currentDate (snd r2)))
                     (traceOf pre stockPrices splits spyPrices initialState)).
  { apply (StronglySorted_map_inv dateLe (fun r => currentDate (snd r))).
    rewrite traceOf_dates. apply StronglySorted_map. exact Hasc. }
  pose proof (traceOf_shares pre stockPrices splits spyPrices initialState)
    as Hshares.
  rewrite Forall_forall in Hshares.
  eapply StronglySorted_weaken; [|exact Hdates].
  intros r1 r2 Hr1 Hr2 H. cbv beta in H |- *.
  rewrite (Hshares r1 Hr1), (Hshares r2 Hr2).
  destruct (depositBasis pre) eqn:Hbasis.
  - (* deposit basis *)
    apply (deposit_shares_by_date spyPrices cashFlows _ _ Hspy Hcf H).
  - (* trade basis *)
    pose proof (traceOf_states pre stockPrices splits
                  (byTradeDate_sorted trades) spyPrices [] (sortedTrades pre)
                  Hasc eq_refl (fun t day Hin => match Hin with end)) as Hst.
    change (stateAfter pre []) with initialState in Hst.
    rewrite Forall_forall in Hst.
    rewrite (Hst r1 Hr1), (Hst r2 Hr2), !tradeBasedSpyShares_stateAfter.
    assert (Hch : Forall nonneg (tradeSpySharesChange pre)).
    { cbn [pre prepared tradeSpySharesChange]. apply Forall_map.
      apply Forall_Array_sort. rewrite Forall_forall in *. intros t Hin.
      apply nonneg_spySharesChange; [|apply Hwf, Hin | apply Hbuy, Hin].
      apply Forall_forall. exact Hspy. }
    apply (changesTotal_mono _ Hch).
    + apply filter_length_mono. intros t _ Ht.
      apply (string_leb_trans _ _ _ Ht H).
    + cbn [pre prepared tradeSpySharesChange sortedTrades].
      rewrite length_map. apply filter_length_le.
Qed.

Lemma deposit_shares_monotone_witness :
  ascending Sample.spyPrices
  /\ Forall wellFormedPrice Sample.spyPrices
  /\ Forall depositFlow
       [Sample.depositOf "2023-01-02" 2000; Sample.depositOf "2023-01-10" 500]
  /\ Forall (fun t => Trade.type t = buy)
       [Sample.trade "AAPL" "2023-01-02" 10 130 buy]
  /\ Forall wellFormedTrade [Sample.trade "AAPL" "2023-01-02" 10 130 buy]
  /\ exists trace,
       runTrace [Sample.trade "AAPL" "2023-01-02" 10 130 buy]
         [("AAPL"%string, Sample.aaplPrices)] Sample.spyPrices
         [Sample.depositOf "2023-01-02" 2000;
          Sample.depositOf "2023-01-10" 500] [] = Ok trace
       /\ StronglySorted Num.le
            (map (fun r => counterfactualSpyShares (snd r))
               (filter (fun r => emitted (snd r)) trace)).
Proof.
  assert (H1 : ascending Sample.spyPrices)
    by (repeat constructor; reflexivity).
  assert (H2 : Forall wellFormedPrice Sample.spyPrices)
    by (repeat constructor).
  assert (H3 : Forall depositFlow
                 [Sample.depositOf "2023-01-02" 2000;
                  Sample.depositOf "2023-01-10" 500])
    by (repeat constructor).
  assert (H4 : Forall (fun t => Trade.type t = buy)
                 [Sample.trade "AAPL" "2023-01-02" 10 130 buy])
    by (repeat constructor).
  assert (H5 : Forall wellFormedTrade
                 [Sample.trade "AAPL" "2023-01-02" 10 130 buy])
    by (repeat constructor).
  split; [exact H1|]. split; [exact H2|]. split; [exact H3|].
  split; [exact H4|]. split; [exact H5|].
  destruct (deposit_shares_monotone
              [Sample.trade "AAPL" "2023-01-02" 10 130 buy]
              [("AAPL"%string, Sample.aaplPrices)] Sample.spyPrices
              [Sample.depositOf "2023-01-02" 2000;
               Sample.depositOf "2023-01-10" 500] [] H1 H2 H3 H4 H5)
    as [trace [Hrun [_ Hsorted]]].
  exists trace. split; [exact Hrun | exact Hsorted].
Defined.

(** ** The store: reads, allocations and writes *)

Lemma heap_ret {A} (a : A) s : Heap.runsTo (Heap.ret a) s a.
Proof. exists []. unfold Heap.ret. rewrite app_nil_r. reflexivity. Qed.

Lemma heap_lift {A} (o : outcome A) (a : A) s :
  o = Ok a -> Heap.runsTo (Heap.lift o) s a.
Proof.
  intros ->. exists []. unfold Heap.lift. rewrite app_nil_r. reflexivity.
Qed.

Lemma heap_bind {A B} (m : Heap.M A) (f : A -> Heap.M B) s a b :
  Heap.runsTo m s a ->
  (forall ext, Heap.runsTo (f a) (s ++ ext) b) ->
  Heap.runsTo (Heap.bindM m f) s b.
Proof.
  intros [e1 H1] H2. destruct (H2 e1) as [e2 H2'].
  exists (e1 ++ e2). unfold Heap.bindM. rewrite H1, H2', app_assoc.
  reflexivity.
Qed.

Lemma runsTo_unchanged {A} (m : Heap.M A) s a :
  Heap.runsTo m s a ->
  exists s', m s = Ok (a, s') /\ Heap.unchanged s s'.
Proof.
  intros [ext H]. exists (s ++ ext). split; [exact H|].
  intros r x Hr. rewrite nth_error_app1; [exact Hr|].
  apply nth_error_Some. congruence.
Qed.

Lemma holds_app {A} (K : Heap.kind A) s ext r a :
  Heap.holds K s r a -> Heap.holds K (s ++ ext) r a.
Proof.
  unfold Heap.holds. intros H. rewrite nth_error_app1; [exact H|].
  apply nth_error_Some. congruence.
Qed.

Lemma holdsAll_app {A} (K : Heap.kind A) s ext refs values :
  Heap.holdsAll K s refs values -> Heap.holdsAll K (s ++ ext) refs values.
Proof.
  unfold Heap.holdsAll. induction 1 as [|kr kv refs values [Hk Hh] _ IH];
    constructor; auto.
  split; [exact Hk | apply holds_app, Hh].
Qed.

Lemma holdsAll_dget {A} (K : Heap.kind A) s refs values k :
  Heap.holdsAll K s refs values ->
  match dget refs k with
  | Some r => exists a, dget values k = Some a /\ Heap.holds K s r a
  | None => dget values k = None
  end.
Proof.
  unfold Heap.holdsAll.
  induction 1 as [|[k1 r] [k2 a] refs values [Hk Hh] _ IH]; simpl;
    [reflexivity|].
  simpl in Hk. subst k2. destruct (String.eqb k1 k); [eauto | exact IH].
Qed.

Lemma heap_get {A} (K : Heap.kind A) s r a :
  Heap.holds K s r a -> Heap.runsTo (Heap.get K r) s a.
Proof.
  unfold Heap.holds. intros H. exists []. unfold Heap.get.
  rewrite H, Heap.unwrap_wrap, app_nil_r. reflexivity.
Qed.

Lemma nth_error_last_app {A} (s : list A) x :
  nth_error (s ++ [x]) (List.length s) = Some x.
Proof. rewrite nth_error_app2, Nat.sub_diag by lia. reflexivity. Qed.

Lemma setNth_last s x y :
  Heap.setNth (s ++ [x]) (List.length s) y = s ++ [y].
Proof. induction s as [|z s IH]; simpl; [reflexivity|]. rewrite IH. reflexivity. Qed.

(** [[...a].sort(cmp)] leaves the store extended by one array, the
    sorted copy, and [a] itself as it was. *)
Lemma heap_sorted_copy {A B} (K : Heap.kind A) (cmp : A -> A -> number)
  (k : list A -> Heap.M B) s r a b :
  Heap.holds K s r a ->
  (forall ext, Heap.runsTo (k (Array_sort cmp a)) (s ++ ext) b) ->
  Heap.runsTo
    (Heap.bindM (Heap.spread K r)
       (fun copy =>
          Heap.bindM (Heap.sortInPlace K cmp copy)
            (fun sorted => Heap.bindM (Heap.get K sorted) k)))
    s b.
Proof.
  intros Hh Hk. destruct (Hk [Heap.wrap K (Array_sort cmp a)]) as [e He].
  exists ([Heap.wrap K (Array_sort cmp a)] ++ e).
  unfold Heap.holds in Hh.
  unfold Heap.bindM, Heap.spread, Heap.sortInPlace, Heap.get, Heap.alloc,
    Heap.put, Heap.ret, Heap.bindM.
  rewrite Hh, Heap.unwrap_wrap.
  rewrite !nth_error_last_app, !Heap.unwrap_wrap, setNth_last.
  rewrite !nth_error_last_app, !Heap.unwrap_wrap.
  rewrite He, app_assoc. reflexivity.
Qed.

(** [d[k] || []] yields a reference to the elements [dgetOrEmpty] gives. *)
Lemma heap_getOrEmpty {A B} (K : Heap.kind A) (k : Heap.ref -> Heap.M B)
  s refs values key b :
  Heap.holdsAll K s refs values ->
  (forall ext r, Heap.holds K (s ++ ext) r (dgetOrEmpty values key) ->
                 Heap.runsTo (k r) (s ++ ext) b) ->
  Heap.runsTo (Heap.bindM (Heap.getOrEmpty K refs key) k) s b.
Proof.
  intros Hall Hk. pose proof (holdsAll_dget K s refs values key Hall) as Hd.
  unfold Heap.getOrEmpty, dgetOrEmpty in *.
  destruct (dget refs key) as [r|].
  - destruct Hd as [a [Hv Hh]]. rewrite Hv in Hk.
    apply (heap_bind _ _ s r); [apply heap_ret|].
    intros ext. apply Hk. apply holds_app, Hh.
  - rewrite Hd in Hk.
    destruct (Hk [Heap.wrap K []] (List.length s)) as [e He].
    { unfold Heap.holds. apply nth_error_last_app. }
    exists ([Heap.wrap K []] ++ e).
    unfold Heap.bindM, Heap.alloc. rewrite He, app_assoc. reflexivity.
Qed.

Lemma heap_forEach {A S} (f : S -> A -> Heap.M S) (g : S -> A -> S) xs s :
  (forall ext acc x, In x xs -> Heap.runsTo (f acc x) (s ++ ext) (g acc x)) ->
  forall acc, Heap.runsTo (Heap.forEach f xs acc) s (fold_left g xs acc).
Proof.
  revert s. induction xs as [|x rest IH]; intros s Hf acc; simpl.
  - apply heap_ret.
  - apply (heap_bind _ _ s (g acc x)).
    + rewrite <- (app_nil_r s). apply Hf. left. reflexivity.
    + intros ext. apply IH. intros ext' acc' y Hy.
      rewrite <- app_assoc. apply Hf. right. exact Hy.
Qed.

(** ** The engines over the store return what the engines on values
       return, and extend the store *)

Lemma heap_buildUnadjustedPriceMap s rp rs prices splits :
  Heap.holds Heap.priceKind s rp prices ->
  Heap.holds Heap.splitKind s rs splits ->
  Heap.runsTo (Heap.buildUnadjustedPriceMap rp rs) s
    (buildUnadjustedPriceMap prices splits).
Proof.
  intros Hp Hs. unfold Heap.buildUnadjustedPriceMap.
  apply (heap_sorted_copy Heap.splitKind bySplitDate _ s rs splits); [exact Hs|].
  intros ext. apply (heap_bind _ _ _ prices).
  - apply heap_get, holds_app, Hp.
  - intros ext'. apply heap_ret.
Qed.

Lemma heap_getUnadjustedPriceOnOrBefore s rp rs prices splits target :
  Heap.holds Heap.priceKind s rp prices ->
  Heap.holds Heap.splitKind s rs splits ->
  Heap.runsTo (Heap.getUnadjustedPriceOnOrBefore rp rs target) s
    (unadjustedOnOrBefore prices splits target).
Proof.
  intros Hp Hs. unfold Heap.getUnadjustedPriceOnOrBefore.
  pose proof (getUnadjustedPriceOnOrBefore_Ok prices splits target) as Hpure.
  unfold getUnadjustedPriceOnOrBefore in Hpure.
  apply (heap_bind _ _ s prices); [apply heap_get, Hp|].
  intros ext. destruct (len prices =? 0)%Z.
  - apply Ok_inj in Hpure. rewrite <- Hpure. apply heap_ret.
  - apply (heap_sorted_copy Heap.splitKind bySplitDate _ _ rs splits);
      [apply holds_app, Hs|].
    intros ext'. apply heap_lift. exact Hpure.
Qed.

Section HeapRun.

Variable s0 : Heap.store.
Variables stockRefs splitRefs : dict Heap.ref.
Variable stockPrices : dict (list StockPrice.t).
Variable splits : dict (list StockSplit.t).
Hypothesis stockHolds : Heap.holdsAll Heap.priceKind s0 stockRefs stockPrices.
Hypothesis splitsHold : Heap.holdsAll Heap.splitKind s0 splitRefs splits.

Lemma heap_tickerValueStep pre ext currentDate pv entry :
  Heap.runsTo
    (Heap.tickerValueStep pre stockRefs splitRefs currentDate pv entry)
    (s0 ++ ext)
    (tickerValue pre stockPrices splits currentDate pv entry).
Proof.
  unfold Heap.tickerValueStep, tickerValue. destruct entry as [ticker shares].
  cbn [fst snd]. destruct (Num.leb shares Num.zero); [apply heap_ret|].
  destruct (match dget (priceMaps pre) ticker with
            | Some priceMap => dget priceMap currentDate
            | None => None
            end) as [v|].
  - apply (heap_bind _ _ _ v); [apply heap_ret|]. intros e. apply heap_ret.
  - eapply heap_bind; [|intros e; apply heap_ret].
    apply (heap_getOrEmpty Heap.priceKind _ _ stockRefs stockPrices ticker);
      [apply holdsAll_app, stockHolds|].
    intros e1 rp Hrp.
    apply (heap_getOrEmpty Heap.splitKind _ _ splitRefs splits ticker);
      [rewrite <- app_assoc; apply holdsAll_app, splitsHold|].
    intros e2 rs Hrs.
    eapply heap_bind; [|intros e; apply heap_ret].
    apply heap_getUnadjustedPriceOnOrBefore; [apply holds_app, Hrp | exact Hrs].
Qed.

Lemma heap_dayBody pre ext st spyPrice :
  Heap.runsTo (Heap.dayBody pre stockRefs splitRefs st spyPrice) (s0 ++ ext)
    (dayStep pre stockPrices splits st spyPrice).
Proof.
  unfold Heap.dayBody, dayStep.
  eapply heap_bind; [apply heap_lift, applyTrades_Ok; lia|].
  intros e1. eapply heap_bind; [|intros e; apply heap_ret].
  rewrite <- app_assoc. apply heap_forEach.
  intros e2 acc x _. rewrite <- app_assoc. apply heap_tickerValueStep.
Qed.

Lemma heap_dayLoop pre spyPrices : forall ext st dataPoints,
  Heap.runsTo
    (Heap.dayLoop pre stockRefs splitRefs spyPrices st dataPoints)
    (s0 ++ ext)
    (dataPoints ++ pointsOf (traceOf pre stockPrices splits spyPrices st)).
Proof.
  unfold pointsOf.
  induction spyPrices as [|spyPrice rest IH]; intros ext st dataPoints.
  - simpl. rewrite app_nil_r. apply heap_ret.
  - cbn [Heap.dayLoop traceOf].
    eapply heap_bind; [apply heap_dayBody|].
    intros e. rewrite <- app_assoc.
    destruct (dayStep pre stockPrices splits st spyPrice) as [st' d] eqn:E.
    cbn [fst snd map filter].
    destruct (emitted d).
    + cbn [map]. replace (dataPoints ++ dataPointOf d :: map dataPointOf
                            (filter emitted
                               (map snd (traceOf pre stockPrices splits rest
                                           st'))))
        with ((dataPoints ++ [dataPointOf d])
              ++ map dataPointOf
                   (filter emitted
                      (map snd (traceOf pre stockPrices splits rest st'))))
        by (rewrite <- app_assoc; reflexivity).
      apply IH.
    + apply IH.
Qed.

End HeapRun.

Lemma heap_filterNew {A B} (K : Heap.kind A) (f : A -> bool)
  (k : Heap.ref -> Heap.M B) s r a b :
  Heap.holds K s r a ->
  (forall ext r', Heap.holds K (s ++ ext) r' (filter f a) ->
                  Heap.runsTo (k r') (s ++ ext) b) ->
  Heap.runsTo (Heap.bindM (Heap.filterNew K f r) k) s b.
Proof.
  intros Hh Hk.
  destruct (Hk [Heap.wrap K (filter f a)] (List.length s)) as [e He].
  { unfold Heap.holds. apply nth_error_last_app. }
  exists ([Heap.wrap K (filter f a)] ++ e).
  unfold Heap.holds in Hh.
  unfold Heap.bindM, Heap.filterNew, Heap.get, Heap.alloc, Heap.bindM.
  rewrite Hh, Heap.unwrap_wrap, He, app_assoc. reflexivity.
Qed.

(** A loop over a record of references computes what the loop over the
    record of their arrays computes. *)
Lemma heap_forEach2 {A B S} (R : A -> B -> Prop) (f : S -> A -> Heap.M S)
  (g : S -> B -> S) xs ys s :
  Forall2 R xs ys ->
  (forall ext acc x y, R x y -> Heap.runsTo (f acc x) (s ++ ext) (g acc y)) ->
  forall acc, Heap.runsTo (Heap.forEach f xs acc) s (fold_left g ys acc).
Proof.
  intros HR. revert s.
  induction HR as [|x y xs ys Hxy _ IH]; intros s Hf acc; simpl.
  - apply heap_ret.
  - apply (heap_bind _ _ s (g acc y)).
    + rewrite <- (app_nil_r s). apply Hf. exact Hxy.
    + intros ext. apply IH. intros ext' acc' x' y' Hxy'.
      rewrite <- app_assoc. apply Hf. exact Hxy'.
Qed.

Lemma holds_ext {A} (K : Heap.kind A) s s' r a :
  Heap.holds K s r a -> (exists ext, s' = s ++ ext) -> Heap.holds K s' r a.
Proof. intros H [ext ->]. apply holds_app, H. Qed.

Lemma holdsAll_ext {A} (K : Heap.kind A) s s' refs values :
  Heap.holdsAll K s refs values -> (exists ext, s' = s ++ ext) ->
  Heap.holdsAll K s' refs values.
Proof. intros H [ext ->]. apply holdsAll_app, H. Qed.

(** [H] states that an array is held in an earlier store. *)
Ltac holds_from H :=
  first
    [ exact H
    | apply (holds_ext _ _ _ _ _ H); eexists; rewrite <- ?app_assoc;
      reflexivity
    | apply (holdsAll_ext _ _ _ _ _ H); eexists; rewrite <- ?app_assoc;
      reflexivity ].

Ltac heap_read H :=
  eapply heap_bind;
  [ apply heap_get; holds_from H
  | intros ?ext; rewrite <- ?app_assoc ].

Lemma heap_calculatePortfolioTimeSeries s tradesRef stockRefs spyRef cashRef
  splitRefs trades stockPrices spyPrices cashFlows splits :
  Heap.holds Heap.tradeKind s tradesRef trades ->
  Heap.holdsAll Heap.priceKind s stockRefs stockPrices ->
  Heap.holds Heap.priceKind s spyRef spyPrices ->
  Heap.holds Heap.cashFlowKind s cashRef cashFlows ->
  Heap.holdsAll Heap.splitKind s splitRefs splits ->
  Heap.runsTo
    (Heap.calculatePortfolioTimeSeries tradesRef stockRefs spyRef cashRef
       splitRefs)
    s
    (valueOr []
       (calculatePortfolioTimeSeries trades stockPrices spyPrices cashFlows
          splits)).
Proof.
  intros Ht Hsp Hspy Hcf Hsplits.
  rewrite calculatePortfolioTimeSeries_Ok. cbn [valueOr].
  unfold Heap.calculatePortfolioTimeSeries.
  heap_read Ht. heap_read Hspy.
  destruct trades as [|t0 trades']; [apply heap_ret|].
  destruct spyPrices as [|p0 spyPrices'];
    [rewrite len_cons_nonzero; apply heap_ret|].
  rewrite !len_cons_nonzero. cbn [orb].
  set (trades := t0 :: trades') in *. set (spyPrices := p0 :: spyPrices') in *.
  apply (heap_sorted_copy Heap.tradeKind byTradeDate _ _ tradesRef trades);
    [holds_from Ht|].
  intros e1. rewrite <- ?app_assoc.
  eapply heap_bind.
  { apply (heap_forEach2
             (fun kr kv => fst kr = fst kv
                           /\ Heap.holds Heap.priceKind s (snd kr) (snd kv))
             _ (fun maps entry =>
                  dset maps (fst entry)
                    (buildUnadjustedPriceMap (snd entry)
                       (dgetOrEmpty splits (fst entry))))
             stockRefs stockPrices); [exact Hsp|].
    intros e2 acc [k r] [k' a] [Hk Hh]. simpl in Hk, Hh. subst k'.
    cbn [fst snd]. rewrite <- ?app_assoc.
    apply (heap_getOrEmpty Heap.splitKind _ _ splitRefs splits k);
      [holds_from Hsplits|].
    intros e3 rs Hrs. rewrite <- ?app_assoc in *.
    eapply heap_bind; [|intros e; apply heap_ret].
    apply heap_buildUnadjustedPriceMap; [holds_from Hh | exact Hrs]. }
  intros e2. rewrite <- ?app_assoc.
  heap_read Hcf.
  apply (heap_sorted_copy Heap.cashFlowKind byCashFlowDate _ _ cashRef
           cashFlows); [holds_from Hcf|].
  intros e3. rewrite <- ?app_assoc.
  apply (heap_filterNew Heap.cashFlowKind isDeposit _ _ cashRef cashFlows);
    [holds_from Hcf|].
  intros e4 depositsRef Hdep. rewrite <- ?app_assoc in *.
  apply (heap_sorted_copy Heap.cashFlowKind byCashFlowDate _ _ depositsRef
           (filter isDeposit cashFlows)); [exact Hdep|].
  intros e5. rewrite <- ?app_assoc.
  eapply heap_bind.
  { apply heap_lift.
    apply (foldM_Ok (depositStep spyPrices) (depositAcc spyPrices)).
    intros. apply depositStep_Ok. }
  intros e6. rewrite <- ?app_assoc.
  eapply heap_bind.
  { apply heap_get. holds_from Hdep. }
  intros e7. rewrite <- ?app_assoc.
  eapply heap_bind.
  { apply heap_lift.
    apply (mapM_Ok (spySharesChangeOf spyPrices) (spySharesChange spyPrices)).
    intros. apply spySharesChangeOf_Ok. }
  intros e8. rewrite <- ?app_assoc.
  apply (heap_dayLoop s stockRefs splitRefs stockPrices splits Hsp Hsplits).
Qed.

(** The loop that pushes the rows writes only to the array [breakdown],
    the last one allocated. *)
Lemma heap_breakdown_loop s stockRefs stockPrices currentSpyPrice entries :
  Heap.holdsAll Heap.priceKind s stockRefs stockPrices ->
  forall rows,
    Heap.forEach
      (fun _ entry =>
         Heap.breakdownStep stockRefs currentSpyPrice (List.length s) entry)
      entries tt (s ++ [Heap.RowArray rows])
    = Ok (tt,
          s ++ [Heap.RowArray
                  (fold_left (breakdownPush stockPrices currentSpyPrice)
                     entries rows)]).
Proof.
  intros Hsp. induction entries as [|[ticker data] entries IH]; intros rows;
    [reflexivity|].
  cbn [Heap.forEach fold_left]. unfold Heap.bindM at 1.
  assert (Hstep :
            Heap.breakdownStep stockRefs currentSpyPrice (List.length s)
              (ticker, data) (s ++ [Heap.RowArray rows])
            = Ok (tt,
                  s ++ [Heap.RowArray
                          (breakdownPush stockPrices currentSpyPrice rows
                             (ticker, data))])).
  { unfold Heap.breakdownStep, breakdownPush. cbn [fst snd].
    destruct (Num.leb (totalShares data) Num.zero); [reflexivity|].
    pose proof (holdsAll_dget Heap.priceKind s stockRefs stockPrices ticker
                  Hsp) as Hd.
    destruct (dget stockRefs ticker) as [r|].
    - destruct Hd as [a [Ha Hh]]. rewrite Ha.
      apply (holds_app _ _ [Heap.RowArray rows]) in Hh.
      unfold Heap.holds in Hh.
      unfold Heap.bindM, Heap.get. rewrite Hh, Heap.unwrap_wrap.
      destruct a as [|p rest]; [reflexivity|].
      rewrite len_cons_nonzero, getLatestPrice_Ok.
      unfold Heap.lift, Heap.push, Heap.bindM, Heap.get, Heap.put.
      rewrite nth_error_last_app. cbn [Heap.unwrap Heap.rowKind Heap.wrap].
      rewrite nth_error_last_app, setNth_last. reflexivity.
    - rewrite Hd. reflexivity. }
  rewrite Hstep. apply IH.
Qed.

Lemma heap_calculateStockBreakdown s tradesRef stockRefs spyRef trades
  stockPrices spyPrices :
  Heap.holds Heap.tradeKind s tradesRef trades ->
  Heap.holdsAll Heap.priceKind s stockRefs stockPrices ->
  Heap.holds Heap.priceKind s spyRef spyPrices ->
  Heap.runsTo (Heap.calculateStockBreakdown tradesRef stockRefs spyRef) s
    (valueOr [] (calculateStockBreakdown trades stockPrices spyPrices)).
Proof.
  intros Ht Hsp Hspy. rewrite calculateStockBreakdown_Ok. cbn [valueOr].
  exists [Heap.RowArray
            (Array_sort byDifferenceDesc
               (rowsOf trades stockPrices spyPrices))].
  unfold Heap.holds in Ht, Hspy.
  unfold Heap.calculateStockBreakdown.
  unfold Heap.bindM at 1. unfold Heap.get at 1.
  rewrite Hspy, Heap.unwrap_wrap.
  unfold Heap.bindM at 1. rewrite getLatestPrice_Ok. cbn [Heap.lift].
  unfold Heap.bindM at 1. unfold Heap.get at 1.
  rewrite Ht, Heap.unwrap_wrap.
  unfold Heap.bindM at 1. rewrite aggregateTrades_Ok. cbn [Heap.lift].
  unfold Heap.bindM at 1. cbn [Heap.alloc Heap.wrap Heap.rowKind].
  unfold Heap.bindM at 1.
  rewrite (heap_breakdown_loop s stockRefs stockPrices _ _ Hsp []).
  fold (rowsOf trades stockPrices spyPrices).
  unfold Heap.bindM, Heap.sortInPlace, Heap.bindM, Heap.get, Heap.put, Heap.ret.
  rewrite nth_error_last_app. cbn [Heap.unwrap Heap.rowKind Heap.wrap].
  rewrite nth_error_last_app, setNth_last, nth_error_last_app.
  reflexivity.
Qed.

Lemma heap_calculateSummary s rowsRef cashRef tradesRef rows cashFlows trades
  summary :
  Heap.holds Heap.rowKind s rowsRef rows ->
  Heap.holds Heap.cashFlowKind s cashRef cashFlows ->
  Heap.holds Heap.tradeKind s tradesRef trades ->
  calculateSummary rows cashFlows trades = Ok summary ->
  Heap.runsTo (Heap.calculateSummary rowsRef cashRef tradesRef) s summary.
Proof.
  intros Hr Hc Ht Hs. unfold Heap.calculateSummary.
  heap_read Hr. heap_read Hc. heap_read Ht.
  apply heap_lift. exact Hs.
Qed.

(** ** C9 *)

(** C9 (frame property).  Run over a store in which the caller's arrays
    (trades, cash flows, index prices, the per-ticker price and split
    series, breakdown rows) are allocated, each engine returns what the
    engine on values returns for the elements of these arrays, and every
    array of the initial store, every caller-owned array among them, is
    left at its reference with the same elements in the same order: the
    sorts write to copies allocated during the call. *)
Theorem inputs_are_not_mutated :
  forall (s : Heap.store) (tradesRef spyRef cashRef rowsRef : Heap.ref)
         (stockRefs splitRefs : dict Heap.ref)
         (trades : list Trade.t) (stockPrices : dict (list StockPrice.t))
         (spyPrices : list StockPrice.t) (cashFlows : list CashFlow.t)
         (splits : dict (list StockSplit.t))
         (rows : list StockBreakdownData.t),
    Heap.holds Heap.tradeKind s tradesRef trades ->
    Heap.holdsAll Heap.priceKind s stockRefs stockPrices ->
    Heap.holds Heap.priceKind s spyRef spyPrices ->
    Heap.holds Heap.cashFlowKind s cashRef cashFlows ->
    Heap.holdsAll Heap.splitKind s splitRefs splits ->
    Heap.holds Heap.rowKind s rowsRef rows ->
    (exists points s',
       Heap.calculatePortfolioTimeSeries tradesRef stockRefs spyRef cashRef
         splitRefs s = Ok (points, s')
       /\ calculatePortfolioTimeSeries trades stockPrices spyPrices cashFlows
            splits = Ok points
       /\ Heap.unchanged s s')
    /\ (exists breakdown s',
          Heap.calculateStockBreakdown tradesRef stockRefs spyRef s
            = Ok (breakdown, s')
          /\ calculateStockBreakdown trades stockPrices spyPrices
             = Ok breakdown
          /\ Heap.unchanged s s')
    /\ (exists summary s',
          Heap.calculateSummary rowsRef cashRef tradesRef s = Ok (summary, s')
          /\ calculateSummary rows cashFlows trades = Ok summary
          /\ Heap.unchanged s s').
Proof.
  intros s tradesRef spyRef cashRef rowsRef stockRefs splitRefs trades
    stockPrices spyPrices cashFlows splits rows Ht Hsp Hspy Hcf Hsplits Hrows.
  split; [|split].
  - destruct (runsTo_unchanged _ _ _
                (heap_calculatePortfolioTimeSeries s tradesRef stockRefs
                   spyRef cashRef splitRefs trades stockPrices spyPrices
                   cashFlows splits Ht Hsp Hspy Hcf Hsplits))
      as [s' [Hrun Hsame]].
    eexists. exists s'. split; [exact Hrun|]. split; [|exact Hsame].
    rewrite calculatePortfolioTimeSeries_Ok. reflexivity.
  - destruct (runsTo_unchanged _ _ _
                (heap_calculateStockBreakdown s tradesRef stockRefs spyRef
                   trades stockPrices spyPrices Ht Hsp Hspy))
      as [s' [Hrun Hsame]].
    eexists. exists s'. split; [exact Hrun|]. split; [|exact Hsame].
    rewrite calculateStockBreakdown_Ok. reflexivity.
  - destruct (calculateSummary_total rows cashFlows trades) as [summary Hs].
    destruct (runsTo_unchanged _ _ _
                (heap_calculateSummary s rowsRef cashRef tradesRef rows
                   cashFlows trades summary Hrows Hcf Ht Hs))
      as [s' [Hrun Hsame]].
    exists summary, s'. split; [exact Hrun|]. split; [exact Hs | exact Hsame].
Qed.

Lemma inputs_are_not_mutated_witness :
  Heap.holds Heap.tradeKind sampleStore 0
    [Sample.trade "AAPL" "2023-01-10" 5 135 sell;
     Sample.trade "AAPL" "2023-01-02" 10 130 buy]
  /\ Heap.holdsAll Heap.priceKind sampleStore [("AAPL"%string, 1)]
       [("AAPL"%string, Sample.aaplPrices)]
  /\ Heap.holds Heap.priceKind sampleStore 2 Sample.spyPrices
  /\ Heap.holds Heap.cashFlowKind sampleStore 3
       [Sample.depositOf "2023-01-02" 2000]
  /\ Heap.holdsAll Heap.splitKind sampleStore [("AAPL"%string, 4)]
       [("AAPL"%string, [Sample.split2for1])]
  /\ Heap.holds Heap.rowKind sampleStore 5 sampleBreakdown
  /\ (exists points s',
        Heap.calculatePortfolioTimeSeries 0 [("AAPL"%string, 1)] 2 3
          [("AAPL"%string, 4)] sampleStore = Ok (points, s')
        /\ Heap.unchanged sampleStore s')
  /\ (exists breakdown s',
        Heap.calculateStockBreakdown 0 [("AAPL"%string, 1)] 2 sampleStore
          = Ok (breakdown, s')
        /\ Heap.unchanged sampleStore s')
  /\ (exists summary s',
        Heap.calculateSummary 5 3 0 sampleStore = Ok (summary, s')
        /\ Heap.unchanged sampleStore s').
Proof.
  assert (H1 : Heap.holds Heap.tradeKind sampleStore 0
                 [Sample.trade "AAPL" "2023-01-10" 5 135 sell;
                  Sample.trade "AAPL" "2023-01-02" 10 130 buy])
    by reflexivity.
  assert (H2 : Heap.holdsAll Heap.priceKind sampleStore [("AAPL"%string, 1)]
                 [("AAPL"%string, Sample.aaplPrices)])
    by (constructor; [split; reflexivity | constructor]).
  assert (H3 : Heap.holds Heap.priceKind sampleStore 2 Sample.spyPrices)
    by reflexivity.
  assert (H4 : Heap.holds Heap.cashFlowKind sampleStore 3
                 [Sample.depositOf "2023-01-02" 2000]) by reflexivity.
  assert (H5 : Heap.holdsAll Heap.splitKind sampleStore [("AAPL"%string, 4)]
                 [("AAPL"%string, [Sample.split2for1])])
    by (constructor; [split; reflexivity | constructor]).
  assert (H6 : Heap.holds Heap.rowKind sampleStore 5 sampleBreakdown)
    by reflexivity.
  split; [exact H1|]. split; [exact H2|]. split; [exact H3|].
  split; [exact H4|]. split; [exact H5|]. split; [exact H6|].
  destruct (inputs_are_not_mutated sampleStore 0 2 3 5 [("AAPL"%string, 1)]
              [("AAPL"%string, 4)] _ _ _ _ _ _ H1 H2 H3 H4 H5 H6)
    as [[points [s1 [R1 [_ U1]]]] [[breakdown [s2 [R2 [_ U2]]]]
         [summary [s3 [R3 [_ U3]]]]]].
  split; [exists points, s1; split; assumption|].
  split; [exists breakdown, s2; split; assumption|].
  exists summary, s3; split; assumption.
Defined.

(** ** The first-buy marker of the breakdown *)

Lemma aggregateWith_marker spyPriceAtTrade aggregated trade k :
  option_map firstBuyDate
    (dget (aggregateWith spyPriceAtTrade aggregated trade) k)
  = markerStep k (option_map firstBuyDate (dget aggregated k)) trade.
Proof.
  unfold aggregateWith, markerStep. rewrite dget_dset.
  destruct (String.eqb_spec (Trade.ticker trade) k) as [-> | Hne];
    [|reflexivity].
  destruct (dget aggregated k) as [a|]; destruct (isSell trade);
    cbn [option_map firstBuyDate]; try reflexivity.
  - destruct (String.ltb (Trade.date trade) (firstBuyDate a)); reflexivity.
  - rewrite string_ltb_irrefl. reflexivity.
Qed.

(** The marker of a ticker in [aggregated] is the one [markerStep]
    computes over the trade list. *)
Lemma aggregatedOf_marker trades spyPrices k :
  option_map firstBuyDate (dget (aggregatedOf trades spyPrices) k)
  = fold_left (markerStep k) trades None.
Proof.
  unfold aggregatedOf.
  change (@None string)
    with (option_map firstBuyDate (dget (@nil (string * Aggregate)) k)).
  generalize (@nil (string * Aggregate)).
  induction trades as [|t rest IH]; intros agg; [reflexivity|].
  cbn [fold_left]. rewrite IH, aggregateWith_marker. reflexivity.
Qed.

Lemma marker_from_Some k trades : forall d,
  fold_left (markerStep k) trades (Some d)
  = fold_left
      (fun best t =>
         if isSell t || negb (String.eqb (Trade.ticker t) k) then best
         else match best with
              | None => Some (Trade.date t)
              | Some d => if String.ltb (Trade.date t) d
                          then Some (Trade.date t) else Some d
              end)
      trades (Some d).
Proof.
  induction trades as [|t rest IH]; intros d; [reflexivity|].
  cbn [fold_left]. unfold markerStep at 2.
  destruct (String.eqb (Trade.ticker t) k), (isSell t); cbn [orb negb];
    try apply IH.
  destruct (String.ltb (Trade.date t) d); apply IH.
Qed.

(** When the first trade of a ticker in the list is a buy, the marker is
    the earliest buy date of the ticker. *)
Lemma marker_is_earliest_buy trades k :
  boughtFirst trades k = true ->
  fold_left (markerStep k) trades None = earliestBuyDate trades k.
Proof.
  unfold boughtFirst, earliestBuyDate.
  induction trades as [|t rest IH]; [reflexivity|].
  cbn [find fold_left]. unfold markerStep at 2.
  destruct (String.eqb (Trade.ticker t) k) eqn:E.
  - intros Hbuy. destruct (isSell t); [discriminate|].
    cbn [orb negb]. apply marker_from_Some.
  - rewrite orb_true_r. exact IH.
Qed.

Lemma keys_dset {V} (d : dict V) k v :
  NoDup (keys d) -> NoDup (keys (dset d k v))
  /\ (forall k', In k' (keys (dset d k v)) <-> k' = k \/ In k' (keys d)).
Proof.
  unfold keys. induction d as [|[k0 v0] d IH]; intros Hnd; simpl.
  - split; [constructor; [intros []|constructor]|].
    intros k'. split; [intros [E | []]; left; symmetry; exact E|].
    intros [E | []]. left. symmetry. exact E.
  - inversion Hnd as [|? ? Hnotin Hnd']; subst.
    destruct (String.eqb_spec k0 k) as [-> | Hne]; simpl.
    + split; [exact Hnd|]. intros k'. split.
      * intros [E | Hin]; [left; symmetry; exact E | right; right; exact Hin].
      * intros [E | [E | Hin]];
          [left; symmetry; exact E | left; exact E | right; exact Hin].
    + destruct (IH Hnd') as [IH1 IH2]. split.
      * constructor; [|exact IH1]. intros Hin. apply IH2 in Hin.
        destruct Hin as [E | Hin]; [apply Hne; exact E | exact (Hnotin Hin)].
      * intros k'. split.
        -- intros [E | Hin]; [right; left; exact E|].
           apply IH2 in Hin. destruct Hin as [E | Hin];
             [left; exact E | right; right; exact Hin].
        -- intros [E | [E | Hin]].
           ++ right. apply IH2. left. exact E.
           ++ left. exact E.
           ++ right. apply IH2. right. exact Hin.
Qed.

Lemma NoDup_keys_aggregatedOf trades spyPrices :
  NoDup (keys (aggregatedOf trades spyPrices)).
Proof.
  unfold aggregatedOf.
  assert (Hnil : NoDup (keys (@nil (string * Aggregate)))) by constructor.
  revert Hnil. generalize (@nil (string * Aggregate)).
  induction trades as [|t rest IH]; intros agg Hagg; [exact Hagg|].
  cbn [fold_left]. apply IH. unfold aggregateWith. apply keys_dset, Hagg.
Qed.

Lemma dget_In_NoDup {V} (d : dict V) k v :
  NoDup (keys d) -> In (k, v) d -> dget d k = Some v.
Proof.
  unfold keys. induction d as [|[k0 v0] d IH]; intros Hnd Hin; [destruct Hin|].
  simpl in *. inversion Hnd as [|? ? Hnotin Hnd']; subst.
  destruct Hin as [E | Hin].
  - inversion E; subst. rewrite String.eqb_refl. reflexivity.
  - destruct (String.eqb_spec k0 k) as [-> | Hne]; [|apply IH; assumption].
    exfalso. apply Hnotin. apply (in_map fst) in Hin. exact Hin.
Qed.

(** Every row comes from an entry of [aggregated] and reports its
    marker. *)
Lemma breakdownPush_rows stockPrices currentSpyPrice entries :
  forall breakdown row,
    In row (fold_left (breakdownPush stockPrices currentSpyPrice) entries
              breakdown) ->
    In row breakdown
    \/ exists data,
         In (StockBreakdownData.ticker row, data) entries
         /\ StockBreakdownData.buyDate row = firstBuyDate data.
Proof.
  induction entries as [|[ticker data] entries IH]; intros breakdown row Hin;
    [left; exact Hin|].
  cbn [fold_left] in Hin. apply IH in Hin.
  destruct Hin as [Hin | [d [Hd Hb]]].
  - unfold breakdownPush in Hin. cbn [fst snd] in Hin.
    destruct (Num.leb (totalShares data) Num.zero); [left; exact Hin|].
    destruct (dget stockPrices ticker) as [[|p rest]|];
      try (left; exact Hin).
    apply in_app_or in Hin. destruct Hin as [Hin | [<- | []]];
      [left; exact Hin|].
    right. exists data. split; [left; reflexivity | reflexivity].
  - right. exists d. split; [right; exact Hd | exact Hb].
Qed.

(** The first-buy date of a row is the earliest buy date of its ticker
    whenever the first trade of the ticker in the list is a buy: the
    marker goes wrong only through its seed. *)
Lemma buyDate_when_bought_first trades stockPrices spyPrices row :
  In row (valueOr [] (calculateStockBreakdown trades stockPrices spyPrices)) ->
  boughtFirst trades (StockBreakdownData.ticker row) = true ->
  Some (StockBreakdownData.buyDate row)
  = earliestBuyDate trades (StockBreakdownData.ticker row).
Proof.
  rewrite calculateStockBreakdown_Ok. cbn [valueOr]. intros Hin Hfirst.
  apply Array_sort_In in Hin. unfold rowsOf in Hin.
  apply breakdownPush_rows in Hin. destruct Hin as [[] | [data [Hd Hb]]].
  apply (dget_In_NoDup _ _ _ (NoDup_keys_aggregatedOf trades spyPrices))
    in Hd.
  rewrite <- (marker_is_earliest_buy _ _ Hfirst).
  rewrite <- (aggregatedOf_marker trades spyPrices).
  rewrite Hd, Hb. reflexivity.
Qed.

(* ================================================================== *)
(** * Further properties of the lookups *)
(* ================================================================== *)

Lemma string_leb_antisym a b :
  String.leb a b = true -> String.leb b a = true -> a = b.
Proof.
  unfold String.leb. rewrite (String.compare_antisym b a).
  destruct (String.compare a b) eqn:E; simpl; try discriminate.
  intros _ _. apply String.compare_eq_iff, E.
Qed.

Lemma clampLookup_split (test : StockPrice.t -> bool) before e after :
  test e = true -> Forall (fun p => test p = false) after ->
  clampLookup test (before ++ e :: after) = Some e.
Proof.
  intros He Hafter. unfold clampLookup.
  rewrite rev_app_distr. cbn [rev]. rewrite <- app_assoc, find_app.
  rewrite find_none_Forall by (apply Forall_rev; exact Hafter).
  cbn [app find]. rewrite He. reflexivity.
Qed.

(** X1 (binary search).  On a series in ascending date order the binary
    searches select the last entry dated on or before the target.  When
    the series splits into [before], [e] and [after], where [e] is dated
    on or before the target and every entry of [after] is dated after
    it, [getPriceOnOrBefore] returns the price of [e] and
    [getUnadjustedPriceOnOrBefore] returns that price times the factor
    of the splits dated after [e]. *)
Theorem binary_search_selects_last_on_or_before :
  forall (before : list StockPrice.t) (e : StockPrice.t)
         (after : list StockPrice.t) (target : string)
         (splits : list StockSplit.t),
    ascending (before ++ e :: after) ->
    dateLe (StockPrice.date e) target ->
    Forall (fun p => String.ltb target (StockPrice.date p) = true) after ->
    getPriceOnOrBefore (before ++ e :: after) target
      = Ok (Some (StockPrice.price e))
    /\ getUnadjustedPriceOnOrBefore (before ++ e :: after) splits target
       = Ok (Some (Num.mul (StockPrice.price e)
                     (getSplitAdjustmentFactor
                        (Array_sort bySplitDate splits)
                        (StockPrice.date e)))).
Proof.
  intros before e after target splits Hasc He Hafter.
  assert (Hsel : clampLookup (onOrBeforeString target) (before ++ e :: after)
                 = Some e).
  { apply clampLookup_split; [exact He|].
    apply Forall_impl with (2 := Hafter). intros p Hp.
    unfold onOrBeforeString. rewrite string_leb_ltb, Hp. reflexivity. }
  split.
  - rewrite (getPriceOnOrBefore_ascending _ _ Hasc), Hsel. reflexivity.
  - rewrite (getUnadjustedPriceOnOrBefore_ascending _ _ _ Hasc), Hsel.
    reflexivity.
Qed.

Lemma binary_search_selects_last_on_or_before_witness :
  ascending Sample.spyPrices
  /\ dateLe "2023-01-10" "2023-03-15"
  /\ Forall (fun p => String.ltb "2023-03-15" (StockPrice.date p) = true)
       [Sample.price "2023-06-01" 420]
  /\ getPriceOnOrBefore Sample.spyPrices "2023-03-15"
     = Ok (Some (Num.ofZ 390))
  /\ getUnadjustedPriceOnOrBefore Sample.spyPrices [Sample.split2for1]
       "2023-03-15"
     = Ok (Some (Num.mul (Num.ofZ 390)
                   (getSplitAdjustmentFactor
                      (Array_sort bySplitDate [Sample.split2for1])
                      "2023-01-10"))).
Proof.
  assert (Hasc : ascending Sample.spyPrices) by (repeat constructor).
  assert (Hle : dateLe "2023-01-10" "2023-03-15") by reflexivity.
  assert (Hafter : Forall
                     (fun p => String.ltb "2023-03-15" (StockPrice.date p)
                               = true)
                     [Sample.price "2023-06-01" 420])
    by (repeat constructor).
  split; [exact Hasc|]. split; [exact Hle|]. split; [exact Hafter|].
  exact (binary_search_selects_last_on_or_before
           [Sample.price "2023-01-02" 380] (Sample.price "2023-01-10" 390)
           [Sample.price "2023-06-01" 420] "2023-03-15"
           [Sample.split2for1] Hasc Hle Hafter).
Defined.

(** ** The price maps *)

Lemma buildUnadjustedPriceMap_dget prices splits d :
  dget (buildUnadjustedPriceMap prices splits) d
  = option_map (unadjusted splits)
      (find (fun p => String.eqb (StockPrice.date p) d) (rev prices)).
Proof.
  unfold buildUnadjustedPriceMap, unadjustedMapFrom. cbv zeta.
  rewrite (dget_fold_dset StockPrice.date
             (fun p => Num.mul (StockPrice.price p)
                         (getSplitAdjustmentFactor
                            (Array_sort bySplitDate splits)
                            (StockPrice.date p)))).
  destruct (find _ (rev prices)); reflexivity.
Qed.

Lemma buildPriceMap_dget prices d :
  dget (buildPriceMap prices) d
  = option_map StockPrice.price
      (find (fun p => String.eqb (StockPrice.date p) d) (rev prices)).
Proof.
  unfold buildPriceMap.
  rewrite (dget_fold_dset StockPrice.date StockPrice.price).
  destruct (find _ (rev prices)); reflexivity.
Qed.

Lemma find_date_absent prices d :
  (forall p, In p prices -> StockPrice.date p <> d) ->
  find (fun p => String.eqb (StockPrice.date p) d) (rev prices) = None.
Proof.
  intros H. apply find_none_Forall, Forall_forall. intros p Hp.
  apply String.eqb_neq, H, in_rev, Hp.
Qed.

Lemma find_date_last before e after :
  (forall p, In p after -> StockPrice.date p <> StockPrice.date e) ->
  find (fun p => String.eqb (StockPrice.date p) (StockPrice.date e))
    (rev (before ++ e :: after))
  = Some e.
Proof.
  intros H. rewrite rev_app_distr. cbn [rev]. rewrite <- app_assoc, find_app.
  rewrite (find_date_absent after _ H). cbn [app find].
  rewrite String.eqb_refl. reflexivity.
Qed.

(** X2 (price maps, insert and lookup).  The maps built by
    [buildPriceMap] and [buildUnadjustedPriceMap] have no entry for a
    date that is not in the series.  For a date of the series they hold
    the value of the last entry carrying that date: its price in the
    plain map, its price times the factor of the splits dated after it
    in the unadjusted map. *)
Theorem price_map_lookup :
  forall (prices : list StockPrice.t) (splits : list StockSplit.t),
    (forall d,
        (forall p, In p prices -> StockPrice.date p <> d) ->
        dget (buildPriceMap prices) d = None
        /\ dget (buildUnadjustedPriceMap prices splits) d = None)
    /\ (forall before e after,
          prices = before ++ e :: after ->
          (forall p, In p after -> StockPrice.date p <> StockPrice.date e) ->
          dget (buildPriceMap prices) (StockPrice.date e)
            = Some (StockPrice.price e)
          /\ dget (buildUnadjustedPriceMap prices splits) (StockPrice.date e)
             = Some (Num.mul (StockPrice.price e)
                       (getSplitAdjustmentFactor
                          (Array_sort bySplitDate splits)
                          (StockPrice.date e)))).
Proof.
  intros prices splits. split.
  - intros d Habs.
    rewrite buildPriceMap_dget, buildUnadjustedPriceMap_dget.
    rewrite (find_date_absent _ _ Habs). split; reflexivity.
  - intros before e after -> Hlast.
    rewrite buildPriceMap_dget, buildUnadjustedPriceMap_dget.
    rewrite (find_date_last _ _ _ Hlast). split; reflexivity.
Qed.

Lemma price_map_lookup_witness :
  (forall p, In p Sample.adjustedPrices ->
             StockPrice.date p <> "2023-03-01"%string)
  /\ (forall p, In p [Sample.price "2023-06-01" 60] ->
                StockPrice.date p <> "2023-01-02"%string)
  /\ dget (buildPriceMap Sample.adjustedPrices) "2023-03-01"%string = None
  /\ dget (buildUnadjustedPriceMap Sample.adjustedPrices [Sample.split2for1])
       "2023-01-02"%string
     = Some (Num.mul (Num.div (Num.ofZ 100) (Num.ofZ 2))
               (getSplitAdjustmentFactor
                  (Array_sort bySplitDate [Sample.split2for1])
                  "2023-01-02")).
Proof.
  assert (Habs : forall p, In p Sample.adjustedPrices ->
                           StockPrice.date p <> "2023-03-01"%string)
    by (intros p [<- | [<- | []]]; discriminate).
  assert (Hlast : forall p, In p [Sample.price "2023-06-01" 60] ->
                            StockPrice.date p <> "2023-01-02"%string)
    by (intros p [<- | []]; discriminate).
  destruct (price_map_lookup Sample.adjustedPrices [Sample.split2for1])
    as [Habsent Hpresent].
  split; [exact Habs|]. split; [exact Hlast|]. split.
  - exact (proj1 (Habsent "2023-03-01"%string Habs)).
  - exact (proj2 (Hpresent []
                    (StockPrice.mk "2023-01-02"
                       (Num.div (Num.ofZ 100) (Num.ofZ 2)) None)
                    [Sample.price "2023-06-01" 60] eq_refl Hlast)).
Defined.

Lemma StronglySorted_app {A} (R : A -> A -> Prop) (l1 l2 : list A) :
  StronglySorted R l1 -> StronglySorted R l2 ->
  (forall a b, In a l1 -> In b l2 -> R a b) ->
  StronglySorted R (l1 ++ l2).
Proof.
  induction 1 as [|x l1 HS IH HF]; intros H2 Hcross; [exact H2|].
  cbn [app]. constructor.
  - apply IH; [exact H2|]. intros a b Ha Hb. apply Hcross; [right|]; assumption.
  - apply Forall_app. split; [exact HF|].
    apply Forall_forall. intros b Hb. apply Hcross; [left; reflexivity|exact Hb].
Qed.

Lemma StronglySorted_rev {A} (R : A -> A -> Prop) (l : list A) :
  StronglySorted R l -> StronglySorted (fun a b => R b a) (rev l).
Proof.
  induction 1 as [|x l HS IH HF]; [constructor|].
  cbn [rev]. apply StronglySorted_app; [exact IH| |].
  - constructor; constructor.
  - intros a b Ha [<- | []]. rewrite Forall_forall in HF.
    apply HF, in_rev, Ha.
Qed.

(** In a list in descending date order, the first entry dated [d] is the
    first entry dated on or before [d]. *)
Lemma find_exact_is_on_or_before d (l : list StockPrice.t) :
  StronglySorted (fun a b => dateLe (StockPrice.date b) (StockPrice.date a)) l ->
  forall x,
    find (fun p => String.eqb (StockPrice.date p) d) l = Some x ->
    find (onOrBeforeString d) l = Some x.
Proof.
  induction 1 as [|y l HS IH HF]; intros x Hx; [discriminate|].
  cbn [find] in *. unfold onOrBeforeString at 1.
  destruct (String.eqb_spec (StockPrice.date y) d) as [E | Hne].
  - rewrite E, string_leb_refl. exact Hx.
  - destruct (String.leb (StockPrice.date y) d) eqn:Hle; [|apply IH, Hx].
    exfalso. apply Hne. apply string_leb_antisym; [exact Hle|].
    apply find_In in Hx. destruct Hx as [Hin Hd].
    apply String.eqb_eq in Hd. rewrite <- Hd.
    rewrite Forall_forall in HF. apply HF, Hin.
Qed.

(** X3 (the two pricing paths agree).  The day loop prices a holding
    from the unadjusted map and falls back to the search when the map
    has no entry.  On a series in ascending date order the two agree:
    whenever the map holds a value for a date, the search at that date
    returns the same value. *)
Theorem map_and_search_agree :
  forall (prices : list StockPrice.t) (splits : list StockSplit.t)
         (d : string) (v : number),
    ascending prices ->
    dget (buildUnadjustedPriceMap prices splits) d = Some v ->
    getUnadjustedPriceOnOrBefore prices splits d = Ok (Some v).
Proof.
  intros prices splits d v Hasc Hget.
  rewrite buildUnadjustedPriceMap_dget in Hget.
  destruct (find _ (rev prices)) as [x|] eqn:F; [|discriminate].
  cbn [option_map] in Hget.
  rewrite (getUnadjustedPriceOnOrBefore_ascending _ _ _ Hasc).
  unfold clampLookup.
  rewrite (find_exact_is_on_or_before d (rev prices)
             (StronglySorted_rev _ _ Hasc) x F).
  cbn [option_map]. rewrite <- Hget. reflexivity.
Qed.

Lemma map_and_search_agree_witness :
  ascending Sample.adjustedPrices
  /\ dget (buildUnadjustedPriceMap Sample.adjustedPrices [Sample.split2for1])
       "2023-01-02"%string
     = Some (Num.ofZ 100)
  /\ getUnadjustedPriceOnOrBefore Sample.adjustedPrices [Sample.split2for1]
       "2023-01-02"
     = Ok (Some (Num.ofZ 100)).
Proof.
  assert (Hasc : ascending Sample.adjustedPrices) by (repeat constructor).
  assert (Hget : dget (buildUnadjustedPriceMap Sample.adjustedPrices
                         [Sample.split2for1]) "2023-01-02"%string
                 = Some (Num.ofZ 100))
    by (vm_compute; reflexivity).
  split; [exact Hasc|]. split; [exact Hget|].
  exact (map_and_search_agree Sample.adjustedPrices [Sample.split2for1]
           "2023-01-02" (Num.ofZ 100) Hasc Hget).
Defined.

(** ** Lookups without splits *)

(** The search loop commutes with a change of what it records. *)
Lemma searchLoop_map {R S} (record : StockPrice.t -> R) (g : R -> S)
  prices target : forall fuel left right result,
  searchLoop (fun p => g (record p)) fuel prices target left right
    (option_map g result)
  = r <- searchLoop record fuel prices target left right result ;;
    Ok (option_map g r).
Proof.
  induction fuel as [|fuel IH]; intros left right result; cbn [searchLoop].
  - destruct (left <=? right)%Z; reflexivity.
  - destruct (left <=? right)%Z; [|reflexivity]. cbv zeta.
    destruct (aget prices ((left + right) / 2)) as [p| |]; cbn [bind];
      try reflexivity.
    destruct (String.leb (StockPrice.date p) target).
    + apply (IH _ _ (Some (record p))).
    + apply IH.
Qed.

Lemma getSplitAdjustmentFactor_nil d : getSplitAdjustmentFactor [] d = Num.one.
Proof. reflexivity. Qed.

(** X4 (no splits, no adjustment).  With an empty split list the
    unadjusted price map is the plain price map and the unadjusted
    search returns what the plain search returns, on every series and
    target. *)
Theorem no_splits_no_adjustment :
  forall (prices : list StockPrice.t) (target : string),
    buildUnadjustedPriceMap prices [] = buildPriceMap prices
    /\ getUnadjustedPriceOnOrBefore prices [] target
       = getPriceOnOrBefore prices target.
Proof.
  intros prices target. split.
  - unfold buildUnadjustedPriceMap, unadjustedMapFrom, buildPriceMap.
    cbv zeta. cbn [Array_sort fold_right].
    apply fold_left_ext_eq. intros map p.
    rewrite getSplitAdjustmentFactor_nil, mul_one_r. reflexivity.
  - unfold getUnadjustedPriceOnOrBefore, getPriceOnOrBefore.
    destruct (len prices =? 0)%Z; [reflexivity|].
    cbv zeta. cbn [Array_sort fold_right]. unfold unadjustedSearch.
    assert (E : searchLoop StockPrice.price (List.length prices) prices
                  target 0%Z (len prices - 1)%Z None
                = r <- searchLoop
                         (fun p => (StockPrice.price p, StockPrice.date p))
                         (List.length prices) prices target 0%Z
                         (len prices - 1)%Z None ;;
                  Ok (option_map fst r))
      by exact (searchLoop_map
                  (fun p => (StockPrice.price p, StockPrice.date p)) fst
                  prices target (List.length prices) 0%Z (len prices - 1)%Z
                  None).
    rewrite E. clear E.
    destruct (searchLoop _ (List.length prices) prices target 0%Z
                (len prices - 1)%Z None) as [[[rp rd]|]| |];
      cbn [bind option_map fst]; try reflexivity.
    + rewrite getSplitAdjustmentFactor_nil, mul_one_r. reflexivity.
    + destruct (len prices >? 0)%Z; [|reflexivity].
      destruct (aget prices 0) as [p| |]; cbn [bind]; try reflexivity.
      rewrite getSplitAdjustmentFactor_nil, mul_one_r. reflexivity.
Qed.

(** ** The day high *)

Lemma clampLookup_None test prices :
  clampLookup test prices = None <-> prices = [].
Proof.
  unfold clampLookup. split.
  - destruct (find test (rev prices)); [discriminate|].
    destruct prices; [reflexivity | discriminate].
  - intros ->. reflexivity.
Qed.

Lemma getHighPriceOnDate_Ok prices date :
  getHighPriceOnDate prices date
  = Ok (option_map
          (fun e => Num.orElse (StockPrice.high e) (StockPrice.price e))
          (clampLookup (onOrBeforeDate date) prices)).
Proof.
  unfold getHighPriceOnDate. rewrite findPriceOnDate_Ok. reflexivity.
Qed.

(** X5 (day high).  [getHighPriceOnDate] returns [null] exactly for the
    empty series.  It reads the entry [getPriceOnDate] reads: on a
    series without day highs the two return the same value, and on a
    series of calendar dates that splits into [before], [e] and [after],
    where [e] is dated on or before the target and every entry of
    [after] is dated after it, the result is the day high of [e], or its
    price when [e] has no day high.  The scan does not need the entries
    of [before] to be in date order. *)
Theorem high_price_lookup :
  forall (prices : list StockPrice.t) (date : string),
    (getHighPriceOnDate prices date = Ok None <-> prices = [])
    /\ (Forall (fun p => StockPrice.high p = None) prices ->
        getHighPriceOnDate prices date = getPriceOnDate prices date)
    /\ (forall before e after,
          prices = before ++ e :: after ->
          isoSeries prices -> Date.isISO date = true ->
          dateLe (StockPrice.date e) date ->
          Forall (fun p => String.ltb date (StockPrice.date p) = true) after ->
          getHighPriceOnDate prices date
          = Ok (Some (Num.orElse (StockPrice.high e) (StockPrice.price e)))).
Proof.
  intros prices date. rewrite getHighPriceOnDate_Ok. split; [|split].
  - split.
    + intros H. apply Ok_inj in H.
      destruct (clampLookup (onOrBeforeDate date) prices) eqn:E;
        [discriminate|].
      apply clampLookup_None in E. exact E.
    + intros ->. reflexivity.
  - intros Hnone. rewrite getPriceOnDate_Ok. f_equal.
    destruct (clampLookup (onOrBeforeDate date) prices) as [e|] eqn:E;
      [|reflexivity].
    apply clampLookup_In in E. rewrite Forall_forall in Hnone.
    cbn [option_map]. rewrite (Hnone e E). reflexivity.
  - intros before e after -> Hiso Hd He Hafter.
    unfold isoSeries in Hiso. rewrite Forall_forall in Hiso.
    rewrite clampLookup_split; [reflexivity| |].
    + unfold onOrBeforeDate. rewrite <- iso_leb; [exact He| |exact Hd].
      apply Hiso, in_elt.
    + rewrite Forall_forall in *. intros p Hp.
      unfold onOrBeforeDate. rewrite <- iso_leb; [| |exact Hd].
      * rewrite string_leb_ltb, (Hafter p Hp). reflexivity.
      * apply Hiso, in_or_app. right. right. exact Hp.
Qed.

Lemma high_price_lookup_witness :
  isoSeries highPrices /\ Date.isISO "2023-01-04" = true
  /\ dateLe "2023-01-03" "2023-01-04"
  /\ Forall (fun p => String.ltb "2023-01-04" (StockPrice.date p) = true)
       [StockPrice.mk "2023-01-05" (Num.ofZ 108) (Some (Num.ofZ 112))]
  /\ Forall (fun p => StockPrice.high p = None) Sample.spyPrices
  /\ getHighPriceOnDate highPrices "2023-01-04" = Ok (Some (Num.ofZ 105))
  /\ getHighPriceOnDate Sample.spyPrices "2023-01-04"
     = getPriceOnDate Sample.spyPrices "2023-01-04".
Proof.
  assert (Hiso : isoSeries highPrices) by (repeat constructor).
  assert (Hd : Date.isISO "2023-01-04" = true) by reflexivity.
  assert (He : dateLe "2023-01-03" "2023-01-04") by reflexivity.
  assert (Hafter : Forall
                     (fun p => String.ltb "2023-01-04" (StockPrice.date p)
                               = true)
                     [StockPrice.mk "2023-01-05" (Num.ofZ 108)
                        (Some (Num.ofZ 112))])
    by (repeat constructor).
  assert (Hnone : Forall (fun p => StockPrice.high p = None) Sample.spyPrices)
    by (repeat constructor).
  split; [exact Hiso|]. split; [exact Hd|]. split; [exact He|].
  split; [exact Hafter|]. split; [exact Hnone|]. split.
  - exact (proj2 (proj2 (high_price_lookup highPrices "2023-01-04"))
             [StockPrice.mk "2023-01-02" (Num.ofZ 100) (Some (Num.ofZ 110))]
             (StockPrice.mk "2023-01-03" (Num.ofZ 105) None)
             [StockPrice.mk "2023-01-05" (Num.ofZ 108) (Some (Num.ofZ 112))]
             eq_refl Hiso Hd He Hafter).
  - exact (proj1 (proj2 (high_price_lookup Sample.spyPrices "2023-01-04"))
             Hnone).
Defined.

(* ================================================================== *)
(** * Further properties of the breakdown *)
(* ================================================================== *)

(** ** Order on finite numbers *)

Lemma gtb_sub_zero a b :
  finite a -> finite b ->
  Num.gtb (Num.sub b a) Num.zero = Num.ltb a b.
Proof.
  destruct a as [x| | |], b as [y| | |]; try discriminate. intros _ _.
  unfold Num.gtb, Num.sub, Num.zero, Num.ofZ. cbn [Num.neg Num.add Num.ltb].
  rewrite Qc_zero.
  pose proof (Qclt_minus_iff x y) as M. rewrite !Qclt_alt in M.
  destruct M as [M1 M2].
  destruct (Qccompare x y);
    destruct (Qccompare (Q2Qc 0) (Qcplus y (Qcopp x)));
    try reflexivity;
    try discriminate (M1 eq_refl); try discriminate (M2 eq_refl).
Qed.

Lemma ltb_le a b : Num.ltb a b = true -> Num.le a b.
Proof.
  unfold Num.le.
  destruct a as [x| | |], b as [y| | |]; simpl; try discriminate;
    try reflexivity.
  destruct (Qccompare x y); try discriminate. reflexivity.
Qed.

Lemma not_ltb_le a b :
  finite a -> finite b -> Num.ltb a b = false -> Num.le b a.
Proof.
  destruct a as [x| | |], b as [y| | |]; try discriminate. intros _ _.
  unfold Num.le. cbn [Num.ltb Num.leb].
  destruct (Qccompare y x) eqn:E; try reflexivity.
  assert (E' : Qccompare x y = Lt)
    by (apply Qclt_alt; apply (proj2 (Qcgt_alt y x)); exact E).
  rewrite E'. discriminate.
Qed.

(** ** The rows before the sort *)

Lemma breakdownPush_kept stockPrices currentSpyPrice breakdown entry :
  breakdownPush stockPrices currentSpyPrice breakdown entry
  = if kept stockPrices entry
    then breakdown ++ [rowOf stockPrices currentSpyPrice entry]
    else breakdown.
Proof.
  unfold breakdownPush, kept, rowOf, dgetOrEmpty.
  destruct (Num.leb (totalShares (snd entry)) Num.zero); [reflexivity|].
  cbn [negb andb].
  destruct (dget stockPrices (fst entry)) as [[|p rest]|]; reflexivity.
Qed.

Lemma fold_breakdownPush stockPrices currentSpyPrice entries :
  forall breakdown,
    fold_left (breakdownPush stockPrices currentSpyPrice) entries breakdown
    = breakdown
      ++ map (rowOf stockPrices currentSpyPrice)
           (filter (kept stockPrices) entries).
Proof.
  induction entries as [|entry entries IH]; intros breakdown; cbn [fold_left].
  - cbn [filter map]. rewrite app_nil_r. reflexivity.
  - rewrite IH, breakdownPush_kept. cbn [filter].
    destruct (kept stockPrices entry); [|reflexivity].
    cbn [map]. rewrite <- app_assoc. reflexivity.
Qed.

Lemma rowsOf_kept trades stockPrices spyPrices :
  rowsOf trades stockPrices spyPrices
  = map (rowOf stockPrices (last (map StockPrice.price spyPrices) Num.zero))
      (filter (kept stockPrices) (aggregatedOf trades spyPrices)).
Proof. unfold rowsOf. apply fold_breakdownPush. Qed.

Lemma breakdownOf_sorted_rows trades stockPrices spyPrices :
  breakdownOf trades stockPrices spyPrices
  = Array_sort byDifferenceDesc (rowsOf trades stockPrices spyPrices).
Proof. unfold breakdownOf. rewrite calculateStockBreakdown_Ok. reflexivity. Qed.

(** ** The sort by difference *)

Lemma sortInsert_In {A} (cmp : A -> A -> number) x l y :
  In y (sortInsert cmp x l) <-> y = x \/ In y l.
Proof.
  induction l as [|z l IH]; cbn [sortInsert].
  - split; [intros [<- | []]; left; reflexivity | intros [-> | []]; left; reflexivity].
  - destruct (Num.gtb (cmp x z) Num.zero); cbn [In].
    + rewrite IH. split.
      * intros [E | [E | H]]; [right; left; exact E | left; exact E | right; right; exact H].
      * intros [E | [E | H]]; [right; left; exact E | left; exact E | right; right; exact H].
    + split.
      * intros [E | H]; [left; symmetry; exact E | right; exact H].
      * intros [E | H]; [left; symmetry; exact E | right; exact H].
Qed.

Lemma sortInsert_bestFirst x l :
  finite (StockBreakdownData.difference x) ->
  Forall (fun r => finite (StockBreakdownData.difference r)) l ->
  bestFirst l -> bestFirst (sortInsert byDifferenceDesc x l).
Proof.
  intros Hx Hfin HS. unfold bestFirst in *.
  induction HS as [|y l HS IH HF]; cbn [sortInsert].
  - constructor; constructor.
  - inversion Hfin as [|? ? Hy Hfin']; subst.
    unfold byDifferenceDesc at 1. rewrite (gtb_sub_zero _ _ Hx Hy).
    destruct (Num.ltb (StockBreakdownData.difference x)
                (StockBreakdownData.difference y)) eqn:E.
    + constructor; [apply IH; exact Hfin'|].
      apply Forall_forall. intros z Hz. apply sortInsert_In in Hz.
      destruct Hz as [-> | Hz]; [apply ltb_le, E|].
      rewrite Forall_forall in HF. apply HF, Hz.
    + pose proof (not_ltb_le _ _ Hx Hy E) as Hle.
      constructor; [constructor; assumption|].
      constructor; [exact Hle|].
      apply Forall_forall. intros z Hz. rewrite Forall_forall in HF.
      apply (le_trans _ (StockBreakdownData.difference y)); [apply HF, Hz|exact Hle].
Qed.

Lemma Array_sort_bestFirst l :
  Forall (fun r => finite (StockBreakdownData.difference r)) l ->
  bestFirst (Array_sort byDifferenceDesc l).
Proof.
  induction 1 as [|x l Hx Hl IH]; [constructor|].
  cbn [Array_sort fold_right]. apply sortInsert_bestFirst; [exact Hx| |exact IH].
  apply Forall_Array_sort. exact Hl.
Qed.



(** ** Which tickers have a row *)

Lemma aggregateWith_held spyPriceAtTrade aggregated trade k :
  option_map totalShares
    (dget (aggregateWith spyPriceAtTrade aggregated trade) k)
  = heldStep k (option_map totalShares (dget aggregated k)) trade.
Proof.
  unfold aggregateWith, heldStep, netSharesStep. rewrite dget_dset.
  destruct (String.eqb_spec (Trade.ticker trade) k) as [-> | Hne];
    [|reflexivity].
  destruct (dget aggregated k) as [a|]; destruct (isSell trade); reflexivity.
Qed.

Lemma aggregatedOf_heldStep trades spyPrices k :
  option_map totalShares (dget (aggregatedOf trades spyPrices) k)
  = fold_left (heldStep k) trades None.
Proof.
  unfold aggregatedOf.
  change (@None number)
    with (option_map totalShares (dget (@nil (string * Aggregate)) k)).
  generalize (@nil (string * Aggregate)).
  induction trades as [|t rest IH]; intros agg; [reflexivity|].
  cbn [fold_left]. rewrite IH, aggregateWith_held. reflexivity.
Qed.

Lemma heldStep_Some k h t :
  heldStep k (Some h) t = Some (netSharesStep k h t).
Proof.
  unfold heldStep, netSharesStep.
  destruct (String.eqb (Trade.ticker t) k); reflexivity.
Qed.

Lemma heldStep_from_Some k trades : forall h,
  fold_left (heldStep k) trades (Some h)
  = Some (fold_left (netSharesStep k) trades h).
Proof.
  induction trades as [|t rest IH]; intros h; [reflexivity|].
  cbn [fold_left]. rewrite heldStep_Some. apply IH.
Qed.

Lemma heldStep_from_None k trades :
  fold_left (heldStep k) trades None
  = if traded trades k then Some (netShares trades k) else None.
Proof.
  unfold traded, netShares.
  induction trades as [|t rest IH]; [reflexivity|].
  cbn [fold_left existsb].
  destruct (String.eqb (Trade.ticker t) k) eqn:E; cbn [orb].
  - assert (H : heldStep k None t = Some (netSharesStep k Num.zero t))
      by (unfold heldStep; rewrite E; reflexivity).
    rewrite H. apply heldStep_from_Some.
  - assert (H : heldStep k None t = None)
      by (unfold heldStep; rewrite E; reflexivity).
    assert (H' : netSharesStep k Num.zero t = Num.zero)
      by (unfold netSharesStep; rewrite E; reflexivity).
    rewrite H, H'. exact IH.
Qed.

(** The share count of a ticker in [aggregated]. *)
Lemma aggregatedOf_held trades spyPrices k :
  option_map totalShares (dget (aggregatedOf trades spyPrices) k)
  = if traded trades k then Some (netShares trades k) else None.
Proof. rewrite aggregatedOf_heldStep. apply heldStep_from_None. Qed.

Lemma dget_In {V} (d : dict V) k v : dget d k = Some v -> In (k, v) d.
Proof.
  induction d as [|[k0 v0] d IH]; [discriminate|]. cbn [dget].
  destruct (String.eqb_spec k0 k) as [-> | Hne].
  - intros E. inversion E. left. reflexivity.
  - intros E. right. apply IH, E.
Qed.

Lemma NoDup_keys_filter {V} (f : string * V -> bool) (d : dict V) :
  NoDup (keys d) -> NoDup (keys (filter f d)).
Proof.
  unfold keys. induction d as [|kv d IH]; intros H; [constructor|].
  cbn [map] in H. inversion H as [|? ? Hnotin Hnd]; subst.
  cbn [filter]. destruct (f kv); [|apply IH, Hnd].
  cbn [map]. constructor; [|apply IH, Hnd].
  intros Hin. apply Hnotin. apply in_map_iff in Hin.
  destruct Hin as [x [E Hx]]. apply filter_In in Hx.
  apply in_map_iff. exists x. split; [exact E | apply Hx].
Qed.

Lemma rowOf_ticker stockPrices currentSpyPrice entries :
  map StockBreakdownData.ticker (map (rowOf stockPrices currentSpyPrice) entries)
  = keys entries.
Proof. unfold keys. rewrite map_map. reflexivity. Qed.

Lemma last_map_snoc {A B} (f : A -> B) (l : list A) (x : A) (d : B) :
  last (map f (l ++ [x])) d = f x.
Proof. rewrite map_app. cbn [map]. apply last_last. Qed.

(** X7 (which tickers have a row).  [calculateStockBreakdown] returns at
    most one row per ticker.  A ticker has a row exactly when it has a
    trade, its share count after all trades (buys added and sells
    subtracted, in list order) is not [<= 0], and it has a non-empty
    price series.  The row reports that share count rounded to six
    decimals and, as current price, the price of the last entry of the
    series. *)
Theorem breakdown_rows :
  forall (trades : list Trade.t) (stockPrices : dict (list StockPrice.t))
         (spyPrices : list StockPrice.t),
  exists rows,
    calculateStockBreakdown trades stockPrices spyPrices = Ok rows
    /\ NoDup (map StockBreakdownData.ticker rows)
    /\ (forall k,
          In k (map StockBreakdownData.ticker rows)
          <-> (traded trades k = true
               /\ Num.leb (netShares trades k) Num.zero = false
               /\ exists p rest, dget stockPrices k = Some (p :: rest)))
    /\ (forall row,
          In row rows ->
          StockBreakdownData.shares row
            = round6 (netShares trades (StockBreakdownData.ticker row))
          /\ exists before e,
               dget stockPrices (StockBreakdownData.ticker row)
                 = Some (before ++ [e])
               /\ StockBreakdownData.currentPrice row = StockPrice.price e).
Proof.
  intros trades stockPrices spyPrices.
  rewrite calculateStockBreakdown_Ok. eexists. split; [reflexivity|].
  rewrite rowsOf_kept.
  set (c := last (map StockPrice.price spyPrices) Num.zero).
  set (agg := aggregatedOf trades spyPrices).
  pose proof (NoDup_keys_aggregatedOf trades spyPrices) as Hnd.
  fold agg in Hnd.
  assert (Hperm : Permutation
                    (map StockBreakdownData.ticker
                       (Array_sort byDifferenceDesc
                          (map (rowOf stockPrices c)
                             (filter (kept stockPrices) agg))))
                    (keys (filter (kept stockPrices) agg))).
  { rewrite <- (rowOf_ticker stockPrices c). apply Permutation_map.
    apply Array_sort_perm. }
  assert (Hentry : forall k data,
             In (k, data) (filter (kept stockPrices) agg) ->
             traded trades k = true
             /\ totalShares data = netShares trades k
             /\ Num.leb (netShares trades k) Num.zero = false
             /\ exists p rest, dget stockPrices k = Some (p :: rest)).
  { intros k data Hin. apply filter_In in Hin. destruct Hin as [Hin Hk].
    apply (dget_In_NoDup _ _ _ Hnd) in Hin.
    pose proof (aggregatedOf_held trades spyPrices k) as Hheld.
    fold agg in Hheld. rewrite Hin in Hheld. cbn [option_map] in Hheld.
    destruct (traded trades k); [|discriminate].
    injection Hheld as Hshares. split; [reflexivity|].
    split; [exact Hshares|].
    unfold kept in Hk. cbn [fst snd] in Hk.
    apply andb_true_iff in Hk. destruct Hk as [Hpos Hpriced].
    rewrite Hshares in Hpos. apply negb_true_iff in Hpos.
    split; [exact Hpos|].
    destruct (dget stockPrices k) as [[|p rest]|]; try discriminate.
    exists p, rest. reflexivity. }
  split; [|split].
  - apply (Permutation_NoDup (Permutation_sym Hperm)).
    apply NoDup_keys_filter, Hnd.
  - intros k. split.
    + intros Hin. apply (Permutation_in _ Hperm) in Hin.
      unfold keys in Hin. apply in_map_iff in Hin.
      destruct Hin as [[k' data] [E Hin]]. cbn [fst] in E. subst k'.
      destruct (Hentry k data Hin) as [H1 [_ [H2 H3]]]. auto.
    + intros [Htraded [Hpos [p [rest Hpriced]]]].
      apply (Permutation_in _ (Permutation_sym Hperm)).
      pose proof (aggregatedOf_held trades spyPrices k) as Hheld.
      fold agg in Hheld. rewrite Htraded in Hheld.
      destruct (dget agg k) as [data|] eqn:Hget; [|discriminate].
      cbn [option_map] in Hheld. injection Hheld as Hshares.
      unfold keys. apply in_map_iff. exists (k, data). split; [reflexivity|].
      apply filter_In. split; [apply dget_In, Hget|].
      unfold kept. cbn [fst snd]. rewrite Hshares, Hpos, Hpriced. reflexivity.
  - intros row Hin. apply Array_sort_In in Hin. apply in_map_iff in Hin.
    destruct Hin as [[k data] [<- Hin]].
    destruct (Hentry k data Hin) as [_ [Hshares [_ [p [rest Hpriced]]]]].
    unfold rowOf, breakdownRow. cbn [fst snd StockBreakdownData.shares
      StockBreakdownData.ticker StockBreakdownData.currentPrice].
    split; [rewrite Hshares; reflexivity|].
    destruct (exists_last (l := p :: rest)) as [before [e E]];
      [discriminate|].
    exists before, e. unfold dgetOrEmpty. rewrite Hpriced, E.
    split; [reflexivity | apply last_map_snoc].
Qed.

(* ================================================================== *)
(** * Further properties of the summary *)
(* ================================================================== *)

(** ** A scan that keeps the first best element *)

Section Scan.

Variable A : Type.
Variable P : A -> Prop.
Variable better : A -> A -> bool.

Hypothesis better_trans : forall x y z,
  P x -> P y -> P z ->
  better y x = true -> better z y = true -> better z x = true.
Hypothesis better_weak_trans : forall x y z,
  P x -> P y -> P z ->
  better x y = false -> better z y = true -> better z x = true.

Lemma scan_firstBest l : forall pre b post,
  Forall P (pre ++ b :: post ++ l) ->
  Forall (fun r => better b r = true) pre ->
  Forall (fun r => better r b = false) post ->
  firstBest better (pre ++ b :: post ++ l)
    (fold_left (fun best r => if better r best then r else best) l b).
Proof.
  induction l as [|r l IH]; intros pre b post HP Hpre Hpost.
  - cbn [fold_left]. exists pre, post. rewrite app_nil_r. auto.
  - cbn [fold_left].
    assert (Hb : P b).
    { rewrite Forall_forall in HP. apply HP, in_elt. }
    assert (Hr : P r).
    { rewrite Forall_forall in HP. apply HP.
      apply in_or_app. right. right. apply in_elt. }
    destruct (better r b) eqn:E.
    + replace (pre ++ b :: post ++ r :: l)
        with ((pre ++ b :: post) ++ r :: [] ++ l)
        by (rewrite <- app_assoc; reflexivity).
      apply IH.
      * rewrite <- app_assoc. exact HP.
      * apply Forall_app. split; [|constructor].
        -- rewrite Forall_forall in *. intros x Hx.
           apply (better_trans x b r); auto.
           apply HP, in_or_app. left. exact Hx.
        -- exact E.
        -- rewrite Forall_forall in *. intros x Hx.
           apply (better_weak_trans x b r); auto.
           apply HP, in_or_app. right. right. apply in_or_app. left. exact Hx.
      * constructor.
    + replace (pre ++ b :: post ++ r :: l)
        with (pre ++ b :: (post ++ [r]) ++ l)
        by (rewrite <- app_assoc; reflexivity).
      apply IH.
      * rewrite <- app_assoc. exact HP.
      * exact Hpre.
      * apply Forall_app. split; [exact Hpost|]. constructor; [exact E|constructor].
Qed.

End Scan.

Lemma ltb_irrefl a : Num.ltb a a = false.
Proof.
  destruct a as [x| | |]; try reflexivity. cbn [Num.ltb].
  assert (E : Qccompare x x = Eq) by (apply Qceq_alt; reflexivity).
  rewrite E. reflexivity.
Qed.

Lemma ltb_Fin x y : Num.ltb (Fin x) (Fin y) = true <-> Qclt x y.
Proof.
  cbn [Num.ltb]. rewrite Qclt_alt.
  destruct (Qccompare x y); split; intros H; try reflexivity; discriminate.
Qed.

Lemma ltb_trans a b c :
  Num.ltb a b = true -> Num.ltb b c = true -> Num.ltb a c = true.
Proof.
  destruct a as [x| | |], b as [y| | |], c as [z| | |];
    try (simpl; discriminate); try (simpl; reflexivity).
  rewrite !ltb_Fin. apply Qclt_trans.
Qed.

Lemma le_ltb_trans a b c :
  finite a -> finite b -> finite c ->
  Num.ltb b a = false -> Num.ltb b c = true -> Num.ltb a c = true.
Proof.
  intros Ha Hb Hc Hab Hbc. pose proof (not_ltb_le _ _ Hb Ha Hab) as Hle.
  destruct a as [x| | |], b as [y| | |], c as [z| | |]; try discriminate.
  unfold Num.le in Hle. rewrite leb_Fin in Hle. rewrite ltb_Fin in *.
  apply (Qcle_lt_trans _ _ _ Hle Hbc).
Qed.

Lemma ltb_le_trans a b c :
  finite a -> finite b -> finite c ->
  Num.ltb a b = true -> Num.ltb c b = false -> Num.ltb a c = true.
Proof.
  intros Ha Hb Hc Hab Hcb. pose proof (not_ltb_le _ _ Hc Hb Hcb) as Hle.
  destruct a as [x| | |], b as [y| | |], c as [z| | |]; try discriminate.
  unfold Num.le in Hle. rewrite leb_Fin in Hle. rewrite ltb_Fin in *.
  apply (Qclt_le_trans _ _ _ Hab Hle).
Qed.

(** The scan of [calculateSummary] is two independent scans. *)
Lemma fold_performerStep l : forall b w,
  fold_left performerStep l (b, w)
  = (fold_left
       (fun best r =>
          if Num.gtb (StockBreakdownData.difference r)
               (StockBreakdownData.difference best)
          then r else best) l b,
     fold_left
       (fun worst r =>
          if Num.ltb (StockBreakdownData.difference r)
               (StockBreakdownData.difference worst)
          then r else worst) l w).
Proof.
  induction l as [|r l IH]; intros b w; [reflexivity|].
  cbn [fold_left]. unfold performerStep at 2. apply IH.
Qed.

Lemma performers_first_extremes b rest :
  Forall (fun r => finite (StockBreakdownData.difference r)) (b :: rest) ->
  firstMax (b :: rest) (fst (fold_left performerStep (b :: rest) (b, b)))
  /\ firstMin (b :: rest) (snd (fold_left performerStep (b :: rest) (b, b))).
Proof.
  intros Hfin. rewrite fold_performerStep. cbn [fst snd fold_left].
  unfold Num.gtb at 2. rewrite !ltb_irrefl.
  split.
  - destruct (scan_firstBest StockBreakdownData.t
                (fun r => finite (StockBreakdownData.difference r))
                (fun x y => Num.gtb (StockBreakdownData.difference x)
                              (StockBreakdownData.difference y)))
      with (l := rest) (pre := @nil StockBreakdownData.t) (b := b)
           (post := @nil StockBreakdownData.t)
      as [pre [post [E [Hpre Hpost]]]].
    + intros x y z _ _ _ H1 H2. unfold Num.gtb in *.
      apply (ltb_trans _ _ _ H1 H2).
    + intros x y z Hx Hy Hz H1 H2. unfold Num.gtb in *.
      apply (le_ltb_trans _ _ _ Hx Hy Hz H1 H2).
    + exact Hfin.
    + constructor.
    + constructor.
    + exists pre, post. split; [exact E|]. split; [exact Hpre|].
      assert (Hall : Forall
                       (fun r => finite (StockBreakdownData.difference r))
                       (pre ++ fold_left
                                 (fun best r =>
                                    if Num.gtb (StockBreakdownData.difference r)
                                         (StockBreakdownData.difference best)
                                    then r else best) rest b :: post))
        by (rewrite <- E; exact Hfin).
      apply Forall_app in Hall. destruct Hall as [_ Hall].
      inversion Hall as [|? ? Hb Hp]; subst.
      rewrite Forall_forall in *. intros r Hr.
      apply not_ltb_le; [exact Hb | apply Hp, Hr | apply (Hpost r Hr)].
  - destruct (scan_firstBest StockBreakdownData.t
                (fun r => finite (StockBreakdownData.difference r))
                (fun x y => Num.ltb (StockBreakdownData.difference x)
                              (StockBreakdownData.difference y)))
      with (l := rest) (pre := @nil StockBreakdownData.t) (b := b)
           (post := @nil StockBreakdownData.t)
      as [pre [post [E [Hpre Hpost]]]].
    + intros x y z _ _ _ H1 H2. apply (ltb_trans _ _ _ H2 H1).
    + intros x y z Hx Hy Hz H1 H2.
      apply (ltb_le_trans _ _ _ Hz Hy Hx H2 H1).
    + exact Hfin.
    + constructor.
    + constructor.
    + exists pre, post. split; [exact E|]. split; [exact Hpre|].
      assert (Hall : Forall
                       (fun r => finite (StockBreakdownData.difference r))
                       (pre ++ fold_left
                                 (fun worst r =>
                                    if Num.ltb (StockBreakdownData.difference r)
                                         (StockBreakdownData.difference worst)
                                    then r else worst) rest b :: post))
        by (rewrite <- E; exact Hfin).
      apply Forall_app in Hall. destruct Hall as [_ Hall].
      inversion Hall as [|? ? Hb Hp]; subst.
      rewrite Forall_forall in *. intros r Hr.
      apply not_ltb_le; [apply Hp, Hr | exact Hb | apply (Hpost r Hr)].
Qed.

(** X8 (best and worst performer).  For a non-empty breakdown whose
    differences are finite, [calculateSummary] reports as best
    performer the first row with the largest difference and as worst
    performer the first row with the smallest difference, each with its
    ticker and its difference. *)
Theorem summary_performers :
  forall (breakdown : list StockBreakdownData.t) (cashFlows : list CashFlow.t)
         (trades : list Trade.t),
    breakdown <> [] ->
    Forall (fun r => finite (StockBreakdownData.difference r)) breakdown ->
    exists s best worst,
      calculateSummary breakdown cashFlows trades = Ok s
      /\ SummaryData.bestPerformer s
         = Some (StockBreakdownData.ticker best,
                 StockBreakdownData.difference best)
      /\ SummaryData.worstPerformer s
         = Some (StockBreakdownData.ticker worst,
                 StockBreakdownData.difference worst)
      /\ firstMax breakdown best
      /\ firstMin breakdown worst.
Proof.
  intros [|b rest] cashFlows trades Hne Hfin; [contradiction|].
  destruct (calculateSummary_nonempty b rest cashFlows trades)
    as [best [worst [Hfold Hs]]].
  rewrite Hs. eexists. exists best, worst. split; [reflexivity|].
  cbn [SummaryData.bestPerformer SummaryData.worstPerformer].
  split; [reflexivity|]. split; [reflexivity|].
  pose proof (performers_first_extremes b rest Hfin) as H.
  rewrite Hfold in H. exact H.
Qed.

Lemma summary_performers_witness :
  sampleBreakdown <> []
  /\ Forall (fun r => finite (StockBreakdownData.difference r)) sampleBreakdown
  /\ exists s best worst,
       calculateSummary sampleBreakdown [] sampleTrades = Ok s
       /\ SummaryData.bestPerformer s
          = Some (StockBreakdownData.ticker best,
                  StockBreakdownData.difference best)
       /\ SummaryData.worstPerformer s
          = Some (StockBreakdownData.ticker worst,
                  StockBreakdownData.difference worst)
       /\ firstMax sampleBreakdown best
       /\ firstMin sampleBreakdown worst.
Proof.
  assert (Hne : sampleBreakdown <> []) by discriminate.
  assert (Hfin : Forall (fun r => finite (StockBreakdownData.difference r))
                   sampleBreakdown)
    by (repeat constructor).
  split; [exact Hne|]. split; [exact Hfin|].
  exact (summary_performers sampleBreakdown [] sampleTrades Hne Hfin).
Defined.

(** ** Without net investment *)

Lemma max_zero_not_positive x :
  Num.gtb x Num.zero = false ->
  Num.gtb (Num.Math_max Num.zero x) Num.zero = false.
Proof.
  unfold Num.gtb, Num.Math_max, Num.zero, Num.ofZ. intros H.
  destruct x as [q| | |]; try reflexivity; try discriminate.
  rewrite H. apply ltb_irrefl.
Qed.

Lemma max_zero_zero_or_NaN x :
  Num.gtb x Num.zero = false ->
  Num.Math_max Num.zero x = Num.zero \/ Num.Math_max Num.zero x = NaN.
Proof.
  unfold Num.gtb, Num.Math_max, Num.zero, Num.ofZ. intros H.
  destruct x as [q| | |]; try discriminate.
  - left. rewrite H. reflexivity.
  - left. reflexivity.
  - right. reflexivity.
Qed.

(** X9 (summary without net investment).  The summary of an empty
    breakdown is all zeros with no performers, whatever the trades and
    cash flows.  The cash flows never influence the summary.  For a
    non-empty breakdown both performers are reported, and when the net
    cash value of the trades (buys minus sells) is not above zero the
    three percentages are zero instead of the result of a division by
    zero; the reported cost basis is then zero, or [NaN] when the net
    cash value is [NaN]. *)
Theorem summary_without_net_investment :
  forall (breakdown : list StockBreakdownData.t) (cashFlows : list CashFlow.t)
         (trades : list Trade.t),
    calculateSummary [] cashFlows trades = Ok emptySummary
    /\ (forall cashFlows',
          calculateSummary breakdown cashFlows' trades
          = calculateSummary breakdown cashFlows trades)
    /\ (breakdown <> [] ->
        exists s,
          calculateSummary breakdown cashFlows trades = Ok s
          /\ SummaryData.bestPerformer s <> None
          /\ SummaryData.worstPerformer s <> None
          /\ (Num.gtb (netInvested trades) Num.zero = false ->
              SummaryData.portfolioReturn s = Num.zero
              /\ SummaryData.counterfactualReturn s = Num.zero
              /\ SummaryData.percentageDifference s = Num.zero
              /\ (SummaryData.totalCostBasis s = Num.zero
                  \/ SummaryData.totalCostBasis s = NaN))).
Proof.
  intros breakdown cashFlows trades. split; [reflexivity|].
  split; [reflexivity|].
  destruct breakdown as [|b rest]; [contradiction|]. intros _.
  destruct (calculateSummary_nonempty b rest cashFlows trades)
    as [best [worst [_ Hs]]].
  rewrite Hs. eexists. split; [reflexivity|]. cbv zeta.
  cbn [SummaryData.bestPerformer SummaryData.worstPerformer
       SummaryData.portfolioReturn SummaryData.counterfactualReturn
       SummaryData.percentageDifference SummaryData.totalCostBasis].
  split; [discriminate|]. split; [discriminate|].
  intros Hnet. unfold summaryCostBasis. fold (netInvested trades).
  rewrite (max_zero_not_positive _ Hnet), round2_zero.
  split; [reflexivity|]. split; [reflexivity|]. split; [reflexivity|].
  destruct (max_zero_zero_or_NaN _ Hnet) as [-> | ->].
  - left. apply round2_zero.
  - right. reflexivity.
Qed.

Lemma summary_without_net_investment_witness :
  sampleBreakdown <> []
  /\ Num.gtb (netInvested [Sample.trade "AAPL" "2023-01-10" 5 135 sell])
       Num.zero = false
  /\ exists s,
       calculateSummary sampleBreakdown []
         [Sample.trade "AAPL" "2023-01-10" 5 135 sell] = Ok s
       /\ SummaryData.portfolioReturn s = Num.zero
       /\ (SummaryData.totalCostBasis s = Num.zero
           \/ SummaryData.totalCostBasis s = NaN).
Proof.
  assert (Hne : sampleBreakdown <> []) by discriminate.
  assert (Hnet : Num.gtb
                   (netInvested [Sample.trade "AAPL" "2023-01-10" 5 135 sell])
                   Num.zero = false) by reflexivity.
  split; [exact Hne|]. split; [exact Hnet|].
  destruct (proj2 (proj2 (summary_without_net_investment sampleBreakdown []
                            [Sample.trade "AAPL" "2023-01-10" 5 135 sell]))
              Hne)
    as [s [Hs [_ [_ Hzero]]]].
  exists s. split; [exact Hs|].
  destruct (Hzero Hnet) as [Hp [_ [_ Hcost]]].
  split; [exact Hp | exact Hcost].
Defined.

(** ** The summary of the breakdown *)

Lemma StronglySorted_elt {A} (R : A -> A -> Prop) l1 x l2 :
  StronglySorted R (l1 ++ x :: l2) ->
  Forall (fun a => R a x) l1 /\ Forall (R x) l2.
Proof.
  induction l1 as [|y l1 IH]; cbn [app]; intros H;
    inversion H as [|? ? HS HF]; subst.
  - split; [constructor | exact HF].
  - destruct (IH HS) as [H1 H2]. split; [|exact H2].
    constructor; [|exact H1].
    rewrite Forall_forall in HF. apply HF, in_elt.
Qed.

Lemma ltb_not_le a b : Num.ltb a b = true -> Num.le b a -> False.
Proof.
  unfold Num.le.
  destruct a as [x| | |], b as [y| | |]; simpl; try discriminate.
  intros H1 H2.
  assert (L : Qclt x y) by (apply ltb_Fin; exact H1).
  assert (G : Qcle y x) by (apply leb_Fin; exact H2).
  exact (Qclt_not_le _ _ L G).
Qed.

Lemma le_antisym a b : Num.le a b -> Num.le b a -> a = b.
Proof.
  unfold Num.le.
  destruct a as [x| | |], b as [y| | |]; simpl; try discriminate;
    try reflexivity.
  intros H1 H2. f_equal. apply Qcle_antisym; apply leb_Fin; assumption.
Qed.

(** In a breakdown that is best first, the first row with the largest
    difference is the first row. *)
Lemma firstMax_bestFirst first rest best :
  bestFirst (first :: rest) -> firstMax (first :: rest) best -> best = first.
Proof.
  intros HS [pre [post [E [Hpre _]]]]. unfold bestFirst in HS.
  rewrite E in HS. apply StronglySorted_elt in HS. destruct HS as [Hbefore _].
  destruct pre as [|r pre]; [inversion E; reflexivity|].
  exfalso. inversion Hpre as [|? ? Hlt _]; subst.
  inversion Hbefore as [|? ? Hle _]; subst.
  exact (ltb_not_le _ _ Hlt Hle).
Qed.

(** In a breakdown that is best first, the first row with the smallest
    difference has the difference of the last row. *)
Lemma firstMin_bestFirst first rest worst :
  bestFirst (first :: rest) -> firstMin (first :: rest) worst ->
  StockBreakdownData.difference worst
  = StockBreakdownData.difference (last rest first).
Proof.
  intros HS [pre [post [E [_ Hpost]]]]. unfold bestFirst in HS.
  assert (Hlast : last rest first = last (first :: rest) first)
    by (destruct rest; reflexivity).
  rewrite Hlast, E. rewrite E in HS.
  apply StronglySorted_elt in HS. destruct HS as [_ Hafter].
  destruct (exists_last (l := worst :: post)) as [l' [z Ez]]; [discriminate|].
  replace (pre ++ worst :: post) with ((pre ++ l') ++ [z])
    by (rewrite <- app_assoc, <- Ez; reflexivity).
  rewrite last_last.
  assert (Hz : In z (worst :: post))
    by (rewrite Ez; apply in_or_app; right; left; reflexivity).
  destruct Hz as [<- | Hz]; [reflexivity|].
  rewrite Forall_forall in Hpost, Hafter.
  apply le_antisym; [apply Hpost, Hz | apply Hafter, Hz].
Qed.

(** X10 (the summary of the breakdown).  The caller summarises the rows
    [calculateStockBreakdown] returns, which are the rows it pushed as
    sorted by its comparator.  Whenever the differences of the pushed
    rows are finite, the summary of the sorted rows is the empty summary
    when there is no row; otherwise the best performer is the first of
    the sorted rows and the worst performer has the difference of the
    last of them. *)
Theorem summary_of_breakdown :
  forall (pushed : list StockBreakdownData.t) (cashFlows : list CashFlow.t)
         (trades : list Trade.t),
    Forall (fun r => finite (StockBreakdownData.difference r)) pushed ->
    exists s,
      calculateSummary (Array_sort byDifferenceDesc pushed) cashFlows trades
      = Ok s
      /\ (pushed = [] -> s = emptySummary)
      /\ (forall first rest,
            Array_sort byDifferenceDesc pushed = first :: rest ->
            SummaryData.bestPerformer s
              = Some (StockBreakdownData.ticker first,
                      StockBreakdownData.difference first)
            /\ option_map snd (SummaryData.worstPerformer s)
               = Some (StockBreakdownData.difference (last rest first))).
Proof.
  intros pushed cashFlows trades Hpushed.
  assert (Hempty : pushed = [] -> Array_sort byDifferenceDesc pushed = [])
    by (intros ->; reflexivity).
  set (rows := Array_sort byDifferenceDesc pushed) in *.
  assert (Hfin : Forall (fun r => finite (StockBreakdownData.difference r))
                   rows)
    by (apply Forall_Array_sort, Hpushed).
  assert (Hsorted : bestFirst rows)
    by (apply Array_sort_bestFirst, Hpushed).
  clearbody rows.
  destruct rows as [|first rest].
  - exists emptySummary. split; [reflexivity|].
    split; [reflexivity|]. intros first rest E. discriminate E.
  - destruct (calculateSummary_nonempty first rest cashFlows trades)
      as [best [worst [Hfold Hsum]]].
    rewrite Hsum. eexists. split; [reflexivity|].
    split; [intros E; discriminate (Hempty E)|].
    intros first' rest' E. injection E as <- <-.
    cbv zeta. cbn [SummaryData.bestPerformer SummaryData.worstPerformer
                   option_map].
    pose proof (performers_first_extremes first rest Hfin) as [Hmax Hmin].
    rewrite Hfold in Hmax, Hmin. cbn [fst snd] in Hmax, Hmin.
    rewrite (firstMax_bestFirst _ _ _ Hsorted Hmax).
    unfold performerOf. cbn [snd].
    rewrite (firstMin_bestFirst _ _ _ Hsorted Hmin). split; reflexivity.
Qed.

Lemma summary_of_breakdown_witness :
  Forall (fun r => finite (StockBreakdownData.difference r))
    (rev sampleBreakdown)
  /\ exists s,
       calculateSummary (Array_sort byDifferenceDesc (rev sampleBreakdown))
         [] sampleTrades = Ok s
       /\ (rev sampleBreakdown = [] -> s = emptySummary)
       /\ (forall first rest,
             Array_sort byDifferenceDesc (rev sampleBreakdown)
             = first :: rest ->
             SummaryData.bestPerformer s
               = Some (StockBreakdownData.ticker first,
                       StockBreakdownData.difference first)
             /\ option_map snd (SummaryData.worstPerformer s)
                = Some (StockBreakdownData.difference (last rest first))).
Proof.
  assert (Hfin : Forall (fun r => finite (StockBreakdownData.difference r))
                   (rev sampleBreakdown))
    by (repeat constructor).
  split; [exact Hfin|].
  exact (summary_of_breakdown (rev sampleBreakdown) [] sampleTrades Hfin).
Defined.

(* ================================================================== *)
(** * Further properties of the time series *)
(* ================================================================== *)

Lemma traceOf_length pre stockPrices splits spyPrices : forall st,
  List.length (traceOf pre stockPrices splits spyPrices st)
  = List.length spyPrices.
Proof.
  induction spyPrices as [|spyPrice rest IH]; intros st; [reflexivity|].
  cbn [traceOf List.length]. rewrite IH. reflexivity.
Qed.

Lemma pointsOf_length trace :
  (List.length (pointsOf trace) <= List.length trace)%nat.
Proof.
  unfold pointsOf. rewrite length_map.
  etransitivity; [apply filter_length_le|]. rewrite length_map. apply le_n.
Qed.

Lemma sumAmounts_nil : sumAmounts [] = Num.zero.
Proof. reflexivity. Qed.

Lemma gtb_zero_zero : Num.gtb Num.zero Num.zero = false.
Proof. reflexivity. Qed.

Lemma max_zero_zero : Num.Math_max Num.zero Num.zero = Num.zero.
Proof. reflexivity. Qed.

(** A day with positive cost basis follows some cash flow, or some
    trade, according to the cost-basis mode. *)
Lemma costBasisOn_positive trades cashFlows d :
  Num.gtb (costBasisOn trades cashFlows d) Num.zero = true ->
  if useCashFlowBasis cashFlows
  then exists cf, In cf cashFlows /\ dateLe (CashFlow.date cf) d
  else exists t, In t trades /\ dateLe (Trade.date t) d.
Proof.
  unfold costBasisOn, cashFlowCostBasis, tradeCostBasisOn.
  destruct (useCashFlowBasis cashFlows).
  - destruct (filter (fun cf => String.leb (CashFlow.date cf) d)
                (Array_sort byCashFlowDate cashFlows)) as [|cf l] eqn:E.
    + rewrite sumAmounts_nil, gtb_zero_zero. discriminate.
    + intros _. exists cf.
      assert (Hin : In cf (filter (fun cf => String.leb (CashFlow.date cf) d)
                             (Array_sort byCashFlowDate cashFlows)))
        by (rewrite E; left; reflexivity).
      apply filter_In in Hin. destruct Hin as [Hin Hd].
      split; [apply (Array_sort_In byCashFlowDate), Hin | exact Hd].
  - destruct (filter (fun t => String.leb (Trade.date t) d)
                (Array_sort byTradeDate trades)) as [|t l] eqn:E.
    + cbn [fold_left]. rewrite max_zero_zero, gtb_zero_zero. discriminate.
    + intros _. exists t.
      assert (Hin : In t (filter (fun t => String.leb (Trade.date t) d)
                            (Array_sort byTradeDate trades)))
        by (rewrite E; left; reflexivity).
      apply filter_In in Hin. destruct Hin as [Hin Hd].
      split; [apply (Array_sort_In byTradeDate), Hin | exact Hd].
Qed.

(** X11 (no point before the first activity).  The time series has at
    most one point per entry of the index series, and none when there is
    no trade.  On an index series in ascending date order a point is
    never dated before the first event that can give it a cost basis:
    in cash-flow mode some cash flow, otherwise some trade, is dated on
    or before the point. *)
Theorem no_point_before_first_activity :
  forall (trades : list Trade.t) (stockPrices : dict (list StockPrice.t))
         (spyPrices : list StockPrice.t) (cashFlows : list CashFlow.t)
         (splits : dict (list StockSplit.t)),
  exists points,
    calculatePortfolioTimeSeries trades stockPrices spyPrices cashFlows splits
    = Ok points
    /\ (List.length points <= List.length spyPrices)%nat
    /\ (trades = [] -> points = [])
    /\ (ascending spyPrices ->
        forall p, In p points ->
          if useCashFlowBasis cashFlows
          then exists cf, In cf cashFlows
                          /\ dateLe (CashFlow.date cf)
                               (PortfolioDataPoint.date p)
          else exists t, In t trades
                         /\ dateLe (Trade.date t)
                              (PortfolioDataPoint.date p)).
Proof.
  intros trades stockPrices spyPrices cashFlows splits.
  rewrite calculatePortfolioTimeSeries_Ok. eexists. split; [reflexivity|].
  destruct trades as [|t trades].
  - split; [apply Nat.le_0_l|]. split; [reflexivity|].
    intros _ p [].
  - destruct spyPrices as [|day spyPrices].
    + split; [apply Nat.le_0_l|]. split; [discriminate|]. intros _ p [].
    + split.
      { etransitivity; [apply pointsOf_length|].
        rewrite traceOf_length. apply le_n. }
      split; [discriminate|].
      intros Hasc p Hp. apply costBasisOn_positive.
      apply (in_map PortfolioDataPoint.date) in Hp.
      rewrite (pointsOf_dates _ _ _ _ _ Hasc) in Hp.
      apply filter_In in Hp. apply Hp.
Qed.

Lemma no_point_before_first_activity_witness :
  ascending Sample.spyPrices
  /\ exists points,
       calculatePortfolioTimeSeries sampleTrades
         [("AAPL"%string, Sample.aaplPrices)] Sample.spyPrices [] []
       = Ok points
       /\ forall p, In p points ->
            exists t, In t sampleTrades
                      /\ dateLe (Trade.date t) (PortfolioDataPoint.date p).
Proof.
  assert (Hasc : ascending Sample.spyPrices) by (repeat constructor).
  split; [exact Hasc|].
  destruct (no_point_before_first_activity sampleTrades
              [("AAPL"%string, Sample.aaplPrices)] Sample.spyPrices [] [])
    as [points [Hrun [_ [_ Hfirst]]]].
  exists points. split; [exact Hrun|]. exact (Hfirst Hasc).
Defined.

(** ** The benchmark in deposit mode *)

Lemma pointsOf_benchmark trace :
  map benchmarkOf (pointsOf trace)
  = map benchmarkPoint
      (filter (fun b => Num.gtb (snd b) Num.zero)
         (map (fun r => benchmarkLocals (snd r)) trace)).
Proof.
  unfold pointsOf. induction trace as [|[st d] trace IH]; [reflexivity|].
  cbn [map filter snd]. unfold emitted at 1.
  change (snd (benchmarkLocals d)) with (costBasis d).
  destruct (Num.gtb (costBasis d) Num.zero); [|exact IH].
  cbn [map]. rewrite IH. reflexivity.
Qed.

Lemma traceOf_benchmark trades trades' stockPrices stockPrices' cashFlows
  splits splits' allSpyPrices spyPrices :
  useDepositBasis cashFlows = true -> useCashFlowBasis cashFlows = true ->
  forall st st',
    map (fun r => benchmarkLocals (snd r))
      (traceOf (prepared trades stockPrices allSpyPrices cashFlows splits)
         stockPrices splits spyPrices st)
    = map (fun r => benchmarkLocals (snd r))
        (traceOf (prepared trades' stockPrices' allSpyPrices cashFlows splits')
           stockPrices' splits' spyPrices st').
Proof.
  intros Hdep Hcash.
  induction spyPrices as [|day rest IH]; intros st st'; [reflexivity|].
  cbn [traceOf map]. f_equal; [|apply IH].
  unfold dayStep. cbn [snd]. unfold dayLocalsOf, benchmarkLocals.
  cbn [currentDate counterfactualValue costBasis depositBasis cashFlowBasis
       prepared depositSpySharesByDate sortedDeposits sortedCashFlows].
  rewrite Hdep, Hcash. reflexivity.
Qed.

(** X12 (the benchmark in deposit mode).  When the cash flows contain a
    deposit and their total is positive, the benchmark side of the time
    series (which days are emitted, and the counterfactual value, cost
    basis and counterfactual return of each) is determined by the cash
    flows and the index series alone: two runs on the same cash flows
    and index give the same benchmark, whatever their non-empty trade
    lists, stock prices and splits. *)
Theorem benchmark_ignores_trades :
  forall (trades trades' : list Trade.t)
         (stockPrices stockPrices' : dict (list StockPrice.t))
         (spyPrices : list StockPrice.t) (cashFlows : list CashFlow.t)
         (splits splits' : dict (list StockSplit.t)),
    trades <> [] -> trades' <> [] ->
    useDepositBasis cashFlows = true -> useCashFlowBasis cashFlows = true ->
    exists points points',
      calculatePortfolioTimeSeries trades stockPrices spyPrices cashFlows
        splits = Ok points
      /\ calculatePortfolioTimeSeries trades' stockPrices' spyPrices cashFlows
           splits' = Ok points'
      /\ map benchmarkOf points = map benchmarkOf points'.
Proof.
  intros trades trades' stockPrices stockPrices' spyPrices cashFlows
    splits splits' Ht Ht' Hdep Hcash.
  rewrite !calculatePortfolioTimeSeries_Ok.
  eexists. eexists. split; [reflexivity|]. split; [reflexivity|].
  destruct trades as [|t trades]; [contradiction|].
  destruct trades' as [|t' trades']; [contradiction|].
  destruct spyPrices as [|day spyPrices]; [reflexivity|].
  rewrite !pointsOf_benchmark.
  rewrite (traceOf_benchmark (t :: trades) (t' :: trades') stockPrices
             stockPrices' cashFlows splits splits' (day :: spyPrices)
             (day :: spyPrices) Hdep Hcash initialState initialState).
  reflexivity.
Qed.

Lemma benchmark_ignores_trades_witness :
  sampleTrades <> []
  /\ [Sample.trade "MSFT" "2023-01-10" 3 250 buy] <> []
  /\ useDepositBasis [Sample.depositOf "2023-01-02" 2000] = true
  /\ useCashFlowBasis [Sample.depositOf "2023-01-02" 2000] = true
  /\ exists points points',
       calculatePortfolioTimeSeries sampleTrades
         [("AAPL"%string, Sample.aaplPrices)] Sample.spyPrices
         [Sample.depositOf "2023-01-02" 2000] [] = Ok points
       /\ calculatePortfolioTimeSeries
            [Sample.trade "MSFT" "2023-01-10" 3 250 buy] []
            Sample.spyPrices [Sample.depositOf "2023-01-02" 2000]
            [("AAPL"%string, [Sample.split2for1])] = Ok points'
       /\ map benchmarkOf points = map benchmarkOf points'.
Proof.
  assert (Ht : sampleTrades <> []) by discriminate.
  assert (Ht' : [Sample.trade "MSFT" "2023-01-10" 3 250 buy] <> [])
    by discriminate.
  assert (Hdep : useDepositBasis [Sample.depositOf "2023-01-02" 2000] = true)
    by reflexivity.
  assert (Hcash : useCashFlowBasis [Sample.depositOf "2023-01-02" 2000] = true)
    by reflexivity.
  split; [exact Ht|]. split; [exact Ht'|]. split; [exact Hdep|].
  split; [exact Hcash|].
  exact (benchmark_ignores_trades sampleTrades
           [Sample.trade "MSFT" "2023-01-10" 3 250 buy]
           [("AAPL"%string, Sample.aaplPrices)] [] Sample.spyPrices
           [Sample.depositOf "2023-01-02" 2000] []
           [("AAPL"%string, [Sample.split2for1])] Ht Ht' Hdep Hcash).
Defined.

(** ** Holdings without prices *)

Lemma allEmpty_dgetOrEmpty (stockPrices : dict (list StockPrice.t)) k :
  Forall (fun entry => snd entry = []) stockPrices ->
  dgetOrEmpty stockPrices k = [].
Proof.
  intros H. unfold dgetOrEmpty.
  destruct (dget stockPrices k) as [series|] eqn:G; [|reflexivity].
  apply (dictAll_dget (fun series => series = []) _ _ _ H G).
Qed.

Lemma allEmpty_priceMaps trades stockPrices spyPrices cashFlows splits :
  Forall (fun entry => snd entry = []) stockPrices ->
  dictAll (fun priceMap => priceMap = [])
    (priceMaps (prepared trades stockPrices spyPrices cashFlows splits)).
Proof.
  intros H. cbn [prepared priceMaps].
  apply (dictAll_fold_dset (fun priceMap : dict number => priceMap = []) fst
           (fun entry : string * list StockPrice.t =>
              buildUnadjustedPriceMap (snd entry)
                (dgetOrEmpty splits (fst entry)))).
  - intros entry Hin. rewrite Forall_forall in H. rewrite (H entry Hin).
    reflexivity.
  - constructor.
Qed.

(** Shares at the price [0] add [0] to the value, or make it [NaN] when
    the share count is infinite or [NaN]. *)
Lemma add_shares_at_zero acc shares :
  acc = Num.zero \/ acc = NaN ->
  Num.add acc (Num.mul shares Num.zero) = Num.zero
  \/ Num.add acc (Num.mul shares Num.zero) = NaN.
Proof.
  intros [-> | ->]; [|right; reflexivity].
  destruct shares as [x| | |]; [left | right; reflexivity..].
  unfold Num.zero, Num.ofZ. cbn [Num.mul Num.add]. f_equal.
  rewrite Qc_zero. change (Q2Qc 0%Q) with 0%Qc. ring.
Qed.

Lemma unpriced_holdings trades stockPrices spyPrices cashFlows splits d
  holdings :
  Forall (fun entry => snd entry = []) stockPrices ->
  forall pv, pv = Num.zero \/ pv = NaN ->
  fold_left
    (tickerValue (prepared trades stockPrices spyPrices cashFlows splits)
       stockPrices splits d)
    holdings pv = Num.zero
  \/ fold_left
       (tickerValue (prepared trades stockPrices spyPrices cashFlows splits)
          stockPrices splits d)
       holdings pv = NaN.
Proof.
  intros Hempty. induction holdings as [|entry rest IH]; intros pv Hpv;
    [exact Hpv|].
  cbn [fold_left]. apply IH. unfold tickerValue.
  destruct (Num.leb (snd entry) Num.zero); [exact Hpv|].
  rewrite (allEmpty_dgetOrEmpty _ _ Hempty).
  assert (M : match dget (priceMaps
                           (prepared trades stockPrices spyPrices cashFlows
                              splits)) (fst entry) with
              | Some priceMap => dget priceMap d
              | None => None
              end = None).
  { destruct (dget _ (fst entry)) as [priceMap|] eqn:G; [|reflexivity].
    rewrite (dictAll_dget (fun priceMap : dict number => priceMap = [])
               _ _ _ (allEmpty_priceMaps trades _ spyPrices cashFlows splits
                        Hempty) G).
    reflexivity. }
  rewrite M. apply add_shares_at_zero, Hpv.
Qed.

Lemma unpriced_trace trades stockPrices allSpyPrices cashFlows splits
  spyPrices :
  Forall (fun entry => snd entry = []) stockPrices ->
  forall st,
  Forall (fun r => portfolioValue (snd r) = Num.zero
                   \/ portfolioValue (snd r) = NaN)
    (traceOf (prepared trades stockPrices allSpyPrices cashFlows splits)
       stockPrices splits spyPrices st).
Proof.
  intros Hempty.
  induction spyPrices as [|day rest IH]; intros st; cbn [traceOf];
    [constructor|].
  constructor; [|apply IH].
  unfold dayStep. cbn [snd dayLocalsOf portfolioValue].
  apply unpriced_holdings; [exact Hempty | left; reflexivity].
Qed.

Lemma round2_total_loss costBasis :
  finite costBasis -> Num.gtb costBasis Num.zero = true ->
  round2 (returnPct Num.zero costBasis) = Num.ofZ (-100).
Proof.
  destruct costBasis as [c| | |]; try discriminate. intros _ Hpos.
  assert (Hc : c <> 0%Qc).
  { intros ->. discriminate Hpos. }
  assert (Hsign : Num.sign c = Gt).
  { unfold Num.gtb, Num.zero, Num.ofZ in Hpos. cbn [Num.ltb] in Hpos.
    rewrite Qc_zero in Hpos. unfold Num.sign.
    assert (L : Qclt (Q2Qc 0%Q) c).
    { apply Qclt_alt. destruct (Qccompare (Q2Qc 0%Q) c); try discriminate.
      reflexivity. }
    apply Qcgt_alt. exact L. }
  unfold returnPct, Num.sub, Num.zero, Num.hundred, Num.ofZ.
  cbn [Num.neg Num.add Num.div]. rewrite Hsign. cbn [Num.mul].
  assert (E : Qcdiv (Qcplus (Q2Qc (inject_Z 0)) (Qcopp c)) c = Qcopp 1%Qc).
  { rewrite Qc_zero. change (Q2Qc 0%Q) with 0%Qc. field. exact Hc. }
  rewrite E. apply number_eqb_eq. reflexivity.
Qed.

(** The point of a day whose holdings have no price. *)
Lemma totalLoss_dataPointOf d :
  portfolioValue d = Num.zero \/ portfolioValue d = NaN ->
  emitted d = true -> totalLoss (dataPointOf d).
Proof.
  unfold emitted, totalLoss, dataPointOf.
  cbn [PortfolioDataPoint.portfolioValue PortfolioDataPoint.portfolioReturn
       PortfolioDataPoint.costBasis].
  intros [-> | ->] Hem.
  - rewrite round2_zero.
    destruct (costBasis d) as [c| | |] eqn:E; try discriminate Hem.
    + rewrite (round2_total_loss (Fin c) eq_refl Hem).
      split; [left; reflexivity|]. split; [left; reflexivity|].
      intros _ _. reflexivity.
    + split; [left; reflexivity|]. split; [right; reflexivity|].
      intros _ Hfin. discriminate Hfin.
  - split; [right; reflexivity|]. split; [right; reflexivity|].
    intros Hzero. discriminate Hzero.
Qed.

(** X13 (holdings without prices).  When every price series is empty, as
    after failed fetches, the day loop values every holding at zero
    rather than skipping the day: every emitted point has portfolio value
    [0] and portfolio return [-100], unless a share count or the cost
    basis is infinite or [NaN], which makes the value or the return
    [NaN].  A point with portfolio value [0] and a finite cost basis has
    the return [-100]. *)
Theorem unpriced_holdings_are_worthless :
  forall (trades : list Trade.t) (stockPrices : dict (list StockPrice.t))
         (spyPrices : list StockPrice.t) (cashFlows : list CashFlow.t)
         (splits : dict (list StockSplit.t)),
    Forall (fun entry => snd entry = []) stockPrices ->
    ownTickers trades stockPrices ->
    exists points,
      calculatePortfolioTimeSeries trades stockPrices spyPrices cashFlows
        splits = Ok points
      /\ Forall totalLoss points.
Proof.
  intros trades stockPrices spyPrices cashFlows splits Hempty _.
  rewrite calculatePortfolioTimeSeries_Ok. eexists. split; [reflexivity|].
  destruct trades as [|t trades]; [constructor|].
  destruct spyPrices as [|day spyPrices]; [constructor|].
  apply Forall_forall. intros p Hp. unfold pointsOf in Hp.
  apply in_map_iff in Hp. destruct Hp as [d [<- Hd]].
  apply filter_In in Hd. destruct Hd as [Hd Hem].
  apply in_map_iff in Hd. destruct Hd as [r [<- Hr]].
  pose proof (unpriced_trace (t :: trades) stockPrices (day :: spyPrices)
                cashFlows splits (day :: spyPrices) Hempty initialState)
    as Htrace.
  rewrite Forall_forall in Htrace.
  apply totalLoss_dataPointOf; [apply Htrace, Hr | exact Hem].
Qed.

Lemma unpriced_holdings_are_worthless_witness :
  Forall (fun entry : string * list StockPrice.t => snd entry = [])
    [("AAPL"%string, [])]
  /\ ownTickers sampleTrades [("AAPL"%string, [])]
  /\ exists points,
       calculatePortfolioTimeSeries sampleTrades [("AAPL"%string, [])]
         Sample.spyPrices [Sample.depositOf "2023-01-02" 2000]
         [("AAPL"%string, [Sample.split2for1])] = Ok points
       /\ Forall totalLoss points.
Proof.
  assert (Hempty : Forall
                     (fun entry : string * list StockPrice.t => snd entry = [])
                     [("AAPL"%string, [])])
    by (repeat constructor).
  assert (Hown : ownTickers sampleTrades [("AAPL"%string, [])])
    by (split; repeat constructor).
  split; [exact Hempty|]. split; [exact Hown|].
  exact (unpriced_holdings_are_worthless sampleTrades [("AAPL"%string, [])]
           Sample.spyPrices [Sample.depositOf "2023-01-02" 2000]
           [("AAPL"%string, [Sample.split2for1])] Hempty Hown).
Defined.

(** ** Signs of the values of a point *)

Lemma le_ofZ_Fin (k : Z) (q : Qc) :
  Num.le (Num.ofZ k) (Fin q) <-> (inject_Z k <= q)%Q.
Proof.
  unfold Num.le, Num.ofZ. rewrite leb_Fin. unfold Qcle. cbn [this Q2Qc].
  rewrite Qred_correct. reflexivity.
Qed.

Lemma le_ofZ_ofZ (a b : Z) : Num.le (Num.ofZ a) (Num.ofZ b) <-> (a <= b)%Z.
Proof.
  unfold Num.ofZ at 2. rewrite le_ofZ_Fin. cbn [this Q2Qc].
  rewrite Qred_correct, <- Zle_Qle. reflexivity.
Qed.

(** Rounding to two decimals does not go below an integer bound. *)
Lemma round2_ge (k : Z) x :
  finite x -> Num.le (Num.ofZ k) x -> Num.le (Num.ofZ k) (round2 x).
Proof.
  destruct x as [q| | |]; try discriminate. intros _ Hle.
  apply le_ofZ_Fin in Hle.
  unfold round2, Num.roundTo, Num.hundred.
  unfold Num.ofZ at 1 2. cbn [Num.mul Num.Math_round].
  set (z := Qfloor (Qcmult q (Q2Qc (inject_Z 100)) + (1 # 2))%Q).
  assert (Hz : (100 * k <= z)%Z).
  { unfold z. rewrite <- (Qfloor_Z (100 * k)). apply Qfloor_resp_le.
    cbn [this Qcmult Q2Qc]. rewrite !Qred_correct.
    rewrite inject_Z_mult.
    apply Qle_trans with (y := (q * inject_Z 100)%Q).
    - rewrite Qmult_comm. apply Qmult_le_compat_r; [exact Hle|].
      discriminate.
    - rewrite <- (Qplus_0_r (q * inject_Z 100)) at 1.
      apply Qplus_le_r. discriminate. }
  clearbody z. unfold Num.ofZ, Num.div.
  assert (Hs : Num.sign (Q2Qc (inject_Z 100)) = Gt) by reflexivity.
  rewrite Hs. apply le_ofZ_Fin.
  cbn [this Qcdiv Qcmult Qcinv Q2Qc]. rewrite !Qred_correct.
  apply Qle_shift_div_l; [reflexivity|].
  rewrite <- inject_Z_mult. rewrite <- Zle_Qle. lia.
Qed.

Lemma nonneg_round2 x : nonneg x -> nonneg (round2 x).
Proof.
  intros [Hf Hle]. split; [apply finite_round2, Hf|].
  apply (round2_ge 0 x Hf Hle).
Qed.

Lemma nonneg_max_zero x : finite x -> nonneg (Num.Math_max Num.zero x).
Proof.
  intros Hx. destruct x as [q| | |]; try discriminate.
  unfold Num.Math_max, Num.zero, Num.ofZ.
  destruct (Num.ltb (Fin (Q2Qc (inject_Z 0))) (Fin q)) eqn:E.
  - split; [reflexivity|]. apply ltb_le, E.
  - apply nonneg_zero.
Qed.

Lemma positive_nonneg x : finite x -> Num.leb x Num.zero = false -> nonneg x.
Proof.
  intros Hx Hpos. split; [exact Hx|].
  destruct x as [q| | |]; try discriminate.
  unfold Num.le, Num.zero, Num.ofZ in *. apply leb_Fin.
  cbn [Num.leb] in Hpos.
  destruct (Qccompare q (Q2Qc (inject_Z 0))) eqn:E; try discriminate.
  apply Qclt_le_weak. apply (proj2 (Qcgt_alt q (Q2Qc (inject_Z 0)))). exact E.
Qed.

(** A value that is not negative is a return of at least -100 percent
    on a positive cost basis. *)
Lemma returnPct_ge value costBasis :
  nonneg value -> finite costBasis -> Num.gtb costBasis Num.zero = true ->
  Num.le (Num.ofZ (-100)) (returnPct value costBasis).
Proof.
  intros [Hv Hle] Hc Hpos.
  destruct value as [v| | |], costBasis as [c| | |]; try discriminate.
  assert (L : Qclt (Q2Qc 0%Q) c).
  { unfold Num.gtb, Num.zero, Num.ofZ in Hpos. cbn [Num.ltb] in Hpos.
    rewrite Qc_zero in Hpos. apply Qclt_alt.
    destruct (Qccompare (Q2Qc 0%Q) c); try discriminate. reflexivity. }
  assert (Hsign : Num.sign c = Gt) by (apply Qcgt_alt; exact L).
  assert (Hne : c <> 0%Qc).
  { intros ->. exact (Qclt_not_le _ _ L (Qcle_refl _)). }
  unfold Num.le, Num.zero, Num.ofZ in Hle. rewrite leb_Fin, Qc_zero in Hle.
  unfold returnPct, Num.sub, Num.hundred, Num.ofZ.
  cbn [Num.neg Num.add Num.div]. rewrite Hsign. cbn [Num.mul].
  unfold Num.le. rewrite leb_Fin.
  assert (E : Qcmult (Qcdiv (Qcplus v (Qcopp c)) c) (Q2Qc (inject_Z 100))
              = Qcplus (Qcmult (Qcdiv v c) (Q2Qc (inject_Z 100)))
                  (Q2Qc (inject_Z (-100)))).
  { assert (E100 : Q2Qc (inject_Z (-100)) = Qcopp (Q2Qc (inject_Z 100)))
      by (apply Qc_is_canon; reflexivity).
    rewrite E100. generalize (Q2Qc (inject_Z 100)). intros h.
    field. exact Hne. }
  rewrite E.
  rewrite <- (Qcplus_0_l (Q2Qc (inject_Z (-100)))) at 1.
  apply Qcplus_le_compat; [|apply Qcle_refl].
  assert (N : nonneg (Num.mul (Num.div (Fin v) (Fin c))
                        (Fin (Q2Qc (inject_Z 100))))).
  { apply nonneg_mul; [|split; reflexivity].
    apply nonneg_div.
    - split; [reflexivity|]. unfold Num.le, Num.zero, Num.ofZ.
      rewrite leb_Fin, Qc_zero. exact Hle.
    - split; [reflexivity|]. unfold Num.le, Num.zero, Num.ofZ.
      rewrite leb_Fin, Qc_zero. apply Qclt_le_weak, L.
    - cbn [Num.truthy]. rewrite Hsign. reflexivity. }
  destruct N as [_ N]. cbn [Num.div] in N. rewrite Hsign in N.
  cbn [Num.mul] in N. unfold Num.le, Num.zero, Num.ofZ in N.
  rewrite leb_Fin, Qc_zero in N. exact N.
Qed.

Lemma nonneg_one : nonneg Num.one.
Proof. split; reflexivity. Qed.

Lemma nonneg_getSplitAdjustmentFactor splits priceDate :
  Forall wellFormedSplit splits ->
  nonneg (getSplitAdjustmentFactor splits priceDate).
Proof.
  unfold getSplitAdjustmentFactor. intros Hs.
  generalize nonneg_one. generalize Num.one.
  induction Hs as [|s rest Hs _ IH]; intros acc Hacc; cbn [fold_left];
    [exact Hacc|].
  apply IH. destruct (String.ltb priceDate (StockSplit.date s));
    [apply nonneg_mul; assumption | exact Hacc].
Qed.

Lemma nonneg_unadjusted splits p :
  Forall wellFormedSplit splits -> wellFormedPrice p ->
  nonneg (unadjusted splits p).
Proof.
  intros Hs Hp. unfold unadjusted. apply nonneg_mul; [exact Hp|].
  apply nonneg_getSplitAdjustmentFactor, Forall_Array_sort, Hs.
Qed.

Lemma nonneg_buildUnadjustedPriceMap prices splits :
  Forall wellFormedPrice prices -> Forall wellFormedSplit splits ->
  dictAll nonneg (buildUnadjustedPriceMap prices splits).
Proof.
  intros Hp Hs. unfold buildUnadjustedPriceMap, unadjustedMapFrom.
  apply (dictAll_fold_dset nonneg StockPrice.date (unadjusted splits));
    [|apply dictAll_nil].
  intros p Hin. apply nonneg_unadjusted; [exact Hs|].
  rewrite Forall_forall in Hp. apply Hp, Hin.
Qed.

Lemma nonneg_unadjustedOnOrBefore prices splits target :
  Forall wellFormedPrice prices -> Forall wellFormedSplit splits ->
  nonnegOpt (unadjustedOnOrBefore prices splits target).
Proof.
  intros Hp Hs.
  destruct (unadjustedOnOrBefore prices splits target) as [v|] eqn:E;
    [|exact I].
  apply unadjustedOnOrBefore_In in E. destruct E as [p [Hin <-]].
  apply nonneg_unadjusted; [exact Hs|].
  rewrite Forall_forall in Hp. apply Hp, Hin.
Qed.

Lemma nonneg_priceMaps trades stockPrices spyPrices cashFlows splits :
  dictAll (Forall wellFormedPrice) stockPrices ->
  dictAll (Forall wellFormedSplit) splits ->
  dictAll (dictAll nonneg)
    (priceMaps (prepared trades stockPrices spyPrices cashFlows splits)).
Proof.
  intros Hsp Hsplits. cbn [prepared priceMaps].
  apply (dictAll_fold_dset (dictAll nonneg) fst
           (fun entry : string * list StockPrice.t =>
              buildUnadjustedPriceMap (snd entry)
                (dgetOrEmpty splits (fst entry))));
    [|apply dictAll_nil].
  intros entry Hin. apply nonneg_buildUnadjustedPriceMap.
  - unfold dictAll in Hsp. rewrite Forall_forall in Hsp. apply Hsp, Hin.
  - apply dgetOrEmpty_Forall, Hsplits.
Qed.

(** ** Values that are not below a bound *)

Lemma notBelow_le k x : Num.le k x -> notBelow k x.
Proof.
  intros Hle. unfold notBelow.
  destruct (Num.ltb x k) eqn:E; [|reflexivity].
  exfalso. exact (ltb_not_le _ _ E Hle).
Qed.

Lemma notBelow_nonneg x : nonneg x -> notBelow Num.zero x.
Proof. intros [_ Hle]. apply notBelow_le, Hle. Qed.

Lemma nonneg_notBelow q : notBelow Num.zero (Fin q) -> nonneg (Fin q).
Proof.
  intros H. split; [reflexivity|].
  apply not_ltb_le; [reflexivity | reflexivity | exact H].
Qed.

Lemma notBelow_add a b :
  notBelow Num.zero a -> notBelow Num.zero b ->
  notBelow Num.zero (Num.add a b).
Proof.
  destruct a as [x| | |], b as [y| | |]; intros Ha Hb;
    try discriminate Ha; try discriminate Hb; try reflexivity.
  apply notBelow_nonneg, nonneg_add; apply nonneg_notBelow; assumption.
Qed.

Lemma sign_notBelow x : notBelow Num.zero (Fin x) -> Num.sign x <> Lt.
Proof.
  unfold notBelow, Num.zero, Num.ofZ, Num.sign. cbn [Num.ltb].
  change (Q2Qc (inject_Z 0)) with (Q2Qc 0).
  intros H E. rewrite E in H. discriminate H.
Qed.

Lemma notBelow_mul a b :
  notBelow Num.zero a -> notBelow Num.zero b ->
  notBelow Num.zero (Num.mul a b).
Proof.
  destruct a as [x| | |], b as [y| | |]; intros Ha Hb;
    try discriminate Ha; try discriminate Hb; try reflexivity.
  - apply notBelow_nonneg, nonneg_mul; apply nonneg_notBelow; assumption.
  - cbn [Num.mul]. pose proof (sign_notBelow _ Ha) as Hs.
    destruct (Num.sign x); [reflexivity | contradiction | reflexivity].
  - cbn [Num.mul]. pose proof (sign_notBelow _ Hb) as Hs.
    destruct (Num.sign y); [reflexivity | contradiction | reflexivity].
Qed.

Lemma notBelow_max_zero x : notBelow Num.zero (Num.Math_max Num.zero x).
Proof.
  destruct x as [q| | |]; try reflexivity.
  apply notBelow_nonneg, nonneg_max_zero. reflexivity.
Qed.

(** A share count that passes the test [shares <= 0]. *)
Lemma notBelow_held x : Num.leb x Num.zero = false -> notBelow Num.zero x.
Proof.
  destruct x as [q| | |]; intros H; try discriminate H; try reflexivity.
  apply notBelow_nonneg, positive_nonneg; [reflexivity | exact H].
Qed.

Lemma notBelow_above x : Num.gtb x Num.zero = true -> notBelow Num.zero x.
Proof.
  destruct x as [q| | |]; intros H; try discriminate H; try reflexivity.
  apply notBelow_le, ltb_le, H.
Qed.

Lemma notBelow_round2 x : notBelow Num.zero x -> notBelow Num.zero (round2 x).
Proof.
  destruct x as [q| | |]; intros H; try discriminate H; try reflexivity.
  apply notBelow_nonneg, nonneg_round2, nonneg_notBelow, H.
Qed.

(** On a cost basis above [0], the return of a value that is not below
    [0] is not below [-100]. *)
Lemma notBelow_return value costBasis :
  notBelow Num.zero value -> Num.gtb costBasis Num.zero = true ->
  notBelow (Num.ofZ (-100)) (round2 (returnPct value costBasis)).
Proof.
  intros Hv Hpos.
  destruct costBasis as [c| | |]; try discriminate Hpos.
  - assert (Hsign : Num.sign c = Gt).
    { unfold Num.gtb, Num.zero, Num.ofZ in Hpos. cbn [Num.ltb] in Hpos.
      rewrite Qc_zero in Hpos. unfold Num.sign. apply Qcgt_alt.
      apply Qclt_alt. destruct (Qccompare (Q2Qc 0%Q) c); try discriminate.
      reflexivity. }
    destruct value as [v| | |]; try discriminate Hv.
    + apply notBelow_le, round2_ge.
      * apply finite_returnPct; [reflexivity | reflexivity | exact Hpos].
      * apply returnPct_ge; [apply nonneg_notBelow, Hv | reflexivity
                            | exact Hpos].
    + unfold returnPct, Num.sub. cbn [Num.neg Num.add Num.div].
      rewrite Hsign. reflexivity.
    + reflexivity.
  - destruct value as [v| | |]; try discriminate Hv; reflexivity.
Qed.

Lemma notBelow_holdings trades stockPrices spyPrices cashFlows splits d
  holdings :
  dictAll (Forall wellFormedPrice) stockPrices ->
  dictAll (Forall wellFormedSplit) splits ->
  forall pv, notBelow Num.zero pv ->
  notBelow Num.zero
    (fold_left
       (tickerValue
          (prepared trades stockPrices spyPrices cashFlows splits)
          stockPrices splits d)
       holdings pv).
Proof.
  intros Hsp Hsplits.
  induction holdings as [|entry rest IH]; intros pv Hpv; cbn [fold_left];
    [exact Hpv|].
  apply IH. unfold tickerValue.
  destruct (Num.leb (snd entry) Num.zero) eqn:Hpos; [exact Hpv|].
  apply notBelow_add; [exact Hpv|].
  apply notBelow_mul; [apply notBelow_held, Hpos|].
  apply notBelow_nonneg.
  pose proof (nonneg_priceMaps trades stockPrices spyPrices cashFlows splits
                Hsp Hsplits) as Hmaps.
  assert (Hfallback :
            nonneg (Num.orElse
                      (unadjustedOnOrBefore
                         (dgetOrEmpty stockPrices (fst entry))
                         (dgetOrEmpty splits (fst entry)) d) Num.zero)).
  { apply nonneg_orElse. apply nonneg_unadjustedOnOrBefore;
      apply dgetOrEmpty_Forall; assumption. }
  destruct (dget (priceMaps _) (fst entry)) as [priceMap|] eqn:G;
    [|exact Hfallback].
  pose proof (dictAll_dget _ _ _ _ Hmaps G) as Hmap.
  destruct (dget priceMap d) as [v|] eqn:Gd; [|exact Hfallback].
  apply (dictAll_dget _ _ _ _ Hmap Gd).
Qed.

Lemma notBelow_trace trades stockPrices allSpyPrices cashFlows splits
  spyPrices :
  dictAll (Forall wellFormedPrice) stockPrices ->
  dictAll (Forall wellFormedSplit) splits ->
  Forall wellFormedPrice spyPrices ->
  forall st,
  Forall (fun r => notBelow Num.zero (portfolioValue (snd r))
                   /\ notBelow Num.zero (counterfactualValue (snd r)))
    (traceOf (prepared trades stockPrices allSpyPrices cashFlows splits)
       stockPrices splits spyPrices st).
Proof.
  intros Hsp Hsplits Hspy.
  induction Hspy as [|day rest Hday _ IH]; intros st; cbn [traceOf];
    [constructor|].
  constructor; [|apply IH].
  unfold dayStep. cbn [snd dayLocalsOf portfolioValue counterfactualValue].
  split.
  - apply notBelow_holdings; [exact Hsp | exact Hsplits | reflexivity].
  - apply notBelow_mul; [apply notBelow_max_zero|].
    apply notBelow_nonneg, Hday.
Qed.

(** X14 (signs of a point).  When the stock prices, the index prices and
    the split factors are finite and not negative, no emitted point has
    a portfolio value, a counterfactual value or a cost basis below [0],
    and neither return is below [-100] percent, whatever the trades and
    the cash flows.  Share counts that are zero or negative (oversold
    positions) do not contribute.  A field can be [Infinity] or [NaN]
    when a share count or the cost basis is. *)
Theorem points_are_never_below :
  forall (trades : list Trade.t) (stockPrices : dict (list StockPrice.t))
         (spyPrices : list StockPrice.t) (cashFlows : list CashFlow.t)
         (splits : dict (list StockSplit.t)),
    ownTickers trades stockPrices ->
    dictAll (Forall wellFormedPrice) stockPrices ->
    Forall wellFormedPrice spyPrices ->
    dictAll (Forall wellFormedSplit) splits ->
    exists points,
      calculatePortfolioTimeSeries trades stockPrices spyPrices cashFlows
        splits = Ok points
      /\ Forall neverBelow points.
Proof.
  intros trades stockPrices spyPrices cashFlows splits _ Hsp Hspy Hsplits.
  rewrite calculatePortfolioTimeSeries_Ok. eexists. split; [reflexivity|].
  destruct trades as [|t trades]; [constructor|].
  destruct spyPrices as [|day spyPrices]; [constructor|].
  pose proof (notBelow_trace (t :: trades) stockPrices (day :: spyPrices)
                cashFlows splits (day :: spyPrices) Hsp Hsplits Hspy
                initialState) as Htrace.
  apply Forall_forall. intros p Hp. unfold pointsOf in Hp.
  apply in_map_iff in Hp. destruct Hp as [d [<- Hd]].
  apply filter_In in Hd. destruct Hd as [Hd Hem].
  apply in_map_iff in Hd. destruct Hd as [r [<- Hr]].
  rewrite Forall_forall in Htrace.
  destruct (Htrace r Hr) as [Hpv Hcv].
  unfold emitted in Hem. unfold neverBelow, dataPointOf.
  cbn [PortfolioDataPoint.portfolioValue PortfolioDataPoint.counterfactualValue
       PortfolioDataPoint.costBasis PortfolioDataPoint.portfolioReturn
       PortfolioDataPoint.counterfactualReturn].
  split; [apply notBelow_round2, Hpv|].
  split; [apply notBelow_round2, Hcv|].
  split; [apply notBelow_round2, notBelow_above, Hem|].
  split; apply notBelow_return; assumption.
Qed.

Lemma points_are_never_below_witness :
  ownTickers sampleTrades [("AAPL"%string, Sample.aaplPrices)]
  /\ dictAll (Forall wellFormedPrice) [("AAPL"%string, Sample.aaplPrices)]
  /\ Forall wellFormedPrice Sample.spyPrices
  /\ dictAll (Forall wellFormedSplit) [("AAPL"%string, [Sample.split2for1])]
  /\ exists points,
       calculatePortfolioTimeSeries sampleTrades
         [("AAPL"%string, Sample.aaplPrices)] Sample.spyPrices
         [Sample.depositOf "2023-01-02" 2000]
         [("AAPL"%string, [Sample.split2for1])] = Ok points
       /\ Forall neverBelow points.
Proof.
  assert (Hown : ownTickers sampleTrades
                   [("AAPL"%string, Sample.aaplPrices)])
    by (split; repeat constructor).
  assert (Hsp : dictAll (Forall wellFormedPrice)
                  [("AAPL"%string, Sample.aaplPrices)])
    by (repeat constructor).
  assert (Hspy : Forall wellFormedPrice Sample.spyPrices)
    by (repeat constructor).
  assert (Hsplits : dictAll (Forall wellFormedSplit)
                      [("AAPL"%string, [Sample.split2for1])])
    by (repeat constructor).
  split; [exact Hown|]. split; [exact Hsp|]. split; [exact Hspy|].
  split; [exact Hsplits|].
  exact (points_are_never_below sampleTrades
           [("AAPL"%string, Sample.aaplPrices)] Sample.spyPrices
           [Sample.depositOf "2023-01-02" 2000]
           [("AAPL"%string, [Sample.split2for1])] Hown Hsp Hspy Hsplits).
Defined.

(* ================================================================== *)
(** * Properties of the CSV tokenizers *)
(* ================================================================== *)

(** ** Strings *)

Lemma append_nil_r (s : string) : (s ++ EmptyString)%string = s.
Proof. induction s as [|c s IH]; cbn [String.append]; [|rewrite IH]; reflexivity. Qed.

Lemma append_assoc (a b c : string) :
  ((a ++ b) ++ c)%string = (a ++ (b ++ c))%string.
Proof.
  induction a as [|x a IH]; cbn [String.append]; [|rewrite IH]; reflexivity.
Qed.

Lemma push_append (s : string) (c : ascii) (t : string) :
  (Text.push s c ++ t)%string = (s ++ String c t)%string.
Proof. unfold Text.push. rewrite append_assoc. reflexivity. Qed.

Lemma includesChar_append c (a b : string) :
  Text.includesChar c (a ++ b)
  = Text.includesChar c a || Text.includesChar c b.
Proof.
  induction a as [|x a IH]; cbn [String.append Text.includesChar];
    [reflexivity|].
  rewrite IH, orb_assoc. reflexivity.
Qed.

Lemma includesChar_trimStart c s :
  Text.includesChar c s = false ->
  Text.includesChar c (Text.trimStart s) = false.
Proof.
  induction s as [|x s IH]; cbn [Text.trimStart Text.includesChar];
    [reflexivity|].
  intros H. apply orb_false_iff in H. destruct H as [Hx Hs].
  destruct (Text.isSpace x); [apply IH, Hs|].
  cbn [Text.includesChar]. rewrite Hx, Hs. reflexivity.
Qed.

Lemma includesChar_trimEnd c s :
  Text.includesChar c s = false ->
  Text.includesChar c (Text.trimEnd s) = false.
Proof.
  induction s as [|x s IH]; cbn [Text.trimEnd Text.includesChar];
    [reflexivity|].
  intros H. apply orb_false_iff in H. destruct H as [Hx Hs].
  specialize (IH Hs).
  destruct (Text.trimEnd s) as [|y kept].
  - destruct (Text.isSpace x); [reflexivity|].
    cbn [Text.includesChar]. rewrite Hx. reflexivity.
  - cbn [Text.includesChar] in *. rewrite Hx, IH. reflexivity.
Qed.

Lemma includesChar_trim c s :
  Text.includesChar c s = false -> Text.includesChar c (Text.trim s) = false.
Proof.
  intros H. unfold Text.trim.
  apply includesChar_trimEnd, includesChar_trimStart, H.
Qed.

Lemma trimEnd_idem s : Text.trimEnd (Text.trimEnd s) = Text.trimEnd s.
Proof.
  induction s as [|x s IH]; [reflexivity|]. cbn [Text.trimEnd].
  destruct (Text.trimEnd s) as [|y kept] eqn:E.
  - destruct (Text.isSpace x) eqn:Hx; [reflexivity|].
    cbn [Text.trimEnd]. rewrite Hx. reflexivity.
  - cbn [Text.trimEnd] in *. rewrite IH. reflexivity.
Qed.

(** A string that does not start with a space keeps its first character
    when its end is trimmed. *)
Lemma trimStart_trimEnd s :
  Text.trimStart s = s -> Text.trimStart (Text.trimEnd s) = Text.trimEnd s.
Proof.
  destruct s as [|x s]; [reflexivity|]. cbn [Text.trimStart Text.trimEnd].
  destruct (Text.isSpace x) eqn:Hx.
  - intros H. exfalso.
    assert (L : (String.length (Text.trimStart s) <= String.length s)%nat).
    { clear. induction s as [|y s IH]; cbn [Text.trimStart String.length];
        [apply le_n|].
      destruct (Text.isSpace y); cbn [String.length]; lia. }
    rewrite H in L. cbn [String.length] in L. lia.
  - intros _. destruct (Text.trimEnd s) as [|y kept];
      cbn [Text.trimStart]; rewrite Hx; reflexivity.
Qed.

Lemma trimStart_idem s : Text.trimStart (Text.trimStart s) = Text.trimStart s.
Proof.
  induction s as [|x s IH]; [reflexivity|]. cbn [Text.trimStart].
  destruct (Text.isSpace x) eqn:Hx; [exact IH|].
  cbn [Text.trimStart]. rewrite Hx. reflexivity.
Qed.

Lemma trim_idem s : Text.trim (Text.trim s) = Text.trim s.
Proof.
  unfold Text.trim.
  rewrite (trimStart_trimEnd _ (trimStart_idem s)). apply trimEnd_idem.
Qed.

(** ** [parseCSVLine] *)

(** The loop copies a stretch of text that holds no double quote, and no
    comma outside quotes. *)
Lemma parseCSVLineLoop_copy f : forall rest values current inQuotes,
  Text.includesChar Text.dquote f = false ->
  (inQuotes = false -> Text.includesChar Text.comma f = false) ->
  parseCSVLineLoop (f ++ rest) values current inQuotes
  = parseCSVLineLoop rest values (current ++ f) inQuotes.
Proof.
  induction f as [|c f IH]; intros rest values current inQuotes Hq Hc.
  - cbn [String.append]. rewrite append_nil_r. reflexivity.
  - cbn [String.append parseCSVLineLoop].
    cbn [Text.includesChar] in Hq. apply orb_false_iff in Hq.
    destruct Hq as [Hcq Hq]. rewrite Hcq.
    assert (Hcomma : Ascii.eqb c Text.comma && negb inQuotes = false).
    { destruct inQuotes; [apply andb_false_r|].
      specialize (Hc eq_refl). cbn [Text.includesChar] in Hc.
      apply orb_false_iff in Hc. rewrite (proj1 Hc). reflexivity. }
    rewrite Hcomma. rewrite IH; [|exact Hq|].
    + rewrite push_append. reflexivity.
    + intros E. specialize (Hc E). cbn [Text.includesChar] in Hc.
      apply orb_false_iff in Hc. apply Hc.
Qed.

Lemma dquote_eqb : Ascii.eqb Text.dquote Text.dquote = true.
Proof. reflexivity. Qed.

Lemma parseCSVLineLoop_cell cell rest values current :
  plainCell cell ->
  parseCSVLineLoop (renderCell cell ++ rest) values current false
  = parseCSVLineLoop rest values (current ++ snd cell) false.
Proof.
  destruct cell as [[|] f]; intros [Hq Hc]; cbn [fst snd] in *;
    unfold renderCell; cbn [fst snd].
  - unfold quoted. cbn [String.append parseCSVLineLoop].
    rewrite dquote_eqb. cbn [negb]. rewrite append_assoc.
    rewrite parseCSVLineLoop_copy; [|exact Hq|discriminate].
    cbn [String.append parseCSVLineLoop]. rewrite dquote_eqb. reflexivity.
  - apply parseCSVLineLoop_copy; [exact Hq|]. intros _. apply Hc, eq_refl.
Qed.

Lemma parseCSVLineLoop_cells cells : forall cell values,
  Forall plainCell (cell :: cells) ->
  parseCSVLineLoop (String.concat "," (map renderCell (cell :: cells)))
    values EmptyString false
  = values ++ map (fun c => Text.trim (snd c)) (cell :: cells).
Proof.
  induction cells as [|next cells IH]; intros cell values Hcells;
    inversion Hcells as [|? ? Hcell Hrest]; subst.
  - cbn [map String.concat].
    rewrite <- (append_nil_r (renderCell cell)).
    rewrite (parseCSVLineLoop_cell _ _ _ _ Hcell). reflexivity.
  - change (String.concat "," (map renderCell (cell :: next :: cells)))
      with (renderCell cell
            ++ String Text.comma
                 (String.concat "," (map renderCell (next :: cells))))%string.
    rewrite (parseCSVLineLoop_cell _ _ _ _ Hcell).
    cbn [parseCSVLineLoop String.append].
    change (Ascii.eqb Text.comma Text.dquote) with false.
    change (Ascii.eqb Text.comma Text.comma && negb false) with true.
    cbv iota. rewrite (IH next _ Hrest).
    rewrite <- app_assoc. reflexivity.
Qed.

(** X15 (a line read back).  [parseCSVLine] reads back the cells of a
    line written with commas between them: the result is the list of
    the fields, each trimmed, when no field holds a double quote and
    every field that holds a comma is written in double quotes. *)
Theorem parseCSVLine_reads_cells :
  forall (cell : bool * string) (cells : list (bool * string)),
    Forall plainCell (cell :: cells) ->
    parseCSVLine (String.concat "," (map renderCell (cell :: cells)))
    = map (fun c => Text.trim (snd c)) (cell :: cells).
Proof.
  intros cell cells H. unfold parseCSVLine.
  apply (parseCSVLineLoop_cells cells cell [] H).
Qed.

Lemma parseCSVLine_reads_cells_witness :
  Forall plainCell
    [(false, "AAPL"%string); (true, "Apple, Inc."%string);
     (false, " 10 "%string)]
  /\ parseCSVLine
       (String.concat ","
          (map renderCell
             [(false, "AAPL"%string); (true, "Apple, Inc."%string);
              (false, " 10 "%string)]))
     = ["AAPL"%string; "Apple, Inc."%string; "10"%string].
Proof.
  assert (H : Forall plainCell
                [(false, "AAPL"%string); (true, "Apple, Inc."%string);
                 (false, " 10 "%string)]).
  { repeat constructor; discriminate. }
  split; [exact H|].
  exact (parseCSVLine_reads_cells (false, "AAPL"%string)
           [(true, "Apple, Inc."%string); (false, " 10 "%string)] H).
Defined.

Lemma cleanValue_trim current :
  Text.includesChar Text.dquote current = false ->
  cleanValue (Text.trim current).
Proof.
  intros H. split; [apply trim_idem | apply includesChar_trim, H].
Qed.

Lemma includesChar_push c s x :
  Text.includesChar c (Text.push s x)
  = Text.includesChar c s || Ascii.eqb x c.
Proof.
  unfold Text.push. rewrite includesChar_append.
  cbn [Text.includesChar]. rewrite orb_false_r. reflexivity.
Qed.

Lemma parseCSVLineLoop_clean line : forall values current inQuotes,
  Forall cleanValue values ->
  Text.includesChar Text.dquote current = false ->
  Forall cleanValue (parseCSVLineLoop line values current inQuotes).
Proof.
  induction line as [|c line IH]; intros values current inQuotes Hv Hc;
    cbn [parseCSVLineLoop].
  - apply Forall_app. split; [exact Hv|].
    constructor; [apply cleanValue_trim, Hc | constructor].
  - destruct (Ascii.eqb c Text.dquote) eqn:Eq; [apply IH; assumption|].
    destruct (Ascii.eqb c Text.comma && negb inQuotes).
    + apply IH; [|reflexivity].
      apply Forall_app. split; [exact Hv|].
      constructor; [apply cleanValue_trim, Hc | constructor].
    + apply IH; [exact Hv|]. rewrite includesChar_push, Hc, Eq. reflexivity.
Qed.

Lemma parseCSVLineLoop_length line : forall values current,
  Text.includesChar Text.dquote line = false ->
  List.length (parseCSVLineLoop line values current false)
  = (List.length values + 1 + countChar Text.comma line)%nat.
Proof.
  induction line as [|c line IH]; intros values current Hq;
    cbn [parseCSVLineLoop countChar].
  - rewrite length_app. cbn [List.length]. lia.
  - cbn [Text.includesChar] in Hq. apply orb_false_iff in Hq.
    destruct Hq as [Hc Hq]. rewrite Hc. cbn [negb]. rewrite andb_true_r.
    destruct (Ascii.eqb c Text.comma).
    + rewrite (IH _ _ Hq), length_app. cbn [List.length]. lia.
    + rewrite (IH _ _ Hq). lia.
Qed.

Lemma parseCSVLineLoop_nonempty line : forall values current inQuotes,
  parseCSVLineLoop line values current inQuotes <> [].
Proof.
  induction line as [|c line IH]; intros values current inQuotes;
    cbn [parseCSVLineLoop].
  - destruct values; discriminate.
  - destruct (Ascii.eqb c Text.dquote); [apply IH|].
    destruct (Ascii.eqb c Text.comma && negb inQuotes); apply IH.
Qed.

(** X16 (the values of a line).  [parseCSVLine] returns at least one
    value for every line, the empty line included.  Every value is
    trimmed and holds no double quote: quotes are dropped, doubled ones
    too.  On a line without double quotes there is one value more than
    there are commas. *)
Theorem parseCSVLine_values :
  forall line : string,
    parseCSVLine line <> []
    /\ Forall cleanValue (parseCSVLine line)
    /\ (Text.includesChar Text.dquote line = false ->
        List.length (parseCSVLine line)
        = (1 + countChar Text.comma line)%nat).
Proof.
  intros line. unfold parseCSVLine. split; [|split].
  - apply parseCSVLineLoop_nonempty.
  - apply parseCSVLineLoop_clean; [constructor | reflexivity].
  - intros H. rewrite (parseCSVLineLoop_length _ _ _ H). reflexivity.
Qed.

Lemma parseCSVLine_values_witness :
  Text.includesChar Text.dquote "ticker,date,shares,price" = false
  /\ List.length (parseCSVLine "ticker,date,shares,price") = 4%nat.
Proof.
  assert (H : Text.includesChar Text.dquote "ticker,date,shares,price" = false)
    by reflexivity.
  split; [exact H|].
  exact (proj2 (proj2 (parseCSVLine_values "ticker,date,shares,price")) H).
Defined.

(** ** [parseMultiLineCSV] *)

Lemma pushRow_clean rows currentRow currentField :
  Forall cleanRow rows ->
  Forall (fun f => Text.trim f = f) currentRow ->
  Forall cleanRow (pushRow rows (currentRow ++ [Text.trim currentField])).
Proof.
  intros Hrows Hrow. unfold pushRow.
  destruct (someNonEmpty (currentRow ++ [Text.trim currentField])) eqn:E;
    [|exact Hrows].
  apply Forall_app. split; [exact Hrows|]. constructor; [|constructor].
  split; [exact E|]. apply Forall_app. split; [exact Hrow|].
  constructor; [apply trim_idem | constructor].
Qed.

(** One step of the loop on a text of at least two characters. *)
Lemma multiLineLoop_two finish c n rest rows currentRow currentField inQuotes :
  multiLineLoop finish (String c (String n rest)) rows currentRow currentField
    inQuotes
  = if Ascii.eqb c Text.dquote then
      if inQuotes && Ascii.eqb n Text.dquote then
        multiLineLoop finish rest rows currentRow
          (Text.push currentField Text.dquote) inQuotes
      else multiLineLoop finish (String n rest) rows currentRow currentField
             (negb inQuotes)
    else if Ascii.eqb c Text.comma && negb inQuotes then
      multiLineLoop finish (String n rest) rows
        (currentRow ++ [finish currentField]) EmptyString inQuotes
    else if (Ascii.eqb c Text.LF
             || (Ascii.eqb c Text.CR && Ascii.eqb n Text.LF))
            && negb inQuotes then
      if Ascii.eqb c Text.CR
      then multiLineLoop finish rest
             (pushRow rows (currentRow ++ [finish currentField])) []
             EmptyString inQuotes
      else multiLineLoop finish (String n rest)
             (pushRow rows (currentRow ++ [finish currentField])) []
             EmptyString inQuotes
    else if negb (Ascii.eqb c Text.CR) then
      multiLineLoop finish (String n rest) rows currentRow
        (Text.push currentField c) inQuotes
    else multiLineLoop finish (String n rest) rows currentRow currentField
           inQuotes.
Proof. reflexivity. Qed.

(** The step of the loop on the last character of the text. *)
Lemma multiLineLoop_one finish c rows currentRow currentField inQuotes :
  multiLineLoop finish (String c EmptyString) rows currentRow currentField
    inQuotes
  = if Ascii.eqb c Text.dquote then
      multiLineLoop finish EmptyString rows currentRow currentField
        (negb inQuotes)
    else if Ascii.eqb c Text.comma && negb inQuotes then
      multiLineLoop finish EmptyString rows
        (currentRow ++ [finish currentField]) EmptyString inQuotes
    else if Ascii.eqb c Text.LF && negb inQuotes then
      multiLineLoop finish EmptyString
        (pushRow rows (currentRow ++ [finish currentField])) []
        EmptyString inQuotes
    else if negb (Ascii.eqb c Text.CR) then
      multiLineLoop finish EmptyString rows currentRow
        (Text.push currentField c) inQuotes
    else multiLineLoop finish EmptyString rows currentRow currentField
           inQuotes.
Proof.
  cbn [multiLineLoop]. rewrite andb_false_r, orb_false_r. reflexivity.
Qed.

Lemma multiLineLoop_end finish rows currentRow currentField inQuotes :
  multiLineLoop finish EmptyString rows currentRow currentField inQuotes
  = if Text.truthy currentField || (0 <? len currentRow)%Z
    then pushRow rows (currentRow ++ [finish currentField])
    else rows.
Proof. reflexivity. Qed.

Opaque multiLineLoop.

Lemma multiLineLoop_clean csvText :
  (forall rows currentRow currentField inQuotes,
     Forall cleanRow rows ->
     Forall (fun f => Text.trim f = f) currentRow ->
     Forall cleanRow
       (multiLineLoop Text.trim csvText rows currentRow currentField
          inQuotes))
  /\ (forall c rows currentRow currentField inQuotes,
        Forall cleanRow rows ->
        Forall (fun f => Text.trim f = f) currentRow ->
        Forall cleanRow
          (multiLineLoop Text.trim (String c csvText) rows currentRow
             currentField inQuotes)).
Proof.
  assert (Hpush : forall currentRow currentField,
             Forall (fun f => Text.trim f = f) currentRow ->
             Forall (fun f => Text.trim f = f)
               (currentRow ++ [Text.trim currentField])).
  { intros currentRow currentField Hrow.
    apply Forall_app. split; [exact Hrow|].
    constructor; [apply trim_idem | constructor]. }
  induction csvText as [|n rest [IH IHc]].
  - assert (H0 : forall rows currentRow currentField inQuotes,
               Forall cleanRow rows ->
               Forall (fun f => Text.trim f = f) currentRow ->
               Forall cleanRow
                 (multiLineLoop Text.trim EmptyString rows currentRow
                    currentField inQuotes)).
    { intros rows currentRow currentField inQuotes Hrows Hrow.
      rewrite multiLineLoop_end.
      destruct (Text.truthy currentField || (0 <? len currentRow)%Z);
        [apply pushRow_clean; assumption | exact Hrows]. }
    split; [exact H0|].
    intros c rows currentRow currentField inQuotes Hrows Hrow.
    rewrite multiLineLoop_one.
    destruct (Ascii.eqb c Text.dquote); [apply H0; assumption|].
    destruct (Ascii.eqb c Text.comma && negb inQuotes);
      [apply H0; auto|].
    destruct (Ascii.eqb c Text.LF && negb inQuotes).
    + apply H0; [apply pushRow_clean; assumption | constructor].
    + destruct (negb (Ascii.eqb c Text.CR)); apply H0; assumption.
  - split; [exact (IHc n)|].
    intros c rows currentRow currentField inQuotes Hrows Hrow.
    rewrite multiLineLoop_two.
    destruct (Ascii.eqb c Text.dquote).
    { destruct (inQuotes && Ascii.eqb n Text.dquote);
        [apply IH | apply IHc]; assumption. }
    destruct (Ascii.eqb c Text.comma && negb inQuotes);
      [apply IHc; auto|].
    destruct ((Ascii.eqb c Text.LF
               || Ascii.eqb c Text.CR && Ascii.eqb n Text.LF)
              && negb inQuotes).
    + destruct (Ascii.eqb c Text.CR);
        [apply IH | apply IHc];
        try (apply pushRow_clean; assumption); constructor.
    + destruct (negb (Ascii.eqb c Text.CR)); apply IHc; assumption.
Qed.

(** X17 (the rows of a file).  Every row [parseMultiLineCSV] returns has
    a field that is not empty, so blank lines and lines of commas and
    spaces are dropped, and every field of every row is trimmed. *)
Theorem parseMultiLineCSV_rows :
  forall csvText : string, Forall cleanRow (parseMultiLineCSV csvText).
Proof.
  intros csvText. unfold parseMultiLineCSV.
  apply (proj1 (multiLineLoop_clean csvText)); constructor.
Qed.

(** ** The two tokenizers on the lines of a file *)

Lemma splitOn_nonempty sep s : splitOn sep s <> [].
Proof.
  destruct s as [|c s]; cbn [splitOn]; [discriminate|].
  destruct (Ascii.eqb c sep); [discriminate|].
  destruct (splitOn sep s); discriminate.
Qed.

Lemma linesFrom_all text :
  linesFrom text [] EmptyString = map parseCSVLine (splitOn Text.LF text).
Proof.
  unfold linesFrom. destruct (splitOn Text.LF text) as [|first others] eqn:E;
    [exfalso; exact (splitOn_nonempty _ _ E)|].
  reflexivity.
Qed.

Lemma linesFrom_end values current :
  linesFrom EmptyString values current = [values ++ [Text.trim current]].
Proof. reflexivity. Qed.

Lemma linesFrom_LF text values current :
  linesFrom (String Text.LF text) values current
  = (values ++ [Text.trim current]) :: linesFrom text [] EmptyString.
Proof.
  rewrite linesFrom_all. unfold linesFrom. cbn [splitOn].
  change (Ascii.eqb Text.LF Text.LF) with true. cbv iota. reflexivity.
Qed.

Lemma linesFrom_comma text values current :
  linesFrom (String Text.comma text) values current
  = linesFrom text (values ++ [Text.trim current]) EmptyString.
Proof.
  unfold linesFrom. cbn [splitOn].
  change (Ascii.eqb Text.comma Text.LF) with false. cbv iota.
  destruct (splitOn Text.LF text) as [|first others] eqn:E;
    [exfalso; exact (splitOn_nonempty _ _ E)|].
  reflexivity.
Qed.

Lemma linesFrom_other c text values current :
  Ascii.eqb c Text.dquote = false -> Ascii.eqb c Text.comma = false ->
  Ascii.eqb c Text.LF = false ->
  linesFrom (String c text) values current
  = linesFrom text values (Text.push current c).
Proof.
  intros Hq Hc Hl. unfold linesFrom. cbn [splitOn]. rewrite Hl.
  destruct (splitOn Text.LF text) as [|first others] eqn:E;
    [exfalso; exact (splitOn_nonempty _ _ E)|].
  cbn [parseCSVLineLoop]. rewrite Hq, Hc. reflexivity.
Qed.

Lemma trimEnd_push_space s x :
  Text.isSpace x = true -> Text.trimEnd (Text.push s x) = Text.trimEnd s.
Proof.
  intros Hx. unfold Text.push.
  induction s as [|c s IH]; cbn [String.append Text.trimEnd].
  - rewrite Hx. reflexivity.
  - rewrite IH. reflexivity.
Qed.

Lemma trimStart_push_space s x :
  Text.isSpace x = true ->
  Text.trimStart (Text.push s x) = Text.trimStart s
  \/ Text.trimStart (Text.push s x) = Text.push (Text.trimStart s) x.
Proof.
  intros Hx. unfold Text.push.
  induction s as [|c s IH]; cbn [String.append Text.trimStart].
  - rewrite Hx. left. reflexivity.
  - destruct (Text.isSpace c); [exact IH|]. right. reflexivity.
Qed.

Lemma trim_push_space s x :
  Text.isSpace x = true -> Text.trim (Text.push s x) = Text.trim s.
Proof.
  intros Hx. unfold Text.trim.
  destruct (trimStart_push_space s x Hx) as [E | E]; rewrite E;
    [reflexivity | apply trimEnd_push_space, Hx].
Qed.

Lemma pushRow_filter rows row more :
  rows ++ filter someNonEmpty (row :: more)
  = pushRow rows row ++ filter someNonEmpty more.
Proof.
  unfold pushRow. cbn [filter].
  destruct (someNonEmpty row); [|reflexivity].
  rewrite <- app_assoc. reflexivity.
Qed.

Lemma multiLineLoop_lines text :
  (Text.includesChar Text.dquote text = false ->
   crOnlyBeforeLF text = true ->
   forall rows currentRow currentField,
     multiLineLoop Text.trim text rows currentRow currentField false
     = rows ++ filter someNonEmpty (linesFrom text currentRow currentField))
  /\ (forall c,
        Text.includesChar Text.dquote (String c text) = false ->
        crOnlyBeforeLF (String c text) = true ->
        forall rows currentRow currentField,
          multiLineLoop Text.trim (String c text) rows currentRow
            currentField false
          = rows
            ++ filter someNonEmpty
                 (linesFrom (String c text) currentRow currentField)).
Proof.
  induction text as [|n rest [IH IHc]].
  - assert (H0 : forall rows currentRow currentField,
               multiLineLoop Text.trim EmptyString rows currentRow
                 currentField false
               = rows ++ filter someNonEmpty
                           (linesFrom EmptyString currentRow currentField)).
    { intros rows currentRow currentField.
      rewrite multiLineLoop_end, linesFrom_end, pushRow_filter.
      cbn [filter]. rewrite app_nil_r.
      destruct (Text.truthy currentField || (0 <? len currentRow)%Z) eqn:E;
        [reflexivity|].
      apply orb_false_iff in E. destruct E as [Hf Hr].
      destruct currentRow as [|v currentRow];
        [|unfold len in Hr; cbn [List.length] in Hr;
          apply Z.ltb_ge in Hr; lia].
      unfold Text.truthy in Hf. apply negb_false_iff, String.eqb_eq in Hf.
      subst currentField. reflexivity. }
    split; [intros _ _; exact H0|].
    intros c Hq Hcr rows currentRow currentField.
    cbn [Text.includesChar] in Hq. rewrite orb_false_r in Hq.
    cbn [crOnlyBeforeLF] in Hcr. rewrite andb_true_r in Hcr.
    assert (Hncr : Ascii.eqb c Text.CR = false)
      by (destruct (Ascii.eqb c Text.CR); [discriminate | reflexivity]).
    rewrite multiLineLoop_one, Hq, Hncr. cbn [negb]. rewrite !andb_true_r.
    destruct (Ascii.eqb c Text.comma) eqn:Ec.
    { apply Ascii.eqb_eq in Ec. subst c. rewrite H0, linesFrom_comma.
      reflexivity. }
    destruct (Ascii.eqb c Text.LF) eqn:El.
    { apply Ascii.eqb_eq in El. subst c.
      rewrite H0, linesFrom_LF, pushRow_filter. reflexivity. }
    rewrite H0, (linesFrom_other _ _ _ _ Hq Ec El). reflexivity.
  - split.
    { intros Hq Hcr. apply (IHc n Hq Hcr). }
    intros c Hq Hcr rows currentRow currentField.
    assert (Hq' : Text.includesChar Text.dquote (String n rest) = false).
    { cbn [Text.includesChar] in Hq. apply orb_false_iff in Hq. apply Hq. }
    assert (Hcq : Ascii.eqb c Text.dquote = false).
    { cbn [Text.includesChar] in Hq. apply orb_false_iff in Hq. apply Hq. }
    assert (Hcr' : crOnlyBeforeLF (String n rest) = true).
    { change (crOnlyBeforeLF (String c (String n rest)))
        with ((if Ascii.eqb c Text.CR then Ascii.eqb n Text.LF else true)
              && crOnlyBeforeLF (String n rest)) in Hcr.
      apply andb_true_iff in Hcr. apply Hcr. }
    assert (Hnext : Ascii.eqb c Text.CR = true -> Ascii.eqb n Text.LF = true).
    { intros E.
      change (crOnlyBeforeLF (String c (String n rest)))
        with ((if Ascii.eqb c Text.CR then Ascii.eqb n Text.LF else true)
              && crOnlyBeforeLF (String n rest)) in Hcr.
      rewrite E in Hcr. apply andb_true_iff in Hcr. apply Hcr. }
    rewrite multiLineLoop_two, Hcq. cbn [negb]. rewrite !andb_true_r.
    destruct (Ascii.eqb c Text.comma) eqn:Ec.
    { apply Ascii.eqb_eq in Ec. subst c.
      rewrite (IHc n Hq' Hcr'), linesFrom_comma. reflexivity. }
    destruct (Ascii.eqb c Text.CR) eqn:Er.
    { apply Ascii.eqb_eq in Er. subst c.
      pose proof (Hnext eq_refl) as En. rewrite En.
      apply Ascii.eqb_eq in En. subst n.
      change (Ascii.eqb Text.CR Text.LF || true) with true. cbv iota.
      assert (Hqr : Text.includesChar Text.dquote rest = false).
      { cbn [Text.includesChar] in Hq'. apply orb_false_iff in Hq'.
        apply Hq'. }
      assert (Hcrr : crOnlyBeforeLF rest = true).
      { cbn [crOnlyBeforeLF] in Hcr'. apply andb_true_iff in Hcr'.
        apply Hcr'. }
      rewrite (IH Hqr Hcrr).
      rewrite (linesFrom_other Text.CR _ _ _ eq_refl eq_refl eq_refl).
      rewrite linesFrom_LF, pushRow_filter.
      rewrite (trim_push_space _ Text.CR eq_refl). reflexivity. }
    rewrite orb_false_r.
    destruct (Ascii.eqb c Text.LF) eqn:El.
    { apply Ascii.eqb_eq in El. subst c.
      rewrite (IHc n Hq' Hcr'), linesFrom_LF, pushRow_filter. reflexivity. }
    cbn [negb].
    rewrite (IHc n Hq' Hcr'), (linesFrom_other _ _ _ _ Hcq Ec El).
    reflexivity.
Qed.

(** X18 (the two tokenizers agree).  On a text without double quotes in
    which every carriage return is followed by a line feed,
    [parseMultiLineCSV] returns the rows [parseCSVLine] returns for the
    lines of the text (its pieces between line feeds), without the rows
    whose fields are all empty. *)
Theorem tokenizers_agree_on_lines :
  forall csvText : string,
    Text.includesChar Text.dquote csvText = false ->
    crOnlyBeforeLF csvText = true ->
    parseMultiLineCSV csvText
    = filter someNonEmpty (map parseCSVLine (splitOn Text.LF csvText)).
Proof.
  intros csvText Hq Hcr. unfold parseMultiLineCSV.
  rewrite (proj1 (multiLineLoop_lines csvText) Hq Hcr), linesFrom_all.
  reflexivity.
Qed.

Lemma tokenizers_agree_on_lines_witness :
  Text.includesChar Text.dquote sampleText = false
  /\ crOnlyBeforeLF sampleText = true
  /\ parseMultiLineCSV sampleText
     = filter someNonEmpty (map parseCSVLine (splitOn Text.LF sampleText)).
Proof.
  assert (Hq : Text.includesChar Text.dquote sampleText = false)
    by reflexivity.
  assert (Hcr : crOnlyBeforeLF sampleText = true) by reflexivity.
  split; [exact Hq|]. split; [exact Hcr|].
  exact (tokenizers_agree_on_lines sampleText Hq Hcr).
Defined.

(* ================================================================== *)
(** * Properties of [convertDateFormat] *)
(* ================================================================== *)

Lemma digit_not_slash c : Date.isDigit c = true -> Ascii.eqb c Text.slash = false.
Proof.
  intros H. destruct (Ascii.eqb_spec c Text.slash) as [-> | _];
    [discriminate H | reflexivity].
Qed.

Lemma digit_not_space c : Date.isDigit c = true -> Ascii.eqb c Text.space = false.
Proof.
  intros H. destruct (Ascii.eqb_spec c Text.space) as [-> | _];
    [discriminate H | reflexivity].
Qed.

Lemma digit_not_a c : Date.isDigit c = true -> Ascii.eqb c letterA = false.
Proof.
  intros H. destruct (Ascii.eqb_spec c letterA) as [-> | _];
    [discriminate H | reflexivity].
Qed.

(** ** Strings without a slash *)

Lemma digitsThenSlash_slash s r :
  digitsThenSlash s = Some r -> Text.includesChar Text.slash s = true.
Proof.
  unfold digitsThenSlash.
  destruct s as [|a [|b rest]]; try discriminate.
  destruct (Date.isDigit a); [|discriminate].
  cbn [Text.includesChar].
  destruct (Ascii.eqb b Text.slash) eqn:Eb;
    [intros _; rewrite orb_true_r; reflexivity|].
  destruct (Date.isDigit b); [|discriminate].
  destruct rest as [|c rest']; [discriminate|].
  destruct (Ascii.eqb c Text.slash) eqn:Ec; [|discriminate].
  intros _. cbn [Text.includesChar]. rewrite Ec, !orb_true_r. reflexivity.
Qed.

Lemma slashDate_slash s r :
  slashDate s = Some r -> Text.includesChar Text.slash s = true.
Proof.
  unfold slashDate. destruct (digitsThenSlash s) as [[month after]|] eqn:E;
    [|discriminate].
  intros _. apply (digitsThenSlash_slash _ _ E).
Qed.

Lemma afterPrefix_slash prefix : forall s r,
  afterPrefix prefix s = Some r ->
  Text.includesChar Text.slash r = true ->
  Text.includesChar Text.slash s = true.
Proof.
  induction prefix as [|p prefix IH]; intros s r; cbn [afterPrefix].
  - intros E. injection E as <-. auto.
  - destruct s as [|c s]; [discriminate|].
    destruct (Ascii.eqb c p); [|discriminate].
    intros E H. cbn [Text.includesChar]. rewrite (IH _ _ E H).
    apply orb_true_r.
Qed.

(** One unfolding of the search for the words [as of]. *)
Lemma asOfMatch_unfold s :
  asOfMatch s
  = match match afterPrefix "as of " s with
          | Some date =>
              match slashDate date with
              | Some (month, day, year, _) =>
                  Some (month ++ "/" ++ day ++ "/" ++ year)%string
              | None => None
              end
          | None => None
          end with
    | Some date => Some date
    | None => match s with
              | String _ rest => asOfMatch rest
              | EmptyString => None
              end
    end.
Proof. destruct s; reflexivity. Qed.

Lemma asOfMatch_slash s :
  Text.includesChar Text.slash s = false -> asOfMatch s = None.
Proof.
  induction s as [|c s IH]; intros H; rewrite asOfMatch_unfold.
  - reflexivity.
  - destruct (afterPrefix "as of " (String c s)) as [date|] eqn:E.
    + destruct (slashDate date) as [[[[m d] y] r]|] eqn:F.
      * pose proof (afterPrefix_slash _ _ _ E (slashDate_slash _ _ F)) as C.
        rewrite H in C. discriminate.
      * apply IH. cbn [Text.includesChar] in H.
        apply orb_false_iff in H. apply H.
    + apply IH. cbn [Text.includesChar] in H.
      apply orb_false_iff in H. apply H.
Qed.

Lemma beforeSpace_slash s :
  Text.includesChar Text.slash s = false ->
  Text.includesChar Text.slash (beforeSpace s) = false.
Proof.
  induction s as [|c s IH]; [reflexivity|]. cbn [Text.includesChar beforeSpace].
  intros H. apply orb_false_iff in H. destruct H as [Hc Hs].
  destruct (Ascii.eqb c Text.space); [reflexivity|].
  cbn [Text.includesChar]. rewrite Hc, (IH Hs). reflexivity.
Qed.

Lemma convertDateFormat_no_slash s :
  Text.includesChar Text.slash s = false -> convertDateFormat s = s.
Proof.
  intros H. unfold convertDateFormat. rewrite (asOfMatch_slash _ H).
  destruct (slashDate (beforeSpace s)) as [r|] eqn:E; [|reflexivity].
  apply slashDate_slash in E. rewrite (beforeSpace_slash _ H) in E.
  discriminate.
Qed.

(** ** The groups of a match *)

Lemma digitsThenSlash_groups s digits rest :
  digitsThenSlash s = Some (digits, rest) ->
  oneOrTwoDigits digits /\ s = (digits ++ String Text.slash rest)%string.
Proof.
  unfold digitsThenSlash, oneOrTwoDigits.
  destruct s as [|a [|b tail]]; try discriminate.
  destruct (Date.isDigit a) eqn:Ha; [|discriminate].
  destruct (Ascii.eqb_spec b Text.slash) as [-> | Hb].
  - intros E. injection E as <- <-. cbn [allDigits String.length].
    rewrite Ha. repeat split; auto.
  - destruct (Date.isDigit b) eqn:Hd; [|discriminate].
    destruct tail as [|c tail']; [discriminate|].
    destruct (Ascii.eqb_spec c Text.slash) as [-> | Hc]; [|discriminate].
    intros E. injection E as <- <-. cbn [allDigits String.length].
    rewrite Ha, Hd. repeat split; auto.
Qed.

Lemma fourDigits_groups s year rest :
  fourDigits s = Some (year, rest) ->
  fourDigitYear year /\ s = (year ++ rest)%string.
Proof.
  unfold fourDigits, fourDigitYear.
  destruct s as [|a [|b [|c [|d tail]]]]; try discriminate.
  destruct (Date.isDigit a && Date.isDigit b && Date.isDigit c
            && Date.isDigit d) eqn:H; [|discriminate].
  intros E. injection E as <- <-. cbn [allDigits String.length].
  apply andb_true_iff in H. destruct H as [H Hd].
  apply andb_true_iff in H. destruct H as [H Hc].
  apply andb_true_iff in H. destruct H as [Ha Hb].
  rewrite Ha, Hb, Hc, Hd. repeat split.
Qed.

Lemma slashDate_groups s month day year rest :
  slashDate s = Some (month, day, year, rest) ->
  oneOrTwoDigits month /\ oneOrTwoDigits day /\ fourDigitYear year
  /\ s = (slashForm month day year ++ rest)%string.
Proof.
  unfold slashDate, slashForm.
  destruct (digitsThenSlash s) as [[m afterMonth]|] eqn:Em; [|discriminate].
  destruct (digitsThenSlash afterMonth) as [[d afterDay]|] eqn:Ed;
    [|discriminate].
  destruct (fourDigits afterDay) as [[y r]|] eqn:Ey; [|discriminate].
  intros E. injection E as <- <- <- <-.
  apply digitsThenSlash_groups in Em, Ed. apply fourDigits_groups in Ey.
  destruct Em as [Hm ->], Ed as [Hd ->], Ey as [Hy ->].
  repeat split; try apply Hm; try apply Hd; try apply Hy.
  rewrite !append_assoc. reflexivity.
Qed.

Lemma oneOrTwoDigits_cases s :
  oneOrTwoDigits s ->
  (exists a, s = String a EmptyString /\ Date.isDigit a = true)
  \/ (exists a b, s = String a (String b EmptyString)
                  /\ Date.isDigit a = true /\ Date.isDigit b = true).
Proof.
  intros [Hd [Hl | Hl]].
  - destruct s as [|a [|b s]]; try discriminate. left. exists a.
    cbn [allDigits] in Hd. rewrite andb_true_r in Hd. auto.
  - destruct s as [|a [|b [|c s]]]; try discriminate. right. exists a, b.
    cbn [allDigits] in Hd. rewrite andb_true_r in Hd.
    apply andb_true_iff in Hd. destruct Hd. auto.
Qed.

Lemma fourDigitYear_cases s :
  fourDigitYear s ->
  exists a b c d,
    s = String a (String b (String c (String d EmptyString)))
    /\ Date.isDigit a = true /\ Date.isDigit b = true
    /\ Date.isDigit c = true /\ Date.isDigit d = true.
Proof.
  intros [Hd Hl].
  destruct s as [|a [|b [|c [|d [|e s]]]]]; try discriminate.
  exists a, b, c, d. cbn [allDigits] in Hd. rewrite andb_true_r in Hd.
  apply andb_true_iff in Hd. destruct Hd as [Ha Hd].
  apply andb_true_iff in Hd. destruct Hd as [Hb Hd].
  apply andb_true_iff in Hd. destruct Hd as [Hc Hd]. auto.
Qed.

Lemma digitsThenSlash_form digits rest :
  oneOrTwoDigits digits ->
  digitsThenSlash (digits ++ String Text.slash rest) = Some (digits, rest).
Proof.
  intros H. destruct (oneOrTwoDigits_cases _ H)
    as [[a [-> Ha]] | [a [b [-> [Ha Hb]]]]];
    cbn [String.append digitsThenSlash]; rewrite Ha.
  - change (Ascii.eqb Text.slash Text.slash) with true. reflexivity.
  - rewrite (digit_not_slash _ Hb), Hb.
    change (Ascii.eqb Text.slash Text.slash) with true. reflexivity.
Qed.

Lemma fourDigits_form year rest :
  fourDigitYear year -> fourDigits (year ++ rest) = Some (year, rest).
Proof.
  intros H. destruct (fourDigitYear_cases _ H)
    as [a [b [c [d [-> [Ha [Hb [Hc Hd]]]]]]]].
  cbn [String.append fourDigits]. rewrite Ha, Hb, Hc, Hd. reflexivity.
Qed.

(** The expression matches the dates written with slashes, whatever
    follows them. *)
Lemma slashDate_form month day year rest :
  oneOrTwoDigits month -> oneOrTwoDigits day -> fourDigitYear year ->
  slashDate (slashForm month day year ++ rest)
  = Some (month, day, year, rest).
Proof.
  intros Hm Hd Hy. unfold slashDate, slashForm.
  rewrite !append_assoc.
  change ("/" ++ day ++ "/" ++ year ++ rest)%string
    with (String Text.slash (day ++ String Text.slash (year ++ rest)))%string.
  rewrite (digitsThenSlash_form _ _ Hm), (digitsThenSlash_form _ _ Hd),
    (fourDigits_form _ _ Hy).
  reflexivity.
Qed.

Lemma allDigits_includes c s :
  (forall x, Date.isDigit x = true -> Ascii.eqb x c = false) ->
  allDigits s = true -> Text.includesChar c s = false.
Proof.
  intros Hc. induction s as [|x s IH]; [reflexivity|].
  cbn [allDigits Text.includesChar]. intros H.
  apply andb_true_iff in H. destruct H as [Hx Hs].
  rewrite (Hc x Hx), (IH Hs). reflexivity.
Qed.

Lemma slashForm_includes c month day year :
  (forall x, Date.isDigit x = true -> Ascii.eqb x c = false) ->
  Ascii.eqb Text.slash c = false ->
  oneOrTwoDigits month -> oneOrTwoDigits day -> fourDigitYear year ->
  Text.includesChar c (slashForm month day year) = false.
Proof.
  intros Hc Hs [Hm _] [Hd _] [Hy _]. unfold slashForm.
  rewrite !includesChar_append. cbn [Text.includesChar].
  change (Ascii.eqb "/" c) with (Ascii.eqb Text.slash c).
  rewrite Hs, (allDigits_includes _ _ Hc Hm), (allDigits_includes _ _ Hc Hd),
    (allDigits_includes _ _ Hc Hy).
  reflexivity.
Qed.

Lemma isoForm_includes_slash month day year :
  oneOrTwoDigits month -> oneOrTwoDigits day -> fourDigitYear year ->
  Text.includesChar Text.slash (isoForm month day year) = false.
Proof.
  intros Hm Hd Hy.
  destruct (fourDigitYear_cases _ Hy) as [a [b [c [d [-> [Ha [Hb [Hc Hdd]]]]]]]].
  destruct (oneOrTwoDigits_cases _ Hm) as [[m1 [-> Hm1]] | [m1 [m2 [-> [Hm1 Hm2]]]]];
  destruct (oneOrTwoDigits_cases _ Hd) as [[d1 [-> Hd1]] | [d1 [d2 [-> [Hd1 Hd2]]]]];
    unfold isoForm; cbn [padStart2 String.append Text.includesChar];
    repeat match goal with
           | H : Date.isDigit ?x = true |- context [Ascii.eqb ?x Text.slash] =>
               rewrite (digit_not_slash x H)
           end;
    reflexivity.
Qed.

(** The year, month and day of the date built from a match. *)
Lemma isoForm_fields month day year :
  oneOrTwoDigits month -> oneOrTwoDigits day -> fourDigitYear year ->
  Date.fields (isoForm month day year)
  = Some (numberOf year, numberOf month, numberOf day).
Proof.
  intros Hm Hd Hy.
  destruct (fourDigitYear_cases _ Hy) as [a [b [c [d [-> [Ha [Hb [Hc Hdd]]]]]]]].
  destruct (oneOrTwoDigits_cases _ Hm) as [[m1 [-> Hm1]] | [m1 [m2 [-> [Hm1 Hm2]]]]];
  destruct (oneOrTwoDigits_cases _ Hd) as [[d1 [-> Hd1]] | [d1 [d2 [-> [Hd1 Hd2]]]]];
    unfold isoForm, Date.fields, numberOf;
    cbn [padStart2 String.append list_ascii_of_string fold_left];
    change (Date.isDigit "0") with true;
    change (Date.isHyphen "-") with true;
    change (Date.digit "0") with 0%Z;
    repeat match goal with
           | H : Date.isDigit ?x = true |- _ => rewrite H; clear H
           end;
    cbn [andb]; do 2 f_equal; try f_equal; lia.
Qed.

(** ** Dates written with slashes *)

Lemma afterPrefix_as_of c s :
  Ascii.eqb c letterA = false -> afterPrefix "as of " (String c s) = None.
Proof. intros H. cbn [afterPrefix]. fold letterA. rewrite H. reflexivity. Qed.

Lemma asOfMatch_skip before text :
  Text.includesChar letterA before = false ->
  asOfMatch (before ++ text) = asOfMatch text.
Proof.
  induction before as [|c before IH]; intros H; [reflexivity|].
  cbn [Text.includesChar] in H. apply orb_false_iff in H.
  destruct H as [Hc Hb].
  cbn [String.append]. rewrite asOfMatch_unfold.
  rewrite (afterPrefix_as_of _ _ Hc). apply IH, Hb.
Qed.

Lemma asOfMatch_none s :
  Text.includesChar letterA s = false -> asOfMatch s = None.
Proof.
  intros H. rewrite <- (append_nil_r s). rewrite (asOfMatch_skip _ _ H).
  reflexivity.
Qed.

Lemma asOfMatch_here date month day year rest :
  slashDate date = Some (month, day, year, rest) ->
  asOfMatch ("as of " ++ date) = Some (slashForm month day year).
Proof.
  intros H. rewrite asOfMatch_unfold.
  assert (E : afterPrefix "as of " ("as of " ++ date) = Some date)
    by reflexivity.
  rewrite E, H. reflexivity.
Qed.

Lemma beforeSpace_append s rest :
  Text.includesChar Text.space s = false ->
  beforeSpace (s ++ String Text.space rest) = s.
Proof.
  induction s as [|c s IH]; intros H.
  - reflexivity.
  - cbn [Text.includesChar] in H. apply orb_false_iff in H.
    destruct H as [Hc Hs]. cbn [String.append beforeSpace].
    rewrite Hc, (IH Hs). reflexivity.
Qed.

Lemma beforeSpace_no_space s :
  Text.includesChar Text.space s = false -> beforeSpace s = s.
Proof.
  induction s as [|c s IH]; intros H; [reflexivity|].
  cbn [Text.includesChar] in H. apply orb_false_iff in H.
  destruct H as [Hc Hs]. cbn [beforeSpace]. rewrite Hc, (IH Hs). reflexivity.
Qed.

Lemma slashDate_exact month day year :
  oneOrTwoDigits month -> oneOrTwoDigits day -> fourDigitYear year ->
  slashDate (slashForm month day year)
  = Some (month, day, year, EmptyString).
Proof.
  intros Hm Hd Hy.
  rewrite <- (append_nil_r (slashForm month day year)) at 1.
  apply slashDate_form; assumption.
Qed.

Lemma convertDateFormat_slashForm month day year :
  oneOrTwoDigits month -> oneOrTwoDigits day -> fourDigitYear year ->
  convertDateFormat (slashForm month day year) = isoForm month day year.
Proof.
  intros Hm Hd Hy. unfold convertDateFormat.
  rewrite asOfMatch_none
    by (apply slashForm_includes; auto using digit_not_a).
  rewrite beforeSpace_no_space
    by (apply slashForm_includes; auto using digit_not_space).
  rewrite (slashDate_exact _ _ _ Hm Hd Hy). reflexivity.
Qed.

(** X19 (what the conversion leaves alone).  [convertDateFormat] returns
    a string without a slash unchanged, so a date that is already
    written [YYYY-MM-DD] stays as it is.  Every result is either the
    input or a date [YYYY-MM-DD] built from one or two digits of month,
    one or two digits of day and four digits of year, and converting a
    result again changes nothing. *)
Theorem convertDateFormat_fixed_points :
  forall dateStr : string,
    (Text.includesChar Text.slash dateStr = false ->
     convertDateFormat dateStr = dateStr)
    /\ (convertDateFormat dateStr = dateStr
        \/ exists month day year,
             oneOrTwoDigits month /\ oneOrTwoDigits day
             /\ fourDigitYear year
             /\ convertDateFormat dateStr = isoForm month day year)
    /\ convertDateFormat (convertDateFormat dateStr)
       = convertDateFormat dateStr.
Proof.
  intros dateStr. split; [apply convertDateFormat_no_slash|].
  assert (H : convertDateFormat dateStr = dateStr
              \/ exists month day year,
                   oneOrTwoDigits month /\ oneOrTwoDigits day
                   /\ fourDigitYear year
                   /\ convertDateFormat dateStr = isoForm month day year).
  { unfold convertDateFormat.
    destruct (slashDate _) as [[[[month day] year] rest]|] eqn:E;
      [|left; reflexivity].
    destruct rest; [|left; reflexivity].
    right. exists month, day, year.
    apply slashDate_groups in E. destruct E as [Hm [Hd [Hy _]]]. auto. }
  split; [exact H|].
  destruct H as [E | [month [day [year [Hm [Hd [Hy E]]]]]]]; rewrite E.
  - exact E.
  - apply convertDateFormat_no_slash, isoForm_includes_slash; assumption.
Qed.

Lemma convertDateFormat_fixed_points_witness :
  Text.includesChar Text.slash "2023-01-05" = false
  /\ convertDateFormat "2023-01-05" = "2023-01-05"%string.
Proof.
  assert (H : Text.includesChar Text.slash "2023-01-05" = false)
    by reflexivity.
  split; [exact H|].
  exact (proj1 (convertDateFormat_fixed_points "2023-01-05") H).
Defined.

(** X20 (dates written with slashes).  A date written as month, day and
    year between slashes, with one or two digits of month and of day
    and four digits of year, is converted to the date [YYYY-MM-DD] of
    the same year, month and day.  The same date results when the text
    goes on after a space, and when the date follows the words [as of]
    after any text; in both cases the other text is supposed to hold no
    letter a, so that it cannot hold the words [as of] itself. *)
Theorem convertDateFormat_slash_dates :
  forall month day year : string,
    oneOrTwoDigits month -> oneOrTwoDigits day -> fourDigitYear year ->
    Date.fields (convertDateFormat (slashForm month day year))
    = Some (numberOf year, numberOf month, numberOf day)
    /\ (forall after,
          Text.includesChar letterA after = false ->
          convertDateFormat
            (slashForm month day year ++ String Text.space after)
          = convertDateFormat (slashForm month day year))
    /\ (forall before,
          Text.includesChar letterA before = false ->
          convertDateFormat
            (before ++ "as of " ++ slashForm month day year)
          = convertDateFormat (slashForm month day year)).
Proof.
  intros month day year Hm Hd Hy.
  rewrite (convertDateFormat_slashForm _ _ _ Hm Hd Hy).
  split; [apply isoForm_fields; assumption|]. split.
  - intros after Ha. unfold convertDateFormat.
    rewrite asOfMatch_none.
    + rewrite beforeSpace_append
        by (apply slashForm_includes; auto using digit_not_space).
      rewrite (slashDate_exact _ _ _ Hm Hd Hy). reflexivity.
    + rewrite includesChar_append. cbn [Text.includesChar].
      rewrite Ha, slashForm_includes; auto using digit_not_a.
  - intros before Hb. unfold convertDateFormat.
    rewrite (asOfMatch_skip _ _ Hb).
    rewrite (asOfMatch_here _ _ _ _ _ (slashDate_exact _ _ _ Hm Hd Hy)).
    rewrite (slashDate_exact _ _ _ Hm Hd Hy). reflexivity.
Qed.

Lemma convertDateFormat_slash_dates_witness :
  oneOrTwoDigits "1" /\ oneOrTwoDigits "05" /\ fourDigitYear "2023"
  /\ Text.includesChar letterA "12/30/2022 " = false
  /\ Date.fields (convertDateFormat "1/05/2023") = Some (2023, 1, 5)%Z
  /\ convertDateFormat "12/30/2022 as of 1/05/2023"
     = convertDateFormat "1/05/2023".
Proof.
  assert (Hm : oneOrTwoDigits "1") by (split; [reflexivity | left; reflexivity]).
  assert (Hd : oneOrTwoDigits "05")
    by (split; [reflexivity | right; reflexivity]).
  assert (Hy : fourDigitYear "2023") by (split; reflexivity).
  assert (Hb : Text.includesChar letterA "12/30/2022 " = false)
    by reflexivity.
  split; [exact Hm|]. split; [exact Hd|]. split; [exact Hy|].
  split; [exact Hb|].
  destruct (convertDateFormat_slash_dates "1" "05" "2023" Hm Hd Hy)
    as [Hfields [_ Hasof]].
  split; [exact Hfields | exact (Hasof "12/30/2022 "%string Hb)].
Defined.

(** X21 (converted dates sort by date).  The engines order dates as
    strings.  For two dates written with slashes the converted strings
    compare as the dates do: the comparison of the strings is the
    comparison of the numbers [YYYYMMDD] of the two dates. *)
Theorem converted_dates_sort_by_date :
  forall month day year month' day' year' : string,
    oneOrTwoDigits month -> oneOrTwoDigits day -> fourDigitYear year ->
    oneOrTwoDigits month' -> oneOrTwoDigits day' -> fourDigitYear year' ->
    String.compare (convertDateFormat (slashForm month day year))
      (convertDateFormat (slashForm month' day' year'))
    = Z.compare (dateKey (numberOf year, numberOf month, numberOf day))
        (dateKey (numberOf year', numberOf month', numberOf day')).
Proof.
  intros month day year month' day' year' Hm Hd Hy Hm' Hd' Hy'.
  rewrite !convertDateFormat_slashForm by assumption.
  apply compare_dateKey; apply isoForm_fields; assumption.
Qed.

Lemma converted_dates_sort_by_date_witness :
  oneOrTwoDigits "9" /\ oneOrTwoDigits "30" /\ fourDigitYear "2023"
  /\ oneOrTwoDigits "10" /\ oneOrTwoDigits "1" /\ fourDigitYear "2023"
  /\ String.compare (convertDateFormat "9/30/2023")
       (convertDateFormat "10/1/2023")
     = Lt.
Proof.
  assert (H9 : oneOrTwoDigits "9") by (split; [reflexivity | left; reflexivity]).
  assert (H30 : oneOrTwoDigits "30")
    by (split; [reflexivity | right; reflexivity]).
  assert (H10 : oneOrTwoDigits "10")
    by (split; [reflexivity | right; reflexivity]).
  assert (H1 : oneOrTwoDigits "1") by (split; [reflexivity | left; reflexivity]).
  assert (Hy : fourDigitYear "2023") by (split; reflexivity).
  split; [exact H9|]. split; [exact H30|]. split; [exact Hy|].
  split; [exact H10|]. split; [exact H1|]. split; [exact Hy|].
  exact (converted_dates_sort_by_date "9" "30" "2023" "10" "1" "2023"
           H9 H30 Hy H10 H1 Hy).
Defined.

(* ================================================================== *)
(** * Filling in missing prices *)
(* ================================================================== *)

Lemma fillPrice_Ok stockPrices t :
  fillPrice stockPrices t = Ok (filledTrade stockPrices t).
Proof.
  unfold fillPrice, filledTrade, dayHighOf, withPrice.
  destruct (Trade.price t); [reflexivity|].
  rewrite getHighPriceOnDate_Ok. cbn [bind].
  destruct (clampLookup _ _); reflexivity.
Qed.

Lemma tradesWithPrices_Ok stockPrices trades :
  tradesWithPrices stockPrices trades
  = Ok (map (filledTrade stockPrices) trades).
Proof.
  unfold tradesWithPrices. apply mapM_Ok. intros t _. apply fillPrice_Ok.
Qed.

Lemma filledTrade_priced stockPrices t :
  Trade.price (filledTrade stockPrices t) <> None.
Proof.
  unfold filledTrade. destruct (Trade.price t) eqn:E.
  - rewrite E. discriminate.
  - discriminate.
Qed.

Lemma filledTrade_fixed stockPrices t :
  Trade.price t <> None -> filledTrade stockPrices t = t.
Proof.
  unfold filledTrade. destruct (Trade.price t); [reflexivity|].
  intros H. exfalso. apply H. reflexivity.
Qed.

(** X22 (filling).  The price filling of [loadData] never throws and
    keeps the trades in their order.  A trade with a price is passed on
    as it is; a trade without one gets the day high the series of its
    ticker has for its date, and [0] when the ticker has no series, every
    other field being kept.  Afterwards every trade has a price, so
    filling again changes nothing, and a trade of a ticker without
    prices still has the cash amount [0] the engines gave it before. *)
Theorem every_trade_gets_a_price :
  forall (stockPrices : dict (list StockPrice.t)) (trades : list Trade.t),
    exists filled,
      tradesWithPrices stockPrices trades = Ok filled
      /\ Forall2
           (fun t t' =>
              match Trade.price t with
              | Some _ => t' = t
              | None => t' = withPrice t (dayHighOf stockPrices t)
              end)
           trades filled
      /\ Forall (fun t' => Trade.price t' <> None) filled
      /\ tradesWithPrices stockPrices filled = Ok filled
      /\ Forall2
           (fun t t' =>
              dgetOrEmpty stockPrices (Trade.ticker t) = [] ->
              tradeAmount t' = tradeAmount t)
           trades filled.
Proof.
  intros stockPrices trades.
  exists (map (filledTrade stockPrices) trades).
  split; [apply tradesWithPrices_Ok|].
  split; [|split; [|split]].
  - induction trades as [|t rest IH]; cbn [map]; constructor; [|exact IH].
    unfold filledTrade. destruct (Trade.price t); reflexivity.
  - apply Forall_forall. intros t' Hin. apply in_map_iff in Hin.
    destruct Hin as [t [<- _]]. apply filledTrade_priced.
  - rewrite tradesWithPrices_Ok. f_equal.
    rewrite map_map. apply map_ext. intros t.
    apply filledTrade_fixed, filledTrade_priced.
  - induction trades as [|t rest IH]; cbn [map]; constructor; [|exact IH].
    intros Hnone. unfold filledTrade.
    destruct (Trade.price t) eqn:E; [reflexivity|].
    unfold tradeAmount, dayHighOf, withPrice. rewrite Hnone, E. reflexivity.
Qed.

(* ================================================================== *)
(** * The loops of the parsers *)
(* ================================================================== *)

Lemma truthy_true s : Text.truthy s = true <-> s <> EmptyString.
Proof.
  unfold Text.truthy. destruct (String.eqb s EmptyString) eqn:E.
  - apply String.eqb_eq in E. split; [discriminate|]. intros H. contradiction.
  - apply String.eqb_neq in E. split; [intros _; exact E | reflexivity].
Qed.

Lemma aboveZero_checked q :
  isNaN q || Num.leb q Num.zero = false -> aboveZero q.
Proof.
  unfold aboveZero, Num.gtb.
  destruct q as [x| | |]; cbn [isNaN orb Num.leb Num.ltb Num.zero Num.ofZ];
    try discriminate; try reflexivity.
  destruct (Qccompare x (Q2Qc (inject_Z 0))) eqn:E; try discriminate.
  intros _. apply (proj2 (Qcgt_alt _ _)) in E.
  rewrite (proj1 (Qclt_alt _ _) E). reflexivity.
Qed.

Lemma aboveZero_tested q :
  negb (isNaN q) && Num.gtb q Num.zero = true -> aboveZero q.
Proof. intros H. apply andb_prop in H. exact (proj2 H). Qed.

Lemma renameFB_not_FB s : renameFB s <> "FB"%string.
Proof.
  unfold renameFB. destruct (String.eqb s "FB") eqn:E; [discriminate|].
  apply String.eqb_neq in E. exact E.
Qed.

Lemma renameFB_nonempty s : Text.truthy s = true -> renameFB s <> EmptyString.
Proof.
  intros H. unfold renameFB. destruct (String.eqb s "FB"); [discriminate|].
  apply truthy_true. exact H.
Qed.

Lemma priceUnlessNaN_not_NaN p : priceUnlessNaN p <> Some NaN.
Proof. destruct p; discriminate. Qed.

Lemma convertDateFormat_nonempty s :
  Text.truthy s = true -> convertDateFormat s <> EmptyString.
Proof.
  intros H. apply truthy_true in H. unfold convertDateFormat.
  destruct (slashDate _) as [[[[month day] year] rest]|]; [|exact H].
  destruct rest; [|exact H].
  destruct year; discriminate.
Qed.

Lemma tickerIfTruthy_nonempty x : tickerIfTruthy x <> Some EmptyString.
Proof.
  unfold tickerIfTruthy. destruct x as [s|]; cbn [truthyOpt]; [|discriminate].
  destruct (Text.truthy s) eqn:E; [|discriminate].
  apply truthy_true in E. intros H. inversion H. contradiction.
Qed.

Lemma tickerIfTruthy_renamed (f : string -> string) x :
  tickerIfTruthy (option_map (fun v => renameFB (f v)) x) <> Some "FB"%string.
Proof.
  unfold tickerIfTruthy. destruct x as [s|]; cbn [option_map truthyOpt];
    [|discriminate].
  destruct (Text.truthy _); [|discriminate].
  intros H. inversion H as [E]. exact (renameFB_not_FB _ E).
Qed.

(** A strictly increasing list of indices between [lo] and [lo + n - 1]
    has at most [n] elements. *)
Lemma sorted_range_length (rows : list nat) :
  forall lo n,
    StronglySorted lt rows ->
    Forall (fun i => lo <= i < lo + n)%nat rows ->
    (List.length rows <= n)%nat.
Proof.
  induction rows as [|h rest IH]; intros lo n Hs Hr; cbn [List.length];
    [lia|].
  inversion Hs as [|? ? Hs' Hh]; subst. inversion Hr as [|? ? Hlo Hr']; subst.
  assert (L : (List.length rest <= lo + n - S h)%nat).
  { apply (IH (S h)); [exact Hs'|].
    rewrite Forall_forall in *. intros i Hi.
    pose proof (Hh i Hi). pose proof (Hr' i Hi). lia. }
  lia.
Qed.

Lemma pushedBy_length {R} (made : nat -> R -> Prop) lo n records :
  pushedBy made lo n records -> (List.length records <= n)%nat.
Proof.
  intros [rows [H2 [Hs Hr]]]. rewrite <- (Forall2_length H2).
  exact (sorted_range_length rows lo n Hs Hr).
Qed.

Lemma pushedBy_Forall {R} (made : nat -> R -> Prop) (P : R -> Prop) lo n
  records :
  (forall i r, made i r -> P r) ->
  pushedBy made lo n records -> Forall P records.
Proof.
  intros HP [rows [H2 _]]. induction H2; constructor; eauto.
Qed.

Lemma pushedBy_nil {R} (made : nat -> R -> Prop) lo n : pushedBy made lo n [].
Proof. exists []. repeat split; constructor. Qed.

Lemma pushedBy_step {R} (made : nat -> R -> Prop) lo n first rest :
  (first = [] \/ exists r, first = [r] /\ made lo r) ->
  pushedBy made (S lo) n rest ->
  pushedBy made lo (S n) (first ++ rest).
Proof.
  intros Hfirst [rows [H2 [Hs Hr]]].
  assert (Hr' : Forall (fun i => lo <= i < lo + S n)%nat rows).
  { eapply Forall_impl; [|exact Hr]. cbv beta. intros i Hi. lia. }
  destruct Hfirst as [->|[r [-> Hmade]]]; cbn [app].
  - exists rows. repeat split; assumption.
  - exists (lo :: rows). split; [constructor; assumption|]. split.
    + constructor; [exact Hs|]. eapply Forall_impl; [|exact Hr].
      cbv beta. intros i Hi. lia.
    + constructor; [lia | exact Hr'].
Qed.

Section Rows.

Context {A : Type}.
Variable body :
  nat -> A -> list Trade.t * list CashFlow.t -> list Trade.t * list CashFlow.t.
Variable madeT : nat -> Trade.t -> Prop.
Variable madeC : nat -> CashFlow.t -> Prop.

Hypothesis body_pushes :
  forall i x acc, exists ts cs,
    body i x acc = (fst acc ++ ts, snd acc ++ cs)
    /\ (ts = [] \/ exists t, ts = [t] /\ madeT i t)
    /\ (cs = [] \/ exists c, cs = [c] /\ madeC i c).

Lemma forRows_pushes :
  forall xs i acc, exists ts cs,
    forRows body i xs acc = (fst acc ++ ts, snd acc ++ cs)
    /\ pushedBy madeT i (List.length xs) ts
    /\ pushedBy madeC i (List.length xs) cs.
Proof.
  induction xs as [|x rest IH]; intros i acc; cbn [forRows List.length].
  - exists [], []. rewrite !app_nil_r. destruct acc.
    repeat split; apply pushedBy_nil.
  - destruct (body_pushes i x acc) as [ts1 [cs1 [E1 [Ht1 Hc1]]]].
    destruct (IH (S i) (body i x acc)) as [ts2 [cs2 [E2 [Ht2 Hc2]]]].
    exists (ts1 ++ ts2), (cs1 ++ cs2). rewrite E2, E1. cbn [fst snd].
    rewrite !app_assoc. split; [reflexivity|].
    split; apply pushedBy_step; assumption.
Qed.

End Rows.

Section Invariant.

Context {A St : Type}.
Variable body : nat -> A -> St -> St.
Variable P : St -> Prop.
Hypothesis body_keeps : forall i x s, P s -> P (body i x s).

Lemma forRows_keeps : forall xs i s, P s -> P (forRows body i xs s).
Proof.
  induction xs as [|x rest IH]; intros i s H; cbn [forRows]; [exact H|].
  apply IH, body_keeps, H.
Qed.

End Invariant.

(* ================================================================== *)
(** * Robinhood *)
(* ================================================================== *)

Ltac pushes_nothing :=
  exists [], []; cbn [fst snd]; rewrite !app_nil_r;
  split; [reflexivity|]; split; left; reflexivity.

Lemma robinhoodRow_pushes header i values acc :
  exists ts cs,
    robinhoodRow header i values acc = (fst acc ++ ts, snd acc ++ cs)
    /\ (ts = [] \/ exists t, ts = [t] /\ robinhoodTrade i t)
    /\ (cs = [] \/ exists c, cs = [c] /\ robinhoodCashFlow i c).
Proof.
  unfold robinhoodRow. destruct acc as [trades cashFlows].
  destruct (valueAt values (indexOf header "activity date")) as [dateRaw|];
    [|pushes_nothing].
  destruct (Text.truthy dateRaw) eqn:Hdate; cbn [negb]; [|pushes_nothing].
  pose proof (convertDateFormat_nonempty _ Hdate) as Hd.
  destruct (cashFlowTypeOf _) as [cashFlowType|].
  - destruct (negb (isNaN _) && Num.gtb _ Num.zero) eqn:Hamount;
      [|pushes_nothing].
    eexists [], [_]. cbn [fst snd]. rewrite app_nil_r.
    split; [reflexivity|]. split; [left; reflexivity|].
    right. eexists. split; [reflexivity|].
    unfold robinhoodCashFlow. cbn [CashFlow.date CashFlow.amount
      CashFlow.ticker CashFlow.id].
    split; [exact Hd|]. split; [exact (aboveZero_tested _ Hamount)|].
    split; [apply tickerIfTruthy_nonempty|].
    split; [apply tickerIfTruthy_renamed | reflexivity].
  - destruct (negb (codeIs _ "Buy") && negb (codeIs _ "Sell")
              && negb (codeIs _ "SPL")); [pushes_nothing|].
    destruct (option_map Text.toUpperCase _) as [upper|]; [|pushes_nothing].
    destruct (Text.truthy upper) eqn:Hupper; cbn [negb]; [|pushes_nothing].
    destruct (isNaN _ || Num.leb _ Num.zero) eqn:Hquantity; [pushes_nothing|].
    pose proof (aboveZero_checked _ Hquantity) as Hq.
    destruct (codeIs _ "SPL").
    + eexists [_], []. cbn [fst snd]. rewrite app_nil_r.
      split; [reflexivity|]. split; [|left; reflexivity].
      right. eexists. split; [reflexivity|].
      unfold robinhoodTrade. cbn [Trade.ticker Trade.date Trade.shares
        Trade.price Trade.id Trade.type].
      split; [exact (renameFB_nonempty _ Hupper)|].
      split; [apply renameFB_not_FB|]. split; [exact Hd|].
      split; [exact Hq|]. split; [discriminate|].
      right. repeat split; reflexivity.
    + eexists [_], []. cbn [fst snd]. rewrite app_nil_r.
      split; [reflexivity|]. split; [|left; reflexivity].
      right. eexists. split; [reflexivity|].
      unfold robinhoodTrade. cbn [Trade.ticker Trade.date Trade.shares
        Trade.price Trade.id Trade.type].
      split; [exact (renameFB_nonempty _ Hupper)|].
      split; [apply renameFB_not_FB|]. split; [exact Hd|].
      split; [exact Hq|]. split; [apply priceUnlessNaN_not_NaN|].
      left. reflexivity.
Qed.

Lemma parseRobinhoodCSV_pushes csvText :
  PortfolioData.format (parseRobinhoodCSV csvText) = robinhoodFormat
  /\ pushedBy robinhoodTrade 1
       (List.length (parseMultiLineCSV csvText) - 1)
       (PortfolioData.trades (parseRobinhoodCSV csvText))
  /\ pushedBy robinhoodCashFlow 1
       (List.length (parseMultiLineCSV csvText) - 1)
       (PortfolioData.cashFlows (parseRobinhoodCSV csvText)).
Proof.
  unfold parseRobinhoodCSV.
  destruct (parseMultiLineCSV csvText) as [|first dataRows].
  - repeat split; apply pushedBy_nil.
  - destruct (len (first :: dataRows) <? 2)%Z.
    + repeat split; apply pushedBy_nil.
    + destruct (forRows_pushes (robinhoodRow (map Text.toLowerCase first))
                  robinhoodTrade robinhoodCashFlow
                  (robinhoodRow_pushes (map Text.toLowerCase first))
                  dataRows 1 ([], [])) as [ts [cs [E [Ht Hc]]]].
      rewrite E.
      assert (L : (List.length (first :: dataRows) - 1)%nat
                  = List.length dataRows) by (cbn [List.length]; lia).
      rewrite L. cbn [fst snd app PortfolioData.format PortfolioData.trades
        PortfolioData.cashFlows].
      repeat split; assumption.
Qed.

(* ================================================================== *)
(** * Fidelity *)
(* ================================================================== *)

Lemma abs_nonneg q : isNaN q = false -> Num.le Num.zero (Math_abs q).
Proof.
  unfold Num.le.
  destruct q as [x| | |]; cbn [isNaN Math_abs]; try discriminate;
    try reflexivity.
  intros _. unfold Num.sign, Num.zero, Num.ofZ.
  destruct (Qccompare x (Q2Qc 0)) eqn:E; apply leb_Fin.
  - apply Qceq_alt in E. rewrite E. apply Qcle_refl.
  - apply (proj2 (Qclt_alt _ _)) in E.
    apply Qclt_le_weak, Qcopp_le_compat in E.
    replace (- Q2Qc 0)%Qc with (Q2Qc (inject_Z 0)) in E
      by (apply Qc_is_canon; reflexivity).
    exact E.
  - apply (proj2 (Qcgt_alt _ _)) in E. apply Qclt_le_weak. exact E.
Qed.

Lemma abs_aboveZero q : aboveZero q -> Math_abs q = q.
Proof.
  unfold aboveZero, Num.gtb.
  destruct q as [x| | |]; cbn [Num.ltb Num.zero Num.ofZ Math_abs];
    try discriminate; try reflexivity.
  unfold Num.sign.
  destruct (Qccompare (Q2Qc (inject_Z 0)) x) eqn:E; try discriminate.
  intros _. apply (proj2 (Qclt_alt _ _)) in E.
  change (Q2Qc (inject_Z 0)) with (Q2Qc 0) in E.
  rewrite (proj1 (Qcgt_alt x (Q2Qc 0)) E). reflexivity.
Qed.

Lemma realPrice_checked price : realPrice (priceUnlessNaNOrZero price).
Proof.
  unfold realPrice, priceUnlessNaNOrZero. intros p.
  destruct (isNaN price || isZero price) eqn:E; [discriminate|].
  intros H. inversion H; subst. apply orb_false_elim in E. exact E.
Qed.

Ltac pushes_trade :=
  eexists [_], []; cbn [fst snd]; rewrite app_nil_r;
  split; [reflexivity|]; split; [|left; reflexivity];
  right; eexists; split; [reflexivity|].

Ltac pushes_cashFlow :=
  eexists [], [_]; cbn [fst snd]; rewrite app_nil_r;
  split; [reflexivity|]; split; [left; reflexivity|];
  right; eexists; split; [reflexivity|].

Lemma fidelityRow_pushes header i values acc :
  exists ts cs,
    fidelityRow header i values acc = (fst acc ++ ts, snd acc ++ cs)
    /\ (ts = [] \/ exists t, ts = [t] /\ fidelityTrade i t)
    /\ (cs = [] \/ exists c, cs = [c] /\ fidelityCashFlow i c).
Proof.
  unfold fidelityRow. destruct acc as [trades cashFlows].
  destruct (option_map Text.trim (valueAt values (indexOf header "run date")))
    as [dateRaw|]; [|pushes_nothing].
  destruct (Text.truthy dateRaw) eqn:Hdate; cbn [negb orb];
    [|pushes_nothing].
  destruct (negb (Text.includesChar Text.slash dateRaw)); [pushes_nothing|].
  pose proof (convertDateFormat_nonempty _ Hdate) as Hd.
  set (symbol := renameFB _).
  set (price := parseFloatIfTruthy
                  (option_map (Text.removeChars isDollarOrComma)
                     (valueAt values (indexOf header "price ($)")))).
  set (quantity := parseFloatIfTruthy _).
  set (amount := parseFloatIfTruthy
                   (option_map (Text.removeChars isDollarOrComma)
                      (valueAt values (indexOf header "amount ($)")))).
  assert (Hfb : symbol <> "FB"%string) by apply renameFB_not_FB.
  destruct (Text.startsWith _ "YOU BOUGHT" || Text.startsWith _ "REINVESTMENT").
  { destruct (negb (Text.truthy symbol) || isNaN quantity
              || Num.leb quantity Num.zero) eqn:Hcheck; [pushes_nothing|].
    destruct (isMoneyMarket symbol); [pushes_nothing|].
    apply orb_false_elim in Hcheck. destruct Hcheck as [Hcheck Hleb].
    apply orb_false_elim in Hcheck. destruct Hcheck as [Hsym Hnan].
    apply negb_false_iff in Hsym. apply truthy_true in Hsym.
    assert (Hq : aboveZero quantity).
    { apply aboveZero_checked. rewrite Hnan, Hleb. reflexivity. }
    pushes_trade. unfold fidelityTrade. cbn [Trade.ticker Trade.date
      Trade.shares Trade.price Trade.id Trade.type].
    split; [exact Hsym|]. split; [exact Hfb|]. split; [exact Hd|].
    split; [exact (abs_nonneg _ Hnan)|].
    split; [intros _; rewrite (abs_aboveZero _ Hq); exact Hq|].
    split; [discriminate|].
    split; [apply realPrice_checked | reflexivity]. }
  destruct (Text.startsWith _ "YOU SOLD").
  { destruct (negb (Text.truthy symbol) || isNaN quantity) eqn:Hcheck;
      [pushes_nothing|].
    destruct (isMoneyMarket symbol) eqn:Hmm; [pushes_nothing|].
    apply orb_false_elim in Hcheck. destruct Hcheck as [Hsym Hnan].
    apply negb_false_iff in Hsym. apply truthy_true in Hsym.
    pushes_trade. unfold fidelityTrade. cbn [Trade.ticker Trade.date
      Trade.shares Trade.price Trade.id Trade.type].
    split; [exact Hsym|]. split; [exact Hfb|]. split; [exact Hd|].
    split; [exact (abs_nonneg _ Hnan)|].
    split; [discriminate|].
    split; [intros _; exact Hmm|].
    split; [apply realPrice_checked | reflexivity]. }
  destruct (String.eqb _ "Contributions").
  { assert (Hc : exists cs,
               (if negb (isNaN amount) && Num.gtb amount Num.zero
                then cashFlows
                     ++ [CashFlow.mk (cashFlowId (convertDateFormat dateRaw) i)
                           (convertDateFormat dateRaw) amount deposit None]
                else cashFlows) = cashFlows ++ cs
               /\ (cs = [] \/ exists c, cs = [c] /\ fidelityCashFlow i c)).
    { destruct (negb (isNaN amount) && Num.gtb amount Num.zero) eqn:Hamount.
      - eexists. split; [reflexivity|]. right. eexists.
        split; [reflexivity|].
        unfold fidelityCashFlow. cbn [CashFlow.date CashFlow.amount
          CashFlow.ticker CashFlow.id CashFlow.type].
        split; [exact Hd|]. split; [exact (aboveZero_tested _ Hamount)|].
        split; [left; split; reflexivity | reflexivity].
      - exists []. rewrite app_nil_r. split; [reflexivity | left; reflexivity]. }
    destruct Hc as [cs [Ecs Hcs]]. rewrite Ecs.
    destruct (negb (Text.truthy symbol) && truthyOpt _).
    { exists [], cs. cbn [fst snd]. rewrite app_nil_r.
      split; [reflexivity|]. split; [left; reflexivity | exact Hcs]. }
    destruct (negb (Text.truthy symbol) || isNaN quantity
              || Num.leb quantity Num.zero) eqn:Hcheck.
    { exists [], cs. cbn [fst snd]. rewrite app_nil_r.
      split; [reflexivity|]. split; [left; reflexivity | exact Hcs]. }
    apply orb_false_elim in Hcheck. destruct Hcheck as [Hcheck Hleb].
    apply orb_false_elim in Hcheck. destruct Hcheck as [Hsym Hnan].
    apply negb_false_iff in Hsym. apply truthy_true in Hsym.
    assert (Hq : aboveZero quantity).
    { apply aboveZero_checked. rewrite Hnan, Hleb. reflexivity. }
    eexists [_], cs. cbn [fst snd].
    split; [reflexivity|]. split; [|exact Hcs].
    right. eexists. split; [reflexivity|].
    unfold fidelityTrade. cbn [Trade.ticker Trade.date
      Trade.shares Trade.price Trade.id Trade.type].
    split; [exact Hsym|]. split; [exact Hfb|]. split; [exact Hd|].
    split; [apply ltb_le; exact Hq|].
    split; [intros _; exact Hq|].
    split; [discriminate|].
    split; [apply realPrice_checked | reflexivity]. }
  destruct (Text.includes _ "ELECTRONIC FUNDS TRANSFER RECEIVED"
            || Text.includes _ "TRANSFERRED FROM TO BROKERAGE").
  { destruct (isNaN amount || Num.leb amount Num.zero) eqn:Hamount;
      [pushes_nothing|].
    pushes_cashFlow. unfold fidelityCashFlow. cbn [CashFlow.date
      CashFlow.amount CashFlow.ticker CashFlow.id CashFlow.type].
    split; [exact Hd|]. split; [exact (aboveZero_checked _ Hamount)|].
    split; [left; split; reflexivity | reflexivity]. }
  destruct (Text.startsWith _ "DIVIDEND RECEIVED"); [|pushes_nothing].
  destruct (isNaN amount || Num.leb amount Num.zero) eqn:Hamount;
    [pushes_nothing|].
  destruct (isMoneyMarket symbol) eqn:Hmm; [pushes_nothing|].
  pushes_cashFlow. unfold fidelityCashFlow. cbn [CashFlow.date
    CashFlow.amount CashFlow.ticker CashFlow.id CashFlow.type].
  split; [exact Hd|]. split; [exact (aboveZero_checked _ Hamount)|].
  split; [|reflexivity].
  right. split; [reflexivity|]. intros s.
  destruct (Text.truthy symbol) eqn:Hsym; [|discriminate].
  intros H. inversion H; subst s. apply truthy_true in Hsym.
  repeat split; assumption.
Qed.

Lemma parseFidelityCSV_pushes csvText :
  PortfolioData.format (parseFidelityCSV csvText) = fidelityFormat
  /\ pushedBy fidelityTrade 1
       (List.length (parseMultiLineCSV csvText) - 1)
       (PortfolioData.trades (parseFidelityCSV csvText))
  /\ pushedBy fidelityCashFlow 1
       (List.length (parseMultiLineCSV csvText) - 1)
       (PortfolioData.cashFlows (parseFidelityCSV csvText)).
Proof.
  unfold parseFidelityCSV.
  destruct (parseMultiLineCSV csvText) as [|first dataRows].
  - repeat split; apply pushedBy_nil.
  - destruct (len (first :: dataRows) <? 2)%Z.
    + repeat split; apply pushedBy_nil.
    + destruct (forRows_pushes (fidelityRow (map Text.toLowerCase first))
                  fidelityTrade fidelityCashFlow
                  (fidelityRow_pushes (map Text.toLowerCase first))
                  dataRows 1 ([], [])) as [ts [cs [E [Ht Hc]]]].
      rewrite E.
      assert (L : (List.length (first :: dataRows) - 1)%nat
                  = List.length dataRows) by (cbn [List.length]; lia).
      rewrite L. cbn [fst snd app PortfolioData.format PortfolioData.trades
        PortfolioData.cashFlows].
      repeat split; assumption.
Qed.

(* ================================================================== *)
(** * Schwab and the simple format *)
(* ================================================================== *)

(** The synthesis test of the parsers is [pricedBuy] of the trade they
    push. *)
Lemma pricedBuy_pushed id ticker date shares price type :
  pricedBuy (Trade.mk id ticker date shares (priceUnlessNaN price) type)
  = isBuy type && negb (isNaN price) && Num.gtb price Num.zero.
Proof.
  unfold pricedBuy, priceUnlessNaN. cbn [Trade.type Trade.price].
  destruct (isBuy type); cbn [andb]; [|reflexivity].
  destruct price; reflexivity.
Qed.

Lemma depositsMirror_push trades cashFlows id cid ticker date shares price
  type :
  depositsMirror (trades, cashFlows) ->
  depositsMirror
    (trades ++ [Trade.mk id ticker date shares (priceUnlessNaN price) type],
     if isBuy type && negb (isNaN price) && Num.gtb price Num.zero
     then cashFlows
          ++ [CashFlow.mk cid date (Num.mul shares price) deposit None]
     else cashFlows).
Proof.
  unfold depositsMirror. cbn [fst snd]. intros H.
  rewrite filter_app. cbn [filter]. rewrite pricedBuy_pushed.
  destruct (isBuy type && negb (isNaN price) && Num.gtb price Num.zero)
    eqn:E.
  - apply Forall2_app; [exact H|]. constructor; [|constructor].
    unfold depositOf. cbn [CashFlow.type CashFlow.ticker CashFlow.date
      CashFlow.amount Trade.date Trade.price Trade.shares].
    repeat split. exists price. split; [|reflexivity].
    apply andb_prop in E. destruct E as [E _]. apply andb_prop in E.
    destruct E as [_ E]. unfold priceUnlessNaN.
    apply negb_true_iff in E. rewrite E. reflexivity.
  - rewrite app_nil_r. exact H.
Qed.

Lemma schwabTrade_pushed i symbol dateRaw quantity price :
  symbol <> EmptyString -> symbol <> "FB"%string ->
  Text.truthy dateRaw = true ->
  isNaN quantity = false -> Num.leb quantity Num.zero = false ->
  schwabTrade i
    (Trade.mk (tradeId symbol (convertDateFormat dateRaw) i) symbol
       (convertDateFormat dateRaw) quantity (priceUnlessNaN price) buy).
Proof.
  intros Hsym Hfb Hdate Hnan Hleb.
  unfold schwabTrade. cbn [Trade.ticker Trade.date Trade.shares
    Trade.price Trade.id Trade.type].
  split; [exact Hsym|]. split; [exact Hfb|].
  split; [exact (convertDateFormat_nonempty _ Hdate)|].
  split; [apply aboveZero_checked; rewrite Hnan, Hleb; reflexivity|].
  split; [apply priceUnlessNaN_not_NaN|]. split; reflexivity.
Qed.

(** The product of two numbers above [0] is [0] or more. *)
Lemma zeroOrMore_mul a b :
  aboveZero a -> aboveZero b -> zeroOrMore (Num.mul a b).
Proof.
  unfold aboveZero, zeroOrMore, Num.gtb.
  destruct a as [x| | |], b as [y| | |]; try discriminate;
    try (intros; reflexivity).
  - unfold Num.zero, Num.ofZ. cbn [Num.mul Num.leb]. rewrite !ltb_Fin.
    change (Q2Qc (inject_Z 0)) with (Q2Qc 0). intros Hx Hy.
    assert (H : (Q2Qc 0 <= x * y)%Qc).
    { replace (Q2Qc 0) with (Q2Qc 0 * y)%Qc by ring.
      apply Qcmult_le_compat_r; apply Qclt_le_weak; assumption. }
    destruct (Qccompare (Q2Qc 0) (x * y)) eqn:E; try reflexivity.
    apply (proj2 (Qcgt_alt _ _)) in E.
    exfalso. exact (Qclt_not_le _ _ E H).
  - unfold Num.zero, Num.ofZ. rewrite ltb_Fin.
    change (Q2Qc (inject_Z 0)) with (Q2Qc 0). intros Hx _.
    cbn [Num.mul]. unfold Num.sign.
    rewrite (proj1 (Qcgt_alt x (Q2Qc 0)) Hx). reflexivity.
  - unfold Num.zero, Num.ofZ. rewrite ltb_Fin.
    change (Q2Qc (inject_Z 0)) with (Q2Qc 0). intros _ Hy.
    cbn [Num.mul]. unfold Num.sign.
    rewrite (proj1 (Qcgt_alt y (Q2Qc 0)) Hy). reflexivity.
Qed.

Lemma schwabRow_pushes header i rawLine acc :
  exists ts cs,
    schwabRow header i rawLine acc = (fst acc ++ ts, snd acc ++ cs)
    /\ (ts = [] \/ exists t, ts = [t] /\ schwabTrade i t)
    /\ (cs = [] \/ exists c, cs = [c] /\ vestDeposit i c).
Proof.
  unfold schwabRow. destruct acc as [trades cashFlows].
  destruct (negb (Text.truthy (Text.trim rawLine))); [pushes_nothing|].
  destruct (negb (codeIs _ "Stock Plan Activity")
            && negb (codeIs _ "Reinvest Shares")); [pushes_nothing|].
  destruct (valueAt _ (indexOf header "symbol")) as [raw|];
    cbn [option_map]; [|pushes_nothing].
  destruct (valueAt _ (indexOf header "date")) as [dateRaw|];
    [|pushes_nothing].
  destruct (negb (Text.truthy (renameFB (Text.toUpperCase raw)))
            || negb (Text.truthy dateRaw)
            || isNaN _ || Num.leb _ Num.zero) eqn:Hcheck; [pushes_nothing|].
  apply orb_false_elim in Hcheck. destruct Hcheck as [Hcheck Hleb].
  apply orb_false_elim in Hcheck. destruct Hcheck as [Hcheck Hnan].
  apply orb_false_elim in Hcheck. destruct Hcheck as [Hsym Hdate].
  apply negb_false_iff in Hsym, Hdate. apply truthy_true in Hsym.
  pose proof (schwabTrade_pushed i _ _ _
                (parseFloatIfTruthy
                   (option_map (Text.removeFirst "$")
                      (valueAt (parseCSVLine (Text.trim rawLine))
                         (indexOf header "price"))))
                Hsym (renameFB_not_FB _) Hdate Hnan Hleb) as Htrade.
  destruct (negb (isNaN _) && Num.gtb _ Num.zero) eqn:Hprice.
  - eexists [_], [_]. cbn [fst snd]. split; [reflexivity|].
    split; right; eexists; (split; [reflexivity|]); [exact Htrade|].
    unfold vestDeposit, synthesizedDeposit. cbn [CashFlow.type
      CashFlow.ticker CashFlow.id CashFlow.date CashFlow.amount].
    repeat split. apply zeroOrMore_mul.
    + apply aboveZero_checked. rewrite Hnan, Hleb. reflexivity.
    + exact (aboveZero_tested _ Hprice).
  - eexists [_], []. cbn [fst snd]. rewrite app_nil_r.
    split; [reflexivity|]. split; [|left; reflexivity].
    right. eexists. split; [reflexivity | exact Htrade].
Qed.

Lemma schwabRow_mirrors header i rawLine acc :
  depositsMirror acc -> depositsMirror (schwabRow header i rawLine acc).
Proof.
  unfold schwabRow. destruct acc as [trades cashFlows]. intros H.
  destruct (negb (Text.truthy (Text.trim rawLine))); [exact H|].
  destruct (negb (codeIs _ "Stock Plan Activity")
            && negb (codeIs _ "Reinvest Shares")); [exact H|].
  destruct (option_map _ (valueAt _ (indexOf header "symbol")));
    [|exact H].
  destruct (valueAt _ (indexOf header "date")); [|exact H].
  destruct (negb (Text.truthy _) || negb (Text.truthy _) || isNaN _
            || Num.leb _ Num.zero); [exact H|].
  apply (depositsMirror_push _ _ _ _ _ _ _ _ buy H).
Qed.

Lemma parseSchwabCSV_pushes first dataLines :
  exists data,
    parseSchwabCSV (first :: dataLines) = Parsed data
    /\ PortfolioData.format data = schwabFormat
    /\ pushedBy schwabTrade 1 (List.length dataLines)
         (PortfolioData.trades data)
    /\ pushedBy vestDeposit 1 (List.length dataLines)
         (PortfolioData.cashFlows data)
    /\ depositsMirror (PortfolioData.trades data, PortfolioData.cashFlows data).
Proof.
  unfold parseSchwabCSV.
  set (header := map Text.toLowerCase (parseCSVLine first)).
  destruct (forRows_pushes (schwabRow header) schwabTrade vestDeposit
              (schwabRow_pushes header) dataLines 1 ([], []))
    as [ts [cs [E [Ht Hc]]]].
  pose proof (forRows_keeps (schwabRow header) depositsMirror
                (schwabRow_mirrors header) dataLines 1 ([], [])) as Hm.
  rewrite E in *. cbn [fst snd app] in *.
  eexists. split; [reflexivity|].
  cbn [PortfolioData.format PortfolioData.trades PortfolioData.cashFlows].
  split; [reflexivity|]. split; [exact Ht|]. split; [exact Hc|].
  apply Hm. constructor.
Qed.

(** ** The simple format *)

Section RowsThrowing.

Context {A : Type}.
Variable body :
  nat -> A -> list Trade.t * list CashFlow.t
  -> parsed (list Trade.t * list CashFlow.t).
Variable madeT : nat -> Trade.t -> Prop.
Variable madeC : nat -> CashFlow.t -> Prop.
Variable P : list Trade.t * list CashFlow.t -> Prop.
Variable throws : A -> bool.

Hypothesis body_pushes :
  forall i x acc acc',
    body i x acc = Parsed acc' ->
    exists ts cs,
      acc' = (fst acc ++ ts, snd acc ++ cs)
      /\ (ts = [] \/ exists t, ts = [t] /\ madeT i t)
      /\ (cs = [] \/ exists c, cs = [c] /\ madeC i c).

Hypothesis body_keeps :
  forall i x acc acc', P acc -> body i x acc = Parsed acc' -> P acc'.

Hypothesis body_throws :
  forall i x acc,
    if throws x then body i x acc = TypeErrorThrown
    else exists acc', body i x acc = Parsed acc'.

Lemma forRowsThrowing_pushes :
  forall xs i acc acc',
    forRowsThrowing body i xs acc = Parsed acc' ->
    exists ts cs,
      acc' = (fst acc ++ ts, snd acc ++ cs)
      /\ pushedBy madeT i (List.length xs) ts
      /\ pushedBy madeC i (List.length xs) cs.
Proof.
  induction xs as [|x rest IH]; intros i acc acc';
    cbn [forRowsThrowing List.length].
  - intros H. inversion H; subst. exists [], []. rewrite !app_nil_r.
    destruct acc'. repeat split; apply pushedBy_nil.
  - destruct (body i x acc) as [acc1| |] eqn:E1; try discriminate.
    intros H.
    destruct (body_pushes _ _ _ _ E1) as [ts1 [cs1 [-> [Ht1 Hc1]]]].
    destruct (IH _ _ _ H) as [ts2 [cs2 [-> [Ht2 Hc2]]]].
    exists (ts1 ++ ts2), (cs1 ++ cs2). cbn [fst snd].
    rewrite !app_assoc. split; [reflexivity|].
    split; apply pushedBy_step; assumption.
Qed.

Lemma forRowsThrowing_keeps :
  forall xs i acc acc',
    P acc -> forRowsThrowing body i xs acc = Parsed acc' -> P acc'.
Proof.
  induction xs as [|x rest IH]; intros i acc acc' HP;
    cbn [forRowsThrowing].
  - intros H. inversion H; subst. exact HP.
  - destruct (body i x acc) as [acc1| |] eqn:E1; try discriminate.
    apply IH. exact (body_keeps _ _ _ _ HP E1).
Qed.

Lemma forRowsThrowing_throws :
  forall xs i acc,
    if existsb throws xs
    then forRowsThrowing body i xs acc = TypeErrorThrown
    else exists acc', forRowsThrowing body i xs acc = Parsed acc'.
Proof.
  induction xs as [|x rest IH]; intros i acc;
    cbn [forRowsThrowing existsb].
  - eexists. reflexivity.
  - pose proof (body_throws i x acc) as Hx.
    destruct (throws x); cbn [orb].
    + rewrite Hx. reflexivity.
    + destruct Hx as [acc1 ->]. apply IH.
Qed.

End RowsThrowing.

Lemma indexOfFrom_spec header name :
  forall i,
    if hasColumn header name
    then (i <= indexOfFrom header name i)%Z
    else indexOfFrom header name i = (-1)%Z.
Proof.
  unfold hasColumn.
  induction header as [|h rest IH]; intros i; cbn [existsb indexOfFrom];
    [reflexivity|].
  destruct (String.eqb h name); cbn [orb]; [lia|].
  specialize (IH (i + 1)%Z). destruct (existsb _ rest); [lia | exact IH].
Qed.

Lemma indexOf_missing header name :
  (indexOf header name =? -1)%Z = negb (hasColumn header name).
Proof.
  unfold indexOf. pose proof (indexOfFrom_spec header name 0) as H.
  destruct (hasColumn header name); cbn [negb].
  - apply Z.eqb_neq. lia.
  - rewrite H. reflexivity.
Qed.

Lemma indexOf_present header name :
  hasColumn header name = true -> (0 <= indexOf header name)%Z.
Proof.
  intros Hc. unfold indexOf.
  pose proof (indexOfFrom_spec header name 0) as H. rewrite Hc in H. exact H.
Qed.

Lemma valueAt_None values i :
  (0 <= i)%Z -> (valueAt values i = None <-> (len values <= i)%Z).
Proof.
  intros Hi. unfold valueAt, len.
  destruct (i <? 0)%Z eqn:E; [apply Z.ltb_lt in E; lia|].
  rewrite nth_error_None. lia.
Qed.

Lemma Parsed_inj {A} (a b : A) : Parsed a = Parsed b -> a = b.
Proof. intros H. inversion H. reflexivity. Qed.

Lemma simpleRow_throws header i rawLine acc :
  (0 <= indexOf header "date")%Z ->
  if shortLine header rawLine
  then simpleRow header i rawLine acc = TypeErrorThrown
  else exists acc', simpleRow header i rawLine acc = Parsed acc'.
Proof.
  intros Hdate. unfold shortLine, simpleRow. destruct acc as [trades cashFlows].
  destruct (Text.truthy (Text.trim rawLine)); cbn [negb andb];
    [|eexists; reflexivity].
  pose proof (valueAt_None (parseCSVLine (Text.trim rawLine)) _ Hdate) as Hv.
  destruct (len _ <=? indexOf header "date")%Z eqn:E.
  - apply Z.leb_le in E. rewrite (proj2 Hv E). reflexivity.
  - destruct (valueAt _ (indexOf header "date")) as [dateRaw|].
    + destruct (option_map _ _) as [ticker|]; [|eexists; reflexivity].
      destruct (negb (Text.truthy ticker) || _ || _); eexists; reflexivity.
    + apply Z.leb_gt in E. pose proof (proj1 Hv eq_refl). lia.
Qed.

Lemma simpleRow_pushes header i rawLine acc acc' :
  simpleRow header i rawLine acc = Parsed acc' ->
  exists ts cs,
    acc' = (fst acc ++ ts, snd acc ++ cs)
    /\ (ts = [] \/ exists t, ts = [t] /\ simpleTrade i t)
    /\ (cs = [] \/ exists c, cs = [c] /\ synthesizedDeposit i c).
Proof.
  unfold simpleRow. destruct acc as [trades cashFlows].
  assert (Hnothing :
    Parsed (trades, cashFlows) = Parsed acc' ->
    exists ts cs,
      acc' = (fst (trades, cashFlows) ++ ts, snd (trades, cashFlows) ++ cs)
      /\ (ts = [] \/ exists t, ts = [t] /\ simpleTrade i t)
      /\ (cs = [] \/ exists c, cs = [c] /\ synthesizedDeposit i c)).
  { intros H. inversion H; subst. pushes_nothing. }
  destruct (negb (Text.truthy (Text.trim rawLine))); [exact Hnothing|].
  destruct (valueAt _ (indexOf header "date")) as [dateRaw|];
    [|discriminate].
  destruct (option_map _ _) as [ticker|]; [|exact Hnothing].
  destruct (negb (Text.truthy ticker)
            || negb (Text.truthy (convertDateFormat dateRaw))
            || isNaN _) eqn:Hcheck; [exact Hnothing|].
  apply orb_false_elim in Hcheck. destruct Hcheck as [Hcheck Hnan].
  apply orb_false_elim in Hcheck. destruct Hcheck as [Hsym Hdate].
  apply negb_false_iff in Hsym, Hdate. apply truthy_true in Hsym, Hdate.
  clear Hnothing. intros H. apply Parsed_inj in H. subst acc'.
  set (type := if codeIs _ "sell" then sell else buy).
  set (price := if negb (indexOf header "price" =? -1)%Z then _ else NaN).
  set (shares := parseFloatOpt _) in *.
  assert (Htrade :
    simpleTrade i
      (Trade.mk (tradeId ticker (convertDateFormat dateRaw) i) ticker
         (convertDateFormat dateRaw) shares (priceUnlessNaN price) type)).
  { unfold simpleTrade. cbn [Trade.ticker Trade.date Trade.shares
      Trade.price Trade.id].
    split; [exact Hsym|]. split; [exact Hdate|].
    split; [intros E; rewrite E in Hnan; discriminate Hnan|].
    split; [apply priceUnlessNaN_not_NaN | reflexivity]. }
  destruct (isBuy type && negb (isNaN price) && Num.gtb price Num.zero).
  - eexists [_], [_]. cbn [fst snd]. split; [reflexivity|].
    split; right; eexists; (split; [reflexivity|]); [exact Htrade|].
    unfold synthesizedDeposit. cbn [CashFlow.type CashFlow.ticker
      CashFlow.id CashFlow.date]. repeat split.
  - eexists [_], []. cbn [fst snd]. rewrite app_nil_r.
    split; [reflexivity|]. split; [|left; reflexivity].
    right. eexists. split; [reflexivity | exact Htrade].
Qed.

Lemma simpleRow_mirrors header i rawLine acc acc' :
  depositsMirror acc -> simpleRow header i rawLine acc = Parsed acc' ->
  depositsMirror acc'.
Proof.
  unfold simpleRow. destruct acc as [trades cashFlows]. intros HP.
  assert (Hnothing : Parsed (trades, cashFlows) = Parsed acc' ->
                     depositsMirror acc').
  { intros H. inversion H; subst. exact HP. }
  destruct (negb (Text.truthy (Text.trim rawLine))); [exact Hnothing|].
  destruct (valueAt _ (indexOf header "date")) as [dateRaw|];
    [|discriminate].
  destruct (option_map _ _) as [ticker|]; [|exact Hnothing].
  destruct (negb (Text.truthy ticker) || _ || _); [exact Hnothing|].
  intros H. apply Parsed_inj in H. subst acc'.
  apply depositsMirror_push. exact HP.
Qed.

(** The three outcomes of [parseSimpleCSV] on a file with a first
    line. *)
Lemma parseSimpleCSV_cases first dataLines :
  if negb (hasColumn (map Text.toLowerCase (parseCSVLine first)) "ticker"
           && hasColumn (map Text.toLowerCase (parseCSVLine first)) "date"
           && hasColumn (map Text.toLowerCase (parseCSVLine first)) "shares")
  then parseSimpleCSV (first :: dataLines) = ErrorThrown missingColumns
  else if existsb (shortLine (map Text.toLowerCase (parseCSVLine first)))
            dataLines
  then parseSimpleCSV (first :: dataLines) = TypeErrorThrown
  else exists data, parseSimpleCSV (first :: dataLines) = Parsed data.
Proof.
  unfold parseSimpleCSV.
  set (header := map Text.toLowerCase (parseCSVLine first)).
  rewrite !indexOf_missing.
  destruct (hasColumn header "ticker"); cbn [negb andb orb]; [|reflexivity].
  destruct (hasColumn header "date") eqn:Hdate; cbn [negb andb orb];
    [|reflexivity].
  destruct (hasColumn header "shares"); cbn [negb andb orb]; [|reflexivity].
  pose proof (forRowsThrowing_throws (simpleRow header) (shortLine header)
                (fun i x acc =>
                   simpleRow_throws header i x acc
                     (indexOf_present header "date" Hdate))
                dataLines 1 ([], [])) as H.
  destruct (existsb (shortLine header) dataLines).
  - rewrite H. reflexivity.
  - destruct H as [[trades cashFlows] ->]. eexists. reflexivity.
Qed.

Lemma parseSimpleCSV_pushes lines data :
  parseSimpleCSV lines = Parsed data ->
  PortfolioData.format data = simpleFormat
  /\ pushedBy simpleTrade 1 (List.length lines - 1)
       (PortfolioData.trades data)
  /\ pushedBy synthesizedDeposit 1 (List.length lines - 1)
       (PortfolioData.cashFlows data)
  /\ depositsMirror (PortfolioData.trades data, PortfolioData.cashFlows data).
Proof.
  unfold parseSimpleCSV. destruct lines as [|first dataLines];
    [discriminate|].
  set (header := map Text.toLowerCase (parseCSVLine first)).
  destruct (_ || _ || _); [discriminate|].
  destruct (forRowsThrowing _ 1 dataLines ([], []))
    as [[trades cashFlows]| |] eqn:E; try discriminate.
  intros H. inversion H; subst data. clear H.
  cbn [PortfolioData.format PortfolioData.trades PortfolioData.cashFlows].
  destruct (forRowsThrowing_pushes (simpleRow header) simpleTrade
              synthesizedDeposit (simpleRow_pushes header) _ _ _ _ E)
    as [ts [cs [Eacc [Ht Hc]]]].
  cbn [fst snd app] in Eacc. inversion Eacc; subst ts cs.
  assert (L : (List.length (first :: dataLines) - 1)%nat
              = List.length dataLines) by (cbn [List.length]; lia).
  rewrite L. split; [reflexivity|]. split; [exact Ht|]. split; [exact Hc|].
  apply (forRowsThrowing_keeps (simpleRow header) depositsMirror
           (simpleRow_mirrors header) dataLines 1 ([], []));
    [constructor | exact E].
Qed.

(* ================================================================== *)
(** * The ids of the records *)
(* ================================================================== *)

Lemma string_of_uint_digits d :
  allDigits (NilEmpty.string_of_uint d) = true.
Proof. induction d; cbn; try rewrite IHd; reflexivity. Qed.

Lemma ofNat_digits i : allDigits (Text.ofNat i) = true.
Proof. apply string_of_uint_digits. Qed.

Lemma ofNat_inj i j : Text.ofNat i = Text.ofNat j -> i = j.
Proof.
  unfold Text.ofNat. intros H. apply Unsigned.to_uint_inj.
  pose proof (NilEmpty.usu (Nat.to_uint i)) as Hi.
  pose proof (NilEmpty.usu (Nat.to_uint j)) as Hj.
  rewrite H in Hi. rewrite Hi in Hj. inversion Hj. reflexivity.
Qed.

Lemma digit_not_hyphen c : Date.isDigit c = true -> Ascii.eqb c hyphen = false.
Proof.
  intros H. destruct (Ascii.eqb_spec c hyphen) as [-> | _];
    [discriminate H | reflexivity].
Qed.

Lemma ofNat_no_hyphen i : Text.includesChar hyphen (Text.ofNat i) = false.
Proof.
  apply allDigits_includes; [exact digit_not_hyphen | apply ofNat_digits].
Qed.

(** The text after the last hyphen determines the text before it. *)
Lemma last_segment_inj stem :
  forall stem' d d',
    Text.includesChar hyphen d = false ->
    Text.includesChar hyphen d' = false ->
    (stem ++ String hyphen d)%string = (stem' ++ String hyphen d')%string ->
    stem = stem' /\ d = d'.
Proof.
  induction stem as [|c stem IH]; intros stem' d d' Hd Hd' E.
  - destruct stem' as [|c' stem']; cbn [String.append] in E.
    + inversion E. split; reflexivity.
    + inversion E as [[Ec Ed]]. subst d.
      rewrite includesChar_append in Hd. cbn [Text.includesChar] in Hd.
      rewrite Ascii.eqb_refl, orb_true_r in Hd. discriminate.
  - destruct stem' as [|c' stem']; cbn [String.append] in E.
    + inversion E as [[Ec Ed]]. subst d'.
      rewrite includesChar_append in Hd'. cbn [Text.includesChar] in Hd'.
      rewrite Ascii.eqb_refl, orb_true_r in Hd'. discriminate.
    + inversion E as [[Ec Ed]]. destruct (IH _ _ _ Hd Hd' Ed) as [-> ->].
      split; reflexivity.
Qed.

Lemma append_segment (s d rest : string) :
  (s ++ String hyphen (d ++ rest))%string
  = ((s ++ String hyphen d) ++ rest)%string.
Proof. rewrite append_assoc. reflexivity. Qed.

Lemma split_no_hyphen : Text.includesChar hyphen "split" = false.
Proof. reflexivity. Qed.

Lemma rowId_row i j id : rowId i id -> rowId j id -> i = j.
Proof.
  intros [s [-> | ->]] [s' [E | E]].
  - apply last_segment_inj in E; try apply ofNat_no_hyphen.
    apply ofNat_inj, E.
  - change (s' ++ "-" ++ Text.ofNat j ++ "-split")%string
      with (s' ++ String hyphen (Text.ofNat j ++ String hyphen "split"))%string
      in E.
    rewrite (append_segment s' (Text.ofNat j)) in E.
    apply last_segment_inj in E;
      [|apply ofNat_no_hyphen | exact split_no_hyphen].
    destruct E as [_ E]. pose proof (ofNat_digits i) as D.
    rewrite E in D. discriminate D.
  - change (s ++ "-" ++ Text.ofNat i ++ "-split")%string
      with (s ++ String hyphen (Text.ofNat i ++ String hyphen "split"))%string
      in E.
    rewrite (append_segment s (Text.ofNat i)) in E.
    apply last_segment_inj in E;
      [|exact split_no_hyphen | apply ofNat_no_hyphen].
    destruct E as [_ E]. pose proof (ofNat_digits j) as D.
    rewrite <- E in D. discriminate D.
  - change (s ++ "-" ++ Text.ofNat i ++ "-split")%string
      with (s ++ String hyphen (Text.ofNat i ++ String hyphen "split"))%string
      in E.
    change (s' ++ "-" ++ Text.ofNat j ++ "-split")%string
      with (s' ++ String hyphen (Text.ofNat j ++ String hyphen "split"))%string
      in E.
    rewrite (append_segment s (Text.ofNat i)) in E.
    rewrite (append_segment s' (Text.ofNat j)) in E.
    apply last_segment_inj in E; try exact split_no_hyphen.
    destruct E as [E _].
    apply last_segment_inj in E; try apply ofNat_no_hyphen.
    apply ofNat_inj, E.
Qed.

Lemma tradeId_rowId ticker date i : rowId i (tradeId ticker date i).
Proof.
  exists (ticker ++ "-" ++ date)%string. left. unfold tradeId.
  rewrite !append_assoc. reflexivity.
Qed.

Lemma tradeId_split_rowId ticker date i :
  rowId i (tradeId ticker date i ++ "-split")%string.
Proof.
  exists (ticker ++ "-" ++ date)%string. right. unfold tradeId.
  rewrite !append_assoc. reflexivity.
Qed.

Lemma cashFlowId_rowId date i : rowId i (cashFlowId date i).
Proof.
  exists ("cashflow-" ++ date)%string. left. unfold cashFlowId.
  rewrite !append_assoc. reflexivity.
Qed.

Lemma Forall2_In_r {X Y} (P : X -> Y -> Prop) l1 l2 y :
  Forall2 P l1 l2 -> In y l2 -> exists x, In x l1 /\ P x y.
Proof.
  intros H. induction H as [|x y' l1 l2 Hxy H IH]; intros Hin;
    [contradiction|].
  destruct Hin as [->|Hin].
  - exists x. split; [left; reflexivity | exact Hxy].
  - destruct (IH Hin) as [x' [Hx' HP]]. exists x'.
    split; [right; exact Hx' | exact HP].
Qed.

(** Records pushed by distinct rows, with the row index at the end of
    their keys, have distinct keys. *)
Lemma pushedBy_NoDup {R} (made : nat -> R -> Prop) (key : R -> string) lo n
  records :
  (forall i r, made i r -> rowId i (key r)) ->
  pushedBy made lo n records -> NoDup (map key records).
Proof.
  intros Hkey [rows [H2 [Hs _]]].
  induction H2 as [|i r rows' records' Hmade H2 IH]; cbn [map];
    [constructor|].
  inversion Hs as [|? ? Hs' Hlt]; subst.
  constructor; [|exact (IH Hs')].
  intros Hin. apply in_map_iff in Hin. destruct Hin as [r' [Ekey Hin]].
  destruct (Forall2_In_r _ _ _ _ H2 Hin) as [j [Hj Hmade']].
  rewrite Forall_forall in Hlt. pose proof (Hlt j Hj) as L.
  pose proof (Hkey _ _ Hmade') as K'. rewrite Ekey in K'.
  pose proof (rowId_row _ _ _ (Hkey _ _ Hmade) K'). lia.
Qed.

(* ================================================================== *)
(** * What the parsers return *)
(* ================================================================== *)

(** X23 (Robinhood).  [parseRobinhoodCSV] never throws.  Every data row
    pushes at most one trade and at most one cash flow, in row order,
    so there are at most as many of each as there are data rows, and
    none when the file has fewer than two rows.  A trade has a ticker
    other than the empty text and [FB], a date, shares above [0], a
    price that is not [NaN] when it has one, and an id made of ticker,
    date and row index; the shares of a split are a buy at the price
    [0] whose id ends in [-split].  A cash flow has a date, an amount
    above [0], a ticker other than the empty text and [FB] when it has
    one, and an id made of its date and row index. *)
Theorem robinhood_records :
  forall csvText : string,
    PortfolioData.format (parseRobinhoodCSV csvText) = robinhoodFormat
    /\ pushedBy robinhoodTrade 1
         (List.length (parseMultiLineCSV csvText) - 1)
         (PortfolioData.trades (parseRobinhoodCSV csvText))
    /\ pushedBy robinhoodCashFlow 1
         (List.length (parseMultiLineCSV csvText) - 1)
         (PortfolioData.cashFlows (parseRobinhoodCSV csvText))
    /\ (List.length (PortfolioData.trades (parseRobinhoodCSV csvText))
        <= List.length (parseMultiLineCSV csvText) - 1)%nat
    /\ (List.length (PortfolioData.cashFlows (parseRobinhoodCSV csvText))
        <= List.length (parseMultiLineCSV csvText) - 1)%nat.
Proof.
  intros csvText.
  destruct (parseRobinhoodCSV_pushes csvText) as [Hf [Ht Hc]].
  split; [exact Hf|]. split; [exact Ht|]. split; [exact Hc|].
  split; eapply pushedBy_length; eassumption.
Qed.

(** X24 (Fidelity).  [parseFidelityCSV] never throws.  Every data row
    pushes at most one trade and at most one cash flow, in row order.
    A trade has a ticker other than the empty text and [FB], a date,
    shares that are not negative, and above [0] for a buy, a price that
    is neither [NaN] nor [0] when it has one, and an id made of ticker,
    date and row index; a sell is never of a money market fund.  A cash
    flow has a date and an amount above [0]; it is a deposit without a
    ticker, or a dividend whose ticker, when it has one, is neither
    empty nor [FB] nor a money market fund. *)
Theorem fidelity_records :
  forall csvText : string,
    PortfolioData.format (parseFidelityCSV csvText) = fidelityFormat
    /\ pushedBy fidelityTrade 1
         (List.length (parseMultiLineCSV csvText) - 1)
         (PortfolioData.trades (parseFidelityCSV csvText))
    /\ pushedBy fidelityCashFlow 1
         (List.length (parseMultiLineCSV csvText) - 1)
         (PortfolioData.cashFlows (parseFidelityCSV csvText))
    /\ (List.length (PortfolioData.trades (parseFidelityCSV csvText))
        <= List.length (parseMultiLineCSV csvText) - 1)%nat
    /\ (List.length (PortfolioData.cashFlows (parseFidelityCSV csvText))
        <= List.length (parseMultiLineCSV csvText) - 1)%nat.
Proof.
  intros csvText.
  destruct (parseFidelityCSV_pushes csvText) as [Hf [Ht Hc]].
  split; [exact Hf|]. split; [exact Ht|]. split; [exact Hc|].
  split; eapply pushedBy_length; eassumption.
Qed.

(** X25 (Schwab).  [parseSchwabCSV] throws a [TypeError] on an empty
    array of lines and returns otherwise.  Every line after the first
    pushes at most one trade, in line order: a buy with a ticker other
    than the empty text and [FB], a date, shares above [0] and a price
    that is not [NaN] when it has one.  The cash flows are the deposits
    of the buys with a price above [0], in the order of the trades: each
    has the date of its trade, no ticker and the amount shares times
    price, which is [0] or more: the product of two numbers above [0]
    can be [0] or [Infinity] in binary64, never below [0] or [NaN]. *)
Theorem schwab_records :
  parseSchwabCSV [] = TypeErrorThrown
  /\ forall (first : string) (dataLines : list string),
       exists data,
         parseSchwabCSV (first :: dataLines) = Parsed data
         /\ PortfolioData.format data = schwabFormat
         /\ pushedBy schwabTrade 1 (List.length dataLines)
              (PortfolioData.trades data)
         /\ pushedBy vestDeposit 1 (List.length dataLines)
              (PortfolioData.cashFlows data)
         /\ depositsMirror
              (PortfolioData.trades data, PortfolioData.cashFlows data).
Proof.
  split; [reflexivity|]. intros first dataLines.
  apply parseSchwabCSV_pushes.
Qed.

(** X26 (simple format).  [parseSimpleCSV] throws a [TypeError] on an
    empty array of lines.  On a first line whose lower-cased header
    lacks one of the columns [ticker], [date] and [shares] it throws
    the error about the columns.  Otherwise it throws a [TypeError] when
    some later line is not blank and has no value at the position of
    the date column, and it returns when there is no such line.  When
    it returns, every line after the first has pushed at most one
    trade, in line order, with a ticker, a date, shares that are not
    [NaN] and a price that is not [NaN] when it has one; and the cash
    flows are the deposits of the buys with a price above [0], in the
    order of the trades, each with the date of its trade, no ticker and
    the amount shares times price. *)
Theorem simple_outcomes :
  parseSimpleCSV [] = TypeErrorThrown
  /\ forall (first : string) (dataLines : list string),
       (if negb (hasColumn (lowerHeader first) "ticker"
                 && hasColumn (lowerHeader first) "date"
                 && hasColumn (lowerHeader first) "shares")
        then parseSimpleCSV (first :: dataLines) = ErrorThrown missingColumns
        else if existsb (shortLine (lowerHeader first)) dataLines
        then parseSimpleCSV (first :: dataLines) = TypeErrorThrown
        else exists data, parseSimpleCSV (first :: dataLines) = Parsed data)
       /\ forall data,
            parseSimpleCSV (first :: dataLines) = Parsed data ->
            PortfolioData.format data = simpleFormat
            /\ pushedBy simpleTrade 1 (List.length dataLines)
                 (PortfolioData.trades data)
            /\ pushedBy synthesizedDeposit 1 (List.length dataLines)
                 (PortfolioData.cashFlows data)
            /\ depositsMirror
                 (PortfolioData.trades data, PortfolioData.cashFlows data).
Proof.
  split; [reflexivity|]. intros first dataLines.
  split; [exact (parseSimpleCSV_cases first dataLines)|].
  intros data H. pose proof (parseSimpleCSV_pushes _ _ H) as P.
  assert (L : (List.length (first :: dataLines) - 1)%nat
              = List.length dataLines) by (cbn [List.length]; lia).
  rewrite L in P. exact P.
Qed.

Lemma simple_outcomes_witness :
  parseSimpleCSV simpleSample
  = Parsed
      (PortfolioData.mk
         [Trade.mk "AAPL-2023-01-05-1" "AAPL" "2023-01-05" (parseFloat "10")
            (Some (parseFloat "142.50")) buy;
          Trade.mk "FB-2023-02-20-2" "FB" "2023-02-20" (parseFloat "5")
            None buy]
         [CashFlow.mk "cashflow-2023-01-05-1" "2023-01-05"
            (Num.mul (parseFloat "10") (parseFloat "142.50")) deposit None]
         simpleFormat)
  /\ depositsMirror
       ([Trade.mk "AAPL-2023-01-05-1" "AAPL" "2023-01-05" (parseFloat "10")
           (Some (parseFloat "142.50")) buy;
         Trade.mk "FB-2023-02-20-2" "FB" "2023-02-20" (parseFloat "5")
           None buy],
        [CashFlow.mk "cashflow-2023-01-05-1" "2023-01-05"
           (Num.mul (parseFloat "10") (parseFloat "142.50")) deposit None]).
Proof.
  assert (E : parseSimpleCSV simpleSample
              = Parsed
                  (PortfolioData.mk
                     [Trade.mk "AAPL-2023-01-05-1" "AAPL" "2023-01-05"
                        (parseFloat "10") (Some (parseFloat "142.50")) buy;
                      Trade.mk "FB-2023-02-20-2" "FB" "2023-02-20"
                        (parseFloat "5") None buy]
                     [CashFlow.mk "cashflow-2023-01-05-1" "2023-01-05"
                        (Num.mul (parseFloat "10") (parseFloat "142.50"))
                        deposit None]
                     simpleFormat)) by (vm_compute; reflexivity).
  split; [exact E|].
  exact (proj2 (proj2 (proj2
           (proj2 (proj2 simple_outcomes "Ticker,Date,Shares,Price"%string
                     (tl simpleSample)) _ E)))).
Defined.

Lemma robinhoodTrade_rowId i t : robinhoodTrade i t -> rowId i (Trade.id t).
Proof.
  intros [_ [_ [_ [_ [_ [-> | [-> _]]]]]]];
    [apply tradeId_rowId | apply tradeId_split_rowId].
Qed.

Lemma robinhoodCashFlow_rowId i c :
  robinhoodCashFlow i c -> rowId i (CashFlow.id c).
Proof. intros [_ [_ [_ [_ ->]]]]. apply cashFlowId_rowId. Qed.

Lemma fidelityTrade_rowId i t : fidelityTrade i t -> rowId i (Trade.id t).
Proof. intros [_ [_ [_ [_ [_ [_ [_ ->]]]]]]]. apply tradeId_rowId. Qed.

Lemma fidelityCashFlow_rowId i c :
  fidelityCashFlow i c -> rowId i (CashFlow.id c).
Proof. intros [_ [_ [_ ->]]]. apply cashFlowId_rowId. Qed.

Lemma schwabTrade_rowId i t : schwabTrade i t -> rowId i (Trade.id t).
Proof. intros [_ [_ [_ [_ [_ [_ ->]]]]]]. apply tradeId_rowId. Qed.

Lemma simpleTrade_rowId i t : simpleTrade i t -> rowId i (Trade.id t).
Proof. intros [_ [_ [_ [_ ->]]]]. apply tradeId_rowId. Qed.

Lemma synthesizedDeposit_rowId i c :
  synthesizedDeposit i c -> rowId i (CashFlow.id c).
Proof. intros [_ [_ ->]]. apply cashFlowId_rowId. Qed.

Lemma vestDeposit_rowId i c : vestDeposit i c -> rowId i (CashFlow.id c).
Proof. intros [H _]. apply synthesizedDeposit_rowId, H. Qed.

Lemma parseRobinhoodCSV_ids csvText :
  NoDup (map Trade.id (PortfolioData.trades (parseRobinhoodCSV csvText)))
  /\ NoDup (map CashFlow.id
              (PortfolioData.cashFlows (parseRobinhoodCSV csvText))).
Proof.
  destruct (parseRobinhoodCSV_pushes csvText) as [_ [Ht Hc]]. split.
  - exact (pushedBy_NoDup _ _ _ _ _ robinhoodTrade_rowId Ht).
  - exact (pushedBy_NoDup _ _ _ _ _ robinhoodCashFlow_rowId Hc).
Qed.

Lemma parseFidelityCSV_ids csvText :
  NoDup (map Trade.id (PortfolioData.trades (parseFidelityCSV csvText)))
  /\ NoDup (map CashFlow.id
              (PortfolioData.cashFlows (parseFidelityCSV csvText))).
Proof.
  destruct (parseFidelityCSV_pushes csvText) as [_ [Ht Hc]]. split.
  - exact (pushedBy_NoDup _ _ _ _ _ fidelityTrade_rowId Ht).
  - exact (pushedBy_NoDup _ _ _ _ _ fidelityCashFlow_rowId Hc).
Qed.

Lemma parseSchwabCSV_ids lines data :
  parseSchwabCSV lines = Parsed data ->
  NoDup (map Trade.id (PortfolioData.trades data))
  /\ NoDup (map CashFlow.id (PortfolioData.cashFlows data)).
Proof.
  destruct lines as [|first dataLines]; [discriminate|].
  destruct (parseSchwabCSV_pushes first dataLines)
    as [data' [E [_ [Ht [Hc _]]]]].
  rewrite E. intros H. apply Parsed_inj in H. subst data'. split.
  - exact (pushedBy_NoDup _ _ _ _ _ schwabTrade_rowId Ht).
  - exact (pushedBy_NoDup _ _ _ _ _ vestDeposit_rowId Hc).
Qed.

Lemma parseSimpleCSV_ids lines data :
  parseSimpleCSV lines = Parsed data ->
  NoDup (map Trade.id (PortfolioData.trades data))
  /\ NoDup (map CashFlow.id (PortfolioData.cashFlows data)).
Proof.
  intros H. destruct (parseSimpleCSV_pushes _ _ H) as [_ [Ht [Hc _]]]. split.
  - exact (pushedBy_NoDup _ _ _ _ _ simpleTrade_rowId Ht).
  - exact (pushedBy_NoDup _ _ _ _ _ synthesizedDeposit_rowId Hc).
Qed.

(** X27 (ids).  Whatever the file, no two trades a parser returns have
    the same id, and no two cash flows have: the id of a record ends
    with the index of the row that pushed it, or with that index and
    [-split], a row pushes at most one record of each kind, and an
    index is written in digits, so that the text after the last hyphen
    tells the rows apart. *)
Theorem record_ids_are_distinct :
  forall (csvText : string) (lines : list string),
    (NoDup (map Trade.id (PortfolioData.trades (parseRobinhoodCSV csvText)))
     /\ NoDup (map CashFlow.id
                 (PortfolioData.cashFlows (parseRobinhoodCSV csvText))))
    /\ (NoDup (map Trade.id (PortfolioData.trades (parseFidelityCSV csvText)))
        /\ NoDup (map CashFlow.id
                    (PortfolioData.cashFlows (parseFidelityCSV csvText))))
    /\ (forall data,
          parseSchwabCSV lines = Parsed data ->
          NoDup (map Trade.id (PortfolioData.trades data))
          /\ NoDup (map CashFlow.id (PortfolioData.cashFlows data)))
    /\ (forall data,
          parseSimpleCSV lines = Parsed data ->
          NoDup (map Trade.id (PortfolioData.trades data))
          /\ NoDup (map CashFlow.id (PortfolioData.cashFlows data))).
Proof.
  intros csvText lines.
  split; [apply parseRobinhoodCSV_ids|].
  split; [apply parseFidelityCSV_ids|].
  split; intros data H;
    [exact (parseSchwabCSV_ids _ _ H) | exact (parseSimpleCSV_ids _ _ H)].
Qed.

(* ================================================================== *)
(** * Choosing the parser *)
(* ================================================================== *)

Lemma splitOn_single c s :
  (len (splitOn c s) <? 2)%Z = negb (Text.includesChar c s).
Proof.
  induction s as [|x s IH]; cbn [splitOn Text.includesChar]; [reflexivity|].
  destruct (Ascii.eqb x c); cbn [orb negb].
  - pose proof (splitOn_nonempty c s) as N.
    destruct (splitOn c s); [contradiction|].
    apply Z.ltb_ge. unfold len. cbn [List.length]. lia.
  - rewrite <- IH. pose proof (splitOn_nonempty c s) as N.
    destruct (splitOn c s); [contradiction|]. reflexivity.
Qed.

Lemma parseCSV_unfold csvText :
  parseCSV csvText
  = if negb (Text.includesChar Text.LF (Text.trim csvText))
    then ErrorThrown headerRowMissing
    else match detectedFormat (headerOf csvText) with
         | robinhoodFormat => Parsed (parseRobinhoodCSV csvText)
         | fidelityFormat => Parsed (parseFidelityCSV csvText)
         | schwabFormat => parseSchwabCSV (linesOf csvText)
         | simpleFormat => parseSimpleCSV (linesOf csvText)
         end.
Proof.
  unfold parseCSV, headerOf, linesOf, detectedFormat.
  rewrite <- splitOn_single.
  pose proof (splitOn_nonempty Text.LF (Text.trim csvText)) as N.
  destruct (splitOn Text.LF (Text.trim csvText)) as [|first rest];
    [contradiction|].
  cbn [hd]. destruct (len (first :: rest) <? 2)%Z; [reflexivity|].
  destruct (isRobinhoodFormat _); [reflexivity|].
  destruct (isFidelityFormat _); [reflexivity|].
  destruct (isSchwabFormat _); reflexivity.
Qed.

Lemma usable_robinhood i t : robinhoodTrade i t -> usableTrade t.
Proof.
  intros [Ht [_ [Hd [Hs [Hp _]]]]]. repeat split; try assumption.
  intros E. unfold aboveZero in Hs. rewrite E in Hs. discriminate Hs.
Qed.

Lemma usable_fidelity i t : fidelityTrade i t -> usableTrade t.
Proof.
  intros [Ht [_ [Hd [Hs [_ [_ [Hp _]]]]]]]. repeat split; try assumption.
  - intros E. unfold Num.le in Hs. rewrite E in Hs. discriminate Hs.
  - intros E. destruct (Hp _ E) as [N _]. discriminate N.
Qed.

Lemma usable_schwab i t : schwabTrade i t -> usableTrade t.
Proof.
  intros [Ht [_ [Hd [Hs [Hp _]]]]]. repeat split; try assumption.
  intros E. unfold aboveZero in Hs. rewrite E in Hs. discriminate Hs.
Qed.

Lemma usable_simple i t : simpleTrade i t -> usableTrade t.
Proof. intros [Ht [Hd [Hs [Hp _]]]]. repeat split; assumption. Qed.

Lemma parseSimpleCSV_message lines message :
  parseSimpleCSV lines = ErrorThrown message -> message = missingColumns.
Proof.
  destruct lines as [|first dataLines]; [discriminate|].
  pose proof (parseSimpleCSV_cases first dataLines) as H.
  destruct (negb _).
  - rewrite H. intros E. inversion E. reflexivity.
  - destruct (existsb _ dataLines).
    + rewrite H. discriminate.
    + destruct H as [data ->]. discriminate.
Qed.

(** X28 (dispatch).  [parseCSV] throws the error about the header row
    exactly when the trimmed text has no line feed.  Any other error it
    throws is the one of the simple parser about the columns, and a
    [TypeError] comes from the simple parser too.  When it returns, the
    format of the result is the one detected on the first line of the
    trimmed text, Robinhood before Fidelity before Schwab; every trade
    has a ticker and a date, and neither its shares nor its price are
    [NaN]; and no two trades and no two cash flows have the same
    id. *)
Theorem parseCSV_outcomes :
  forall csvText : string,
    (parseCSV csvText = ErrorThrown headerRowMissing
     <-> Text.includesChar Text.LF (Text.trim csvText) = false)
    /\ (forall message,
          parseCSV csvText = ErrorThrown message ->
          message = headerRowMissing
          \/ (message = missingColumns
              /\ detectedFormat (headerOf csvText) = simpleFormat))
    /\ (parseCSV csvText = TypeErrorThrown ->
        detectedFormat (headerOf csvText) = simpleFormat)
    /\ (forall data,
          parseCSV csvText = Parsed data ->
          PortfolioData.format data = detectedFormat (headerOf csvText)
          /\ Forall usableTrade (PortfolioData.trades data)
          /\ NoDup (map Trade.id (PortfolioData.trades data))
          /\ NoDup (map CashFlow.id (PortfolioData.cashFlows data))).
Proof.
  intros csvText. rewrite parseCSV_unfold.
  pose proof (splitOn_nonempty Text.LF (Text.trim csvText)) as N.
  fold (linesOf csvText) in N.
  destruct (Text.includesChar Text.LF (Text.trim csvText)); cbn [negb].
  2:{ split; [split; reflexivity|].
      split; [intros m H; left; inversion H; reflexivity|].
      split; intros; discriminate. }
  destruct (linesOf csvText) as [|first dataLines] eqn:L; [contradiction|].
  destruct (detectedFormat (headerOf csvText)).
  - split; [split; discriminate|]. split; [discriminate|].
    split; [discriminate|]. intros data H. apply Parsed_inj in H. subst data.
    destruct (parseRobinhoodCSV_pushes csvText) as [Hf [Ht _]].
    destruct (parseRobinhoodCSV_ids csvText) as [Hi Hc].
    split; [exact Hf|].
    split; [exact (pushedBy_Forall _ _ _ _ _ usable_robinhood Ht)|].
    split; assumption.
  - split; [split; discriminate|]. split; [discriminate|].
    split; [discriminate|]. intros data H. apply Parsed_inj in H. subst data.
    destruct (parseFidelityCSV_pushes csvText) as [Hf [Ht _]].
    destruct (parseFidelityCSV_ids csvText) as [Hi Hc].
    split; [exact Hf|].
    split; [exact (pushedBy_Forall _ _ _ _ _ usable_fidelity Ht)|].
    split; assumption.
  - destruct (parseSchwabCSV_pushes first dataLines)
      as [data' [E [Hf [Ht [Hc _]]]]].
    rewrite E. split; [split; discriminate|]. split; [discriminate|].
    split; [discriminate|]. intros data H. apply Parsed_inj in H. subst data'.
    split; [exact Hf|].
    split; [exact (pushedBy_Forall _ _ _ _ _ usable_schwab Ht)|].
    exact (parseSchwabCSV_ids _ _ E).
  - split; [split; [|discriminate]|].
    { intros H. apply parseSimpleCSV_message in H. discriminate H. }
    split.
    { intros m H. right. split; [|reflexivity].
      exact (parseSimpleCSV_message _ _ H). }
    split; [reflexivity|]. intros data H.
    destruct (parseSimpleCSV_pushes _ _ H) as [Hf [Ht _]].
    split; [exact Hf|].
    split; [exact (pushedBy_Forall _ _ _ _ _ usable_simple Ht)|].
    exact (parseSimpleCSV_ids _ _ H).
Qed.

(* ================================================================== *)
(** * Writing a file and reading it back *)
(* ================================================================== *)

Section ReadBack.

Variable finish : string -> string.
Hypothesis finish_empty : finish EmptyString = EmptyString.

(** A character that is pushed to the field: not a double quote, not a
    carriage return and, outside double quotes, neither a comma nor a
    line feed. *)
Lemma step_plain c rest rows currentRow currentField inQuotes :
  Ascii.eqb c Text.dquote = false ->
  Ascii.eqb c Text.CR = false ->
  (inQuotes = false ->
   Ascii.eqb c Text.comma = false /\ Ascii.eqb c Text.LF = false) ->
  multiLineLoop finish (String c rest) rows currentRow currentField inQuotes
  = multiLineLoop finish rest rows currentRow (Text.push currentField c)
      inQuotes.
Proof.
  intros Hq Hcr Hout.
  destruct rest as [|n rest];
    [rewrite multiLineLoop_one | rewrite multiLineLoop_two];
    rewrite Hq, Hcr; cbn [andb orb negb];
    (destruct inQuotes; cbn [negb];
     [rewrite !andb_false_r; reflexivity|]);
    destruct (Hout eq_refl) as [-> ->]; reflexivity.
Qed.

Lemma step_comma rest rows currentRow currentField :
  multiLineLoop finish (String Text.comma rest) rows currentRow currentField
    false
  = multiLineLoop finish rest rows (currentRow ++ [finish currentField])
      EmptyString false.
Proof.
  destruct rest as [|n rest];
    [rewrite multiLineLoop_one | rewrite multiLineLoop_two]; reflexivity.
Qed.

Lemma step_LF rest rows currentRow currentField :
  multiLineLoop finish (String Text.LF rest) rows currentRow currentField
    false
  = multiLineLoop finish rest
      (pushRow rows (currentRow ++ [finish currentField])) [] EmptyString
      false.
Proof.
  destruct rest as [|n rest];
    [rewrite multiLineLoop_one | rewrite multiLineLoop_two]; reflexivity.
Qed.

Lemma step_open rest rows currentRow currentField :
  multiLineLoop finish (String Text.dquote rest) rows currentRow currentField
    false
  = multiLineLoop finish rest rows currentRow currentField true.
Proof.
  destruct rest as [|n rest];
    [rewrite multiLineLoop_one | rewrite multiLineLoop_two]; reflexivity.
Qed.

Lemma step_close rest rows currentRow currentField :
  notQuoteFirst rest ->
  multiLineLoop finish (String Text.dquote rest) rows currentRow currentField
    true
  = multiLineLoop finish rest rows currentRow currentField false.
Proof.
  intros H. destruct rest as [|n rest];
    [rewrite multiLineLoop_one | rewrite multiLineLoop_two].
  - reflexivity.
  - cbn [notQuoteFirst] in H. rewrite H. reflexivity.
Qed.

Lemma step_doubled rest rows currentRow currentField :
  multiLineLoop finish (String Text.dquote (String Text.dquote rest)) rows
    currentRow currentField true
  = multiLineLoop finish rest rows currentRow
      (Text.push currentField Text.dquote) true.
Proof. rewrite multiLineLoop_two. reflexivity. Qed.

(** The inside of a field written in double quotes, and the closing
    double quote. *)
Lemma reads_quoted rest rows currentRow :
  notQuoteFirst rest ->
  forall field currentField,
    noCR field ->
    multiLineLoop finish
      (Merger.doubleQuotes field ++ String Text.dquote rest) rows currentRow
      currentField true
    = multiLineLoop finish rest rows currentRow (currentField ++ field)
        false.
Proof.
  intros Hrest. unfold noCR.
  induction field as [|c field IH]; intros currentField Hcr.
  - cbn [Merger.doubleQuotes String.append]. rewrite append_nil_r.
    apply step_close, Hrest.
  - cbn [Text.includesChar] in Hcr. apply orb_false_elim in Hcr.
    destruct Hcr as [Hc Hcr]. cbn [Merger.doubleQuotes].
    destruct (Ascii.eqb c Text.dquote) eqn:Hq; cbn [String.append].
    + apply Ascii.eqb_eq in Hq. subst c.
      rewrite step_doubled, (IH _ Hcr), push_append. reflexivity.
    + rewrite step_plain; [|exact Hq|exact Hc|discriminate].
      rewrite (IH _ Hcr), push_append. reflexivity.
Qed.

(** A field written as it is. *)
Lemma reads_bare rest rows currentRow :
  forall field currentField,
    noCR field ->
    Text.includesChar Text.comma field = false ->
    Text.includesChar Text.dquote field = false ->
    Text.includesChar Text.LF field = false ->
    multiLineLoop finish (field ++ rest) rows currentRow currentField false
    = multiLineLoop finish rest rows currentRow (currentField ++ field)
        false.
Proof.
  unfold noCR.
  induction field as [|c field IH]; intros currentField Hcr Hcomma Hq Hlf.
  - cbn [String.append]. rewrite append_nil_r. reflexivity.
  - cbn [Text.includesChar] in *.
    apply orb_false_elim in Hcr, Hcomma, Hq, Hlf.
    destruct Hcr as [Hc Hcr], Hcomma as [Hc1 Hcomma], Hq as [Hc2 Hq],
      Hlf as [Hc3 Hlf].
    cbn [String.append].
    rewrite step_plain; [|exact Hc2|exact Hc|intros _; split; assumption].
    rewrite (IH _ Hcr Hcomma Hq Hlf), push_append. reflexivity.
Qed.

(** A field as [escapeCSVField] writes it is read back as it was. *)
Lemma reads_field field rest rows currentRow :
  noCR field -> notQuoteFirst rest ->
  multiLineLoop finish (Merger.escapeCSVField field ++ rest) rows currentRow
    EmptyString false
  = multiLineLoop finish rest rows currentRow field false.
Proof.
  intros Hcr Hrest. unfold Merger.escapeCSVField.
  destruct (Text.includesChar Text.comma field
            || Text.includesChar Text.dquote field
            || Text.includesChar Text.LF field) eqn:E.
  - unfold quoted. cbn [String.append]. rewrite append_assoc.
    cbn [String.append]. rewrite step_open.
    rewrite (reads_quoted _ _ _ Hrest _ _ Hcr). reflexivity.
  - apply orb_false_elim in E. destruct E as [E Hlf].
    apply orb_false_elim in E. destruct E as [Hcomma Hq].
    rewrite (reads_bare _ _ _ _ _ Hcr Hcomma Hq Hlf). reflexivity.
Qed.

(** The line of a row, up to the end of the text or the line feed. *)
Lemma reads_line rest rows :
  notQuoteFirst rest ->
  forall row currentRow,
    Forall noCR row ->
    multiLineLoop finish (Merger.lineOf row ++ rest) rows currentRow
      EmptyString false
    = multiLineLoop finish rest rows
        (currentRow ++ map finish (removelast row)) (last row EmptyString)
        false.
Proof.
  intros Hrest. unfold Merger.lineOf.
  induction row as [|field row IH]; intros currentRow Hcr.
  - cbn [map Merger.join String.append removelast last].
    rewrite app_nil_r. reflexivity.
  - inversion Hcr as [|? ? Hfield Hrow]; subst.
    destruct row as [|next row].
    + cbn [map Merger.join removelast last]. rewrite app_nil_r.
      apply reads_field; assumption.
    + cbn [map Merger.join]. rewrite append_assoc. cbn [String.append].
      rewrite reads_field; [|exact Hfield|reflexivity].
      rewrite step_comma.
      change (Merger.join Text.comma
                (Merger.escapeCSVField next :: map Merger.escapeCSVField row))
        with (Merger.join Text.comma
                (map Merger.escapeCSVField (next :: row))).
      rewrite (IH _ Hrow).
      change (removelast (field :: next :: row))
        with (field :: removelast (next :: row)).
      change (last (field :: next :: row) EmptyString)
        with (last (next :: row) EmptyString).
      cbn [map]. rewrite <- app_assoc. reflexivity.
Qed.

Lemma finished_row row :
  row <> [] ->
  map finish (removelast row) ++ [finish (last row EmptyString)]
  = map finish row.
Proof.
  intros H. rewrite (app_removelast_last EmptyString H) at 3.
  rewrite map_app. reflexivity.
Qed.

(** What a line feed after the line of [row] pushes. *)
Lemma pushes_row rows row :
  pushRow rows
    (map finish (removelast row) ++ [finish (last row EmptyString)])
  = rows ++ filter someNonEmpty [map finish row].
Proof.
  destruct row as [|field row].
  - cbn [removelast last map app filter]. rewrite finish_empty.
    unfold pushRow. cbn. rewrite app_nil_r. reflexivity.
  - rewrite finished_row by discriminate.
    rewrite (pushRow_filter rows (map finish (field :: row)) []).
    cbn [filter]. rewrite app_nil_r. reflexivity.
Qed.

(** The lines of a file, from the start of a line on. *)
Lemma reads_lines :
  forall others first rows,
    Forall (Forall noCR) (first :: others) ->
    multiLineLoop finish
      (Merger.join Text.LF (Merger.lineOf first :: map Merger.lineOf others))
      rows [] EmptyString false
    = rows ++ filter someNonEmpty (map (map finish) (first :: others)).
Proof.
  induction others as [|second others IH]; intros first rows Hcr;
    inversion Hcr as [|? ? Hfirst Hothers]; subst.
  - cbn [map Merger.join].
    rewrite <- (append_nil_r (Merger.lineOf first)).
    rewrite (reads_line EmptyString rows I first [] Hfirst).
    rewrite multiLineLoop_end. cbn [app].
    destruct first as [|field first].
    + cbn [removelast last map Text.truthy]. cbn. rewrite app_nil_r.
      reflexivity.
    + destruct first as [|next first].
      * cbn [removelast last map len List.length app].
        change (0 <? Z.of_nat 0)%Z with false. rewrite orb_false_r.
        destruct (Text.truthy field) eqn:T.
        -- rewrite (pushRow_filter rows [finish field] []).
           cbn [filter]. rewrite app_nil_r. reflexivity.
        -- apply negb_false_iff, String.eqb_eq in T. subst field.
           rewrite finish_empty. cbn. rewrite app_nil_r. reflexivity.
      * assert (L : (0 <? len (map finish (removelast (field :: next :: first))))%Z
                    = true).
        { apply Z.ltb_lt. unfold len.
          change (removelast (field :: next :: first))
            with (field :: removelast (next :: first)).
          cbn [map List.length]. lia. }
        rewrite L, orb_true_r. apply pushes_row.
  - cbn [map Merger.join]. 
    rewrite (reads_line _ rows (eq_refl : notQuoteFirst (String Text.LF _))
               first [] Hfirst).
    cbn [app]. rewrite step_LF. cbn [app].
    change (Merger.join Text.LF
              (Merger.lineOf second :: map Merger.lineOf others))
      with (Merger.join Text.LF
              (Merger.lineOf second :: map Merger.lineOf others)).
    rewrite (IH second _ Hothers), pushes_row.
    cbn [map filter].
    destruct (someNonEmpty (map finish first)); cbn [app];
      rewrite <- ?app_assoc; reflexivity.
Qed.

End ReadBack.

Lemma map_map_same (rows : list (list string)) :
  map (map (fun field : string => field)) rows = rows.
Proof.
  induction rows as [|row rows IH]; cbn [map]; [reflexivity|].
  rewrite IH, map_id. reflexivity.
Qed.

(** X29 (read back).  A file written by [exportCSV] is read back by the
    tokenizer of [csvMerger.ts] as it was written, when no field holds a
    carriage return: the rows are the header row and the data rows, in
    their order and field by field, commas, double quotes and line
    feeds inside fields included, the rows without a non-empty field
    being left out.  The tokenizer of the parsers reads the same rows
    with every field trimmed, leaving out the rows whose fields are all
    blank. *)
Theorem exported_file_reads_back :
  forall (headers : list string) (rows : list (list string)),
    Forall (Forall noCR) (headers :: rows) ->
    Merger.parseMultiLineCSV (Merger.exportCSV headers rows)
    = filter someNonEmpty (headers :: rows)
    /\ parseMultiLineCSV (Merger.exportCSV headers rows)
       = filter someNonEmpty (map (map Text.trim) (headers :: rows)).
Proof.
  intros headers rows Hcr. split.
  - unfold Merger.parseMultiLineCSV, Merger.exportCSV.
    rewrite (reads_lines (fun field => field) eq_refl rows headers [] Hcr).
    rewrite map_map_same. reflexivity.
  - unfold parseMultiLineCSV, Merger.exportCSV.
    rewrite (reads_lines Text.trim eq_refl rows headers [] Hcr).
    reflexivity.
Qed.

Lemma exported_file_reads_back_witness :
  Forall (Forall noCR) (mergedHeaders :: mergedRows)
  /\ Merger.parseMultiLineCSV (Merger.exportCSV mergedHeaders mergedRows)
     = filter someNonEmpty (mergedHeaders :: mergedRows)
  /\ parseMultiLineCSV (Merger.exportCSV mergedHeaders mergedRows)
     = filter someNonEmpty (map (map Text.trim) (mergedHeaders :: mergedRows)).
Proof.
  assert (H : Forall (Forall noCR) (mergedHeaders :: mergedRows))
    by (repeat constructor).
  split; [exact H|].
  exact (exported_file_reads_back mergedHeaders mergedRows H).
Defined.

(* ================================================================== *)
(** * Merging files *)
(* ================================================================== *)

Lemma has_app set key k :
  Merger.has (set ++ [key]) k = Merger.has set k || String.eqb key k.
Proof.
  unfold Merger.has. rewrite existsb_app. cbn [existsb].
  rewrite orb_false_r. reflexivity.
Qed.

Lemma inStep_row file i row found merged done :
  inStep found merged done ->
  inStep (Merger.duplicateStep file i row found)
    (Merger.mergeStep [] file merged row) (done ++ [row]).
Proof.
  destruct found as [duplicates seen], merged as [seenKeys rows].
  unfold inStep. cbn [fst snd]. intros [Hkeys [Hcount [Hnone Hkey]]].
  unfold Merger.duplicateStep, Merger.mergeStep.
  set (key := Merger.createDuplicateKey row (Merger.UploadedFile.headers file)).
  change (Merger.has [] key) with false. rewrite andb_false_r.
  rewrite length_app. cbn [List.length].
  destruct (Text.truthy key) eqn:T; cbn [negb andb].
  - rewrite (Hkeys key). destruct (dget seen key) as [existing|] eqn:G;
      cbn [fst snd].
    + split; [exact Hkeys|]. rewrite length_app. cbn [List.length].
      split; [lia|]. split.
      * intros E. destruct duplicates; discriminate E.
      * apply Forall_app. split; [exact Hkey|]. constructor; [|constructor].
        cbn [Merger.DuplicateInfo.key]. apply truthy_true. exact T.
    + split.
      * intros k. rewrite has_app, dget_dset, (Hkeys k).
        destruct (String.eqb key k) eqn:E.
        -- rewrite orb_true_r. reflexivity.
        -- rewrite orb_false_r. reflexivity.
      * rewrite length_app. cbn [List.length].
        split; [lia|]. split; [|exact Hkey].
        intros E. rewrite (Hnone E). reflexivity.
  - cbn [fst snd]. split; [exact Hkeys|]. rewrite length_app.
    cbn [List.length]. split; [lia|]. split; [|exact Hkey].
    intros E. rewrite (Hnone E). reflexivity.
Qed.

Lemma inStep_rows file :
  forall rows i found merged done,
    inStep found merged done ->
    inStep (forRows (Merger.duplicateStep file) i rows found)
      (fold_left (Merger.mergeStep [] file) rows merged) (done ++ rows).
Proof.
  induction rows as [|row rows IH]; intros i found merged done H;
    cbn [forRows fold_left].
  - rewrite app_nil_r. exact H.
  - replace (done ++ row :: rows) with ((done ++ [row]) ++ rows)
      by (rewrite <- app_assoc; reflexivity).
    apply IH, inStep_row, H.
Qed.

Lemma inStep_files :
  forall files found merged done,
    inStep found merged done ->
    inStep
      (fold_left
         (fun st file =>
            forRows (Merger.duplicateStep file) 0
              (Merger.UploadedFile.rows file) st)
         files found)
      (fold_left
         (fun st file =>
            fold_left (Merger.mergeStep [] file)
              (Merger.UploadedFile.rows file) st)
         files merged)
      (done ++ allRows files).
Proof.
  induction files as [|file files IH]; intros found merged done H;
    cbn [fold_left].
  - unfold allRows. cbn [map List.concat]. rewrite app_nil_r. exact H.
  - unfold allRows. cbn [map List.concat]. rewrite app_assoc.
    apply IH, inStep_rows, H.
Qed.

Lemma mergeStep_from excludeKeys file all merged row :
  In row all ->
  Forall (fun r => In r all) (snd merged) ->
  Forall (fun r => In r all)
    (snd (Merger.mergeStep excludeKeys file merged row)).
Proof.
  intros Hin H. destruct merged as [seenKeys rows].
  unfold Merger.mergeStep.
  destruct (Text.truthy _ && Merger.has excludeKeys _); [exact H|].
  destruct (Text.truthy _ && Merger.has seenKeys _); [exact H|].
  cbn [snd] in *. apply Forall_app. split; [exact H|].
  constructor; [exact Hin | constructor].
Qed.

Lemma mergeRows_from excludeKeys file all :
  forall rows merged,
    incl rows all ->
    Forall (fun r => In r all) (snd merged) ->
    Forall (fun r => In r all)
      (snd (fold_left (Merger.mergeStep excludeKeys file) rows merged)).
Proof.
  induction rows as [|row rows IH]; intros merged Hincl H; cbn [fold_left];
    [exact H|].
  apply IH; [intros r Hr; apply Hincl; right; exact Hr|].
  apply mergeStep_from; [apply Hincl; left; reflexivity | exact H].
Qed.

Lemma mergeFiles_from excludeKeys all :
  forall files merged,
    incl (allRows files) all ->
    Forall (fun r => In r all) (snd merged) ->
    Forall (fun r => In r all)
      (snd (fold_left
              (fun st file =>
                 fold_left (Merger.mergeStep excludeKeys file)
                   (Merger.UploadedFile.rows file) st)
              files merged)).
Proof.
  induction files as [|file files IH]; intros merged Hincl H;
    cbn [fold_left]; [exact H|].
  unfold allRows in Hincl. cbn [map List.concat] in Hincl.
  apply IH.
  - intros r Hr. apply Hincl, in_or_app. right. exact Hr.
  - apply mergeRows_from; [|exact H].
    intros r Hr. apply Hincl, in_or_app. left. exact Hr.
Qed.

(** X30 (merge).  Without excluded keys [mergeCSVs] drops exactly the
    rows [findDuplicates] reports: the merged rows and the reported
    duplicates together are as many as the rows of the files.  When
    nothing is reported the merged rows are all the rows of the files,
    in the order of the files.  A reported duplicate never has the empty
    key.  Whatever the excluded keys, every merged row is a row of one
    of the files, the headers are those of the first file, and merging
    no file gives no header and no row. *)
Theorem merge_drops_the_duplicates :
  forall files : list Merger.UploadedFile.t,
    (List.length (Merger.MergedCSV.rows (Merger.mergeCSVs files []))
     + List.length (Merger.findDuplicates files)
     = List.length (allRows files))%nat
    /\ (Merger.findDuplicates files = [] ->
        Merger.MergedCSV.rows (Merger.mergeCSVs files []) = allRows files)
    /\ Forall (fun d => Merger.DuplicateInfo.key d <> EmptyString)
         (Merger.findDuplicates files)
    /\ (forall excludeKeys,
          incl (Merger.MergedCSV.rows (Merger.mergeCSVs files excludeKeys))
            (allRows files)
          /\ Merger.MergedCSV.headers (Merger.mergeCSVs files excludeKeys)
             = match files with
               | first :: _ => Merger.UploadedFile.headers first
               | [] => []
               end).
Proof.
  intros files. destruct files as [|first files].
  - cbn. repeat split; try constructor. intros r H. exact H.
  - assert (Hstart : inStep ([], []) ([], []) []).
    { unfold inStep. cbn [fst snd List.length].
      repeat split; try constructor. }
    pose proof (inStep_files (first :: files) _ _ _ Hstart)
      as [_ [Hcount [Hnone Hkey]]].
    cbn [app] in Hcount, Hnone.
    assert (E : Merger.findDuplicates (first :: files)
                = fst (fold_left
                         (fun st file =>
                            forRows (Merger.duplicateStep file) 0
                              (Merger.UploadedFile.rows file) st)
                         (first :: files) ([], []))) by reflexivity.
    rewrite E. unfold Merger.mergeCSVs. cbn [Merger.MergedCSV.rows
      Merger.MergedCSV.headers].
    split; [exact Hcount|]. split; [exact Hnone|]. split; [exact Hkey|].
    intros excludeKeys. split; [|reflexivity].
    intros r Hr.
    pose proof (mergeFiles_from excludeKeys (allRows (first :: files))
                  (first :: files) ([], []) (fun x Hx => Hx)
                  (Forall_nil _)) as F.
    rewrite Forall_forall in F. exact (F r Hr).
Qed.

Lemma merge_drops_the_duplicates_witness :
  Merger.findDuplicates (firstn 1 uploadedFiles) = []
  /\ Merger.MergedCSV.rows (Merger.mergeCSVs (firstn 1 uploadedFiles) [])
     = allRows (firstn 1 uploadedFiles).
Proof.
  assert (H : Merger.findDuplicates (firstn 1 uploadedFiles) = [])
    by (vm_compute; reflexivity).
  split; [exact H|].
  exact (proj1 (proj2 (merge_drops_the_duplicates (firstn 1 uploadedFiles)))
           H).
Defined.
